(* ===== verification/_CoqProject ===== *)
-Q . S2P
Prelude.v
GoStrings.v
GoNet.v
GoPath.v
Policy.v
PolicySpec.v
Sample.v
PolicyTheorems.v
Sys.v
Sockaddr.v
Kernel.v
FDRegistry.v
ProcMem.v
Supervisor.v
SupervisorProofs.v
Egress.v
SampleKernel.v
SupervisorTheorems.v
Turns.v
Access.v
AccessProofs.v
Manager.v
SampleNet.v
ManagerTheorems.v
Docker.v
DockerTheorems.v
TransparentNet.v
TransparentTheorems.v
Messages.v
Bridge.v
BridgeProofs.v
BridgeTheorems.v
MitmCA.v
SampleCerts.v
HostClient.v
RunTheorems.v
StringLemmas.v
Ingress.v
IngressTheorems.v
Relays.v
Exec.v
ExecTheorems.v
System.v
Composed.v
SystemTheorems.v
Seccomp.v
SeccompTheorems.v
PathLemmas.v
HostFS.v
Staging.v
StagingTheorems.v
Mounts.v
Assembly.v
SandboxLife.v
MountTheorems.v
SandboxTheorems.v
Darwin.v
DarwinTheorems.v
Config.v
RunConfig.v
ConfigTheorems.v
RunConfigTheorems.v
RuntimeBinary.v
GoFlag.v
Launcher.v
NotifyFilter.v
NotifyTheorems.v
LauncherTheorems.v
Summary.v
DockerBuild.v
DockerBuildTheorems.v
DNSUpstream.v
SeccompStub.v
SyscallRequests.v
HelperModes.v
Pumps.v
CLIRun.v
HostSupport.v
Streams.v
RootCA.v
