(* ===== verification/Prelude.v ===== *)
(** * bbox: a verification library

    bbox runs a command in a sandbox and mediates everything that leaves it. On
    the host a proxy manager keeps, per sandbox, a network policy and an audit
    log, and answers the requests the sandbox's helper sends: HTTP requests,
    intercepted TLS requests, CONNECT tunnels and DNS queries. A proxy in front
    of the Docker socket admits a few operations. Inside a transparent sandbox a
    seccomp-notify supervisor handles the socket calls of the payload: TCP
    connections are redirected to the ingress of the helper and DNS datagrams are
    answered by a callback that ends in the manager. The helper's listeners turn
    what they accept into requests to the manager, over one control channel that
    also carries tunnels and the commands the host runs in the sandbox.

    ** What models what

    - [Prelude]: results with errors, booleans and lists, the hint database
      [bbox] and the case-analysis tactics of the development.
    - [GoStrings], [GoNet], [GoPath]: the parts of Go's [strings], [strconv], [net],
      [textproto] and [path] the program uses, on byte strings ([StringLemmas] has
      lemmas on cutting and searching them). The class [GoLib] holds what
      is left open: the regular expression engine and the Unicode tables.
    - [Policy]: src/policy.go and src/policy_eval.go. A [PolicyRule] is compiled by
      [compilePolicyRule]; [evaluateRequest], [evaluateConnect], [evaluateDNS] are
      the loops of the same names, [evaluateConnect] with its transparent flag.
      [PolicySpec] is the abstract meaning of a written policy ([admits_request]
      and so on) and the refinement; [PolicyTheorems] the claims.
    - [Sys], [Sockaddr], [Kernel], [FDRegistry], [ProcMem], [Supervisor]: the
      files of src/internal/helperruntime/seccompnotify. The class [Kernel] is the
      operating system and the DNS callback; [world] is the supervisor's state
      (registry, descriptor allocator, the heap behind the slices of pending
      responses, the kernel); a handler is a program of the monad [M], which
      returns, fails with an error or panics. [processNotification] is the
      dispatch over all handled system calls. [SupervisorProofs] has the frame
      rules and the invariant, [Egress] a logic for what reaches the kernel,
      [SupervisorTheorems] the claims.
    - [Turns]: the per-process queue of notifications in lifecycle_linux.go and
      the goroutines of [serveNotifications], as a step relation.
    - [Access]: src/accesslog.go and src/accesssummary.go, the audit tables;
      [AccessProofs] shows that each is a grouping of the recorded events.
    - [Manager]: src/manager.go, src/proxy_registry.go, src/manager_audit.go and
      the proxy, CONNECT and DNS services. The class [Net] is the network, the
      clock, URL syntax and the DNS message library; the state [host] is the
      manager and the network. [ManagerTheorems] has the claims.
    - [Docker]: src/docker_socket.go and its mapping, policy, build and proxy files;
      the class [DockerEnv] is tar, JSON, query syntax and the daemon.
      [DockerTheorems] has the claims.
    - [TransparentNet]: dns_cache.go and transparent_net.go of
      src/internal/helperruntime, the cache of resolved addresses and the table of
      redirected connections; [TransparentTheorems] has the claims.
    - [Messages]: src/internal/helperproto/messages.go. An [Envelope] has the fields
      of the struct; [envelope] builds one from a [message].
    - [Bridge]: src/internal/helperruntime/bridge/bridge.go, the helper's end of the
      control channel. A call is a record that goes through the steps of the six
      round-trip functions, which share their shape: [begin_call], [send_call],
      [end_call]. [bridge_step] interleaves them with [ReadLoop_round] on any
      envelope. [BridgeProofs] has the invariant, [BridgeTheorems] the claims;
      [Relays] the two relay loops of a tunnel.
    - [MitmCA]: src/mitm.go, leaf certificates; [CertLib] is the crypto library.
    - [HostClient]: src/internal/helperclient, the host's end: the read loop, the
      goroutines of requests ([task]), tunnels and run sessions; [client_step]
      interleaves them. [RunTheorems] has the claim about the output of [Run].
    - [Ingress]: src/internal/helperruntime/ingress, the listeners, against the class
      [IngressBridge], which is the interface the code has there.
      [IngressTheorems] has the claims.
    - [Exec]: exec_manager.go and exec/session.go, the run of a command with its
      process, pipes of bounded capacity (or terminal) and goroutines as [exec_step], in
      which reading and sending of output are separate steps; [ExecTheorems] has the claims.
    - [System]: both ends connected, each reading what the other wrote; [Composed]
      states what an implementation of [IngressBridge] promises ([Bridged]) and
      shows that the bridge's calls keep it; [SystemTheorems] has the end-to-end
      claims.
    - [Seccomp]: src/seccomp.go, the payload's filter; the class [Libseccomp] is the
      C library and [LibseccompLaws] what a loaded filter does with calls of the native
      interface. [SeccompTheorems] has the claims.
    - [HostFS]: the host's file system as the code sees it: a class of queries, the
      list of changes attempted so far and the monad [FM] of code that makes them.
      [PathLemmas]: clean paths as lists of elements.
    - [Staging]: src/internal/sandboxroot and src/staging.go, the files of the
      sandbox root; [StagingTheorems] has the claims.
    - [Mounts]: src/mounts.go, src/mounts_linux.go, src/rootless_linux.go, which
      mounts are accepted and the bubblewrap command line. [MountTheorems] reads
      that command line back as a sequence of mounts and has the claims.
    - [Assembly]: the options and environment functions of src/sandbox.go, and
      src/api.go; [SandboxLife]: creation and closing of a sandbox and of the
      manager (src/sandbox.go, src/sandbox_linux.go), as functions of the outcomes
      of the system's calls to results and sequences of acquired and released
      resources, those of a closing that fails included. [SandboxTheorems] has the claims.
    - [Config], [RunConfig]: src/cmd/bbox, from the flags, the file and the
      environment to the options of a run; the class [HostLinks] adds symbolic
      links to [HostFS]. [ConfigTheorems] has the claims about layers, the search
      for a file and mount specifications, [RunConfigTheorems] those about the run.
    - [DockerBuild]: src/internal/dockerbuild, the docker build shim; the class
      [BuildTools] is the parsers and encoders it calls. [DockerBuildTheorems] has
      the claims.
    - [Darwin]: src/sandbox_darwin_profile.go, sandbox_darwin_env.go and
      sandbox_darwin_runtime.go, the macOS backend; [DarwinTheorems] reads a
      profile as S-expressions and has the claim about what it grants. [RuntimeBinary]: src/runtime_binary.go.
    - [GoFlag]: Go's package [flag]. [Launcher]: the start of a command in the helper
      (lifecycle_linux.go, [runSupervisedExec], the descriptors of session.go,
      payload_seccomp_exec_linux.go), the
      entry points of the bbox binary, the embedded image and the launcher in C
      (cmd/bbox-seccomp-launcher/main.c), as functions of the outcomes of the
      system's calls to results and sequences of opened and closed descriptors.
      [NotifyFilter]: the BPF program of that launcher and the machine that runs it.
      [LauncherTheorems] and [NotifyTheorems] have the claims.
    - [Summary]: src/cmd/bbox/summary.go and the end of [runSandbox], the report.
      [CLIRun]: [runSandbox] as a whole and [main] (command_exec.go, main.go).
    - [HelperModes]: the helper process: helperentrypoint, [helperruntime.Run], the
      two traffic modes with their listeners, and the [bridge] of exec_manager.go and
      transparent_net.go that holds the states of [Bridge], [Exec] and
      [TransparentNet].
    - [SyscallRequests]: the rest of supervisor_linux.go, decoded requests and the
      loops in which a redirected connect waits; launcherentrypoint and addfd_linux.go,
      down to the bytes the kernel reads.
    - [DNSUpstream]: the servers and exchanges of src/manager_dns_service.go.
      [SeccompStub]: src/seccomp_stub.go, the filter options on other systems.
      [RootCA]: the authority of src/mitm.go.
    - [Pumps]: the way of input and terminal sizes from the command line to the
      command (command_exec.go, src/helper_client.go, run_session.go, and
      sandbox_darwin_runtime.go). [Streams]: the connections that the ingress hands
      to its servers. [HostSupport]: socket directories, removal of the root, the bridge
      pair, the helper's log and the default access logger.
    - [Sample], [SampleKernel], [SampleNet], [SampleCerts]: concrete instances of the
      classes, used by the witnesses only.

    ** What the theorems show

    - Policies mean what they say: each evaluation loop allows exactly what some
      written rule admits ([evaluateRequest_refines] and its siblings), a longer
      policy never forbids more ([policy_monotone]), port specifications are
      bounded and printable; the Docker policy is its first matching rule
      ([docker_policy_refines]).
    - Enforcement: in enforce mode proxied, intercepted and tunnel requests and DNS
      queries for a name reach the network only if the written policy admits them; in
      audit mode they reach it as well and the log tells. The Docker daemon sees only
      what the Docker policy allows, less the headers of a single hop.
    - Confinement: whatever the payload does, the supervisor connects to the
      ingress only and sends DNS only ([egress_confined]); its registry and queues
      keep their invariant ([reachable_invariant]); system calls on DNS sockets
      queue and deliver responses in order.
    - Concurrency: notifications of a process are handled in order and one at a
      time under every interleaving and never deadlock ([turns_fifo_exclusive],
      [turns_drain]).
    - The control channel: responses reach the call they answer and no other
      ([bridge_calls_correlated], [helper_calls_authentic]), tunnels have one owner
      ([bridge_tunnels_sound]), and the output of a command is relayed in order
      ([exec_output_in_order], [run_output_exact]), all of it unless the command
      exits first ([exec_output_can_be_lost]).
    - End to end: in enforce mode what the helper's listeners serve, relay or intercept
      is what the policy admits, over the channel and under every interleaving
      ([transparent_connection_admitted], [proxy_connect_admitted],
      [intercepted_request_pinned]).
    - The sandbox: the filter answers what its profile and rules cover with the written
      action of a covering rule ([seccomp_denies_covered]); building the root touches nothing else on the host
      ([stage_confined]); accepted mounts are disjoint and end up visible as asked
      ([mounts_accepted_exactly], [mounts_stay_visible]); the environment that a
      sandbox gives its commands points at the proxy ([run_env_mediated]); whatever
      fails, resources are given back, but for those listed whose release fails
      ([sandbox_resources_balanced]). On macOS the profile grants what was configured and
      nothing else, whatever the paths contain ([seatbelt_profile_exact]); the
      helper binary is resolved once ([runtime_binary_once]).
    - The start of a command: through both launchers it runs with exactly its
      arguments and environment behind the filters ([launch_chain_exact]); the
      notification filter hands over what the supervisor handles
      ([notify_filter_exact]); the descriptors it needs are
      accounted for, with those that some failures leave open
      ([supervised_exec_balanced]); the helper reads the configuration that the host
      wrote ([helper_flags_read]).
    - The helper process: started for a transparent sandbox it runs every command
      under a supervisor whose connections end in listeners of that very helper
      ([transparent_helper_confined], which makes [egress_confined] a statement about
      the running system); it closes what it opened ([run_listeners]); a redirected
      connect waits for the kernel's word and no longer than its deadline
      ([connect_wait_exact]); connections are served from their first byte
      ([preloaded_stream_exact]).
    - The command line: the layers of the configuration have their documented
      precedence ([config_precedence]); the mounts it adds by itself are apart from all
      others ([run_mounts_harmless]) and what it builds is accepted
      ([run_options_accepted]); the searches and walks end
      ([config_found_nearest], [run_config_total]).
    - Docker builds: rewriting only inserts lines ([rewrite_only_inserts]), staged
      files are confined and removed ([build_inputs_removed]), proxy settings keep to
      their options ([proxy_options_intact]).
    - Runs: the command line ends in order whatever fails ([cli_run_orderly]); of the
      input that is forwarded at all, what the helper receives once the command is
      current reaches it byte for byte ([cli_input_forwarded]).
    - Smaller contracts: DNS messages over TCP are framed exactly ([dns_tcp_framing]);
      other systems accept the same seccomp options ([seccomp_stub_agrees]); socket
      directories have safe names and short paths ([docker_dir_name_safe]); which staged roots can be
      removed ([staged_root_removed]).
    - Accounting: reports count exactly the recorded events, and are deterministic;
      the printed report does not depend on the order of concurrent connections
      ([violation_texts_perm]).
    - Defects: several theorems state how the code differs from its intention
      (panics on oversized counts, responses lost by a partial sendmmsg, an entry
      dropped by a relative's close, output lost when a command exits, input dropped
      before it starts, pipe ends left by a failed start, connections left open by authorizations, seccomp rules that
      compare more bits than the kernel uses, a command line that no macOS host
      accepts ([darwin_run_rejected]), registry entries that outlive a low descriptor
      ([low_duplicate_outlives_close]), forged lines in the report
      ([report_line_forged]), piped input that is not read on Linux
      ([cli_input_forwarded]), a lost window size ([resize_last_lost]), and others).

    ** Bounds and fuel

    Machine integers are Z with Go's wrap-around written out in [Sys]; reads and
    allocations keep Go's limits. Fuel bounds a few loops. [install_loop] is the
    retry loop of [injectSocket]: [injectSocket_terminates] shows that N rounds
    are enough when the kernel does not report descriptors above N as busy, and
    the safety theorems hold for every fuel. [write_loop] is given as many rounds
    as there are bytes ([writeAll_total]). [filesForCommandRecursive] has fuel for the
    chain of interpreters, which grows the set of files seen
    ([files_for_terminates]); [find_config_go] has one step per element of the path
    ([config_found_nearest]); [symlink_chain] one per symbolic link of the host
    ([run_config_total]); [parse_certificates] one per byte
    ([parse_certificates_fuel]); [ancestor_dirs] and [package_root_go] one per element
    of the path ([ancestor_dirs_enough], [findPackageRoot_nearest]);
    [writeExecMemfd] one per byte ([writeExecMemfd_all]); [bpf_run] one per
    instruction ([notify_filter_exact]: it always decides); [server_Serve] two for a
    listener of one connection ([single_conn_served]). The loops [connect_loop],
    [sockname_loop] and [wait_loop] run over the answers of the kernel and the clock
    and return once the clock has passed their deadline. All other recursion is
    structural. The numbers of messages are 64-bit counters; the theorems about calls assume fewer
    than 2^64 of them.

    ** What is not modelled

    How Seatbelt reads the escapes in a string literal and matches a path; what
    processes, mounts and listening sockets do once started, the TLS and HTTP
    libraries, the gob encoding of envelopes, the generated launcher image, the
    parsing of the user's flags and of YAML; the copying of the output of a macOS
    run; the signals that cancel a run of the command line; the arm64 variant of the
    notification filter; [BuildFilter], which no code but tests calls; the
    demonstration program; nil receivers and logging hooks; deadlines, except as an
    outcome and in the loops above, which the handlers see as fields of [Kernel]. The
    adapter methods of helper_client.go and exec_manager.go only delegate and have no
    definitions of their own, and the copies made of slices and maps are the values
    themselves, since nothing writes to them afterwards. The mutexes of the registry,
    the audit log and the manager make their operations atomic, and each is one step
    here. A handler of the supervisor or the manager is one step as well: handlers of
    one process never overlap ([turns_fifo_exclusive]), those of different processes
    may in the code, and their interleavings inside a handler are not modelled. *)
From stdpp Require Export base tactics list gmap strings sorting.
From Stdlib Require Export ZArith Lia.
From Stdlib Require Strings.Ascii.
Export (notations) Stdlib.Strings.Ascii.

Open Scope Z_scope.

(** * Fallible Go code

    A Go function that returns [(T, error)] is modelled as a [result T]; the
    error is its text, which is what the program compares, logs and sends. *)

Inductive result (A : Type) : Type :=
| Ok (a : A)
| Err (e : string).
Arguments Ok {A} a.
Arguments Err {A} e.

#[global] Instance result_eq_dec {A} `{EqDecision A} : EqDecision (result A).
Proof. solve_decision. Defined.

Definition result_bind {A B} (m : result A) (f : A -> result B) : result B :=
  match m with
  | Ok a => f a
  | Err e => Err e
  end.

(** [fmt.Errorf] with a prefix: the error of [m], if any, rewritten by [f]. *)
Definition result_wrap {A} (f : string -> string) (m : result A) : result A :=
  match m with
  | Ok a => Ok a
  | Err e => Err (f e)
  end.

Definition is_ok {A} (m : result A) : bool :=
  match m with Ok _ => true | Err _ => false end.

Declare Scope go_scope.
Delimit Scope go_scope with go.
Notation "x <-! c ; k" := (result_bind c (fun x => k))
  (at level 100, c at next level, k at level 200, right associativity,
   format "'[v' x  <-!  c ; '/' k ']'") : go_scope.
Notation "'let!' ' pat := c 'in' k" := (result_bind c (fun pat => k))
  (at level 200, pat strict pattern, c at level 200, k at level 200,
   format "'[v' let!  ' pat  :=  c  in '/' k ']'") : go_scope.
Notation "'guard!' b 'else' e ; k" := (if b then k else Err e)
  (at level 100, b at next level, e at next level, k at level 200,
   right associativity, format "'[v' guard!  b  else  e ; '/' k ']'") : go_scope.
Open Scope go_scope.

(** A Go loop that appends the results of a fallible body and stops at the
    first error. *)
Fixpoint result_map {A B} (f : A -> result B) (l : list A) : result (list B) :=
  match l with
  | [] => Ok []
  | x :: l =>
      y <-! f x;
      ys <-! result_map f l;
      Ok (y :: ys)
  end.

Lemma result_bind_ok {A B} (m : result A) (f : A -> result B) b :
  result_bind m f = Ok b <-> exists a, m = Ok a /\ f a = Ok b.
Proof. destruct m; simpl; naive_solver. Qed.

Lemma result_bind_err {A B} (m : result A) (f : A -> result B) e :
  result_bind m f = Err e <-> m = Err e \/ exists a, m = Ok a /\ f a = Err e.
Proof. destruct m; simpl; naive_solver. Qed.

Lemma result_wrap_ok {A} f (m : result A) a : result_wrap f m = Ok a <-> m = Ok a.
Proof. destruct m; simpl; naive_solver. Qed.

Lemma result_wrap_err {A} f (m : result A) e :
  result_wrap f m = Err e <-> exists e', m = Err e' /\ e = f e'.
Proof. destruct m; simpl; naive_solver. Qed.

Lemma is_ok_true {A} (m : result A) : is_ok m = true <-> exists a, m = Ok a.
Proof. destruct m; naive_solver. Qed.

Lemma result_map_ok {A B} (f : A -> result B) l ys :
  result_map f l = Ok ys <-> Forall2 (fun x y => f x = Ok y) l ys.
Proof.
  revert ys; induction l as [|x l IH]; intros ys; simpl.
  - split; [by intros [= <-]|by inversion 1].
  - rewrite result_bind_ok. setoid_rewrite result_bind_ok. setoid_rewrite IH.
    split; [naive_solver|inversion 1; naive_solver].
Qed.

Lemma result_map_length {A B} (f : A -> result B) l ys :
  result_map f l = Ok ys -> length ys = length l.
Proof. rewrite result_map_ok. intros H. symmetry. by eapply Forall2_length. Qed.

Lemma result_map_err {A B} (f : A -> result B) l :
  (exists e, result_map f l = Err e) <-> Exists (fun x => exists e, f x = Err e) l.
Proof.
  induction l as [|x l IH]; simpl.
  - rewrite Exists_nil. naive_solver.
  - rewrite Exists_cons, <- IH. destruct (f x), (result_map f l); simpl; naive_solver.
Qed.

Create HintDb bbox.
#[export] Hint Rewrite @result_bind_ok @result_bind_err @result_wrap_ok @result_wrap_err : bbox.
#[export] Hint Rewrite andb_true_iff orb_true_iff negb_true_iff andb_false_iff
  orb_false_iff negb_false_iff bool_decide_eq_true bool_decide_eq_false
  Z.leb_le Z.ltb_lt Z.eqb_eq Z.leb_gt Z.ltb_ge Z.eqb_neq : bbox_bool.

(** * Tactics *)

(** Turn the boolean guards of the code into the propositions they decide. *)
Ltac to_prop := autorewrite with bbox_bool in *.

(** Case analysis on the scrutinee of a match, innermost first. *)
Ltac split_match :=
  match goal with
  | |- context [match ?x with _ => _ end] =>
      lazymatch x with
      | context [match _ with _ => _ end] => fail
      | _ => destruct x eqn:?
      end
  end.
Ltac split_match_in H :=
  match type of H with
  | context [match ?x with _ => _ end] =>
      lazymatch x with
      | context [match _ with _ => _ end] => fail
      | _ => destruct x eqn:?
      end
  end.
Ltac split_all := repeat (split_match; simplify_eq/=).
Ltac split_all_in H := repeat (split_match_in H; simplify_eq/=).
