(* ===== verification/GoStrings.v ===== *)
(** The Go string library, as far as bbox uses it: package [strings],
    [strconv.Itoa], [strconv.Atoi], [strconv.Quote] and
    [textproto.CanonicalMIMEHeaderKey].

    A Go string is a byte string, modelled by [string] (8-bit characters). The
    functions are complete on every byte string, with one exception: the case
    tables and the printability table of package [unicode] are fields of the
    class [GoLib] and are consulted for strings with a byte >= 0x80 only, where
    Go leaves its ASCII fast path as well. The regular expression engine of
    package [regexp] is a field of the same class: bbox only ever compiles a
    pattern the user wrote and asks whether it matches. *)
From S2P Require Import Prelude.

Class GoLib := {
  unicode_ToLower : string -> string;
  unicode_ToUpper : string -> string;
  unicode_Quote : string -> string;
  regexp : Type;
  regexp_Compile : string -> result regexp;
  regexp_MatchString : regexp -> string -> bool;
}.

Definition byte_of (c : Ascii.ascii) : Z := Z.of_N (Ascii.N_of_ascii c).
Definition char_of (n : Z) : Ascii.ascii := Ascii.ascii_of_N (Z.to_N n).
Definition str1 (n : Z) : string := String (char_of n) "".
Definition slen (s : string) : Z := Z.of_nat (String.length s).

Lemma byte_of_range c : 0 <= byte_of c < 256.
Proof. by destruct c as [[][][][][][][][]]. Qed.

Lemma char_of_byte c : char_of (byte_of c) = c.
Proof. by destruct c as [[][][][][][][][]]. Qed.

Lemma byte_of_inj c d : byte_of c = byte_of d -> c = d.
Proof. intros H. by rewrite <- (char_of_byte c), <- (char_of_byte d), H. Qed.

Lemma byte_of_char n : 0 <= n < 256 -> byte_of (char_of n) = n.
Proof.
  intros H. unfold byte_of, char_of.
  rewrite Ascii.N_ascii_embedding by lia. lia.
Qed.

(** ** Characters *)

Definition is_ascii (c : Ascii.ascii) : bool := byte_of c <? 128.
Definition is_digit (c : Ascii.ascii) : bool := (48 <=? byte_of c) && (byte_of c <=? 57).
Definition is_upper (c : Ascii.ascii) : bool := (65 <=? byte_of c) && (byte_of c <=? 90).
Definition is_lower (c : Ascii.ascii) : bool := (97 <=? byte_of c) && (byte_of c <=? 122).
Definition lower_char (c : Ascii.ascii) : Ascii.ascii :=
  if is_upper c then char_of (byte_of c + 32) else c.
Definition upper_char (c : Ascii.ascii) : Ascii.ascii :=
  if is_lower c then char_of (byte_of c - 32) else c.

Fixpoint string_all (p : Ascii.ascii -> bool) (s : string) : bool :=
  match s with
  | "" => true
  | String c s => p c && string_all p s
  end.
Fixpoint string_map (f : Ascii.ascii -> Ascii.ascii) (s : string) : string :=
  match s with
  | "" => ""
  | String c s => String (f c) (string_map f s)
  end.

(** ** Case: [strings.ToLower], [strings.ToUpper] *)

Definition ToLower `{GoLib} (s : string) : string :=
  if string_all is_ascii s then string_map lower_char s else unicode_ToLower s.
Definition ToUpper `{GoLib} (s : string) : string :=
  if string_all is_ascii s then string_map upper_char s else unicode_ToUpper s.

(** ** White space: [strings.TrimSpace]

    [unicode.IsSpace] holds of six ASCII characters and of the code points
    U+0085, U+00A0, U+1680, U+2000..U+200A, U+2028, U+2029, U+202F, U+205F and
    U+3000; the latter are recognised by their UTF-8 encodings. *)

Definition ascii_space (c : Ascii.ascii) : bool :=
  ((9 <=? byte_of c) && (byte_of c <=? 13)) || (byte_of c =? 32).
Definition utf8_space2 (a b : Ascii.ascii) : bool :=
  (byte_of a =? 0xC2) && ((byte_of b =? 0x85) || (byte_of b =? 0xA0)).
Definition utf8_space3 (a b c : Ascii.ascii) : bool :=
  let x := byte_of a in
  let y := byte_of b in
  let z := byte_of c in
  ((x =? 0xE1) && (y =? 0x9A) && (z =? 0x80)) ||
  ((x =? 0xE2) && (y =? 0x80) &&
     (((0x80 <=? z) && (z <=? 0x8A)) || (z =? 0xA8) || (z =? 0xA9) || (z =? 0xAF))) ||
  ((x =? 0xE2) && (y =? 0x81) && (z =? 0x9F)) ||
  ((x =? 0xE3) && (y =? 0x80) && (z =? 0x80)).

Section trim.
Context (sp2 : Ascii.ascii -> Ascii.ascii -> bool)
        (sp3 : Ascii.ascii -> Ascii.ascii -> Ascii.ascii -> bool).

Fixpoint trim_go (s : string) : string :=
  match s with
  | "" => ""
  | String a s1 =>
      if ascii_space a then trim_go s1 else
      match s1 with
      | "" => s
      | String b s2 =>
          if sp2 a b then trim_go s2 else
          match s2 with
          | "" => s
          | String c s3 => if sp3 a b c then trim_go s3 else s
          end
      end
  end.
End trim.

Definition TrimLeftSpace : string -> string := trim_go utf8_space2 utf8_space3.
Definition TrimRightSpace (s : string) : string :=
  String.rev (trim_go (fun a b => utf8_space2 b a) (fun a b c => utf8_space3 c b a)
                (String.rev s)).
Definition TrimSpace (s : string) : string := TrimRightSpace (TrimLeftSpace s).

(** ** Searching and cutting *)

Fixpoint string_drop (n : nat) (s : string) : string :=
  match n, s with
  | S n, String _ s => string_drop n s
  | _, _ => s
  end.
Fixpoint string_take (n : nat) (s : string) : string :=
  match n, s with
  | S n, String c s => String c (string_take n s)
  | _, _ => ""
  end.

Definition HasPrefix (s prefix : string) : bool := String.prefix prefix s.
Definition HasSuffix (s suffix : string) : bool :=
  String.prefix (String.rev suffix) (String.rev s).
Definition TrimPrefix (s prefix : string) : string :=
  if HasPrefix s prefix then string_drop (String.length prefix) s else s.
Definition TrimSuffix (s suffix : string) : string :=
  if HasSuffix s suffix
  then string_take (String.length s - String.length suffix) s else s.

Fixpoint Contains (s sub : string) : bool :=
  String.prefix sub s ||
  match s with
  | "" => false
  | String _ s => Contains s sub
  end.

(** [strings.IndexByte] and [strings.LastIndexByte]; [None] stands for -1. *)
Fixpoint IndexByte (s : string) (c : Ascii.ascii) : option nat :=
  match s with
  | "" => None
  | String d s => if bool_decide (d = c) then Some O else S <$> IndexByte s c
  end.
Fixpoint LastIndexByte (s : string) (c : Ascii.ascii) : option nat :=
  match s with
  | "" => None
  | String d s =>
      match LastIndexByte s c with
      | Some i => Some (S i)
      | None => if bool_decide (d = c) then Some O else None
      end
  end.

(** [strings.Count], [strings.Split] and [strings.Trim] for a one-byte
    separator, the only use bbox makes of them. *)
Fixpoint CountByte (s : string) (c : Ascii.ascii) : nat :=
  match s with
  | "" => O
  | String d s => ((if bool_decide (d = c) then 1 else 0) + CountByte s c)%nat
  end.
Fixpoint SplitByte (s : string) (c : Ascii.ascii) : list string :=
  match s with
  | "" => [""]
  | String d s =>
      if bool_decide (d = c) then "" :: SplitByte s c else
      match SplitByte s c with
      | [] => [String d ""]
      | w :: ws => String d w :: ws
      end
  end.
Fixpoint TrimLeftByte (s : string) (c : Ascii.ascii) : string :=
  match s with
  | "" => ""
  | String d s' => if bool_decide (d = c) then TrimLeftByte s' c else s
  end.
Definition TrimRightByte (s : string) (c : Ascii.ascii) : string :=
  String.rev (TrimLeftByte (String.rev s) c).
Definition TrimByte (s : string) (c : Ascii.ascii) : string :=
  TrimRightByte (TrimLeftByte s c) c.
Definition ReplaceByte (s : string) (c d : Ascii.ascii) : string :=
  string_map (fun x => if bool_decide (x = c) then d else x) s.
Fixpoint Join (l : list string) (sep : string) : string :=
  match l with
  | [] => ""
  | [w] => w
  | w :: ws => w +:+ sep +:+ Join ws sep
  end.

(** ** Numbers: [strconv.Itoa], [strconv.Atoi] *)

Definition digit_char (d : Z) : Ascii.ascii := char_of (48 + d).
Fixpoint itoa_go (fuel : nat) (n : Z) (acc : string) : string :=
  match fuel with
  | O => acc
  | S fuel =>
      let acc := String (digit_char (n mod 10)) acc in
      if n <? 10 then acc else itoa_go fuel (n / 10) acc
  end.
Definition itoa_nat (n : Z) : string := itoa_go (S (Z.to_nat (Z.log2 n))) n "".
Definition Itoa (n : Z) : string :=
  if n <? 0 then "-" +:+ itoa_nat (- n) else itoa_nat n.

Fixpoint digits_value (s : string) (acc : Z) : option Z :=
  match s with
  | "" => Some acc
  | String c s => if is_digit c then digits_value s (10 * acc + (byte_of c - 48)) else None
  end.

Definition max_int : Z := 2 ^ 63 - 1.
Definition min_int : Z := - 2 ^ 63.

(** [None] is the error: not a number, or out of the range of a 64-bit int. *)
Definition Atoi (s : string) : option Z :=
  match s with
  | "" => None
  | String c s' =>
      let '(neg, ds) :=
        if bool_decide (c = "-"%char) then (true, s')
        else if bool_decide (c = "+"%char) then (false, s') else (false, s) in
      match ds with
      | "" => None
      | _ =>
          n ← digits_value ds 0;
          let v := if neg : bool then - n else n in
          if (min_int <=? v) && (v <=? max_int) then Some v else None
      end
  end.

(** ** [strconv.Quote] (the [%q] verb) *)

Definition hex_char (d : Z) : Ascii.ascii :=
  if d <? 10 then char_of (48 + d) else char_of (87 + d).
Definition quote_char (c : Ascii.ascii) : string :=
  let n := byte_of c in
  let esc k := String "\"%char (str1 k) in
  if (n =? 34) || (n =? 92) then esc n
  else if (32 <=? n) && (n <=? 126) then str1 n
  else if n =? 7 then esc 97
  else if n =? 8 then esc 98
  else if n =? 12 then esc 102
  else if n =? 10 then esc 110
  else if n =? 13 then esc 114
  else if n =? 9 then esc 116
  else if n =? 11 then esc 118
  else "\x" +:+ String (hex_char (n / 16)) (String (hex_char (n mod 16)) "").
Fixpoint quote_body (s : string) : string :=
  match s with
  | "" => ""
  | String c s => quote_char c +:+ quote_body s
  end.
Definition Quote `{GoLib} (s : string) : string :=
  if string_all is_ascii s then str1 34 +:+ quote_body s +:+ str1 34 else unicode_Quote s.

(** ** [textproto.CanonicalMIMEHeaderKey] *)

Definition valid_header_byte (c : Ascii.ascii) : bool :=
  is_digit c || is_upper c || is_lower c ||
  existsb (fun k => byte_of c =? k) [33; 35; 36; 37; 38; 39; 42; 43; 45; 46; 94; 95; 96; 124; 126].
Fixpoint canonical_go (upper : bool) (s : string) : string :=
  match s with
  | "" => ""
  | String c s =>
      let c' := if upper then upper_char c else lower_char c in
      String c' (canonical_go (bool_decide (c' = "-"%char)) s)
  end.
Definition CanonicalMIMEHeaderKey (s : string) : string :=
  if string_all valid_header_byte s then canonical_go true s else s.

(** ** Facts *)

Lemma string_all_map p f s :
  string_all p (string_map f s) = string_all (fun c => p (f c)) s.
Proof. induction s; simpl; congruence. Qed.

Lemma lower_char_ascii c : is_ascii (lower_char c) = is_ascii c.
Proof. by destruct c as [[][][][][][][][]]. Qed.

Lemma string_all_ext p q s : (forall c, p c = q c) -> string_all p s = string_all q s.
Proof. intros E. induction s; simpl; rewrite ?E; congruence. Qed.

Lemma string_map_compose f g h s :
  (forall c, f (g c) = h c) -> string_map f (string_map g s) = string_map h s.
Proof. intros E. induction s; simpl; rewrite ?E; congruence. Qed.

Section case.
Context `{GoLib}.

Lemma ToLower_ascii s :
  string_all is_ascii s = true -> ToLower s = string_map lower_char s.
Proof. unfold ToLower. by intros ->. Qed.

Lemma ToLower_idemp s :
  string_all is_ascii s = true -> ToLower (ToLower s) = ToLower s.
Proof.
  intros A. rewrite !(ToLower_ascii s) by done. rewrite ToLower_ascii.
  - apply string_map_compose. by intros [[][][][][][][][]].
  - rewrite string_all_map, (string_all_ext _ is_ascii); [done|apply lower_char_ascii].
Qed.

(** Header names compare case-insensitively: canonicalising a key before
    lowering it changes nothing. *)
Lemma ToLower_canonical s : ToLower (CanonicalMIMEHeaderKey s) = ToLower s.
Proof.
  unfold CanonicalMIMEHeaderKey. destruct (string_all valid_header_byte s) eqn:V; [|done].
  assert (A : string_all is_ascii s = true).
  { revert V. induction s as [|c s IH]; simpl; [done|].
    rewrite !andb_true_iff. intros [V1 V2]. split; [|by apply IH].
    revert V1. clear. by destruct c as [[][][][][][][][]]. }
  rewrite (ToLower_ascii s A). clear V.
  assert (E : forall u, string_all is_ascii (canonical_go u s) = true /\
                   string_map lower_char (canonical_go u s) = string_map lower_char s).
  { revert A. induction s as [|c s IH]; simpl; [done|].
    rewrite andb_true_iff. intros [A1 A2] u.
    destruct (IH A2 (bool_decide ((if u then upper_char c else lower_char c) = "-"%char)))
      as [E1 E2].
    rewrite E1, E2. revert A1. clear. by destruct u, c as [[][][][][][][][]]. }
  rewrite ToLower_ascii; apply E.
Qed.
End case.

(** *** Decimal round trip *)

Definition visible (c : Ascii.ascii) : bool := (33 <=? byte_of c) && (byte_of c <=? 126).

Lemma digits_value_itoa fuel n acc :
  0 <= n < 10 ^ Z.of_nat fuel -> digits_value (itoa_go fuel n acc) 0 = digits_value acc n.
Proof.
  revert n acc. induction fuel as [|fuel IH]; intros n acc Hn.
  - simpl in Hn. replace n with 0 by lia. done.
  - assert (D : forall a, digits_value (String (digit_char (n mod 10)) acc) a
                     = digits_value acc (10 * a + n mod 10)).
    { intros a. pose proof (Z.mod_pos_bound n 10). simpl. unfold is_digit, digit_char.
      rewrite byte_of_char by lia.
      destruct (48 <=? 48 + n mod 10) eqn:E1; [|lia].
      destruct (48 + n mod 10 <=? 57) eqn:E2; [|lia]. simpl. f_equal. lia. }
    cbn [itoa_go]. destruct (n <? 10) eqn:E.
    + rewrite D. f_equal. rewrite Z.mod_small by lia. lia.
    + rewrite IH.
      * rewrite D. f_equal. pose proof (Z.div_mod n 10). lia.
      * rewrite Nat2Z.inj_succ, Z.pow_succ_r in Hn by lia.
        split; [apply Z.div_pos; lia|apply Z.div_lt_upper_bound; lia].
Qed.

Lemma itoa_fuel n : 0 <= n -> n < 10 ^ Z.of_nat (S (Z.to_nat (Z.log2 n))).
Proof.
  intros Hn. rewrite Nat2Z.inj_succ, Z2Nat.id by apply Z.log2_nonneg.
  destruct (decide (n = 0)) as [->|Hz]; [done|].
  pose proof (Z.log2_spec n ltac:(lia)) as [_ L].
  eapply Z.lt_le_trans; [exact L|]. apply Z.pow_le_mono_l. split; lia.
Qed.

Lemma itoa_digits fuel n acc :
  0 <= n -> string_all is_digit acc = true -> string_all is_digit (itoa_go fuel n acc) = true.
Proof.
  revert n acc. induction fuel as [|fuel IH]; intros n acc Hn A; [done|].
  assert (D : string_all is_digit (String (digit_char (n mod 10)) acc) = true).
  { simpl. rewrite A, andb_true_r. pose proof (Z.mod_pos_bound n 10).
    unfold is_digit, digit_char. rewrite byte_of_char by lia. lia. }
  cbn [itoa_go]. destruct (n <? 10); [done|]. apply IH; [apply Z.div_pos; lia|done].
Qed.

Lemma itoa_go_nonempty fuel n acc : acc <> "" -> itoa_go fuel n acc <> "".
Proof.
  revert n acc. induction fuel as [|fuel IH]; intros n acc A; [done|].
  cbn [itoa_go]. destruct (n <? 10); [done|by apply IH].
Qed.

Lemma Itoa_digits n : 0 <= n -> string_all is_digit (Itoa n) = true /\ Itoa n <> "".
Proof.
  intros Hn. unfold Itoa, itoa_nat. destruct (n <? 0) eqn:E; [lia|]. split.
  - by apply itoa_digits.
  - cbn [itoa_go]. destruct (n <? 10); [done|by apply itoa_go_nonempty].
Qed.

Lemma Atoi_Itoa n : 0 <= n <= max_int -> Atoi (Itoa n) = Some n.
Proof.
  intros [Hn Hm]. destruct (Itoa_digits n Hn) as [D NE].
  assert (V : digits_value (Itoa n) 0 = Some n).
  { unfold Itoa, itoa_nat. destruct (n <? 0) eqn:E; [lia|].
    rewrite digits_value_itoa; [done|split; [done|by apply itoa_fuel]]. }
  destruct (Itoa n) as [|c s] eqn:I; [done|]. unfold Atoi.
  simpl in D. apply andb_true_iff in D as [D _].
  case_bool_decide; [by subst|]. case_bool_decide; [by subst|].
  rewrite V. simpl. unfold min_int, max_int in *.
  replace (_ <=? n) with true by lia. by replace (n <=? _) with true by lia.
Qed.

(** *** White space *)

Lemma string_app_cons a s t : String a s +:+ t = String a (s +:+ t).
Proof. done. Qed.
Lemma string_app_nil t : "" +:+ t = t.
Proof. done. Qed.

Lemma string_app_nil_r s : s +:+ "" = s.
Proof. induction s as [|a s IH]; [done|]. rewrite string_app_cons. congruence. Qed.

Lemma string_all_app p s t : string_all p (s +:+ t) = string_all p s && string_all p t.
Proof.
  induction s as [|a s IH]; [done|]. rewrite string_app_cons. simpl.
  by rewrite IH, andb_assoc.
Qed.

Lemma string_rev_app_all p s t :
  string_all p (String.rev_app s t) = string_all p s && string_all p t.
Proof.
  revert t. induction s as [|c s IH]; intros t; simpl; [done|].
  rewrite IH. simpl. by rewrite andb_assoc, (andb_comm (string_all p s)).
Qed.

Lemma string_rev_app_rev s t : String.rev (String.rev_app s t) = String.rev_app t s.
Proof.
  unfold String.rev. revert t. induction s as [|c s IH]; intros t; simpl; [done|].
  rewrite IH. done.
Qed.

Lemma string_rev_rev s : String.rev (String.rev s) = s.
Proof. unfold String.rev at 2. by rewrite string_rev_app_rev. Qed.

Lemma string_all_impl (p q : Ascii.ascii -> bool) s :
  (forall c, p c = true -> q c = true) -> string_all p s = true -> string_all q s = true.
Proof. intros I. induction s; simpl; [done|]. rewrite !andb_true_iff. naive_solver. Qed.

Lemma trim_go_id sp2 sp3 s :
  (forall a b, visible a = true -> sp2 a b = false) ->
  (forall a b c, visible a = true -> sp3 a b c = false) ->
  string_all visible s = true -> trim_go sp2 sp3 s = s.
Proof.
  intros S2 S3. destruct s as [|a s]; simpl; [done|].
  rewrite andb_true_iff. intros [V _].
  assert (ascii_space a = false) as ->.
  { revert V. clear. by destruct a as [[][][][][][][][]]. }
  destruct s as [|b s]; [done|]. rewrite S2 by done.
  destruct s as [|c s]; [done|]. by rewrite S3.
Qed.

Lemma TrimSpace_visible s : string_all visible s = true -> TrimSpace s = s.
Proof.
  intros V.
  assert (NX : forall a, visible a = true -> 33 <= byte_of a <= 126).
  { intros a. unfold visible. rewrite andb_true_iff, !Z.leb_le. done. }
  assert (L : TrimLeftSpace s = s).
  { apply trim_go_id; [| |done]; intros a b.
    - intros A%NX. unfold utf8_space2. replace (byte_of a =? 0xC2) with false by lia. done.
    - intros c A%NX. unfold utf8_space3.
      replace (byte_of a =? 0xE1) with false by lia. replace (byte_of a =? 0xE2) with false by lia.
      by replace (byte_of a =? 0xE3) with false by lia. }
  unfold TrimSpace, TrimRightSpace. rewrite L, trim_go_id; [apply string_rev_rev|..].
  - intros a b A%NX. unfold utf8_space2.
    replace (byte_of a =? 0x85) with false by lia. replace (byte_of a =? 0xA0) with false by lia.
    by rewrite andb_false_r.
  - intros a b c A%NX. unfold utf8_space3.
    repeat match goal with |- context [byte_of a =? ?k] => replace (byte_of a =? k) with false by lia end.
    replace (0x80 <=? byte_of a) with false by lia. by rewrite !andb_false_r.
  - unfold String.rev. rewrite string_rev_app_all, V. done.
Qed.

Lemma digit_visible s : string_all is_digit s = true -> string_all visible s = true.
Proof. apply string_all_impl. intros c. unfold is_digit, visible. rewrite !andb_true_iff, !Z.leb_le. lia. Qed.

(** *** Splitting *)

Lemma SplitByte_app a b c :
  string_all (fun d => negb (bool_decide (d = c))) a = true ->
  SplitByte (a +:+ String c b) c = a :: SplitByte b c.
Proof.
  induction a as [|d a IH]; rewrite ?string_app_nil, ?string_app_cons; simpl.
  - intros _. by rewrite bool_decide_eq_true_2.
  - rewrite andb_true_iff, negb_true_iff. intros [-> A]. by rewrite (IH A).
Qed.

Lemma SplitByte_none a c :
  string_all (fun d => negb (bool_decide (d = c))) a = true -> SplitByte a c = [a].
Proof.
  induction a as [|d a IH]; cbn; [done|].
  rewrite andb_true_iff, negb_true_iff. intros [-> A]. by rewrite (IH A).
Qed.

Lemma Contains_byte_app a b c : Contains (a +:+ String c b) (String c "") = true.
Proof.
  induction a as [|d a IH]; rewrite ?string_app_nil, ?string_app_cons; simpl.
  - destruct (Ascii.ascii_dec c c); [by destruct b|done].
  - by rewrite IH, orb_true_r.
Qed.

Lemma Contains_byte_false s c : Contains s (String c "") = false <-> CountByte s c = O.
Proof.
  induction s as [|d s IH]; simpl; [done|].
  destruct (Ascii.ascii_dec c d) as [->|N].
  - rewrite bool_decide_eq_true_2 by done. destruct s; done.
  - rewrite bool_decide_eq_false_2 by congruence. simpl. done.
Qed.

Lemma IndexByte_None s c : IndexByte s c = None <-> CountByte s c = O.
Proof.
  induction s as [|d s IH]; simpl; [done|]. case_bool_decide; [done|].
  simpl. rewrite <- IH. destruct (IndexByte s c); naive_solver.
Qed.
