(* ===== verification/GoNet.v ===== *)
(** Package [net] of Go, as far as bbox uses it: [SplitHostPort],
    [JoinHostPort], [ParseIP], [IP.To4], [IP.String], [ParseCIDR] and
    [IPNet.Contains]. An [IP] is its byte sequence, 4 or 16 bytes long, as in
    Go; every byte is in 0..255. *)
From S2P Require Import Prelude GoStrings.

Abbreviation IP := (list Z).

(** ** [net.SplitHostPort], [net.JoinHostPort] *)

Definition addr_error (why addr : string) : string :=
  if bool_decide (addr = "") then why else "address " +:+ addr +:+ ": " +:+ why.

Definition SplitHostPort (hostport : string) : result (string * string) :=
  match LastIndexByte hostport ":" with
  | None => Err (addr_error "missing port in address" hostport)
  | Some i =>
      let finish (host : string) (j k : nat) :=
        if bool_decide (is_Some (IndexByte (string_drop j hostport) "[")) then
          Err (addr_error "unexpected '[' in address" hostport)
        else if bool_decide (is_Some (IndexByte (string_drop k hostport) "]")) then
          Err (addr_error "unexpected ']' in address" hostport)
        else Ok (host, string_drop (S i) hostport) in
      if HasPrefix hostport "[" then
        match IndexByte hostport "]" with
        | None => Err (addr_error "missing ']' in address" hostport)
        | Some e =>
            if bool_decide (S e = String.length hostport) then
              Err (addr_error "missing port in address" hostport)
            else if bool_decide (S e = i) then
              finish (string_drop 1 (string_take e hostport)) 1%nat (S e)
            else if HasPrefix (string_drop (S e) hostport) ":" then
              Err (addr_error "too many colons in address" hostport)
            else Err (addr_error "missing port in address" hostport)
        end
      else
        let host := string_take i hostport in
        if bool_decide (is_Some (IndexByte host ":")) then
          Err (addr_error "too many colons in address" hostport)
        else finish host O O
  end.

Definition JoinHostPort (host port : string) : string :=
  if bool_decide (is_Some (IndexByte host ":"))
  then "[" +:+ host +:+ "]:" +:+ port
  else host +:+ ":" +:+ port.

(** ** [net.ParseIP] *)

(** The octet automaton of [netip.parseIPv4Fields]: [fields] holds the octets
    closed so far, [val] and [dig] the value and the number of digits of the
    open one. A dot needs a digit before it and, by the final test, after it. *)
Fixpoint parseIPv4Fields (s : string) (fields : list Z) (val : Z) (dig : nat)
    : option (list Z) :=
  match s with
  | "" =>
      if bool_decide (length fields = 3%nat) && negb (bool_decide (dig = O))
      then Some (fields ++ [val]) else None
  | String c s =>
      if is_digit c then
        if bool_decide (dig = 1%nat) && (val =? 0) then None else
        let val := 10 * val + (byte_of c - 48) in
        if 255 <? val then None else parseIPv4Fields s fields val (S dig)
      else if bool_decide (c = "."%char) then
        if bool_decide (dig = O) || bool_decide (length fields = 3%nat) then None
        else parseIPv4Fields s (fields ++ [val]) 0 O
      else None
  end.
Definition parseIPv4 (s : string) : option (list Z) := parseIPv4Fields s [] 0 O.

Definition hex_value (c : Ascii.ascii) : option Z :=
  let n := byte_of c in
  if (48 <=? n) && (n <=? 57) then Some (n - 48)
  else if (97 <=? n) && (n <=? 102) then Some (n - 87)
  else if (65 <=? n) && (n <=? 70) then Some (n - 55)
  else None.

(** One hexadecimal group: the digits consumed, their value and the rest. A
    fifth digit is an error ([None]). *)
Fixpoint parse_group (s : string) (off : nat) (acc : Z) : option (nat * Z * string) :=
  match s with
  | "" => Some (off, acc, s)
  | String c s' =>
      match hex_value c with
      | None => Some (off, acc, s)
      | Some d => if bool_decide (4 <= off)%nat then None else parse_group s' (S off) (16 * acc + d)
      end
  end.

(** The loop of [netip.parseIPv6]: [ip] are the bytes parsed so far and
    [ellipsis] the position of [::]. The fuel is the number of groups, 8. *)
Fixpoint parseIPv6_loop (fuel : nat) (s : string) (ip : list Z) (ellipsis : option nat)
    : option (string * list Z * option nat) :=
  match fuel with
  | O => Some (s, ip, ellipsis)
  | S fuel =>
      '(off, acc, rest) ← parse_group s 0 0;
      if bool_decide (off = O) then None else
      if HasPrefix rest "." then
        if bool_decide (ellipsis = None) && negb (bool_decide (length ip = 12%nat)) then None
        else if bool_decide (16 < length ip + 4)%nat then None
        else v4 ← parseIPv4 s; Some ("", ip ++ v4, ellipsis)
      else
        let ip := ip ++ [acc / 256; acc mod 256] in
        match rest with
        | "" => Some ("", ip, ellipsis)
        | String c rest' =>
            if negb (bool_decide (c = ":"%char)) then None else
            match rest' with
            | "" => None
            | String c' rest'' =>
                if bool_decide (c' = ":"%char) then
                  if bool_decide (is_Some ellipsis) then None
                  else match rest'' with
                       | "" => Some ("", ip, Some (length ip))
                       | _ => parseIPv6_loop fuel rest'' ip (Some (length ip))
                       end
                else parseIPv6_loop fuel rest' ip ellipsis
            end
        end
  end.

Definition parseIPv6_finish (r : string * list Z * option nat) : option (list Z) :=
  let '(s, ip, ellipsis) := r in
  if negb (bool_decide (s = "")) then None
  else if bool_decide (length ip < 16)%nat then
    e ← ellipsis;
    Some (take e ip ++ replicate (16 - length ip) 0 ++ drop e ip)
  else if bool_decide (is_Some ellipsis) then None else Some ip.

(** An address with a zone ("%eth0") is not an [IP]. *)
Definition parseIPv6 (s : string) : option (list Z) :=
  if bool_decide (is_Some (IndexByte s "%")) then None
  else if HasPrefix s "::" then
    match string_drop 2 s with
    | "" => Some (replicate 16 0)
    | s' => r ← parseIPv6_loop 8 s' [] (Some O); parseIPv6_finish r
    end
  else r ← parseIPv6_loop 8 s [] None; parseIPv6_finish r.

(** [netip.ParseAddr] without zones: the first of '.', ':' and '%' decides. *)
Inductive addr_kind := Addr4 (b : list Z) | Addr6 (b : list Z).
Fixpoint addr_family (s : string) : option bool :=
  match s with
  | "" => None
  | String c s' =>
      if bool_decide (c = "."%char) then Some false
      else if bool_decide (c = ":"%char) then Some true
      else if bool_decide (c = "%"%char) then None
      else addr_family s'
  end.
Definition ParseAddr (s : string) : option addr_kind :=
  match addr_family s with
  | Some false => Addr4 <$> parseIPv4 s
  | Some true => Addr6 <$> parseIPv6 s
  | None => None
  end.

Definition v4InV6Prefix : list Z := [0; 0; 0; 0; 0; 0; 0; 0; 0; 0; 255; 255].
Definition As16 (a : addr_kind) : IP :=
  match a with
  | Addr4 b => v4InV6Prefix ++ b
  | Addr6 b => b
  end.
Definition ParseIP (s : string) : option IP := As16 <$> ParseAddr s.

(** ** [IP.To4], [IP.To16], [IP.String] *)

Definition To4 (ip : IP) : option IP :=
  if bool_decide (length ip = 4%nat) then Some ip
  else if bool_decide (length ip = 16%nat) && bool_decide (take 12 ip = v4InV6Prefix)
  then Some (drop 12 ip) else None.
Definition To16 (ip : IP) : option IP :=
  if bool_decide (length ip = 4%nat) then Some (v4InV6Prefix ++ ip)
  else if bool_decide (length ip = 16%nat) then Some ip else None.

Definition hex_group (n : Z) : string :=
  let d k := String (hex_char (n / 16 ^ k mod 16)) "" in
  if n <? 16 then d 0
  else if n <? 256 then d 1 +:+ d 0
  else if n <? 4096 then d 2 +:+ d 1 +:+ d 0
  else d 3 +:+ d 2 +:+ d 1 +:+ d 0.
Fixpoint groups_of (ip : list Z) : list Z :=
  match ip with
  | a :: b :: ip => (256 * a + b) :: groups_of ip
  | _ => []
  end.
Fixpoint zero_run (l : list Z) : nat :=
  match l with
  | n :: l => if n =? 0 then S (zero_run l) else O
  | [] => O
  end.
(** The first of the longest runs of at least two zero groups. *)
Fixpoint best_run (l : list Z) (i : nat) (best : nat * nat) : nat * nat :=
  match l with
  | [] => best
  | _ :: l' =>
      let n := zero_run l in
      best_run l' (S i)
        (if bool_decide (2 <= n)%nat && bool_decide (best.2 < n)%nat then (i, n) else best)
  end.
Definition ipv6_string (ip : IP) : string :=
  let gs := groups_of ip in
  let '(i, n) := best_run gs 0 (0%nat, 0%nat) in
  let show l := Join (hex_group <$> l) ":" in
  if bool_decide (n = O) then show gs
  else show (take i gs) +:+ "::" +:+ show (drop (i + n) gs).
Definition ipv4_string (ip : IP) : string := Join (Itoa <$> ip) ".".
Definition IP_String (ip : IP) : string :=
  match To4 ip with
  | Some ip4 => ipv4_string ip4
  | None => ipv6_string ip
  end.

(** ** [net.ParseCIDR], [IPNet.Contains] *)

Record IPNet := { net_ip : IP; net_mask : list Z }.

#[global] Instance IPNet_eq_dec : EqDecision IPNet.
Proof. solve_decision. Defined.

(** [net.CIDRMask]: [ones] leading one bits in [len] bytes. *)
Fixpoint CIDRMask (ones : Z) (len : nat) : list Z :=
  match len with
  | O => []
  | S len =>
      (if 8 <=? ones then 255 else if 0 <? ones then 256 - 2 ^ (8 - ones) else 0)
      :: CIDRMask (ones - 8) len
  end.
Definition mask_bytes (ip mask : list Z) : list Z := zip_with Z.land ip mask.

(** [dtoi]: a non-empty run of digits filling the whole string, below 0xFFFFFF. *)
Definition dtoi (s : string) : option Z :=
  if bool_decide (s = "") then None
  else n ← digits_value s 0; if n <? 0xFFFFFF then Some n else None.

Definition ParseCIDR (s : string) : result IPNet :=
  let invalid := Err ("invalid CIDR address: " +:+ s) in
  match IndexByte s "/" with
  | None => invalid
  | Some i =>
      match ParseAddr (string_take i s), dtoi (string_drop (S i) s) with
      | Some (Addr4 b), Some n =>
          if n <=? 32
          then let m := CIDRMask n 4 in Ok {| net_ip := mask_bytes b m; net_mask := m |}
          else invalid
      | Some (Addr6 b), Some n =>
          if n <=? 128
          then let m := CIDRMask n 16 in Ok {| net_ip := mask_bytes b m; net_mask := m |}
          else invalid
      | _, _ => invalid
      end
  end.

Definition networkNumberAndMask (n : IPNet) : option (list Z * list Z) :=
  let ip := default (net_ip n) (To4 (net_ip n)) in
  let m := net_mask n in
  match length ip, length m with
  | 4%nat, 4%nat => Some (ip, m)
  | 4%nat, 16%nat => Some (ip, drop 12 m)
  | 16%nat, 16%nat => Some (ip, m)
  | _, _ => None
  end.

Definition IPNet_Contains (n : IPNet) (ip : IP) : bool :=
  let ip := default ip (To4 ip) in
  match networkNumberAndMask n with
  | Some (nn, m) =>
      bool_decide (length ip = length nn) &&
      bool_decide (mask_bytes nn m = mask_bytes ip m)
  | None => false
  end.
