(* ===== verification/GoPath.v ===== *)
(** Lexical path functions of Go ([path], [path/filepath] on Unix). *)
From S2P Require Import Prelude GoStrings.

(** [path.Clean]: the lexical rules on the components of a path. *)
Fixpoint clean_go (rooted : bool) (out : list string) (parts : list string) : list string :=
  match parts with
  | [] => rev out
  | part :: parts =>
      if bool_decide (part = "") || bool_decide (part = ".") then clean_go rooted out parts
      else if bool_decide (part = "..") then
        match out with
        | top :: out' =>
            if bool_decide (top = "..") then clean_go rooted (part :: out) parts else clean_go rooted out' parts
        | [] => if rooted then clean_go rooted [] parts else clean_go rooted [part] parts
        end
      else clean_go rooted (part :: out) parts
  end.
Definition path_Clean (path : string) : string :=
  let rooted := HasPrefix path "/" in
  let body := Join (clean_go rooted [] (SplitByte path "/")) "/" in
  if rooted then "/" +:+ body else if bool_decide (body = "") then "." else body.

Definition filepath_IsAbs (path : string) : bool := HasPrefix path "/".
(** [filepath.Join]: empty elements are left out. *)
Definition filepath_Join (elem : list string) : string :=
  match filter (fun e => e <> "") elem with [] => "" | l => path_Clean (Join l "/") end.
(** [strings.Cut] at one byte. *)
Definition CutByte (s : string) (c : Ascii.ascii) : option (string * string) :=
  match IndexByte s c with Some i => Some (string_take i s, string_drop (S i) s) | None => None end.

(** [filepath.Dir]: everything up to the last slash, cleaned. *)
Definition filepath_Dir (path : string) : string :=
  match LastIndexByte path "/" with Some i => path_Clean (string_take (S i) path) | None => path_Clean "" end.
(** [filepath.Base]: the last element, trailing slashes removed. *)
Definition filepath_Base (path : string) : string :=
  if bool_decide (path = "") then "." else
  let stripped := TrimRightByte path "/" in
  let base := match LastIndexByte stripped "/" with Some i => string_drop (S i) stripped | None => stripped end in
  if bool_decide (base = "") then "/" else base.

(** [filepath.Rel]: the elements of both cleaned paths are compared; [None] is the
    error. *)
Fixpoint strip_common (base targ : list string) : list string * list string :=
  match base, targ with
  | b :: base', t :: targ' => if bool_decide (b = t) then strip_common base' targ' else (base, targ)
  | _, _ => (base, targ)
  end.
Definition path_elements (path : string) : list string :=
  filter (fun e => e <> "") (SplitByte path "/").
Definition filepath_Rel (basepath targpath : string) : option string :=
  let base := path_Clean basepath in
  let targ := path_Clean targpath in
  if bool_decide (targ = base) then Some "." else
  let base := if bool_decide (base = ".") then "" else base in
  if negb (Bool.eqb (HasPrefix base "/") (HasPrefix targ "/")) then None else
  let '(b, t) := strip_common (path_elements base) (path_elements targ) in
  if bool_decide (head b = Some "..") then None else
  Some (Join (replicate (length b) ".." ++ t) "/").
