(* ===== verification/Policy.v ===== *)
(** The network policy of bbox: [policy.go] (data, compilation, host and port
    parsing, rule matching) and [policy_eval.go] (the four evaluation loops).

    Maps whose iteration order Go leaves open ([PolicyRule.HeaderPatterns],
    [http.Header]) are association lists in iteration order where the code
    iterates over them, finite maps where it only looks keys up. A request body
    is the byte string [string(body)]. *)
From S2P Require Import Prelude GoStrings GoNet.

(** * Data *)

Record PolicyRule := {
  HostPatterns : list string;
  IPCIDRs : list string;
  HTTPMethods : list string;
  ConnectPorts : list string;
  PathPatterns : list string;
  HeaderPatterns : list (string * list string);
  BodyPatterns : list string;
}.

Record NetworkPolicy := { Rules : list PolicyRule }.

Record portRange := { pr_start : Z; pr_end : Z }.

#[global] Instance portRange_eq_dec : EqDecision portRange.
Proof. solve_decision. Defined.

Abbreviation Header := (list (string * list string)).

Record PolicyRequest := {
  pq_Method : string;
  pq_Host : string;
  pq_Path : string;
  pq_Header : Header;
  pq_Body : string;
  pq_BodyTooLarge : bool;
}.

Record policyEvaluation := { Allowed : bool; Reasons : list string }.

Section policy.
Context `{GoLib}.

Record compiledPolicyRule := {
  hostPatterns : list regexp;
  ipCIDRs : list IPNet;
  httpMethods : gset string;
  connectPorts : list portRange;
  pathPatterns : list regexp;
  headerPatterns : gmap string (list regexp);
  bodyPatterns : list regexp;
}.

Record compiledPolicy := { rules : list compiledPolicyRule }.

(** * Hosts and ports *)

Definition isIPv6Literal (host : string) : bool :=
  bool_decide (is_Some (ParseIP host)) && Contains host ":".

Definition splitHostPortStrict (hostport : string) : result (string * string) :=
  let! '(host, port) := SplitHostPort hostport in
  match Atoi port with
  | Some n => if (n <? 0) || (65535 <? n) then Err ("invalid port " +:+ Quote port) else Ok (host, port)
  | None => Err ("invalid port " +:+ Quote port)
  end.

Definition normalizePolicyHostname (hostname : string) : result string :=
  let normalized := ToLower (TrimSpace hostname) in
  if bool_decide (normalized = "") then Err "request hostname is required" else
  if negb (Contains normalized ":") then Ok normalized else
  if HasPrefix normalized "[" then
    if HasSuffix normalized "]" then
      let inner := TrimSpace (TrimPrefix (TrimSuffix normalized "]") "[") in
      if bool_decide (inner = "") then Err "request hostname is required"
      else if isIPv6Literal inner then Ok inner
      else Err ("invalid host " +:+ Quote hostname)
    else
      match splitHostPortStrict normalized with
      | Err _ => Err ("invalid host:port " +:+ Quote hostname)
      | Ok (host, _) =>
          let host := TrimSpace (ToLower host) in
          if isIPv6Literal host then Ok host else Err ("invalid host " +:+ Quote hostname)
      end
  else if bool_decide (CountByte normalized ":" = 1%nat) then
    match splitHostPortStrict normalized with
    | Err _ => Err ("invalid host:port " +:+ Quote hostname)
    | Ok (host, _) =>
        let host := ToLower (TrimSpace host) in
        if bool_decide (host = "") then Err "request hostname is required" else Ok host
    end
  else Err ("invalid host " +:+ Quote hostname).

Definition parsePortNumber (value : string) : result Z :=
  match Atoi (TrimSpace value) with
  | Some port =>
      if (port <=? 0) || (65535 <? port) then Err ("invalid port " +:+ Quote value) else Ok port
  | None => Err ("invalid port " +:+ Quote value)
  end.

Definition parseConnectPortSpec (spec : string) : result portRange :=
  let normalized := TrimSpace spec in
  if bool_decide (normalized = "") then Err "port spec cannot be empty" else
  if Contains normalized "-" then
    match SplitByte normalized "-" with
    | [a; b] =>
        s <-! parsePortNumber a;
        e <-! parsePortNumber b;
        if e <? s then Err ("invalid descending port range " +:+ Quote spec)
        else Ok {| pr_start := s; pr_end := e |}
    | _ => Err ("invalid port range " +:+ Quote spec)
    end
  else
    port <-! parsePortNumber normalized;
    Ok {| pr_start := port; pr_end := port |}.

Fixpoint matchConnectPort (ranges : list portRange) (port : Z) : bool :=
  match ranges with
  | [] => false
  | allowed :: ranges =>
      if (pr_start allowed <=? port) && (port <=? pr_end allowed) then true
      else matchConnectPort ranges port
  end.

Definition splitConnectTarget (hostport : string) : result (string * Z) :=
  match splitHostPortStrict (TrimSpace hostport) with
  | Err _ => Err "CONNECT target must be host:port"
  | Ok (host, portText) =>
      let normalizedHost := ToLower (TrimSpace host) in
      if bool_decide (normalizedHost = "") then Err "CONNECT target host is required"
      else if Contains normalizedHost ":" && negb (isIPv6Literal normalizedHost) then
        Err ("invalid CONNECT target host " +:+ Quote host)
      else match Atoi portText with
           | None => Err ("invalid CONNECT target port " +:+ Quote portText)
           | Some port =>
               if port =? 0 then Err ("invalid CONNECT target port " +:+ Quote portText)
               else Ok (normalizedHost, port)
           end
  end.

(** * Compilation *)

Definition compileRegexps (patterns : list string) (wrap : string -> string -> string)
    : result (list regexp) :=
  result_map (fun pattern => result_wrap (wrap pattern) (regexp_Compile pattern)) patterns.

Definition rule_error (index : Z) (verb what pattern err : string) : string :=
  verb +:+ " rule " +:+ Itoa index +:+ " " +:+ what +:+ " " +:+ Quote pattern +:+ ": " +:+ err.

Definition normalize_method (method : string) : string := ToUpper (TrimSpace method).
Definition normalize_header_name (name : string) : string :=
  ToLower (TrimSpace (CanonicalMIMEHeaderKey name)).

Definition compileMethods (index : Z) (methods : list string) : result (gset string) :=
  foldl (fun acc method =>
           set <-! acc;
           let normalized := normalize_method method in
           if bool_decide (normalized = "")
           then Err ("rule " +:+ Itoa index +:+ " HTTP method cannot be empty")
           else Ok ({[normalized]} ∪ set))
        (Ok ∅) methods.

Definition compileCIDRs (index : Z) (cidrs : list string) : result (list IPNet) :=
  result_map (fun cidr => result_wrap (rule_error index "parse" "IP CIDR" cidr)
                            (ParseCIDR (TrimSpace cidr))) cidrs.

Definition compilePorts (index : Z) (specs : list string) : result (list portRange) :=
  result_map (fun spec => result_wrap (rule_error index "parse" "connect port spec" spec)
                            (parseConnectPortSpec spec)) specs.

(** The body of the loop over one header's patterns: each compiled pattern is
    appended under the normalised name. *)
Definition compileHeaderValues (ruleIndex : Z) (headerName normalizedName : string)
    (values : list string) (m : gmap string (list regexp)) : result (gmap string (list regexp)) :=
  foldl (fun acc pattern =>
           m <-! acc;
           re <-! result_wrap (fun err => "compile rule " +:+ Itoa ruleIndex +:+ " header pattern "
                                 +:+ Quote pattern +:+ " for " +:+ Quote headerName +:+ ": " +:+ err)
                    (regexp_Compile pattern);
           Ok (<[normalizedName := default [] (m !! normalizedName) ++ [re]]> m))
        (Ok m) values.

Definition compileHeaderPatterns (ruleIndex : Z) (patterns : list (string * list string))
    : result (gmap string (list regexp)) :=
  foldl (fun acc '(headerName, values) =>
           m <-! acc;
           let normalizedName := normalize_header_name headerName in
           if bool_decide (normalizedName = "")
           then Err ("rule " +:+ Itoa ruleIndex +:+ " header pattern name cannot be empty")
           else compileHeaderValues ruleIndex headerName normalizedName values m)
        (Ok ∅) patterns.

Definition compilePolicyRule (index : Z) (rule : PolicyRule) : result compiledPolicyRule :=
  methods <-! compileMethods index (HTTPMethods rule);
  hosts <-! compileRegexps (HostPatterns rule) (rule_error index "compile" "host pattern");
  cidrs <-! compileCIDRs index (IPCIDRs rule);
  ports <-! compilePorts index (ConnectPorts rule);
  paths <-! compileRegexps (PathPatterns rule) (rule_error index "compile" "path pattern");
  headers <-! compileHeaderPatterns index (HeaderPatterns rule);
  bodies <-! compileRegexps (BodyPatterns rule) (rule_error index "compile" "body pattern");
  Ok {| hostPatterns := hosts; ipCIDRs := cidrs; httpMethods := methods;
        connectPorts := ports; pathPatterns := paths; headerPatterns := headers;
        bodyPatterns := bodies |}.

Fixpoint compileRules (idx : Z) (rs : list PolicyRule) : result (list compiledPolicyRule) :=
  match rs with
  | [] => Ok []
  | rule :: rs =>
      compiledRule <-! compilePolicyRule idx rule;
      rest <-! compileRules (idx + 1) rs;
      Ok (compiledRule :: rest)
  end.

Definition compilePolicy (policy : NetworkPolicy) : result compiledPolicy :=
  rs <-! compileRules 0 (Rules policy);
  Ok {| rules := rs |}.

(** * Matching one rule *)

Definition hasHTTPMethods (r : compiledPolicyRule) : bool :=
  negb (bool_decide (size (httpMethods r) = O)).
Definition hasConnectPorts (r : compiledPolicyRule) : bool :=
  negb (bool_decide (length (connectPorts r) = O)).
Definition hasPathPatterns (r : compiledPolicyRule) : bool :=
  negb (bool_decide (length (pathPatterns r) = O)).
Definition hasHeaderPatterns (r : compiledPolicyRule) : bool :=
  negb (bool_decide (size (headerPatterns r) = O)).
Definition hasBodyPatterns (r : compiledPolicyRule) : bool :=
  negb (bool_decide (length (bodyPatterns r) = O)).
Definition hasIPCIDRs (r : compiledPolicyRule) : bool :=
  negb (bool_decide (length (ipCIDRs r) = O)).

Definition hostnameDeniedReason (normalizedHost : string) : string :=
  "hostname " +:+ normalizedHost +:+ " is not allowed by policy".

(** Some regexp of a list matches; the [for] loops with [break] of the code. *)
Definition matches_any (res : list regexp) (s : string) : bool :=
  existsb (fun re => regexp_MatchString re s) res.

Definition matchesHostDetailed (r : compiledPolicyRule) (normalizedHost : string)
    : bool * string :=
  let hostMatched :=
    bool_decide (length (hostPatterns r) = O) || matches_any (hostPatterns r) normalizedHost in
  if negb hostMatched then (false, hostnameDeniedReason normalizedHost) else
  if bool_decide (length (ipCIDRs r) = O) then (true, "") else
  match ParseIP normalizedHost with
  | None => (false, hostnameDeniedReason normalizedHost)
  | Some ip =>
      if existsb (fun network => IPNet_Contains network ip) (ipCIDRs r) then (true, "")
      else (false, "ip literal " +:+ normalizedHost +:+ " is not allowed by policy")
  end.

Definition matchesMethod (r : compiledPolicyRule) (method : string) : bool :=
  negb (hasHTTPMethods r) || bool_decide (method ∈ httpMethods r).

Definition matchesPath (r : compiledPolicyRule) (path : string) : bool :=
  bool_decide (length (pathPatterns r) = O) || matches_any (pathPatterns r) path.

(** The request headers under lower-case names; a later header overwrites an
    earlier one whose name only differs in case. *)
Definition normalizeHeaders (headers : Header) : gmap string (list string) :=
  foldl (fun m '(headerName, values) =>
           <[ToLower (CanonicalMIMEHeaderKey headerName) := values]> m) ∅ headers.

Definition headerMatched (normalized : gmap string (list string)) (headerName : string)
    (rs : list regexp) : bool :=
  existsb (matches_any rs) (default [] (normalized !! headerName)).

Fixpoint matchHeaderNames (r : compiledPolicyRule) (normalized : gmap string (list string))
    (names : list string) : bool * string :=
  match names with
  | [] => (true, "")
  | headerName :: names =>
      if headerMatched normalized headerName (default [] (headerPatterns r !! headerName))
      then matchHeaderNames r normalized names
      else (false, "header " +:+ headerName +:+ " is not allowed by policy")
  end.

Definition matchesHeadersDetailed (r : compiledPolicyRule) (headers : Header) : bool * string :=
  if negb (hasHeaderPatterns r) then (true, "") else
  matchHeaderNames r (normalizeHeaders headers)
    (merge_sort String.le (elements (dom (headerPatterns r)))).

Definition matchesBodyDetailed (r : compiledPolicyRule) (body : string) : bool * string :=
  if negb (hasBodyPatterns r) then (true, "") else
  if matches_any (bodyPatterns r) body then (true, "")
  else (false, "request body is not allowed by policy").

Definition matchesHost (r : compiledPolicyRule) (normalizedHost : string) : bool :=
  (matchesHostDetailed r normalizedHost).1.
Definition matchesHeaders (r : compiledPolicyRule) (headers : Header) : bool :=
  (matchesHeadersDetailed r headers).1.
Definition matchesBody (r : compiledPolicyRule) (body : string) : bool :=
  (matchesBodyDetailed r body).1.

(** * Evaluation *)

Definition allowedEvaluation : policyEvaluation := {| Allowed := true; Reasons := [] |}.
Definition deniedEvaluation (reason : string) : policyEvaluation :=
  {| Allowed := false; Reasons := [reason] |}.
Definition firstReasonAsError (e : policyEvaluation) : option string :=
  if Allowed e then None
  else match Reasons e with
       | reason :: _ => Some reason
       | [] => Some "request is denied by policy"
       end.
Definition evaluationFromError (err : option string) : policyEvaluation :=
  match err with
  | Some e => deniedEvaluation e
  | None => allowedEvaluation
  end.

(** [if firstReason == "" { firstReason = reason }] *)
Definition keepFirst (firstReason reason : string) : string :=
  if bool_decide (firstReason = "") then reason else firstReason.
Definition denyWith (firstReason fallback : string) : policyEvaluation :=
  if bool_decide (firstReason = "") then deniedEvaluation fallback else deniedEvaluation firstReason.

Definition methodReason (method : string) : string :=
  "method " +:+ method +:+ " is not allowed by policy".

Fixpoint evaluateConnect_loop (rs : list compiledPolicyRule) (host : string) (port : Z)
    (transparent : bool) (firstReason : string) : policyEvaluation :=
  match rs with
  | [] => denyWith firstReason (if transparent then "no policy rule matched connect target"
                                else "no policy rule matched CONNECT target")
  | rule :: rs =>
      if hasHTTPMethods rule || hasPathPatterns rule || hasHeaderPatterns rule || hasBodyPatterns rule
      then evaluateConnect_loop rs host port transparent firstReason
      else if transparent && hasConnectPorts rule
      then evaluateConnect_loop rs host port transparent firstReason
      else
        let '(matched, reason) := matchesHostDetailed rule host in
        if negb matched
        then evaluateConnect_loop rs host port transparent (keepFirst firstReason reason)
        else if negb transparent &&
                (bool_decide (length (connectPorts rule) = O) ||
                 negb (matchConnectPort (connectPorts rule) port))
        then evaluateConnect_loop rs host port transparent
               (keepFirst firstReason ("CONNECT port " +:+ Itoa port +:+ " is not allowed"))
        else allowedEvaluation
  end.

Definition evaluateConnect (p : compiledPolicy) (host : string) (port : Z) (transparent : bool)
    : policyEvaluation :=
  if transparent then
    match normalizePolicyHostname host with
    | Err e => evaluationFromError (Some e)
    | Ok normalizedHost => evaluateConnect_loop (rules p) normalizedHost port transparent ""
    end
  else
    let normalizedHost := ToLower (TrimSpace host) in
    if bool_decide (normalizedHost = "") then deniedEvaluation "CONNECT target host is required"
    else evaluateConnect_loop (rules p) normalizedHost port transparent "".

Fixpoint evaluate_loop (rs : list compiledPolicyRule) (method host firstReason : string)
    : policyEvaluation :=
  match rs with
  | [] => denyWith firstReason "no policy rule matched request"
  | rule :: rs =>
      if hasConnectPorts rule || hasPathPatterns rule || hasHeaderPatterns rule || hasBodyPatterns rule
      then evaluate_loop rs method host firstReason
      else if negb (matchesMethod rule method)
      then evaluate_loop rs method host (keepFirst firstReason (methodReason method))
      else
        let '(matched, reason) := matchesHostDetailed rule host in
        if negb matched then evaluate_loop rs method host (keepFirst firstReason reason)
        else allowedEvaluation
  end.

Definition evaluate (p : compiledPolicy) (method hostname : string) (connect : bool)
    : policyEvaluation :=
  let method := normalize_method method in
  if bool_decide (method = "") then deniedEvaluation "request method is required" else
  if connect && negb (bool_decide (method = "CONNECT"))
  then deniedEvaluation "connect requests must use CONNECT method" else
  if bool_decide (method = "CONNECT") && negb connect
  then deniedEvaluation "CONNECT method requires connect request type" else
  if connect then
    match splitConnectTarget hostname with
    | Err e => evaluationFromError (Some e)
    | Ok (normalizedHost, port) => evaluateConnect p normalizedHost port false
    end
  else
    match normalizePolicyHostname hostname with
    | Err e => evaluationFromError (Some e)
    | Ok normalizedHost => evaluate_loop (rules p) method normalizedHost ""
    end.

Definition pathReason (path : string) : string :=
  "path " +:+ Quote path +:+ " is not allowed by policy".

Fixpoint evaluateRequest_loop (rs : list compiledPolicyRule) (method host path : string)
    (req : PolicyRequest) (bodyTooLarge : bool) (firstReason : string) : policyEvaluation :=
  match rs with
  | [] =>
      if bodyTooLarge then deniedEvaluation "request body exceeds inspection limit"
      else denyWith firstReason "no policy rule matched request"
  | rule :: rs =>
      let next := evaluateRequest_loop rs method host path req in
      if hasConnectPorts rule then next bodyTooLarge firstReason else
      if negb (matchesMethod rule method)
      then next bodyTooLarge (keepFirst firstReason (methodReason method)) else
      let '(hostMatched, hostReason) := matchesHostDetailed rule host in
      if negb hostMatched then next bodyTooLarge (keepFirst firstReason hostReason) else
      if negb (matchesPath rule path)
      then next bodyTooLarge (keepFirst firstReason (pathReason path)) else
      let '(headersMatched, headersReason) := matchesHeadersDetailed rule (pq_Header req) in
      if negb headersMatched then next bodyTooLarge (keepFirst firstReason headersReason) else
      if pq_BodyTooLarge req && hasBodyPatterns rule then next true firstReason else
      let '(bodyMatched, bodyReason) := matchesBodyDetailed rule (pq_Body req) in
      if negb bodyMatched then next bodyTooLarge (keepFirst firstReason bodyReason)
      else allowedEvaluation
  end.

Definition requestPath (path : string) : string :=
  let path := TrimSpace path in if bool_decide (path = "") then "/" else path.

Definition evaluateRequest (p : compiledPolicy) (req : PolicyRequest) : policyEvaluation :=
  let method := normalize_method (pq_Method req) in
  if bool_decide (method = "") then deniedEvaluation "request method is required" else
  match normalizePolicyHostname (pq_Host req) with
  | Err e => evaluationFromError (Some e)
  | Ok normalizedHost =>
      evaluateRequest_loop (rules p) method normalizedHost (requestPath (pq_Path req)) req false ""
  end.

Fixpoint evaluateDNS_loop (rs : list compiledPolicyRule) (host firstReason : string)
    : policyEvaluation :=
  match rs with
  | [] => denyWith firstReason "no policy rule matched dns hostname"
  | rule :: rs =>
      if hasIPCIDRs rule || hasHTTPMethods rule || hasConnectPorts rule || hasPathPatterns rule
         || hasHeaderPatterns rule || hasBodyPatterns rule
      then evaluateDNS_loop rs host firstReason
      else
        let '(matched, reason) := matchesHostDetailed rule host in
        if negb matched then evaluateDNS_loop rs host (keepFirst firstReason reason)
        else allowedEvaluation
  end.

Definition normalizeDNSHost (host : string) : string := ToLower (TrimSpace (TrimSuffix host ".")).

Definition evaluateDNS (p : compiledPolicy) (host : string) : policyEvaluation :=
  let normalized := normalizeDNSHost host in
  if bool_decide (normalized = "") then deniedEvaluation "dns hostname is required"
  else evaluateDNS_loop (rules p) normalized "".

Definition Check (p : compiledPolicy) (method hostname : string) (connect : bool) : option string :=
  firstReasonAsError (evaluate p method hostname connect).
Definition CheckRequest (p : compiledPolicy) (req : PolicyRequest) : option string :=
  firstReasonAsError (evaluateRequest p req).
Definition CheckDNS (p : compiledPolicy) (host : string) : option string :=
  firstReasonAsError (evaluateDNS p host).
Definition CheckTransparentConnect (p : compiledPolicy) (host : string) : option string :=
  firstReasonAsError (evaluateConnect p host 0 true).

End policy.
