(* ===== verification/PolicySpec.v ===== *)
(** What a network policy means, stated on the rules the user writes, and the
    proof that compiling a policy and running the evaluation loops implements
    that meaning.

    [admits_request], [admits_connect], [admits_transparent] and [admits_dns]
    are the abstract specification: one existential over the rules, with no
    order, no accumulators and no compiled form. *)
From S2P Require Import Prelude GoStrings GoNet Policy.

Section spec.
Context `{GoLib}.

(** * The abstract specification *)

Definition pattern_hits (patterns : list string) (s : string) : Prop :=
  exists p re, p ∈ patterns /\ regexp_Compile p = Ok re /\ regexp_MatchString re s = true.

Definition host_admits (r : PolicyRule) (host : string) : Prop :=
  (HostPatterns r = [] \/ pattern_hits (HostPatterns r) host) /\
  (IPCIDRs r = [] \/
   exists ip cidr n, ParseIP host = Some ip /\ cidr ∈ IPCIDRs r /\
     ParseCIDR (TrimSpace cidr) = Ok n /\ IPNet_Contains n ip = true).

Definition method_admits (r : PolicyRule) (method : string) : Prop :=
  HTTPMethods r = [] \/ exists m, m ∈ HTTPMethods r /\ normalize_method m = method.

Definition port_admits (r : PolicyRule) (port : Z) : Prop :=
  exists spec range, spec ∈ ConnectPorts r /\ parseConnectPortSpec spec = Ok range /\
    pr_start range <= port <= pr_end range.

(** Pattern [p] is written for the header whose normalised name is [n]. *)
Definition header_source (hs : list (string * list string)) (n p : string) : Prop :=
  exists k vs, (k, vs) ∈ hs /\ normalize_header_name k = n /\ p ∈ vs.
Definition constrained_header (r : PolicyRule) : string -> string -> Prop :=
  header_source (HeaderPatterns r).

Definition headers_admit (r : PolicyRule) (headers : Header) : Prop :=
  forall name p, constrained_header r name p ->
    exists v q re, v ∈ default [] (normalizeHeaders headers !! name) /\
      constrained_header r name q /\ regexp_Compile q = Ok re /\ regexp_MatchString re v = true.

Definition no_headers (r : PolicyRule) : Prop := forall name p, ~ constrained_header r name p.

Definition rule_admits_request (r : PolicyRule) (method host path : string) (req : PolicyRequest)
    : Prop :=
  ConnectPorts r = [] /\ method_admits r method /\ host_admits r host /\
  (PathPatterns r = [] \/ pattern_hits (PathPatterns r) path) /\
  headers_admit r (pq_Header req) /\
  (BodyPatterns r = [] \/ pq_BodyTooLarge req = false /\ pattern_hits (BodyPatterns r) (pq_Body req)).

Definition admits_request (pol : NetworkPolicy) (req : PolicyRequest) : Prop :=
  normalize_method (pq_Method req) <> "" /\
  exists host r, normalizePolicyHostname (pq_Host req) = Ok host /\ r ∈ Rules pol /\
    rule_admits_request r (normalize_method (pq_Method req)) host (requestPath (pq_Path req)) req.

(** Only rules about hosts and ports speak about connections. *)
Definition connection_rule (r : PolicyRule) : Prop :=
  HTTPMethods r = [] /\ PathPatterns r = [] /\ no_headers r /\ BodyPatterns r = [].

Definition admits_connect (pol : NetworkPolicy) (host : string) (port : Z) : Prop :=
  ToLower (TrimSpace host) <> "" /\
  exists r, r ∈ Rules pol /\ connection_rule r /\
    host_admits r (ToLower (TrimSpace host)) /\ port_admits r port.

Definition admits_transparent (pol : NetworkPolicy) (host : string) : Prop :=
  exists h r, normalizePolicyHostname host = Ok h /\ r ∈ Rules pol /\ connection_rule r /\
    ConnectPorts r = [] /\ host_admits r h.

Definition admits_dns (pol : NetworkPolicy) (host : string) : Prop :=
  normalizeDNSHost host <> "" /\
  exists r, r ∈ Rules pol /\ connection_rule r /\ ConnectPorts r = [] /\ IPCIDRs r = [] /\
    (HostPatterns r = [] \/ pattern_hits (HostPatterns r) (normalizeDNSHost host)).

(** * Compilation preserves the meaning of each clause *)

Lemma matches_any_true res s :
  matches_any res s = true <-> exists re, re ∈ res /\ regexp_MatchString re s = true.
Proof.
  unfold matches_any. rewrite existsb_exists.
  by setoid_rewrite <- list_elem_of_In.
Qed.

Lemma Forall2_elem_l {A B} (R : A -> B -> Prop) l k x :
  Forall2 R l k -> x ∈ l -> exists y, y ∈ k /\ R x y.
Proof.
  intros F [i Hi]%list_elem_of_lookup.
  destruct (Forall2_lookup_l _ _ _ _ _ F Hi) as (y & Hy & HR).
  exists y. split; [|done]. by eapply list_elem_of_lookup_2.
Qed.

Lemma Forall2_elem_r {A B} (R : A -> B -> Prop) l k y :
  Forall2 R l k -> y ∈ k -> exists x, x ∈ l /\ R x y.
Proof. intros F Hy. apply (Forall2_elem_l (flip R) k l); [by apply Forall2_flip|done]. Qed.

Lemma compileRegexps_ok ps wrap res :
  compileRegexps ps wrap = Ok res -> Forall2 (fun p re => regexp_Compile p = Ok re) ps res.
Proof.
  unfold compileRegexps. rewrite result_map_ok. intros F. eapply Forall2_impl; [exact F|].
  intros p re. by rewrite result_wrap_ok.
Qed.

Lemma compileRegexps_hits ps wrap res s :
  compileRegexps ps wrap = Ok res -> matches_any res s = true <-> pattern_hits ps s.
Proof.
  intros F%compileRegexps_ok. rewrite matches_any_true. split.
  - intros (re & Hre & M). destruct (Forall2_elem_r _ _ _ _ F Hre) as (p & Hp & C).
    by exists p, re.
  - intros (p & re & Hp & C & M). destruct (Forall2_elem_l _ _ _ _ F Hp) as (re' & Hre & C').
    exists re'. split; [done|]. congruence.
Qed.

Lemma compileRegexps_length ps wrap res :
  compileRegexps ps wrap = Ok res -> length res = length ps.
Proof. apply result_map_length. Qed.

Lemma foldl_err {A B} (f : A -> B -> result A) l e :
  foldl (fun acc x => a <-! acc; f a x) (Err e) l = Err e.
Proof. by induction l. Qed.

Lemma compileMethods_elem_go index ms (set0 : gset string) set :
  foldl (fun acc method =>
           s <-! acc;
           if bool_decide (normalize_method method = "")
           then Err ("rule " +:+ Itoa index +:+ " HTTP method cannot be empty")
           else Ok ({[normalize_method method]} ∪ s)) (Ok set0) ms = Ok set ->
  forall m, m ∈ set <-> m ∈ set0 \/ exists x, x ∈ ms /\ normalize_method x = m.
Proof.
  revert set0. induction ms as [|x ms IH]; intros set0; simpl.
  - intros [= <-] m. set_solver.
  - case_bool_decide.
    + by rewrite (foldl_err (fun s method => if bool_decide (normalize_method method = "") then _ else _)).
    + intros E m. rewrite (IH _ E). set_solver.
Qed.

Lemma compileMethods_elem index ms set m :
  compileMethods index ms = Ok set -> m ∈ set <-> exists x, x ∈ ms /\ normalize_method x = m.
Proof. intros E. rewrite (compileMethods_elem_go index ms ∅ set E). set_solver. Qed.

Lemma compileHeaderValues_elem index name n vs m m' :
  compileHeaderValues index name n vs m = Ok m' ->
  (forall k re, re ∈ default [] (m' !! k) <->
     re ∈ default [] (m !! k) \/ k = n /\ exists p, p ∈ vs /\ regexp_Compile p = Ok re) /\
  (forall k, is_Some (m' !! k) <-> is_Some (m !! k) \/ k = n /\ vs <> []).
Proof.
  unfold compileHeaderValues. revert m. induction vs as [|p vs IH]; intros m; simpl.
  - intros [= <-]. split; set_solver.
  - destruct (regexp_Compile p) as [re0|e] eqn:C; simpl.
    2: { by rewrite (foldl_err (fun m pattern => re <-! _; _)). }
    intros E. destruct (IH _ E) as [I1 I2]. split.
    + intros k re. rewrite I1. destruct (decide (k = n)) as [->|Hk].
      * rewrite lookup_insert_eq. simpl. rewrite elem_of_app, list_elem_of_singleton.
        setoid_rewrite elem_of_cons. clear I1 I2 IH E. split.
        -- intros [[?| ->]|[_ (q & ? & ?)]]; eauto 6.
        -- intros [?|[_ (q & [->|?] & Cq)]]; [by eauto| |by eauto].
           left; right. congruence.
      * rewrite lookup_insert_ne by done. clear I1 I2 IH E. naive_solver.
    + intros k. rewrite I2. destruct (decide (k = n)) as [->|Hk].
      * rewrite lookup_insert_eq. clear I1 I2 IH E. naive_solver.
      * rewrite lookup_insert_ne by done. clear I1 I2 IH E. naive_solver.
Qed.

Lemma header_source_cons k vs hs n p :
  header_source ((k, vs) :: hs) n p <->
  (normalize_header_name k = n /\ p ∈ vs) \/ header_source hs n p.
Proof. unfold header_source. setoid_rewrite elem_of_cons. naive_solver. Qed.

Lemma compileHeaderPatterns_go index hs m m' :
  foldl (fun acc '(headerName, values) =>
           m <-! acc;
           if bool_decide (normalize_header_name headerName = "")
           then Err ("rule " +:+ Itoa index +:+ " header pattern name cannot be empty")
           else compileHeaderValues index headerName (normalize_header_name headerName) values m)
        (Ok m) hs = Ok m' ->
  (forall k re, re ∈ default [] (m' !! k) <->
     re ∈ default [] (m !! k) \/ exists p, header_source hs k p /\ regexp_Compile p = Ok re) /\
  (forall k, is_Some (m' !! k) <-> is_Some (m !! k) \/ exists p, header_source hs k p).
Proof.
  revert m. induction hs as [|[k0 vs] hs IH]; intros m; simpl.
  - intros [= <-]. unfold header_source. setoid_rewrite elem_of_nil. naive_solver.
  - case_bool_decide as N.
    { intros E. exfalso. revert E. clear. by induction hs as [|[]]. }
    destruct (compileHeaderValues index k0 _ vs m) as [m1|e] eqn:E1.
    2: { intros E. exfalso. revert E. clear. by induction hs as [|[]]. }
    intros E. destruct (IH _ E) as [I1 I2]. apply compileHeaderValues_elem in E1 as [J1 J2]. split.
    + intros k re. rewrite I1, J1. setoid_rewrite header_source_cons. clear I1 I2 J1 J2 IH E. naive_solver.
    + intros k. rewrite I2, J2. setoid_rewrite header_source_cons.
      assert (V : vs <> [] <-> exists p, p ∈ vs).
      { destruct vs; [set_solver|]. split; [|done]. intros _. eexists. apply list_elem_of_here. }
      rewrite V. clear I1 I2 J1 J2 IH E V. naive_solver.
Qed.

Lemma compileHeaderPatterns_ok index hs m :
  compileHeaderPatterns index hs = Ok m ->
  (forall k re, re ∈ default [] (m !! k) <->
     exists p, header_source hs k p /\ regexp_Compile p = Ok re) /\
  (forall k, is_Some (m !! k) <-> exists p, header_source hs k p).
Proof.
  intros [I1 I2]%compileHeaderPatterns_go. split.
  - intros k re. rewrite I1, lookup_empty. simpl. rewrite elem_of_nil. clear I1 I2. naive_solver.
  - intros k. rewrite I2, lookup_empty, is_Some_alt. clear I1 I2. naive_solver.
Qed.

(** [c] is a compiled form of [r], clause by clause. *)
Record compiled_as (r : PolicyRule) (c : compiledPolicyRule) : Prop := {
  ca_methods m : m ∈ httpMethods c <-> exists x, x ∈ HTTPMethods r /\ normalize_method x = m;
  ca_hosts s : matches_any (hostPatterns c) s = true <-> pattern_hits (HostPatterns r) s;
  ca_hosts_len : length (hostPatterns c) = length (HostPatterns r);
  ca_cidrs : Forall2 (fun x n => ParseCIDR (TrimSpace x) = Ok n) (IPCIDRs r) (ipCIDRs c);
  ca_ports : Forall2 (fun x n => parseConnectPortSpec x = Ok n) (ConnectPorts r) (connectPorts c);
  ca_paths s : matches_any (pathPatterns c) s = true <-> pattern_hits (PathPatterns r) s;
  ca_paths_len : length (pathPatterns c) = length (PathPatterns r);
  ca_header_res k re : re ∈ default [] (headerPatterns c !! k) <->
    exists p, constrained_header r k p /\ regexp_Compile p = Ok re;
  ca_header_dom k : is_Some (headerPatterns c !! k) <-> exists p, constrained_header r k p;
  ca_bodies s : matches_any (bodyPatterns c) s = true <-> pattern_hits (BodyPatterns r) s;
  ca_bodies_len : length (bodyPatterns c) = length (BodyPatterns r);
}.

Lemma result_map_wrap_ok {A B} (f : A -> result B) (w : A -> string -> string) l k :
  result_map (fun x => result_wrap (w x) (f x)) l = Ok k -> Forall2 (fun x y => f x = Ok y) l k.
Proof.
  rewrite result_map_ok. intros F. eapply Forall2_impl; [exact F|].
  intros x y. by rewrite result_wrap_ok.
Qed.

Lemma compilePolicyRule_as i r c : compilePolicyRule i r = Ok c -> compiled_as r c.
Proof.
  unfold compilePolicyRule. repeat setoid_rewrite result_bind_ok.
  intros (ms & Hms & hs & Hhs & cs & Hcs & ps & Hps & pts & Hpts & hd & Hhd & bs & Hbs & [= <-]).
  apply compileHeaderPatterns_ok in Hhd as [Hd1 Hd2].
  constructor; simpl; try done.
  - intros m. by apply (compileMethods_elem i).
  - intros s. by eapply compileRegexps_hits.
  - by eapply compileRegexps_length.
  - by eapply result_map_wrap_ok.
  - by eapply result_map_wrap_ok.
  - intros s. by eapply compileRegexps_hits.
  - by eapply compileRegexps_length.
  - intros s. by eapply compileRegexps_hits.
  - by eapply compileRegexps_length.
Qed.

Lemma compileRules_as i rs cs : compileRules i rs = Ok cs -> Forall2 compiled_as rs cs.
Proof.
  revert i cs. induction rs as [|r rs IH]; intros i cs; simpl.
  - by intros [= <-].
  - rewrite result_bind_ok. intros (c & Hc & E). apply result_bind_ok in E as (cs' & Hcs & [= <-]).
    constructor; [by eapply compilePolicyRule_as|by eapply IH].
Qed.

Lemma compilePolicy_as pol p : compilePolicy pol = Ok p -> Forall2 compiled_as (Rules pol) (rules p).
Proof.
  unfold compilePolicy. rewrite result_bind_ok. intros (rs & E & [= <-]). by eapply compileRules_as.
Qed.

(** ** The tests on a compiled rule decide the clauses of its source *)

Section clauses.
Context (r : PolicyRule) (c : compiledPolicyRule) (CA : compiled_as r c).

Lemma hasConnectPorts_false : hasConnectPorts c = false <-> ConnectPorts r = [].
Proof.
  unfold hasConnectPorts. rewrite negb_false_iff, bool_decide_eq_true.
  rewrite <- length_zero_iff_nil. by rewrite (Forall2_length _ _ _ (ca_ports _ _ CA)).
Qed.

Lemma hasIPCIDRs_false : hasIPCIDRs c = false <-> IPCIDRs r = [].
Proof.
  unfold hasIPCIDRs. rewrite negb_false_iff, bool_decide_eq_true.
  rewrite <- length_zero_iff_nil. by rewrite (Forall2_length _ _ _ (ca_cidrs _ _ CA)).
Qed.

Lemma hasPathPatterns_false : hasPathPatterns c = false <-> PathPatterns r = [].
Proof.
  unfold hasPathPatterns. rewrite (ca_paths_len _ _ CA), negb_false_iff, bool_decide_eq_true.
  by rewrite length_zero_iff_nil.
Qed.

Lemma hasBodyPatterns_false : hasBodyPatterns c = false <-> BodyPatterns r = [].
Proof.
  unfold hasBodyPatterns. rewrite (ca_bodies_len _ _ CA), negb_false_iff, bool_decide_eq_true.
  by rewrite length_zero_iff_nil.
Qed.

Lemma hasHTTPMethods_false : hasHTTPMethods c = false <-> HTTPMethods r = [].
Proof.
  unfold hasHTTPMethods. rewrite negb_false_iff, bool_decide_eq_true, size_empty_iff, leibniz_equiv_iff. split.
  - intros E. destruct (HTTPMethods r) as [|m ms] eqn:Hm; [done|]. exfalso.
    assert (M : normalize_method m ∈ httpMethods c); [|set_solver].
    apply (ca_methods _ _ CA). exists m. rewrite Hm. set_solver.
  - intros E. apply set_eq. intros m. rewrite (ca_methods _ _ CA), E. set_solver.
Qed.

Lemma hasHeaderPatterns_false : hasHeaderPatterns c = false <-> no_headers r.
Proof.
  unfold hasHeaderPatterns. rewrite negb_false_iff, bool_decide_eq_true, map_size_empty_iff.
  split.
  - intros E n p Hp. assert (S : is_Some (headerPatterns c !! n)) by (apply (ca_header_dom _ _ CA); eauto).
    rewrite E, lookup_empty in S. by destruct S.
  - intros N. apply map_eq. intros n. rewrite lookup_empty. apply eq_None_not_Some.
    rewrite (ca_header_dom _ _ CA). intros [p Hp]. by eapply N.
Qed.

Lemma matchesMethod_true m : matchesMethod c m = true <-> method_admits r m.
Proof.
  unfold matchesMethod, method_admits.
  rewrite orb_true_iff, negb_true_iff, hasHTTPMethods_false, bool_decide_eq_true.
  by rewrite (ca_methods _ _ CA).
Qed.

Lemma matchesPath_true path :
  matchesPath c path = true <-> PathPatterns r = [] \/ pattern_hits (PathPatterns r) path.
Proof.
  unfold matchesPath.
  by rewrite orb_true_iff, bool_decide_eq_true, (ca_paths_len _ _ CA), length_zero_iff_nil, (ca_paths _ _ CA).
Qed.

Lemma matchesHostDetailed_true h : (matchesHostDetailed c h).1 = true <-> host_admits r h.
Proof.
  unfold matchesHostDetailed, host_admits.
  rewrite <- (ca_hosts _ _ CA), (ca_hosts_len _ _ CA), <- length_zero_iff_nil.
  rewrite <- (length_zero_iff_nil (IPCIDRs r)), (Forall2_length _ _ _ (ca_cidrs _ _ CA)).
  destruct (bool_decide (length (HostPatterns r) = O) || matches_any (hostPatterns c) h) eqn:Hh; simpl;
    rewrite ?orb_true_iff, ?orb_false_iff, ?bool_decide_eq_true, ?bool_decide_eq_false in Hh.
  2: { destruct (matches_any (hostPatterns c) h); naive_solver. }
  case_bool_decide as Hc; simpl; [naive_solver|].
  destruct (ParseIP h) as [ip|]; simpl; [|naive_solver].
  destruct (existsb (λ network, IPNet_Contains network ip) (ipCIDRs c)) eqn:Hex; simpl.
  - apply existsb_exists in Hex as (n & Hn & Cn). apply list_elem_of_In in Hn.
    destruct (Forall2_elem_r _ _ _ _ (ca_cidrs _ _ CA) Hn) as (x & Hx & Px). naive_solver.
  - split; [done|]. intros [_ [?|(ip' & x & n & [= <-] & Hx & Px & Cn)]]; [done|].
    destruct (Forall2_elem_l _ _ _ _ (ca_cidrs _ _ CA) Hx) as (n' & Hn' & Px').
    assert (existsb (λ network, IPNet_Contains network ip) (ipCIDRs c) = true); [|congruence].
    apply existsb_exists. exists n'. rewrite <- list_elem_of_In. split; [done|congruence].
Qed.

Lemma matchHeaderNames_true normalized names :
  (matchHeaderNames c normalized names).1 = true <->
  forall n, n ∈ names -> headerMatched normalized n (default [] (headerPatterns c !! n)) = true.
Proof.
  induction names as [|n names IH]; simpl; [set_solver|].
  destruct (headerMatched normalized n _) eqn:E; simpl.
  - rewrite IH. set_solver.
  - split; [done|]. intros F. rewrite F in E by set_solver. done.
Qed.

Lemma matchesHeadersDetailed_true hdr :
  (matchesHeadersDetailed c hdr).1 = true <-> headers_admit r hdr.
Proof.
  unfold matchesHeadersDetailed. destruct (hasHeaderPatterns c) eqn:Hh; simpl.
  2: { apply hasHeaderPatterns_false in Hh. split; [|done]. intros _ n p Hp. by destruct (Hh n p). }
  rewrite matchHeaderNames_true. unfold headers_admit, headerMatched.
  setoid_rewrite merge_sort_Permutation. setoid_rewrite elem_of_elements.
  setoid_rewrite elem_of_dom. setoid_rewrite (ca_header_dom _ _ CA).
  setoid_rewrite existsb_exists. setoid_rewrite <- list_elem_of_In.
  setoid_rewrite matches_any_true. setoid_rewrite (ca_header_res _ _ CA).
  split.
  - intros F n p Hp. destruct (F n (ex_intro _ p Hp)) as (v & Hv & re & (q & Hq & Cq) & M).
    by exists v, q, re.
  - intros F n [p Hp]. destruct (F n p Hp) as (v & q & re & Hv & Hq & Cq & M).
    exists v. split; [done|]. exists re. split; [by exists q|done].
Qed.

Lemma matchesBodyDetailed_true body :
  (matchesBodyDetailed c body).1 = true <-> BodyPatterns r = [] \/ pattern_hits (BodyPatterns r) body.
Proof.
  unfold matchesBodyDetailed. destruct (hasBodyPatterns c) eqn:Hb; simpl.
  - rewrite <- (ca_bodies _ _ CA). destruct (matches_any (bodyPatterns c) body); simpl; [naive_solver|].
    split; [done|]. rewrite <- hasBodyPatterns_false. naive_solver congruence.
  - rewrite hasBodyPatterns_false in Hb. naive_solver.
Qed.

Lemma connection_rule_test :
  hasHTTPMethods c || hasPathPatterns c || hasHeaderPatterns c || hasBodyPatterns c = false <->
  connection_rule r.
Proof.
  unfold connection_rule. rewrite !orb_false_iff.
  rewrite hasHTTPMethods_false, hasPathPatterns_false, hasHeaderPatterns_false, hasBodyPatterns_false.
  tauto.
Qed.

Lemma matchConnectPort_true port : matchConnectPort (connectPorts c) port = true <-> port_admits r port.
Proof.
  assert (M : forall l, matchConnectPort l port = true <->
            exists x, x ∈ l /\ pr_start x <= port <= pr_end x).
  { induction l as [|x l IH]; simpl; [set_solver|].
    destruct (_ && _) eqn:E; to_prop.
    - split; [|done]. intros _. exists x. set_solver.
    - rewrite IH. setoid_rewrite elem_of_cons. split; [naive_solver|].
      intros (y & [->|?] & ?); [lia|eauto]. }
  rewrite M. unfold port_admits. split.
  - intros (x & Hx & B). destruct (Forall2_elem_r _ _ _ _ (ca_ports _ _ CA) Hx) as (s & Hs & P).
    by exists s, x.
  - intros (s & x & Hs & P & B). destruct (Forall2_elem_l _ _ _ _ (ca_ports _ _ CA) Hs) as (y & Hy & P').
    exists y. split; [done|]. assert (y = x) by congruence. by subst.
Qed.

Lemma port_admits_nonempty port : port_admits r port -> length (connectPorts c) <> O.
Proof.
  intros (s & x & Hs & _) L. destruct (Forall2_elem_l _ _ _ _ (ca_ports _ _ CA) Hs) as (y & Hy & _).
  apply nil_length_inv in L. rewrite L in Hy. set_solver.
Qed.
End clauses.

(** ** The loops find a rule exactly when there is one *)

Lemma Exists_compiled (P : PolicyRule -> Prop) (Q : compiledPolicyRule -> Prop) rs cs :
  Forall2 compiled_as rs cs -> (forall r c, compiled_as r c -> Q c <-> P r) ->
  Exists Q cs <-> exists r, r ∈ rs /\ P r.
Proof.
  intros F E. induction F as [|r c rs cs CA F IH].
  - rewrite Exists_nil. set_solver.
  - rewrite Exists_cons, IH, (E r c CA). setoid_rewrite elem_of_cons. naive_solver.
Qed.

Lemma denyWith_denied a b : Allowed (denyWith a b) = false.
Proof. unfold denyWith. by case_bool_decide. Qed.

Definition request_test (method host path : string) (req : PolicyRequest) (c : compiledPolicyRule) : Prop :=
  hasConnectPorts c = false /\ matchesMethod c method = true /\
  (matchesHostDetailed c host).1 = true /\ matchesPath c path = true /\
  (matchesHeadersDetailed c (pq_Header req)).1 = true /\
  (pq_BodyTooLarge req && hasBodyPatterns c = false) /\ (matchesBodyDetailed c (pq_Body req)).1 = true.

Lemma evaluateRequest_loop_true cs method host path req large reason :
  Allowed (evaluateRequest_loop cs method host path req large reason) = true <->
  Exists (request_test method host path req) cs.
Proof.
  revert large reason. induction cs as [|c cs IH]; intros large reason; simpl.
  - rewrite Exists_nil. destruct large; simpl; rewrite ?denyWith_denied; naive_solver.
  - rewrite Exists_cons. unfold request_test at 1.
    destruct (hasConnectPorts c); [rewrite IH; naive_solver|].
    destruct (matchesMethod c method); simpl; [|rewrite IH; naive_solver].
    destruct (matchesHostDetailed c host) as [[] hr]; simpl; [|rewrite IH; naive_solver].
    destruct (matchesPath c path); simpl; [|rewrite IH; naive_solver].
    destruct (matchesHeadersDetailed c _) as [[] hhr]; simpl; [|rewrite IH; naive_solver].
    destruct (pq_BodyTooLarge req && hasBodyPatterns c); [rewrite IH; naive_solver|].
    destruct (matchesBodyDetailed c _) as [[] br]; simpl; [naive_solver|rewrite IH; naive_solver].
Qed.

Lemma request_test_spec r c method host path req :
  compiled_as r c ->
  request_test method host path req c <-> rule_admits_request r method host path req.
Proof.
  intros CA. unfold request_test, rule_admits_request.
  rewrite (hasConnectPorts_false r c CA), (matchesMethod_true r c CA), (matchesHostDetailed_true r c CA),
    (matchesPath_true r c CA), (matchesHeadersDetailed_true r c CA), (matchesBodyDetailed_true r c CA).
  rewrite andb_false_iff, (hasBodyPatterns_false r c CA).
  destruct (pq_BodyTooLarge req); naive_solver.
Qed.

Definition connect_test (host : string) (port : Z) (transparent : bool) (c : compiledPolicyRule) : Prop :=
  hasHTTPMethods c || hasPathPatterns c || hasHeaderPatterns c || hasBodyPatterns c = false /\
  transparent && hasConnectPorts c = false /\ (matchesHostDetailed c host).1 = true /\
  (transparent = true \/ length (connectPorts c) <> O /\ matchConnectPort (connectPorts c) port = true).

Lemma evaluateConnect_loop_true cs host port tr reason :
  Allowed (evaluateConnect_loop cs host port tr reason) = true <-> Exists (connect_test host port tr) cs.
Proof.
  revert reason. induction cs as [|c cs IH]; intros reason; simpl.
  - by rewrite Exists_nil, denyWith_denied.
  - rewrite Exists_cons. unfold connect_test at 1.
    destruct (hasHTTPMethods c || _ || _ || _); [rewrite IH; naive_solver|].
    destruct (tr && hasConnectPorts c); [rewrite IH; naive_solver|].
    destruct (matchesHostDetailed c host) as [[] hr]; simpl; [|rewrite IH; naive_solver].
    destruct tr; simpl; [naive_solver|].
    case_bool_decide; simpl; [rewrite IH; naive_solver|].
    destruct (matchConnectPort _ _); simpl; [naive_solver|rewrite IH; naive_solver].
Qed.

Lemma connect_test_proxy r c host port :
  compiled_as r c ->
  connect_test host port false c <-> connection_rule r /\ host_admits r host /\ port_admits r port.
Proof.
  intros CA. unfold connect_test.
  rewrite (connection_rule_test r c CA), (matchesHostDetailed_true r c CA), (matchConnectPort_true r c CA).
  split; [naive_solver|]. intros (? & ? & P). do 3 (split; [done|]). right.
  split; [by eapply port_admits_nonempty|done].
Qed.

Lemma connect_test_transparent r c host port :
  compiled_as r c ->
  connect_test host port true c <-> connection_rule r /\ ConnectPorts r = [] /\ host_admits r host.
Proof.
  intros CA. unfold connect_test. simpl.
  rewrite (connection_rule_test r c CA), (matchesHostDetailed_true r c CA), (hasConnectPorts_false r c CA).
  naive_solver.
Qed.

Definition dns_test (host : string) (c : compiledPolicyRule) : Prop :=
  hasIPCIDRs c || hasHTTPMethods c || hasConnectPorts c || hasPathPatterns c
    || hasHeaderPatterns c || hasBodyPatterns c = false /\ (matchesHostDetailed c host).1 = true.

Lemma evaluateDNS_loop_true cs host reason :
  Allowed (evaluateDNS_loop cs host reason) = true <-> Exists (dns_test host) cs.
Proof.
  revert reason. induction cs as [|c cs IH]; intros reason; simpl.
  - by rewrite Exists_nil, denyWith_denied.
  - rewrite Exists_cons. unfold dns_test at 1.
    destruct (hasIPCIDRs c || _ || _ || _ || _ || _); [rewrite IH; naive_solver|].
    destruct (matchesHostDetailed c host) as [[] hr]; simpl; [naive_solver|rewrite IH; naive_solver].
Qed.

Lemma dns_test_spec r c host :
  compiled_as r c ->
  dns_test host c <-> connection_rule r /\ ConnectPorts r = [] /\ IPCIDRs r = [] /\
    (HostPatterns r = [] \/ pattern_hits (HostPatterns r) host).
Proof.
  intros CA. unfold dns_test, connection_rule. rewrite (matchesHostDetailed_true r c CA). unfold host_admits.
  rewrite !orb_false_iff, (hasIPCIDRs_false r c CA), (hasHTTPMethods_false r c CA),
    (hasConnectPorts_false r c CA), (hasPathPatterns_false r c CA), (hasHeaderPatterns_false r c CA),
    (hasBodyPatterns_false r c CA).
  naive_solver.
Qed.

(** * The evaluators decide what the written policy admits *)

Lemma evaluateRequest_iff pol p req :
  compilePolicy pol = Ok p ->
  Allowed (evaluateRequest p req) = true <-> admits_request pol req.
Proof.
  intros C%compilePolicy_as. unfold evaluateRequest, admits_request.
  case_bool_decide as M; simpl; [naive_solver|].
  destruct (normalizePolicyHostname (pq_Host req)) as [host|e]; simpl; [|naive_solver].
  rewrite evaluateRequest_loop_true.
  rewrite (Exists_compiled _ _ _ _ C (fun r c CA => request_test_spec r c _ host _ req CA)).
  naive_solver.
Qed.

Lemma evaluateConnect_iff pol p host port :
  compilePolicy pol = Ok p ->
  Allowed (evaluateConnect p host port false) = true <-> admits_connect pol host port.
Proof.
  intros C%compilePolicy_as. unfold evaluateConnect, admits_connect.
  case_bool_decide as M; simpl; [naive_solver|].
  rewrite evaluateConnect_loop_true.
  rewrite (Exists_compiled _ _ _ _ C (fun r c CA => connect_test_proxy r c _ port CA)).
  naive_solver.
Qed.

Lemma evaluateTransparent_iff pol p host port :
  compilePolicy pol = Ok p ->
  Allowed (evaluateConnect p host port true) = true <-> admits_transparent pol host.
Proof.
  intros C%compilePolicy_as. unfold evaluateConnect, admits_transparent.
  destruct (normalizePolicyHostname host) as [h|e]; simpl; [|naive_solver].
  rewrite evaluateConnect_loop_true.
  rewrite (Exists_compiled _ _ _ _ C (fun r c CA => connect_test_transparent r c h port CA)).
  naive_solver.
Qed.

Lemma evaluateDNS_iff pol p host :
  compilePolicy pol = Ok p ->
  Allowed (evaluateDNS p host) = true <-> admits_dns pol host.
Proof.
  intros C%compilePolicy_as. unfold evaluateDNS, admits_dns.
  case_bool_decide as M; simpl; [naive_solver|].
  rewrite evaluateDNS_loop_true.
  rewrite (Exists_compiled _ _ _ _ C (fun r c CA => dns_test_spec r c _ CA)).
  naive_solver.
Qed.
End spec.
