(* ===== verification/Sample.v ===== *)
(** A concrete [GoLib], used to evaluate the definitions on concrete inputs: a
    small regular expression engine (literals, '.', one-character classes,
    backslash escapes, '*', '^' and '$') and case tables that leave non-ASCII
    bytes alone. No theorem depends on it; only the witnesses do. *)
From S2P Require Import Prelude GoStrings.

Inductive token := Lit (c : Ascii.ascii) | Any.
Record pattern := { at_start : bool; tokens : list (token * bool); at_end : bool }.

Definition token_matches (t : token) (c : Ascii.ascii) : bool :=
  match t with Lit d => bool_decide (c = d) | Any => true end.

Fixpoint match_here (ts : list (token * bool)) (eos : bool) (s : string) : bool :=
  match ts with
  | [] => negb eos || bool_decide (s = "")
  | (t, false) :: ts =>
      match s with
      | "" => false
      | String c s => token_matches t c && match_here ts eos s
      end
  | (t, true) :: ts =>
      (fix star (s : string) : bool :=
         match_here ts eos s ||
         match s with
         | "" => false
         | String c s => token_matches t c && star s
         end) s
  end.
Fixpoint match_anywhere (p : pattern) (s : string) : bool :=
  match_here (tokens p) (at_end p) s ||
  match s with
  | "" => false
  | String _ s => match_anywhere p s
  end.
Definition sample_match (p : pattern) (s : string) : bool :=
  if at_start p then match_here (tokens p) (at_end p) s else match_anywhere p s.

Definition add_token (t : token) (s : string) (r : result pattern) : result pattern :=
  p <-! r;
  Ok {| at_start := false; tokens := (t, HasPrefix s "*") :: tokens p; at_end := at_end p |}.
Fixpoint compile_tokens (s : string) : result pattern :=
  match s with
  | "" => Ok {| at_start := false; tokens := []; at_end := false |}
  | "$" => Ok {| at_start := false; tokens := []; at_end := true |}
  | String "*" s => compile_tokens s
  | String "." s => add_token Any s (compile_tokens s)
  | String "\" (String c s) => add_token (Lit c) s (compile_tokens s)
  | String "[" (String c (String "]" s)) => add_token (Lit c) s (compile_tokens s)
  | String c s =>
      if existsb (fun d => bool_decide (c = d)) ["["; "("; ")"; "|"; "+"; "?"; "{"]%char
      then Err "unsupported pattern" else add_token (Lit c) s (compile_tokens s)
  end.
Definition sample_compile (s : string) : result pattern :=
  match s with
  | String "^" s =>
      p <-! compile_tokens s;
      Ok {| at_start := true; tokens := tokens p; at_end := at_end p |}
  | _ => compile_tokens s
  end.

Definition sampleLib : GoLib := {|
  unicode_ToLower := string_map lower_char;
  unicode_ToUpper := string_map upper_char;
  unicode_Quote s := str1 34 +:+ s +:+ str1 34;
  regexp := pattern;
  regexp_Compile := sample_compile;
  regexp_MatchString := sample_match;
|}.

(** The result of a computation known to succeed. *)
Definition the {A} (d : A) (m : result A) : A := match m with Ok a => a | Err _ => d end.

Lemma the_ok {A} (d : A) (m : result A) : is_ok m = true -> m = Ok (the d m).
Proof. by destruct m. Qed.

(** Discharge a hypothesis of a witness by evaluation. *)
Ltac eval_ok := first [apply the_ok; vm_compute; reflexivity | vm_compute; reflexivity].
