(* ===== verification/PolicyTheorems.v ===== *)
(** The theorems about the network policy, with their witnesses. *)
From S2P Require Import Prelude GoStrings GoNet Policy PolicySpec Sample.

Section theorems.
Context `{GoLib}.

(** C1. Refinement of HTTP(S) request evaluation: after a policy compiled,
    [evaluateRequest] allows a request if and only if some rule of the policy
    as the user wrote it admits it: no connect ports, method, normalised host,
    path, every constrained header and (unless it was too large to inspect)
    the body all match. *)
Theorem evaluateRequest_refines pol p req :
  compilePolicy pol = Ok p ->
  Allowed (evaluateRequest p req) = true <-> admits_request pol req.
Proof. apply evaluateRequest_iff. Qed.

(** Refinement of explicit CONNECT evaluation: a host and port are allowed
    if and only if a rule that constrains only hosts and ports lists the port
    and matches the host. A rule without connect ports never allows CONNECT. *)
Theorem evaluateConnect_refines pol p host port :
  compilePolicy pol = Ok p ->
  Allowed (evaluateConnect p host port false) = true <-> admits_connect pol host port.
Proof. apply evaluateConnect_iff. Qed.

(** Refinement of transparent connection evaluation: the destination is
    allowed if and only if it normalises and a rule that constrains only hosts
    (no ports, methods, paths, headers or bodies) matches it; the port plays no
    part. *)
Theorem evaluateTransparent_refines pol p host port :
  compilePolicy pol = Ok p ->
  Allowed (evaluateConnect p host port true) = true <-> admits_transparent pol host.
Proof. apply evaluateTransparent_iff. Qed.

(** Refinement of DNS evaluation: a name is allowed if and only if it is
    not empty and a rule with nothing but host patterns matches it. *)
Theorem evaluateDNS_refines pol p host :
  compilePolicy pol = Ok p ->
  Allowed (evaluateDNS p host) = true <-> admits_dns pol host.
Proof. apply evaluateDNS_iff. Qed.

(** The four evaluators produce either the allowing evaluation or a denial
    with one reason. *)
Definition well_formed (e : policyEvaluation) : Prop :=
  e = allowedEvaluation \/ exists reason, e = deniedEvaluation reason.

Lemma denyWith_wf a b : well_formed (denyWith a b).
Proof. unfold denyWith, well_formed. case_bool_decide; eauto. Qed.

Lemma evaluateConnect_loop_wf rs h port tr reason :
  well_formed (evaluateConnect_loop rs h port tr reason).
Proof.
  revert reason. induction rs as [|r rs IH]; intros reason; simpl; [apply denyWith_wf|].
  split_all; auto; by left.
Qed.

Lemma evaluateConnect_wf p host port tr : well_formed (evaluateConnect p host port tr).
Proof.
  unfold evaluateConnect, evaluationFromError.
  split_all; auto using evaluateConnect_loop_wf; right; eauto.
Qed.

Lemma evaluate_wf p method hostname connect : well_formed (evaluate p method hostname connect).
Proof.
  assert (L : forall rs m h reason, well_formed (evaluate_loop rs m h reason)).
  { induction rs as [|r rs IH]; intros m h reason; simpl; [apply denyWith_wf|].
    split_all; auto; by left. }
  unfold evaluate, evaluationFromError.
  split_all; auto using evaluateConnect_loop_wf; right; eauto.
Qed.

Lemma evaluateRequest_wf p req : well_formed (evaluateRequest p req).
Proof.
  assert (L : forall rs m h path large reason,
             well_formed (evaluateRequest_loop rs m h path req large reason)).
  { induction rs as [|r rs IH]; intros m h path large reason; simpl.
    - destruct large; [right; eauto|apply denyWith_wf].
    - split_all; auto; by left. }
  unfold evaluateRequest, evaluationFromError. split_all; auto; right; eauto.
Qed.

Lemma evaluateDNS_wf p host : well_formed (evaluateDNS p host).
Proof.
  assert (L : forall rs h reason, well_formed (evaluateDNS_loop rs h reason)).
  { induction rs as [|r rs IH]; intros h reason; simpl; [apply denyWith_wf|].
    split_all; auto; by left. }
  unfold evaluateDNS. split_all; auto; right; eauto.
Qed.

(** Every evaluation is either an allow with no reasons or a denial with
    exactly one reason, so the public checks return an error exactly for the
    denials and that error is the recorded reason: the fallback text of
    [firstReasonAsError] is never used. *)
Theorem evaluations_carry_one_reason p method host connect port tr req :
  Forall (fun e => if Allowed e then Reasons e = [] /\ firstReasonAsError e = None
                   else exists reason, Reasons e = [reason] /\ firstReasonAsError e = Some reason)
    [evaluate p method host connect; evaluateConnect p host port tr;
     evaluateRequest p req; evaluateDNS p host].
Proof.
  repeat constructor;
    [destruct (evaluate_wf p method host connect) as [->|[? ->]]
    |destruct (evaluateConnect_wf p host port tr) as [->|[? ->]]
    |destruct (evaluateRequest_wf p req) as [->|[? ->]]
    |destruct (evaluateDNS_wf p host) as [->|[? ->]]]; simpl; eauto.
Qed.

(** Policies are monotone and unordered: a policy that contains every rule
    of another one allows everything the other one allows, for requests,
    CONNECTs, transparent connections and names alike. *)
Theorem policy_monotone pol pol' p p' req host port :
  compilePolicy pol = Ok p -> compilePolicy pol' = Ok p' -> Rules pol ⊆ Rules pol' ->
  (Allowed (evaluateRequest p req) = true -> Allowed (evaluateRequest p' req) = true) /\
  (Allowed (evaluateConnect p host port false) = true ->
     Allowed (evaluateConnect p' host port false) = true) /\
  (Allowed (evaluateConnect p host port true) = true ->
     Allowed (evaluateConnect p' host port true) = true) /\
  (Allowed (evaluateDNS p host) = true -> Allowed (evaluateDNS p' host) = true).
Proof.
  intros C C' S. apply compilePolicy_as in C, C'.
  assert (E : forall Q, (exists c, c ∈ rules p /\ Q c) -> forall (P : PolicyRule -> Prop),
            (forall r c, compiled_as r c -> Q c <-> P r) -> exists c, c ∈ rules p' /\ Q c).
  { intros Q (c & Hc & Qc) P PQ. destruct (Forall2_elem_r _ _ _ _ C Hc) as (r & Hr & CA).
    destruct (Forall2_elem_l _ _ _ _ C' (S _ Hr)) as (c' & Hc' & CA').
    exists c'. split; [done|]. apply (PQ r c' CA'), (PQ r c CA), Qc. }
  unfold evaluateRequest, evaluateConnect, evaluateDNS. repeat split.
  - case_bool_decide; [done|]. destruct (normalizePolicyHostname _) as [h|]; [|done].
    rewrite !evaluateRequest_loop_true, !Exists_exists. intros X.
    eapply E; [exact X|]. intros r c. apply request_test_spec.
  - case_bool_decide; [done|]. rewrite !evaluateConnect_loop_true, !Exists_exists. intros X.
    eapply E; [exact X|]. intros r c. apply connect_test_proxy.
  - destruct (normalizePolicyHostname _) as [h|]; [|done].
    rewrite !evaluateConnect_loop_true, !Exists_exists. intros X.
    eapply E; [exact X|]. intros r c. apply connect_test_transparent.
  - case_bool_decide; [done|]. rewrite !evaluateDNS_loop_true, !Exists_exists. intros X.
    eapply E; [exact X|]. intros r c. apply dns_test_spec.
Qed.

Lemma parsePortNumber_range v n : parsePortNumber v = Ok n -> 1 <= n <= 65535.
Proof.
  unfold parsePortNumber. destruct (Atoi _) as [k|]; [|done].
  destruct (_ || _) eqn:E; [done|]. intros [= <-]. to_prop. lia.
Qed.

(** Bounds: a port specification that parses denotes a non-empty range
    inside 1..65535. *)
Theorem parseConnectPortSpec_bounds spec range :
  parseConnectPortSpec spec = Ok range -> 1 <= pr_start range <= pr_end range /\ pr_end range <= 65535.
Proof.
  unfold parseConnectPortSpec. case_bool_decide; [done|].
  destruct (Contains _ _).
  - destruct (SplitByte _ _) as [|a [|b [|? ?]]]; try done.
    rewrite result_bind_ok. intros (s & Hs%parsePortNumber_range & E).
    apply result_bind_ok in E as (e & He%parsePortNumber_range & E).
    destruct (e <? s) eqn:L; [done|]. injection E as <-. simpl. lia.
  - rewrite result_bind_ok. intros (n & Hn%parsePortNumber_range & [= <-]). simpl. lia.
Qed.

Lemma parsePortNumber_Itoa n : 1 <= n <= 65535 -> parsePortNumber (Itoa n) = Ok n.
Proof.
  intros Hn. unfold parsePortNumber.
  rewrite TrimSpace_visible by (apply digit_visible, Itoa_digits; lia).
  rewrite Atoi_Itoa by (unfold max_int; lia).
  replace (n <=? 0) with false by lia. by replace (65535 <? n) with false by lia.
Qed.

Lemma Itoa_no_dash n : 0 <= n -> string_all (fun d => negb (bool_decide (d = "-"%char))) (Itoa n) = true.
Proof.
  intros Hn. eapply string_all_impl; [|by apply Itoa_digits].
  intros c D. rewrite negb_true_iff, bool_decide_eq_false. intros ->. done.
Qed.

(** Round trip: printing a port range as "first-last" and parsing it gives
    the range back, and matching against it is membership. *)
Theorem parseConnectPortSpec_roundtrip a b port :
  1 <= a <= b -> b <= 65535 ->
  parseConnectPortSpec (Itoa a +:+ "-" +:+ Itoa b) = Ok {| pr_start := a; pr_end := b |} /\
  (matchConnectPort [{| pr_start := a; pr_end := b |}] port = true <-> a <= port <= b).
Proof.
  intros Ha Hb. split.
  - unfold parseConnectPortSpec. change ("-" +:+ Itoa b) with (String "-" (Itoa b)).
    destruct (Itoa_digits a ltac:(lia)) as [Da NEa]. destruct (Itoa_digits b ltac:(lia)) as [Db NEb].
    rewrite TrimSpace_visible.
    2: { rewrite string_all_app. simpl. by rewrite !digit_visible. }
    rewrite bool_decide_eq_false_2.
    2: { destruct (Itoa a); [done|]. by rewrite string_app_cons. }
    rewrite Contains_byte_app, SplitByte_app by (apply Itoa_no_dash; lia).
    rewrite SplitByte_none by (apply Itoa_no_dash; lia).
    rewrite !parsePortNumber_Itoa by lia. simpl. by replace (b <? a) with false by lia.
  - simpl. destruct (_ && _) eqn:E; to_prop; intuition lia.
Qed.

(** A destination with two or more colons and no brackets, which is how
    a raw IPv6 destination reaches the manager in transparent mode, is denied
    by every policy, whatever its CIDR rules say. *)
Theorem transparent_raw_ipv6_denied p host port :
  HasPrefix (ToLower (TrimSpace host)) "[" = false ->
  (2 <= CountByte (ToLower (TrimSpace host)) ":")%nat ->
  Allowed (evaluateConnect p host port true) = false.
Proof.
  intros P C. unfold evaluateConnect, normalizePolicyHostname.
  case_bool_decide; [done|].
  destruct (Contains (ToLower (TrimSpace host)) ":") eqn:E; simpl.
  - rewrite P, bool_decide_eq_false_2 by lia. done.
  - apply Contains_byte_false in E. lia.
Qed.
End theorems.

(** * Witnesses *)

Definition demo_rule : PolicyRule := {|
  HostPatterns := ["^api[.]example[.]com$"]; IPCIDRs := []; HTTPMethods := ["post"];
  ConnectPorts := []; PathPatterns := ["^/v1/"]; HeaderPatterns := [("x-token", ["^secret"])];
  BodyPatterns := ["hello"] |}.
Definition demo_connect_rule : PolicyRule := {|
  HostPatterns := ["^api[.]example[.]com$"]; IPCIDRs := []; HTTPMethods := [];
  ConnectPorts := ["443"; "8000-8999"]; PathPatterns := []; HeaderPatterns := []; BodyPatterns := [] |}.
Definition demo_host_rule : PolicyRule := {|
  HostPatterns := ["[.]example[.]com$"]; IPCIDRs := []; HTTPMethods := [];
  ConnectPorts := []; PathPatterns := []; HeaderPatterns := []; BodyPatterns := [] |}.
Definition demo_cidr_rule : PolicyRule := {|
  HostPatterns := []; IPCIDRs := ["2001:db8::/32"; "10.0.0.0/8"]; HTTPMethods := [];
  ConnectPorts := []; PathPatterns := []; HeaderPatterns := []; BodyPatterns := [] |}.
Definition demo_policy : NetworkPolicy := {| Rules := [demo_connect_rule; demo_rule] |}.
Definition demo_policy' : NetworkPolicy :=
  {| Rules := [demo_host_rule; demo_rule; demo_connect_rule; demo_cidr_rule] |}.
#[local] Existing Instance sampleLib.
Definition compiled (pol : NetworkPolicy) : compiledPolicy := the {| rules := [] |} (compilePolicy pol).
Definition demo_request : PolicyRequest := {|
  pq_Method := " post"; pq_Host := "API.example.com:443"; pq_Path := "/v1/items";
  pq_Header := [("X-Token", ["secret1"])]; pq_Body := "say hello"; pq_BodyTooLarge := false |}.

Lemma evaluateRequest_refines_witness : admits_request demo_policy demo_request.
Proof.
  apply (evaluateRequest_refines demo_policy (compiled demo_policy)); eval_ok.
Defined.

Lemma evaluateConnect_refines_witness :
  admits_connect demo_policy "api.example.com" 8443 /\ ~ admits_connect demo_policy "api.example.com" 80.
Proof.
  split.
  - apply (evaluateConnect_refines demo_policy (compiled demo_policy)); eval_ok.
  - intros A. apply (evaluateConnect_refines demo_policy (compiled demo_policy)) in A;
      [vm_compute in A; discriminate A|eval_ok].
Defined.

Lemma evaluateTransparent_refines_witness : admits_transparent demo_policy' "www.example.com".
Proof.
  apply (evaluateTransparent_refines demo_policy' (compiled demo_policy') _ 443); eval_ok.
Defined.

Lemma evaluateDNS_refines_witness : admits_dns demo_policy' "WWW.Example.com.".
Proof.
  apply (evaluateDNS_refines demo_policy' (compiled demo_policy')); eval_ok.
Defined.

Lemma policy_monotone_witness :
  Allowed (evaluateRequest (compiled demo_policy') demo_request) = true.
Proof.
  apply (policy_monotone demo_policy demo_policy' (compiled demo_policy) (compiled demo_policy')
           demo_request "" 0); try eval_ok.
  intros r. simpl. rewrite !elem_of_cons. tauto.
Defined.

Lemma parseConnectPortSpec_bounds_witness :
  parseConnectPortSpec " 8000-8999 " = Ok {| pr_start := 8000; pr_end := 8999 |} /\ 1 <= 8000 <= 8999.
Proof.
  split; [vm_compute; reflexivity|].
  apply (parseConnectPortSpec_bounds " 8000-8999 " {| pr_start := 8000; pr_end := 8999 |}).
  vm_compute; reflexivity.
Defined.

Lemma parseConnectPortSpec_roundtrip_witness :
  parseConnectPortSpec (Itoa 1 +:+ "-" +:+ Itoa 65535) = Ok {| pr_start := 1; pr_end := 65535 |}.
Proof. apply (parseConnectPortSpec_roundtrip 1 65535 1); lia. Defined.

Lemma transparent_raw_ipv6_denied_witness :
  Allowed (evaluateConnect (compiled demo_policy') "2001:db8::1" 443 true) = false.
Proof. apply transparent_raw_ipv6_denied; vm_compute; [reflexivity|lia]. Defined.
