(* ===== verification/Sys.v ===== *)
(** The vocabulary of the syscall supervisor: error numbers, Go errors and
    panics, 64-bit integer conversions and the little-endian layout of the C
    structures it copies in and out of the sandboxed process (linux/amd64). *)
From S2P Require Import Prelude GoStrings.

(** ** Errors *)

Inductive gerror :=
| EErrno (n : Z)        (* a [unix.Errno] *)
| EOther (msg : string) (* any other error value *).

#[global] Instance gerror_eq_dec : EqDecision gerror.
Proof. solve_decision. Defined.

Definition EPERM : Z := 1.
Definition EIO : Z := 5.
Definition EBADF : Z := 9.
Definition EAGAIN : Z := 11.
Definition EACCES : Z := 13.
Definition EFAULT : Z := 14.
Definition EBUSY : Z := 16.
Definition EEXIST : Z := 17.
Definition EINVAL : Z := 22.
Definition EMFILE : Z := 24.
Definition EDESTADDRREQ : Z := 89.
Definition EMSGSIZE : Z := 90.
Definition EOPNOTSUPP : Z := 95.
Definition EAFNOSUPPORT : Z := 97.
Definition ENOTCONN : Z := 107.
Definition EHOSTUNREACH : Z := 113.
Definition EALREADY : Z := 114.
Definition EINPROGRESS : Z := 115.

(** What a Go call can do: return, return an error, or panic. [OutOfFuel] is
    the result of a model whose loop bound was too small; it is no behaviour of
    the program. *)
Inductive outcome (A : Type) : Type :=
| Ret (a : A)
| Fail (e : gerror)
| Panic
| OutOfFuel.
Arguments Ret {A} a.
Arguments Fail {A} e.
Arguments Panic {A}.
Arguments OutOfFuel {A}.

(** A pure fallible computation, embedded. *)
Definition of_sum {A} (m : gerror + A) : outcome A :=
  match m with inl e => Fail e | inr a => Ret a end.

(** ** Machine integers *)

(** [int(x)] of an unsigned 64-bit [x], and the wrap-around of [int] arithmetic. *)
Definition to_int (x : Z) : Z :=
  let y := x mod 2 ^ 64 in if y <? 2 ^ 63 then y else y - 2 ^ 64.
Definition to_int32 (x : Z) : Z :=
  let y := x mod 2 ^ 32 in if y <? 2 ^ 31 then y else y - 2 ^ 32.
Definition to_int16 (x : Z) : Z :=
  let y := x mod 2 ^ 16 in if y <? 2 ^ 15 then y else y - 2 ^ 16.
Definition to_uint32 (x : Z) : Z := x mod 2 ^ 32.

(** [runtime.maxAlloc] on linux/amd64: a larger [make] panics. *)
Definition maxAlloc : Z := 2 ^ 48.

Lemma to_int_small x : 0 <= x < 2 ^ 63 -> to_int x = x.
Proof. intros Hx. unfold to_int. rewrite Z.mod_small by lia. by replace (x <? 2 ^ 63) with true by lia. Qed.

Lemma to_int_range x : - 2 ^ 63 <= to_int x < 2 ^ 63.
Proof.
  unfold to_int. pose proof (Z.mod_pos_bound x (2 ^ 64) ltac:(lia)).
  destruct (_ <? _) eqn:E; lia.
Qed.

Lemma to_int_negative x : 2 ^ 63 <= x < 2 ^ 64 -> to_int x = x - 2 ^ 64.
Proof. intros Hx. unfold to_int. rewrite Z.mod_small by lia. by replace (x <? 2 ^ 63) with false by lia. Qed.

(** ** Bytes *)

Fixpoint le_dec (bs : list Z) : Z :=
  match bs with
  | [] => 0
  | b :: bs => b + 256 * le_dec bs
  end.
Fixpoint le_enc (n : nat) (v : Z) : list Z :=
  match n with
  | O => []
  | S n => v mod 256 :: le_enc n (v / 256)
  end.
Definition be16 (a b : Z) : Z := 256 * a + b.

(** The bytes [off, off+n) of a structure, and their replacement. *)
Definition slice (off n : nat) (raw : list Z) : list Z := take n (drop off raw).
Definition patch (off : nat) (bs raw : list Z) : list Z :=
  take off raw ++ bs ++ drop (off + length bs) raw.

Definition get_u64 (off : nat) (raw : list Z) : Z := le_dec (slice off 8 raw).
Definition get_u32 (off : nat) (raw : list Z) : Z := le_dec (slice off 4 raw).
Definition get_i32 (off : nat) (raw : list Z) : Z := to_int32 (get_u32 off raw).
Definition get_i16 (off : nat) (raw : list Z) : Z := to_int16 (le_dec (slice off 2 raw)).

Definition is_byte (b : Z) : Prop := 0 <= b < 256.

Lemma length_le_enc n v : length (le_enc n v) = n.
Proof. revert v. induction n; intros; simpl; congruence. Qed.

Lemma le_dec_enc n v : 0 <= v < 256 ^ Z.of_nat n -> le_dec (le_enc n v) = v.
Proof.
  revert v. induction n as [|n IH]; intros v Hv; cbn [le_enc le_dec].
  - simpl in Hv. lia.
  - rewrite Nat2Z.inj_succ, Z.pow_succ_r in Hv by lia.
    rewrite IH.
    + pose proof (Z.div_mod v 256). lia.
    + split; [apply Z.div_pos; lia|apply Z.div_lt_upper_bound; lia].
Qed.

Lemma length_patch off bs raw :
  (off + length bs <= length raw)%nat -> length (patch off bs raw) = length raw.
Proof. intros L. unfold patch. rewrite !length_app, length_take, length_drop. lia. Qed.

Lemma slice_patch off bs raw :
  (off + length bs <= length raw)%nat -> slice off (length bs) (patch off bs raw) = bs.
Proof.
  intros L. unfold slice, patch. rewrite drop_app_length' by (rewrite length_take; lia).
  by rewrite take_app_length.
Qed.
