(* ===== verification/Sockaddr.v ===== *)
(** Socket addresses as the supervisor reads and writes them:
    [sockaddr_linux.go], [encodeRawSockaddr] of [dns_runtime_linux.go],
    [peernameFamily] and [parseTCPAddr] of [supervisor_linux.go]. *)
From S2P Require Import Prelude GoStrings GoNet Sys.

Definition AF_UNSPEC : Z := 0.
Definition AF_INET : Z := 2.
Definition AF_INET6 : Z := 10.
Definition SizeofSockaddrInet4 : nat := 16.
Definition SizeofSockaddrInet6 : nat := 28.

Record DecodedSockaddr := { sa_Family : Z; sa_Host : string; sa_Port : Z }.

#[global] Instance DecodedSockaddr_eq_dec : EqDecision DecodedSockaddr.
Proof. solve_decision. Defined.

Definition known_family (f : Z) : bool := (f =? AF_UNSPEC) || (f =? AF_INET) || (f =? AF_INET6).

Definition decodeFamily (raw : list Z) : gerror + Z :=
  match raw with
  | a :: b :: _ =>
      let familyLE := be16 b a in
      let familyBE := be16 a b in
      if known_family familyLE then inr familyLE
      else if known_family familyBE then inr familyBE
      else inl (EOther ("unsupported sockaddr family encoding " +:+ Itoa familyLE +:+ "/" +:+ Itoa familyBE))
  | _ => inl (EOther ("sockaddr buffer too short: " +:+ Itoa (Z.of_nat (length raw))))
  end.

Definition sockaddrPort (raw : list Z) : Z :=
  match slice 2 2 raw with
  | [a; b] => be16 a b
  | _ => 0
  end.

Definition DecodeSockaddr (raw : list Z) : gerror + DecodedSockaddr :=
  if bool_decide (length raw < 2)%nat then
    inl (EOther ("sockaddr buffer too short: " +:+ Itoa (Z.of_nat (length raw))))
  else
    match decodeFamily raw with
    | inl e => inl e
    | inr family =>
        if family =? AF_UNSPEC then inr {| sa_Family := AF_UNSPEC; sa_Host := ""; sa_Port := 0 |}
        else if family =? AF_INET then
          if bool_decide (length raw < SizeofSockaddrInet4)%nat then
            inl (EOther ("sockaddr_in buffer too short: " +:+ Itoa (Z.of_nat (length raw))))
          else inr {| sa_Family := AF_INET; sa_Host := IP_String (slice 4 4 raw); sa_Port := sockaddrPort raw |}
        else if family =? AF_INET6 then
          if bool_decide (length raw < SizeofSockaddrInet6)%nat then
            inl (EOther ("sockaddr_in6 buffer too short: " +:+ Itoa (Z.of_nat (length raw))))
          else inr {| sa_Family := AF_INET6; sa_Host := IP_String (slice 8 16 raw); sa_Port := sockaddrPort raw |}
        else inl (EOther ("unsupported sockaddr family " +:+ Itoa family))
    end.

(** [putNativeUint16] on a little-endian machine, [putBigEndianUint16]. *)
Definition putNativeUint16 (v : Z) : list Z := [v mod 256; v / 256 mod 256].
Definition putBigEndianUint16 (v : Z) : list Z := [v / 256 mod 256; v mod 256].

Definition raw_inet4 (ip4 : list Z) (port : Z) : list Z :=
  putNativeUint16 AF_INET ++ putBigEndianUint16 port ++ ip4 ++ replicate 8 0.
Definition raw_inet6 (ip6 : list Z) (port : Z) : list Z :=
  putNativeUint16 AF_INET6 ++ putBigEndianUint16 port ++ replicate 4 0 ++ ip6 ++ replicate 4 0.

(** The bytes to write; their length is the second result of the Go function. *)
Definition encodeRawSockaddr (source : DecodedSockaddr) : gerror + list Z :=
  match ParseIP (sa_Host source) with
  | None => inl (EErrno EINVAL)
  | Some ip =>
      let port := sa_Port source mod 2 ^ 16 in
      if sa_Family source =? AF_INET then
        match To4 ip with
        | None => inl (EErrno EAFNOSUPPORT)
        | Some ip4 => inr (raw_inet4 ip4 port)
        end
      else if sa_Family source =? AF_INET6 then
        match To16 ip with
        | None => inl (EErrno EAFNOSUPPORT)
        | Some ip6 => inr (raw_inet6 ip6 port)
        end
      else
        match To4 ip, To16 ip with
        | Some ip4, _ => inr (raw_inet4 ip4 port)
        | None, Some ip6 => inr (raw_inet6 ip6 port)
        | None, None => inl (EErrno EINVAL)
        end
  end.

Definition peernameFamily (host : string) (fallbackFamily : Z) : Z :=
  if (fallbackFamily =? AF_INET) || (fallbackFamily =? AF_INET6) then fallbackFamily
  else match ParseIP host with
       | None => fallbackFamily
       | Some ip => if bool_decide (is_Some (To4 ip)) then AF_INET else AF_INET6
       end.

(** [unix.Sockaddr] values, and the parser of the ingress address. *)
Inductive Sockaddr :=
| SockaddrInet4 (port : Z) (addr : list Z)
| SockaddrInet6 (port : Z) (addr : list Z).

Definition parseTCPAddr `{GoLib} (addr : string) : gerror + Sockaddr :=
  match SplitHostPort addr with
  | Err e => inl (EOther ("split ingress address " +:+ Quote addr +:+ ": " +:+ e))
  | Ok (host, portText) =>
      match Atoi portText with
      | Some port =>
          if (port <? 1) || (65535 <? port)
          then inl (EOther ("invalid ingress port " +:+ Quote portText))
          else
            match ParseIP host with
            | None => inl (EOther ("ingress host " +:+ Quote host +:+ " is not an IP address"))
            | Some ip =>
                match To4 ip, To16 ip with
                | Some ip4, _ => inr (SockaddrInet4 port ip4)
                | None, Some ip16 => inr (SockaddrInet6 port ip16)
                | None, None => inl (EOther ("ingress host " +:+ Quote host +:+ " is not an IP address"))
                end
            end
      | None => inl (EOther ("invalid ingress port " +:+ Quote portText))
      end
  end.

(** ** IPv4 addresses survive printing and parsing *)

Definition octet_digits (n : Z) : list Z :=
  if n <? 10 then [n] else if n <? 100 then [n / 10; n mod 10] else [n / 100; n / 10 mod 10; n mod 10].
Fixpoint digit_string (ds : list Z) : string :=
  match ds with
  | [] => ""
  | d :: ds => String (digit_char d) (digit_string ds)
  end.

Lemma Itoa_octet n : 0 <= n < 256 -> Itoa n = digit_string (octet_digits n).
Proof.
  intros Hn.
  assert (F : forallb (fun n => bool_decide (Itoa n = digit_string (octet_digits n))) (seqZ 0 256) = true)
    by (vm_compute; reflexivity).
  rewrite forallb_forall in F. specialize (F n). rewrite <- list_elem_of_In, elem_of_seqZ in F.
  eapply bool_decide_eq_true, F. lia.
Qed.

Lemma parse_digit d s fields v k :
  0 <= d <= 9 -> (k = 1%nat -> v <> 0) -> 10 * v + d <= 255 ->
  parseIPv4Fields (String (digit_char d) s) fields v k = parseIPv4Fields s fields (10 * v + d) (S k).
Proof.
  intros Hd Hz Hv. cbn [parseIPv4Fields]. unfold is_digit, digit_char.
  rewrite byte_of_char by lia.
  replace (48 <=? 48 + d) with true by lia. replace (48 + d <=? 57) with true by lia. simpl.
  replace (bool_decide (k = 1%nat) && (v =? 0)) with false.
  2: { case_bool_decide; simpl; [|done]. specialize (Hz ltac:(done)). lia. }
  replace (10 * v + (48 + d - 48)) with (10 * v + d) by lia.
  by replace (255 <? 10 * v + d) with false by lia.
Qed.

Lemma parse_octet n rest fields :
  0 <= n < 256 ->
  exists k, parseIPv4Fields (Itoa n +:+ rest) fields 0 O = parseIPv4Fields rest fields n (S k).
Proof.
  intros Hn. rewrite Itoa_octet by done. unfold octet_digits.
  pose proof (Z.div_mod n 10). pose proof (Z.mod_pos_bound n 10).
  pose proof (Z.div_mod n 100). pose proof (Z.mod_pos_bound n 100).
  pose proof (Z.div_mod (n / 10) 10). pose proof (Z.mod_pos_bound (n / 10) 10).
  assert (n / 10 / 10 = n / 100) by (rewrite Z.div_div by lia; done).
  destruct (n <? 10) eqn:E1; [|destruct (n <? 100) eqn:E2]; simpl digit_string;
    rewrite !string_app_cons, string_app_nil.
  - exists O. rewrite parse_digit by lia. f_equal; lia.
  - exists 1%nat. rewrite !parse_digit by lia. f_equal; lia.
  - exists 2%nat. rewrite !parse_digit by lia. f_equal; lia.
Qed.

Lemma parse_dot s fields v k :
  (length fields < 3)%nat ->
  parseIPv4Fields (String "." s) fields v (S k) = parseIPv4Fields s (fields ++ [v]) 0 O.
Proof. intros L. simpl. by rewrite bool_decide_eq_false_2 by lia. Qed.

Lemma string_app_dot s : "." +:+ s = String "." s.
Proof. done. Qed.

Lemma parse_ipv4_string a b c d :
  is_byte a -> is_byte b -> is_byte c -> is_byte d ->
  parseIPv4 (ipv4_string [a; b; c; d]) = Some [a; b; c; d].
Proof.
  unfold is_byte. intros Ha Hb Hc Hd. unfold parseIPv4, ipv4_string. simpl fmap. cbn [Join].
  rewrite !string_app_dot.
  destruct (parse_octet a (String "." (Itoa b +:+ String "." (Itoa c +:+ String "." (Itoa d)))) [] Ha)
    as [k1 E1]. rewrite E1, parse_dot by (simpl; lia).
  destruct (parse_octet b (String "." (Itoa c +:+ String "." (Itoa d))) ([] ++ [a]) Hb) as [k2 E2].
  rewrite E2, parse_dot by (simpl; lia).
  destruct (parse_octet c (String "." (Itoa d)) (([] ++ [a]) ++ [b]) Hc) as [k3 E3].
  rewrite E3, parse_dot by (simpl; lia).
  destruct (parse_octet d "" ((([] ++ [a]) ++ [b]) ++ [c]) Hd) as [k4 E4].
  rewrite string_app_nil_r in E4. by rewrite E4.
Qed.

Lemma addr_family_dot s rest :
  string_all is_digit s = true -> addr_family (s +:+ String "." rest) = Some false.
Proof.
  induction s as [|c s IH]; [done|]. rewrite string_app_cons. simpl.
  rewrite andb_true_iff. intros [D A]. rewrite (IH A).
  rewrite !bool_decide_eq_false_2; [done|..]; intros ->; done.
Qed.

Lemma ParseIP_ipv4_string a b c d :
  is_byte a -> is_byte b -> is_byte c -> is_byte d ->
  ParseIP (ipv4_string [a; b; c; d]) = Some (v4InV6Prefix ++ [a; b; c; d]).
Proof.
  intros Ha Hb Hc Hd. unfold ParseIP, ParseAddr.
  assert (addr_family (ipv4_string [a; b; c; d]) = Some false) as ->.
  { unfold ipv4_string. simpl fmap. cbn [Join]. rewrite !string_app_dot.
    apply addr_family_dot, Itoa_digits. unfold is_byte in Ha. lia. }
  by rewrite parse_ipv4_string.
Qed.

Lemma To4_mapped b : length b = 4%nat -> To4 (v4InV6Prefix ++ b) = Some b.
Proof.
  intros L. by destruct b as [|x1 [|x2 [|x3 [|x4 [|]]]]].
Qed.

(** Round trip: an IPv4 socket address encoded for the sandboxed process
    is a 16-byte sockaddr_in, and decoding it gives the same family, host text
    and port. *)
Theorem sockaddr_inet4_roundtrip a b c d port :
  is_byte a -> is_byte b -> is_byte c -> is_byte d -> 0 <= port < 2 ^ 16 ->
  let sa := {| sa_Family := AF_INET; sa_Host := IP_String [a; b; c; d]; sa_Port := port |} in
  exists raw, encodeRawSockaddr sa = inr raw /\ length raw = SizeofSockaddrInet4 /\
    DecodeSockaddr raw = inr sa.
Proof.
  intros Ha Hb Hc Hd Hp sa. exists (raw_inet4 [a; b; c; d] port).
  unfold encodeRawSockaddr. change (sa_Host sa) with (ipv4_string [a; b; c; d]).
  rewrite ParseIP_ipv4_string by done. cbn [sa_Family sa sa_Port Z.eqb AF_INET Pos.eqb].
  rewrite To4_mapped, Z.mod_small by done. split; [done|]. split; [done|].
  unfold DecodeSockaddr. simpl. unfold sa. do 2 f_equal.
  unfold sockaddrPort. cbn. unfold be16.
  rewrite (Z.mod_small (port / 256)) by (split; [apply Z.div_pos; lia|apply Z.div_lt_upper_bound; lia]).
  pose proof (Z.div_mod port 256). lia.
Qed.

Lemma sockaddr_inet4_roundtrip_witness :
  exists raw, encodeRawSockaddr {| sa_Family := AF_INET; sa_Host := "192.0.2.53"; sa_Port := 53 |} = inr raw /\
    DecodeSockaddr raw = inr {| sa_Family := AF_INET; sa_Host := "192.0.2.53"; sa_Port := 53 |}.
Proof.
  destruct (sockaddr_inet4_roundtrip 192 0 2 53 53) as (raw & E & _ & D); try (unfold is_byte; lia).
  exists raw. split; [exact E|exact D].
Defined.
