(* ===== verification/Kernel.v ===== *)
(** The environment of the syscall supervisor and its state.

    The kernel calls and the callbacks of [RuntimeTargets] are not part of
    bbox: they are the fields of the class [Kernel], functions on an abstract
    kernel state. The supervisor's own state is the record [world]: the file
    descriptor registry, the child descriptor allocator and the heap of the
    pending-response slices, next to the kernel state. Handlers are programs in
    the state monad [M] whose results are returns, errors and panics. *)
From S2P Require Import Prelude GoStrings GoNet Sys Sockaddr.

Class Kernel := {
  kstate : Type;
  sys_socket : Z -> Z -> Z -> kstate -> (gerror + Z) * kstate;
  sys_dup : Z -> kstate -> (gerror + Z) * kstate;
  sys_close : Z -> kstate -> kstate;
  sys_connect : Z -> Sockaddr -> kstate -> option Z * kstate;
  (** [waitForConnectComplete] and [getsocknameStringWithRetry]: loops driven
      by the clock and by [poll]. *)
  wait_connect : Z -> kstate -> option gerror * kstate;
  getsockname_retry : Z -> kstate -> (gerror + string) * kstate;
  (** [process_vm_readv] returns the bytes copied, [process_vm_writev] their
      number; both may copy less than asked. *)
  vm_readv : Z -> Z -> Z -> kstate -> gerror + list Z;
  vm_writev : Z -> Z -> list Z -> kstate -> (gerror + Z) * kstate;
  (** SECCOMP_IOCTL_NOTIF_ADDFD: request id, source fd, new fd, flags, fd flags. *)
  ioctl_addfd : Z -> Z -> Z -> Z -> Z -> kstate -> (gerror + Z) * kstate;
  (** [RuntimeTargets.DNSRoundTrip] and [RuntimeTargets.RecordRawTCPOrigin]. *)
  dns_upstream : string -> Z -> list Z -> kstate -> (gerror + list Z) * kstate;
  record_origin : string -> string -> Z -> kstate -> kstate;
  (** The capacity policy of [append]; at least the needed length is used. *)
  append_growth : nat -> nat -> nat;
}.

(** * Data *)

Inductive SocketKind := KindUnknown | KindTCP | KindUDP.

#[global] Instance SocketKind_eq_dec : EqDecision SocketKind.
Proof. solve_decision. Defined.

Record dnsPacketResponse := { dr_Payload : list Z; dr_Source : DecodedSockaddr }.

(** A Go slice of pending responses: a window of a shared array. *)
Record pslice := { sl_arr : nat; sl_off : nat; sl_len : nat; sl_cap : nat }.
Definition nil_slice : pslice := {| sl_arr := O; sl_off := O; sl_len := O; sl_cap := O |}.

Record SocketState := {
  Kind : SocketKind;
  ChildPID : Z;
  ChildFD : Z;
  HelperFD : Z;
  Family : Z;
  SocketType : Z;
  Protocol : Z;
  Blocking : bool;
  DNSManaged : bool;
  ConnectedHost : string;
  ConnectedPort : Z;
  PendingDNSResponses : pslice;
  OriginalHost : string;
  OriginalPort : Z;
  RedirectAddr : string;
}.

Record RuntimeTargets := {
  DNSRoundTrip_set : bool;
  RawTCPAddr : string;
  RawTCPAddrV6 : string;
  RecordRawTCPOrigin_set : bool;
  notifyFD : Z;
}.

Definition minManagedHelperFD : Z := 3.
Definition minManagedTCPChildFD : Z := 256.
Definition minManagedUDPChildFD : Z := 512.

Section world.
Context `{Kernel}.

Record world := {
  w_reg : gmap (Z * Z) SocketState;
  w_reserved : gset Z;
  w_nextTCP : Z;
  w_nextUDP : Z;
  w_heap : gmap nat (list dnsPacketResponse);
  w_kernel : kstate;
}.

(** [NewSupervisor] *)
Definition new_world (k : kstate) : world := {|
  w_reg := ∅; w_reserved := ∅; w_nextTCP := minManagedTCPChildFD;
  w_nextUDP := minManagedUDPChildFD; w_heap := ∅; w_kernel := k |}.

Definition set_reg (f : gmap (Z * Z) SocketState -> gmap (Z * Z) SocketState) (w : world) : world :=
  {| w_reg := f (w_reg w); w_reserved := w_reserved w; w_nextTCP := w_nextTCP w;
     w_nextUDP := w_nextUDP w; w_heap := w_heap w; w_kernel := w_kernel w |}.
Definition set_fds (reserved : gset Z) (tcp udp : Z) (w : world) : world :=
  {| w_reg := w_reg w; w_reserved := reserved; w_nextTCP := tcp;
     w_nextUDP := udp; w_heap := w_heap w; w_kernel := w_kernel w |}.
Definition set_heap (h : gmap nat (list dnsPacketResponse)) (w : world) : world :=
  {| w_reg := w_reg w; w_reserved := w_reserved w; w_nextTCP := w_nextTCP w;
     w_nextUDP := w_nextUDP w; w_heap := h; w_kernel := w_kernel w |}.
Definition set_kernel (k : kstate) (w : world) : world :=
  {| w_reg := w_reg w; w_reserved := w_reserved w; w_nextTCP := w_nextTCP w;
     w_nextUDP := w_nextUDP w; w_heap := w_heap w; w_kernel := k |}.

(** * The monad *)

Definition M (A : Type) : Type := world -> outcome A * world.
Definition mret {A} (a : A) : M A := fun w => (Ret a, w).
Definition mfail {A} (e : gerror) : M A := fun w => (Fail e, w).
Definition merrno {A} (n : Z) : M A := mfail (EErrno n).
Definition mpanic {A} : M A := fun w => (Panic, w).
Definition mbind {A B} (m : M A) (f : A -> M B) : M B := fun w =>
  match m w with
  | (Ret a, w') => f a w'
  | (Fail e, w') => (Fail e, w')
  | (Panic, w') => (Panic, w')
  | (OutOfFuel, w') => (OutOfFuel, w')
  end.
(** [if err := m; err != nil { ... }]: the error becomes a value. *)
Definition mtry {A} (m : M A) : M (gerror + A) := fun w =>
  match m w with
  | (Ret a, w') => (Ret (inr a), w')
  | (Fail e, w') => (Ret (inl e), w')
  | (Panic, w') => (Panic, w')
  | (OutOfFuel, w') => (OutOfFuel, w')
  end.
Definition mlift {A} (o : gerror + A) : M A := fun w => (of_sum o, w).
Definition mget {A} (f : world -> A) : M A := fun w => (Ret (f w), w).
Definition mmodify (f : world -> world) : M unit := fun w => (Ret tt, f w).
Definition mkernel {A} (f : kstate -> (gerror + A) * kstate) : M A := fun w =>
  let '(r, k) := f (w_kernel w) in (of_sum r, set_kernel k w).
Definition mkeffect (f : kstate -> kstate) : M unit :=
  mmodify (fun w => set_kernel (f (w_kernel w)) w).
End world.

Declare Scope sys_scope.
Delimit Scope sys_scope with sys.
Notation "x <~ c ; k" := (mbind c (fun x => k))
  (at level 100, c at next level, k at level 200, right associativity,
   format "'[v' x  <~  c ; '/' k ']'") : sys_scope.
Notation "'run!' c ; k" := (mbind c (fun _ => k))
  (at level 100, c at next level, k at level 200, right associativity,
   format "'[v' run!  c ; '/' k ']'") : sys_scope.
Open Scope sys_scope.

(** * Slices *)

Section slices.
Context `{Kernel}.

Definition zero_response : dnsPacketResponse :=
  {| dr_Payload := []; dr_Source := {| sa_Family := 0; sa_Host := ""; sa_Port := 0 |} |}.

Definition slice_view (h : gmap nat (list dnsPacketResponse)) (s : pslice) : list dnsPacketResponse :=
  take (sl_len s) (drop (sl_off s) (default [] (h !! sl_arr s))).

(** [append(s, x)]: in place when the capacity allows, else into a new array. *)
Definition slice_append (h : gmap nat (list dnsPacketResponse)) (s : pslice) (x : dnsPacketResponse)
    : gmap nat (list dnsPacketResponse) * pslice :=
  if bool_decide (sl_len s < sl_cap s)%nat then
    (alter (fun a => <[(sl_off s + sl_len s)%nat := x]> a) (sl_arr s) h,
     {| sl_arr := sl_arr s; sl_off := sl_off s; sl_len := S (sl_len s); sl_cap := sl_cap s |})
  else
    let cap := Nat.max (S (sl_len s)) (append_growth (sl_cap s) (S (sl_len s))) in
    let arr := fresh (dom h) in
    (<[arr := slice_view h s ++ x :: replicate (cap - S (sl_len s)) zero_response]> h,
     {| sl_arr := arr; sl_off := O; sl_len := S (sl_len s); sl_cap := cap |}).

(** [s[n:]] for [n <= len(s)]. *)
Definition slice_drop (n : nat) (s : pslice) : pslice :=
  {| sl_arr := sl_arr s; sl_off := sl_off s + n; sl_len := sl_len s - n; sl_cap := sl_cap s - n |}.

(** The window lies inside its array; the empty window needs no array. *)
Definition slice_ok (h : gmap nat (list dnsPacketResponse)) (s : pslice) : Prop :=
  (sl_len s <= sl_cap s)%nat /\
  (sl_cap s <> O -> exists a, h !! sl_arr s = Some a /\ (sl_off s + sl_cap s <= length a)%nat).

Lemma slice_view_length h s : slice_ok h s -> length (slice_view h s) = sl_len s.
Proof.
  intros [L A]. unfold slice_view. rewrite length_take, length_drop.
  destruct (decide (sl_cap s = O)) as [Z|NZ]; [lia|].
  destruct (A NZ) as (a & -> & B). simpl. lia.
Qed.

Lemma slice_append_ok h s x h' s' :
  slice_ok h s -> slice_append h s x = (h', s') ->
  slice_ok h' s' /\ slice_view h' s' = slice_view h s ++ [x].
Proof.
  intros OK. pose proof (slice_view_length h s OK) as LV. destruct OK as [L A].
  unfold slice_append. case_bool_decide as C; intros [= <- <-].
  - destruct (A ltac:(lia)) as (a & Ha & B).
    split.
    + split; simpl; [lia|]. intros _. rewrite lookup_alter, decide_True by done. rewrite Ha. simpl.
      eexists. split; [done|]. by rewrite length_insert.
    + unfold slice_view in *. simpl. rewrite lookup_alter, decide_True by done. rewrite Ha in *. simpl in *.
      rewrite (take_S_r _ _ x).
      * f_equal. rewrite drop_insert_ge by lia. rewrite take_insert_ge by lia. done.
      * rewrite lookup_drop. apply list_lookup_insert_eq. lia.
  - split.
    + split; simpl; [lia|]. intros _. rewrite lookup_insert_eq. eexists. split; [done|].
      rewrite length_app, LV. simpl. rewrite length_replicate. lia.
    + unfold slice_view at 1. simpl. rewrite lookup_insert_eq. simpl. rewrite drop_0.
      rewrite cons_middle, app_assoc. apply take_app_length'.
      rewrite length_app, LV. simpl. lia.
Qed.

Lemma slice_drop_ok h s n :
  slice_ok h s -> (n <= sl_len s)%nat ->
  slice_ok h (slice_drop n s) /\ slice_view h (slice_drop n s) = drop n (slice_view h s).
Proof.
  intros [L A] Hn. split.
  - split; simpl; [lia|]. intros C. destruct (A ltac:(lia)) as (a & Ha & B). exists a. split; [done|]. lia.
  - unfold slice_view, slice_drop. simpl. by rewrite skipn_firstn_comm, drop_drop.
Qed.
End slices.
