(* ===== verification/FDRegistry.v ===== *)
(** The registry of supervised descriptors: [fd_registry.go]. A state is keyed
    by process and child descriptor; a lookup for a process that has no entry
    of its own falls back to the entry of another process if that descriptor
    number is registered exactly once (descriptors inherited by fork). *)
From S2P Require Import Prelude GoStrings GoNet Sys Sockaddr Kernel.

Section registry.
Context `{Kernel}.

Definition normalizeRegistryPID (pid : Z) : Z := if pid <? 0 then 0 else pid.

Definition with_child (pid fd : Z) (s : SocketState) : SocketState := {|
  Kind := Kind s; ChildPID := pid; ChildFD := fd; HelperFD := HelperFD s; Family := Family s;
  SocketType := SocketType s; Protocol := Protocol s; Blocking := Blocking s;
  DNSManaged := DNSManaged s; ConnectedHost := ConnectedHost s; ConnectedPort := ConnectedPort s;
  PendingDNSResponses := PendingDNSResponses s; OriginalHost := OriginalHost s;
  OriginalPort := OriginalPort s; RedirectAddr := RedirectAddr s |}.
Definition with_helper (helperFD : Z) (s : SocketState) : SocketState := {|
  Kind := Kind s; ChildPID := ChildPID s; ChildFD := ChildFD s; HelperFD := helperFD; Family := Family s;
  SocketType := SocketType s; Protocol := Protocol s; Blocking := Blocking s;
  DNSManaged := DNSManaged s; ConnectedHost := ConnectedHost s; ConnectedPort := ConnectedPort s;
  PendingDNSResponses := PendingDNSResponses s; OriginalHost := OriginalHost s;
  OriginalPort := OriginalPort s; RedirectAddr := RedirectAddr s |}.

Definition lookupKeyLocked (states : gmap (Z * Z) SocketState) (pid childFD : Z) : option (Z * Z) :=
  if bool_decide (is_Some (states !! (pid, childFD))) then Some (pid, childFD)
  else match filter (fun k => k.2 = childFD) (map_to_list states).*1 with
       | [k] => Some k
       | _ => None
       end.

Definition InsertForPID (pid : Z) (state : SocketState) (states : gmap (Z * Z) SocketState)
    : gmap (Z * Z) SocketState :=
  if ChildFD state <? 0 then states
  else let pid := normalizeRegistryPID pid in
       <[(pid, ChildFD state) := with_child pid (ChildFD state) state]> states.
Definition Insert (state : SocketState) : gmap (Z * Z) SocketState -> gmap (Z * Z) SocketState :=
  InsertForPID (ChildPID state) state.

Definition LookupForPID (pid childFD : Z) (states : gmap (Z * Z) SocketState) : option SocketState :=
  if childFD <? 0 then None
  else k ← lookupKeyLocked states (normalizeRegistryPID pid) childFD; states !! k.
Definition Lookup (childFD : Z) : gmap (Z * Z) SocketState -> option SocketState :=
  LookupForPID 0 childFD.

Definition closeManagedHelperFD (helperFD : Z) : M unit :=
  if minManagedHelperFD <=? helperFD then mkeffect (sys_close helperFD) else mret tt.

Definition DupForPID (pid sourceFD targetFD : Z) : M unit :=
  if (sourceFD <? 0) || (targetFD <? 0) then merrno EBADF
  else if sourceFD =? targetFD then mret tt
  else
    states <~ mget w_reg;
    let normalizedPID := normalizeRegistryPID pid in
    match lookupKeyLocked states normalizedPID sourceFD ≫= (fun k => states !! k) with
    | None => merrno EBADF
    | Some state =>
        helperFD <~ (if minManagedHelperFD <=? HelperFD state
                     then mkernel (sys_dup (HelperFD state)) else mret (HelperFD state));
        let duplicated := with_helper helperFD (with_child normalizedPID targetFD state) in
        run! match states !! (normalizedPID, targetFD) with
             | Some existing =>
                 if HelperFD existing =? HelperFD state then mret tt
                 else closeManagedHelperFD (HelperFD existing)
             | None => mret tt
             end;
        mmodify (set_reg (<[(normalizedPID, targetFD) := duplicated]>))
    end.
Definition Dup : Z -> Z -> M unit := DupForPID 0.

Definition CloseForPID (pid childFD : Z) : M unit :=
  if childFD <? 0 then mret tt
  else
    states <~ mget w_reg;
    match lookupKeyLocked states (normalizeRegistryPID pid) childFD with
    | None => mret tt
    | Some key =>
        run! match states !! key with
             | Some state => closeManagedHelperFD (HelperFD state)
             | None => mret tt
             end;
        mmodify (set_reg (delete key))
    end.
Definition Close : Z -> M unit := CloseForPID 0.

(** * Invariant: an entry's key is its process and its descriptor *)

Definition registry_ok (states : gmap (Z * Z) SocketState) : Prop :=
  map_Forall (fun k s => k = (ChildPID s, ChildFD s) /\ 0 <= ChildPID s /\ 0 <= ChildFD s) states.

Lemma normalizeRegistryPID_nonneg pid : 0 <= normalizeRegistryPID pid.
Proof. unfold normalizeRegistryPID. destruct (pid <? 0) eqn:E; lia. Qed.

Lemma normalizeRegistryPID_id pid : 0 <= pid -> normalizeRegistryPID pid = pid.
Proof. intros P. unfold normalizeRegistryPID. by replace (pid <? 0) with false by lia. Qed.

Lemma InsertForPID_ok pid s states : registry_ok states -> registry_ok (InsertForPID pid s states).
Proof.
  intros OK. unfold InsertForPID. destruct (ChildFD s <? 0) eqn:E; [done|].
  apply map_Forall_insert_2; [|done]. simpl. split; [done|].
  pose proof (normalizeRegistryPID_nonneg pid). lia.
Qed.

Lemma registry_ok_delete k states : registry_ok states -> registry_ok (delete k states).
Proof. apply map_Forall_delete. Qed.

(** ** Lookup after insertion *)

Lemma LookupForPID_exact pid fd states s :
  0 <= pid -> 0 <= fd -> states !! (pid, fd) = Some s -> LookupForPID pid fd states = Some s.
Proof.
  intros P F E. unfold LookupForPID. replace (fd <? 0) with false by lia.
  rewrite normalizeRegistryPID_id by done. unfold lookupKeyLocked.
  rewrite bool_decide_eq_true_2 by eauto. simpl. done.
Qed.

Lemma filter_keys_fd (states : gmap (Z * Z) SocketState) fd k :
  k ∈ filter (fun k : Z * Z => k.2 = fd) (map_to_list states).*1 <->
  k.2 = fd /\ is_Some (states !! k).
Proof.
  rewrite list_elem_of_filter, list_elem_of_fmap. split.
  - intros [E ([k' s] & -> & M%elem_of_map_to_list)]. simpl in *. eauto.
  - intros [E [s M]]. split; [done|]. exists (k, s). by rewrite elem_of_map_to_list.
Qed.

(** A key found by [lookupKeyLocked] is registered for the descriptor, and it
    is the process's own whenever the process has one. *)
Lemma lookupKeyLocked_some states pid fd k :
  lookupKeyLocked states pid fd = Some k ->
  k.2 = fd /\ is_Some (states !! k) /\
  (k = (pid, fd) \/ states !! (pid, fd) = None /\ forall k', k'.2 = fd -> is_Some (states !! k') -> k' = k).
Proof.
  unfold lookupKeyLocked. case_bool_decide as E.
  - intros [= <-]. eauto.
  - destruct (filter _ _) as [|k0 [|k1 l]] eqn:F; try done. intros [= ->].
    assert (K : k.2 = fd /\ is_Some (states !! k)) by (apply filter_keys_fd; rewrite F; set_solver).
    destruct K as [K1 K2]. split; [done|]. split; [done|]. right.
    split; [by apply eq_None_not_Some|].
    intros k' E1 E2. assert (I : k' ∈ [k]) by (rewrite <- F; by apply filter_keys_fd). set_solver.
Qed.

Lemma lookupKeyLocked_none states pid fd :
  lookupKeyLocked states pid fd = None ->
  states !! (pid, fd) = None /\
  ((forall p, states !! (p, fd) = None) \/
   exists p q, p <> q /\ is_Some (states !! (p, fd)) /\ is_Some (states !! (q, fd))).
Proof.
  unfold lookupKeyLocked. case_bool_decide as E; [done|].
  assert (N : NoDup (filter (fun k : Z * Z => k.2 = fd) (map_to_list states).*1))
    by (apply NoDup_filter, NoDup_fst_map_to_list).
  destruct (filter _ _) as [|k0 [|k1 l]] eqn:F; try done; intros _.
  all: split; [by apply eq_None_not_Some|].
  - left. intros p. apply eq_None_not_Some. intros S.
    assert (I : (p, fd) ∈ filter (fun k : Z * Z => k.2 = fd) (map_to_list states).*1)
      by (by apply filter_keys_fd).
    rewrite F in I. set_solver.
  - right. assert (I0 : k0.2 = fd /\ is_Some (states !! k0)) by (apply filter_keys_fd; rewrite F; set_solver).
    assert (I1 : k1.2 = fd /\ is_Some (states !! k1)) by (apply filter_keys_fd; rewrite F; set_solver).
    destruct k0 as [p p2], k1 as [q q2]. simpl in *. destruct I0 as [-> I0], I1 as [-> I1].
    exists p, q. split; [|done]. intros ->. apply NoDup_cons in N as [N _]. set_solver.
Qed.

(** The key found depends only on which keys are registered. *)
Lemma lookupKeyLocked_ext states states' pid fd :
  (forall k, is_Some (states !! k) <-> is_Some (states' !! k)) ->
  lookupKeyLocked states pid fd = lookupKeyLocked states' pid fd.
Proof.
  intros E. unfold lookupKeyLocked.
  rewrite (bool_decide_ext _ _ (E (pid, fd))).
  assert (Pm : filter (fun k : Z * Z => k.2 = fd) (map_to_list states).*1 ≡ₚ
               filter (fun k : Z * Z => k.2 = fd) (map_to_list states').*1).
  { apply NoDup_Permutation; [apply NoDup_filter, NoDup_fst_map_to_list..|].
    intros k. rewrite !filter_keys_fd. by rewrite E. }
  destruct (filter _ (map_to_list states).*1) as [|k [|k1 l]] eqn:F.
  - by apply Permutation_nil in Pm as ->.
  - apply Permutation_singleton_l in Pm. by rewrite <- Pm.
  - apply Permutation_length in Pm. by destruct (filter _ (map_to_list states').*1) as [|? [|? ?]].
Qed.

(** The entry a lookup finds sits under its own process and descriptor. *)
Lemma LookupForPID_key pid fd states s :
  registry_ok states -> LookupForPID pid fd states = Some s ->
  states !! (ChildPID s, ChildFD s) = Some s /\ ChildFD s = fd /\ 0 <= ChildPID s /\ 0 <= fd.
Proof.
  intros OK. unfold LookupForPID. destruct (fd <? 0) eqn:F; [done|].
  destruct (lookupKeyLocked states _ fd) as [k|] eqn:E; simpl; [|done]. intros L.
  apply lookupKeyLocked_some in E as (E2 & _ & _). destruct (OK k s L) as (-> & ? & ?). simpl in *.
  split; [done|]. split; [done|]. lia.
Qed.

(** A registered entry that is written back is what the same lookup finds next. *)
Lemma LookupForPID_update pid fd states s s' :
  registry_ok states -> LookupForPID pid fd states = Some s ->
  ChildPID s' = ChildPID s -> ChildFD s' = ChildFD s ->
  LookupForPID pid fd (Insert s' states) = Some s' /\
  forall k, k <> (ChildPID s, ChildFD s) -> Insert s' states !! k = states !! k.
Proof.
  intros OK L EP EF. pose proof (LookupForPID_key _ _ _ _ OK L) as (Lk & <- & Hp & Hf).
  assert (EI : Insert s' states = <[(ChildPID s, ChildFD s) := s']> states).
  { unfold Insert, InsertForPID. rewrite EF, EP. replace (ChildFD s <? 0) with false by lia.
    rewrite normalizeRegistryPID_id by done. f_equal. destruct s'. simpl in *. by subst. }
  rewrite EI. split; [|intros k Hk; by rewrite lookup_insert_ne].
  unfold LookupForPID in *. destruct (ChildFD s <? 0) eqn:F; [done|].
  rewrite (lookupKeyLocked_ext _ states).
  2: { intros k. destruct (decide (k = (ChildPID s, ChildFD s))) as [->|N].
       - rewrite lookup_insert_eq. split; intros _; eauto.
       - by rewrite lookup_insert_ne. }
  destruct (lookupKeyLocked states _ _) as [k|] eqn:E; simpl in *; [|done].
  destruct (OK k s L) as (-> & _). by rewrite lookup_insert_eq.
Qed.
End registry.
