(* ===== verification/ProcMem.v ===== *)
(** Copying between the supervisor and the memory of the sandboxed process:
    the read and write helpers of [dns_runtime_linux.go] and
    [readProcessMemory] of [syscall_dispatch_linux.go].

    A structure of type T is its bytes; [readProcessValues] is taken at the
    size of T. Slice allocation is modelled with Go's limit: [make] panics when
    the size in bytes exceeds [maxAlloc], which the wrap-around of
    [size*count] does not prevent. *)
From S2P Require Import Prelude GoStrings GoNet Sys Sockaddr Kernel.

Definition maxDNSPacketSize : Z := 64 * 1024.
Definition zlen {A} (l : list A) : Z := Z.of_nat (length l).

(** Sizes and field offsets (linux/amd64). *)
Definition sizeof_Iovec : nat := 16.
Definition sizeof_Msghdr : nat := 56.
Definition sizeof_rawMmsghdr : nat := 64.
Definition sizeof_PollFd : nat := 8.
Definition iov_Base : list Z -> Z := get_u64 0.
Definition iov_Len : list Z -> Z := get_u64 8.
Definition msg_Name : list Z -> Z := get_u64 0.
Definition msg_Namelen : list Z -> Z := get_u32 8.
Definition msg_Iov : list Z -> Z := get_u64 16.
Definition msg_Iovlen : list Z -> Z := get_u64 24.
Definition msg_Control : list Z -> Z := get_u64 32.
Definition msg_Controllen : list Z -> Z := get_u64 40.
Definition set_Namelen (v : Z) : list Z -> list Z := patch 8 (le_enc 4 v).
Definition set_Controllen (v : Z) : list Z -> list Z := patch 40 (le_enc 8 v).
Definition set_Flags (v : Z) : list Z -> list Z := patch 48 (le_enc 4 v).
Definition set_Len (v : Z) : list Z -> list Z := patch 56 (le_enc 4 v).

Section memory.
Context `{Kernel}.

Definition readProcessMemory (pid addr size : Z) : M (list Z) :=
  if (pid <=? 0) || (addr =? 0) || (size <? 0) then merrno EINVAL
  else if size =? 0 then mret []
  else if maxAlloc <? size then mpanic
  else
    k <~ mget w_kernel;
    data <~ mlift (vm_readv pid addr size k);
    mret (take (Z.to_nat size) data).

Definition readProcessMemoryExact (pid addr size : Z) : M (list Z) :=
  if size <? 0 then merrno EINVAL
  else if size =? 0 then mret []
  else if addr =? 0 then merrno EFAULT
  else
    data <~ readProcessMemory pid addr size;
    if zlen data =? size then mret data else merrno EFAULT.

Definition writeProcessMemoryExact (pid addr : Z) (data : list Z) : M unit :=
  if zlen data =? 0 then mret tt
  else if pid <=? 0 then merrno EINVAL
  else if addr =? 0 then merrno EFAULT
  else
    n <~ mkernel (vm_writev pid addr data);
    if n =? zlen data then mret tt else merrno EFAULT.

Definition readProcessValue (size : nat) (pid addr : Z) : M (list Z) :=
  readProcessMemoryExact pid addr (Z.of_nat size).
Definition writeProcessValue (pid addr : Z) (value : list Z) : M unit :=
  writeProcessMemoryExact pid addr value.

Fixpoint chunks (count size : nat) (data : list Z) : list (list Z) :=
  match count with
  | O => []
  | S count => take size data :: chunks count size (drop size data)
  end.

Definition readProcessValues (size : nat) (pid addr count : Z) : M (list (list Z)) :=
  if count <? 0 then merrno EINVAL
  else if count =? 0 then mret []
  else
    data <~ readProcessMemoryExact pid addr (to_int (Z.of_nat size * count));
    if maxAlloc <? Z.of_nat size * count then mpanic
    else mret (chunks (Z.to_nat count) size data).

(** The address of element [idx] of an array of structures. *)
Definition element_addr (base : Z) (idx : Z) (size : nat) : Z := (base + idx * Z.of_nat size) mod 2 ^ 64.

Definition readProcessPayload (pid addr length : Z) : M (list Z) :=
  if (length <? 0) || (maxDNSPacketSize <? length) then merrno EMSGSIZE
  else if length =? 0 then mret []
  else readProcessMemoryExact pid addr length.

Definition writeProcessPayload (pid addr length : Z) (payload : list Z) : M Z :=
  if length <? 0 then merrno EINVAL
  else if (zlen payload =? 0) || (length =? 0) then mret 0
  else if addr =? 0 then merrno EFAULT
  else
    let n := Z.min length (zlen payload) in
    run! writeProcessMemoryExact pid addr (take (Z.to_nat n) payload);
    mret n.

(** First pass: every iovec and their sum stay within the packet limit. *)
Fixpoint iovecs_total (iovecs : list (list Z)) (total : Z) : option Z :=
  match iovecs with
  | [] => Some total
  | iov :: iovecs =>
      if (maxDNSPacketSize <? iov_Len iov) || (maxDNSPacketSize <? total + to_int (iov_Len iov))
      then None else iovecs_total iovecs (total + to_int (iov_Len iov))
  end.
Fixpoint gather (pid : Z) (iovecs : list (list Z)) (payload : list Z) : M (list Z) :=
  match iovecs with
  | [] => mret payload
  | iov :: iovecs =>
      if iov_Len iov =? 0 then gather pid iovecs payload
      else
        chunk <~ readProcessMemoryExact pid (iov_Base iov) (to_int (iov_Len iov));
        gather pid iovecs (payload ++ chunk)
  end.

Definition readPayloadFromIovecs (pid iovPtr iovLen : Z) : M (list Z) :=
  if iovLen <? 0 then merrno EINVAL
  else if iovLen =? 0 then mret []
  else if iovPtr =? 0 then merrno EFAULT
  else
    iovecs <~ readProcessValues sizeof_Iovec pid iovPtr iovLen;
    match iovecs_total iovecs 0 with
    | None => merrno EMSGSIZE
    | Some _ => gather pid iovecs []
    end.

(** The slice expression [payload[written:written+toWrite]] panics when
    [toWrite] is negative. *)
Fixpoint scatter (pid : Z) (iovecs : list (list Z)) (payload : list Z) (written : Z) : M Z :=
  match iovecs with
  | [] => mret written
  | iov :: iovecs =>
      if zlen payload <=? written then mret written
      else if iov_Len iov =? 0 then scatter pid iovecs payload written
      else
        let toWrite := Z.min (to_int (iov_Len iov)) (zlen payload - written) in
        if toWrite =? 0 then scatter pid iovecs payload written
        else if toWrite <? 0 then mpanic
        else
          run! writeProcessMemoryExact pid (iov_Base iov)
                 (take (Z.to_nat toWrite) (drop (Z.to_nat written) payload));
          scatter pid iovecs payload (written + toWrite)
  end.

(** The number of bytes written and whether the payload was truncated. *)
Definition writePayloadToIovecs (pid iovPtr iovLen : Z) (payload : list Z) : M (Z * bool) :=
  if iovLen <? 0 then merrno EINVAL
  else if iovLen =? 0 then mret (0, 0 <? zlen payload)
  else if iovPtr =? 0 then merrno EFAULT
  else
    iovecs <~ readProcessValues sizeof_Iovec pid iovPtr iovLen;
    written <~ scatter pid iovecs payload 0;
    mret (written, written <? zlen payload).

Definition writeSockaddr (pid addrPtr addrLenPtr : Z) (source : DecodedSockaddr) : M unit :=
  raw <~ mlift (encodeRawSockaddr source);
  lenRaw <~ readProcessValue 4 pid addrLenPtr;
  let copyLen := Z.min (le_dec lenRaw) (zlen raw) in
  run! (if 0 <? copyLen then writeProcessMemoryExact pid addrPtr (take (Z.to_nat copyLen) raw)
        else mret tt);
  writeProcessValue pid addrLenPtr (le_enc 4 (zlen raw)).

Definition writeRecvfromSockaddr (pid addrPtr addrLenPtr : Z) (source : DecodedSockaddr) : M unit :=
  if (addrPtr =? 0) && (addrLenPtr =? 0) then mret tt
  else if (addrPtr =? 0) || (addrLenPtr =? 0) then merrno EFAULT
  else writeSockaddr pid addrPtr addrLenPtr source.

(** The updated message header. *)
Definition writeMsghdrSockaddr (pid : Z) (msg : list Z) (source : DecodedSockaddr) : M (list Z) :=
  if (msg_Name msg =? 0) || (msg_Namelen msg =? 0) then mret msg
  else
    raw <~ mlift (encodeRawSockaddr source);
    let copyLen := Z.min (msg_Namelen msg) (zlen raw) in
    run! (if 0 <? copyLen then writeProcessMemoryExact pid (msg_Name msg) (take (Z.to_nat copyLen) raw)
          else mret tt);
    mret (set_Namelen (zlen raw) msg).

Lemma length_chunks count size data : length (chunks count size data) = count.
Proof. revert data. induction count; intros; simpl; congruence. Qed.

Lemma readProcessValues_length size pid addr count w vs w' :
  0 <= count -> readProcessValues size pid addr count w = (Ret vs, w') -> zlen vs = count.
Proof.
  intros C. unfold readProcessValues. destruct (count <? 0) eqn:N; [done|].
  destruct (count =? 0) eqn:Z0; [intros [= <- <-]; unfold zlen; simpl; lia|].
  unfold mbind. destruct (readProcessMemoryExact _ _ _ _) as [[d|e| |] w1]; try done.
  destruct (maxAlloc <? _); [done|]. intros [= <- <-]. unfold zlen. rewrite length_chunks. lia.
Qed.
End memory.
