(* ===== verification/Supervisor.v ===== *)
(** The syscall supervisor: the handlers of [dns_runtime_linux.go],
    [syscall_dispatch_linux.go], [socket_state_linux.go] and the TCP routing of
    [supervisor_linux.go], on linux/amd64.

    A handler that returns [(n, handled, err)] is a program returning
    [Some n] when it handled the call, [None] when the kernel is to continue
    it, and failing with [err] otherwise. *)
From S2P Require Import Prelude GoStrings GoNet Sys Sockaddr Kernel FDRegistry ProcMem.

(** * Constants *)

Definition SYS_READ : Z := 0.
Definition SYS_WRITE : Z := 1.
Definition SYS_CLOSE : Z := 3.
Definition SYS_POLL : Z := 7.
Definition SYS_IOCTL : Z := 16.
Definition SYS_DUP : Z := 32.
Definition SYS_DUP2 : Z := 33.
Definition SYS_SOCKET : Z := 41.
Definition SYS_CONNECT : Z := 42.
Definition SYS_SENDTO : Z := 44.
Definition SYS_RECVFROM : Z := 45.
Definition SYS_SENDMSG : Z := 46.
Definition SYS_RECVMSG : Z := 47.
Definition SYS_GETPEERNAME : Z := 52.
Definition SYS_FCNTL : Z := 72.
Definition SYS_PPOLL : Z := 271.
Definition SYS_DUP3 : Z := 292.
Definition SYS_RECVMMSG : Z := 299.
Definition SYS_SENDMMSG : Z := 307.
Definition optionalDup2Syscall : Z := SYS_DUP2.
Definition optionalPollSyscall : Z := SYS_POLL.

Definition SOCK_STREAM : Z := 1.
Definition SOCK_DGRAM : Z := 2.
Definition SOCK_NONBLOCK : Z := 0x800.
Definition SOCK_CLOEXEC : Z := 0x80000.
Definition O_CLOEXEC : Z := 0x80000.
Definition IPPROTO_UDP : Z := 17.
Definition MSG_PEEK : Z := 2.
Definition MSG_TRUNC : Z := 0x20.
Definition POLLIN : Z := 1.
Definition POLLOUT : Z := 4.
Definition F_DUPFD : Z := 0.
Definition F_DUPFD_CLOEXEC : Z := 1030.
Definition ADDFD_FLAG_SETFD : Z := 1.
Definition maxSockaddrBytes : Z := 128.
Definition ioctlFIONREAD : Z := 0x541B.

Record ScmpNotifReq := { rq_ID : Z; rq_Pid : Z; rq_Syscall : Z; rq_Args : list Z }.
Inductive ScmpNotifResp :=
| Success (id val : Z)
| Continue (id : Z)
| ErrorResp (id errno : Z).

(** A raw argument register, and the register read as an [int]. *)
Definition arg (req : ScmpNotifReq) (i : nat) : Z := default 0 (rq_Args req !! i).
Definition argi (req : ScmpNotifReq) (i : nat) : Z := to_int (arg req i).

Definition errnoFromError (e : gerror) : Z :=
  match e with
  | EErrno n => if n =? 0 then EIO else n
  | EOther _ => EIO
  end.

Definition notificationPID (fallback : Z) (req : ScmpNotifReq) : Z :=
  if 0 <? rq_Pid req then rq_Pid req else fallback.

(** * Classification and routing *)

Definition isManagedSocketFamily (family : Z) : bool := (family =? AF_INET) || (family =? AF_INET6).
Definition baseSocketType (socketType : Z) : Z := Z.land socketType 0xf.

Definition targetsSupportFamilyIngress (targets : RuntimeTargets) (family : Z) : bool :=
  if family =? AF_INET then negb (bool_decide (RawTCPAddr targets = ""))
  else if family =? AF_INET6 then negb (bool_decide (RawTCPAddrV6 targets = ""))
  else false.

(** The kind and whether the socket is managed. *)
Definition classifyManagedSocket (targets : RuntimeTargets) (family socketType protocol : Z)
    : gerror + (SocketKind * bool) :=
  if negb (isManagedSocketFamily family) then inr (KindUnknown, false)
  else if baseSocketType socketType =? SOCK_STREAM then
    if targetsSupportFamilyIngress targets family then inr (KindTCP, true) else inr (KindUnknown, false)
  else if baseSocketType socketType =? SOCK_DGRAM then
    if negb (protocol =? 0) && negb (protocol =? IPPROTO_UDP) then inr (KindUnknown, false)
    else if DNSRoundTrip_set targets then inr (KindUDP, true) else inl (EErrno EHOSTUNREACH)
  else inr (KindUnknown, false).

Definition selectIngressAddrForFamily (family : Z) (addr4 addr6 : string) : string :=
  if family =? AF_INET6 then addr6 else addr4.

Definition sockaddrMatchesFamily (sa : Sockaddr) (family : Z) : bool :=
  match sa with
  | SockaddrInet4 _ _ => family =? AF_INET
  | SockaddrInet6 _ _ => family =? AF_INET6
  end.

(** The ingress address and its socket address; the route kind is always
    [routeRawTCPIngress]. The destination host plays no part. *)
Definition routeTCPDestination `{GoLib} (targets : RuntimeTargets) (family : Z) (host : string) (port : Z)
    : gerror + (string * Sockaddr) :=
  if port =? 53 then inl (EErrno EPERM)
  else
    let addr := selectIngressAddrForFamily family (RawTCPAddr targets) (RawTCPAddrV6 targets) in
    if bool_decide (addr = "") then inl (EOther ("missing ingress address for route " +:+ Quote "raw_tcp"))
    else
      match parseTCPAddr addr with
      | inl e => inl e
      | inr sockaddr =>
          if sockaddrMatchesFamily sockaddr family then inr (addr, sockaddr) else inl (EErrno EAFNOSUPPORT)
      end.

(** * Child descriptors *)

Definition minChildFDForSocketKind (kind : SocketKind) : Z :=
  match kind with KindUDP => minManagedUDPChildFD | _ => minManagedTCPChildFD end.

Definition minDupFDForState (state : SocketState) (requestedMin : Z) : Z :=
  match Kind state with
  | KindUDP => if requestedMin <? minManagedUDPChildFD then minManagedUDPChildFD else requestedMin
  | KindTCP => if requestedMin <? minManagedTCPChildFD then minManagedTCPChildFD else requestedMin
  | KindUnknown => requestedMin
  end.

(** State updates of [SocketState]. *)
Definition with_pending (managed : bool) (pending : pslice) (s : SocketState) : SocketState := {|
  Kind := Kind s; ChildPID := ChildPID s; ChildFD := ChildFD s; HelperFD := HelperFD s; Family := Family s;
  SocketType := SocketType s; Protocol := Protocol s; Blocking := Blocking s;
  DNSManaged := managed; ConnectedHost := ConnectedHost s; ConnectedPort := ConnectedPort s;
  PendingDNSResponses := pending; OriginalHost := OriginalHost s;
  OriginalPort := OriginalPort s; RedirectAddr := RedirectAddr s |}.
Definition with_peer (managed : bool) (chost : string) (cport : Z) (ohost : string) (oport : Z)
    (redirect : string) (fd : Z) (s : SocketState) : SocketState := {|
  Kind := Kind s; ChildPID := ChildPID s; ChildFD := fd; HelperFD := HelperFD s; Family := Family s;
  SocketType := SocketType s; Protocol := Protocol s; Blocking := Blocking s;
  DNSManaged := managed; ConnectedHost := chost; ConnectedPort := cport;
  PendingDNSResponses := PendingDNSResponses s; OriginalHost := ohost;
  OriginalPort := oport; RedirectAddr := redirect |}.

Section supervisor.
Context `{GoLib} `{Kernel} (targets : RuntimeTargets).

(** The scan of [reserveChildFD]: the first unreserved descriptor of 4096. *)
Fixpoint find_free (reserved : gset Z) (fd : Z) (n : nat) : option Z :=
  match n with
  | O => None
  | S n => if bool_decide (fd ∈ reserved) then find_free reserved (fd + 1) n else Some fd
  end.

Definition reserveChildFD (kind : SocketKind) (requestedMin : Z) : M Z := fun w =>
  let minFD := Z.max (minChildFDForSocketKind kind) requestedMin in
  let next0 := match kind with KindUDP => w_nextUDP w | _ => w_nextTCP w end in
  let next := if next0 <? minFD then minFD else next0 in
  match find_free (w_reserved w) next 4096 with
  | None => (Ret (-1), w)
  | Some fd =>
      let reserved := {[fd]} ∪ w_reserved w in
      (Ret fd, match kind with
               | KindUDP => set_fds reserved (w_nextTCP w) (fd + 1) w
               | _ => set_fds reserved (fd + 1) (w_nextUDP w) w
               end)
  end.

Definition releaseChildFD (fd : Z) : M unit :=
  if fd <? 0 then mret tt
  else mmodify (fun w => set_fds (w_reserved w ∖ {[fd]}) (w_nextTCP w) (w_nextUDP w) w).

Definition addFDWithResult (reqID srcFD newFD flags newFDFlags : Z) : M Z :=
  if notifyFD targets <? 0 then mfail (EOther "notify fd must be non-negative")
  else if srcFD <? 0 then mfail (EOther "source fd must be non-negative")
  else
    r1 <~ mkernel (ioctl_addfd reqID srcFD newFD flags newFDFlags);
    mret (if newFD =? 0 then r1 else newFD).

Definition fd_busy (e : gerror) : bool :=
  match e with EErrno n => (n =? EBUSY) || (n =? EEXIST) | EOther _ => false end.

Fixpoint addFD_scan (n : nat) (reqID srcFD fd newFDFlags : Z) : M Z :=
  match n with
  | O => merrno EMFILE
  | S n =>
      r <~ mtry (addFDWithResult reqID srcFD (to_uint32 fd) ADDFD_FLAG_SETFD newFDFlags);
      match r with
      | inr childFD => mret childFD
      | inl e => if fd_busy e then addFD_scan n reqID srcFD (fd + 1) newFDFlags else mfail e
      end
  end.
Definition addFDAtOrAbove (reqID srcFD minFD newFDFlags : Z) : M Z :=
  addFD_scan 4096 reqID srcFD (Z.max minFD 0) newFDFlags.

Definition lookupSocket (pid fd : Z) : M (option SocketState) :=
  mget (fun w => LookupForPID pid fd (w_reg w)).
Definition lookupManagedUDPSocket (pid : Z) (req : ScmpNotifReq) : M (option SocketState) :=
  if argi req 0 <? 0 then mret None
  else
    state <~ lookupSocket pid (argi req 0);
    mret (s ← state; if bool_decide (Kind s = KindUDP) then Some s else None).
Definition insertState (state : SocketState) : M unit := mmodify (set_reg (Insert state)).

(** * DNS emulation *)

Definition dnsErrno (e : gerror) : option Z :=
  match e with
  | EErrno n => if n =? EACCES then Some EACCES else if n =? 0 then None else Some n
  | EOther msg =>
      if Contains (ToLower msg) "denied" then Some EACCES
      else if Contains (ToLower msg) "not registered" then Some EHOSTUNREACH else None
  end.

Definition dnsRoundTrip (destination : DecodedSockaddr) (payload : list Z) : M (list Z) :=
  if negb (DNSRoundTrip_set targets) then merrno EHOSTUNREACH
  else if negb (sa_Port destination =? 53) then merrno EPERM
  else
    r <~ mtry (mkernel (dns_upstream (sa_Host destination) (sa_Port destination) payload));
    match r with
    | inl e => match dnsErrno e with Some n => merrno n | None => mfail e end
    | inr reply => if maxDNSPacketSize <? zlen reply then merrno EMSGSIZE else mret reply
    end.

(** The destination and whether it is a DNS server (port 53). *)
Definition resolveDNSDestination (pid : Z) (state : SocketState) (addrPtr addrLen : Z)
    : M (DecodedSockaddr * bool) :=
  if negb (addrPtr =? 0) then
    if (addrLen <=? 0) || (maxSockaddrBytes <? addrLen) then merrno EINVAL
    else
      rawAddr <~ readProcessMemoryExact pid addrPtr addrLen;
      decoded <~ mlift (DecodeSockaddr rawAddr);
      mret (decoded, sa_Port decoded =? 53)
  else if bool_decide (TrimSpace (ConnectedHost state) = "") || (ConnectedPort state <=? 0)
  then merrno EDESTADDRREQ
  else mret ({| sa_Family := peernameFamily (ConnectedHost state) (Family state);
                sa_Host := ConnectedHost state; sa_Port := ConnectedPort state |},
             ConnectedPort state =? 53).

(** [state.DNSManaged = true; state.PendingDNSResponses = append(...)] *)
Definition queueResponse (state : SocketState) (resp : dnsPacketResponse) : M SocketState := fun w =>
  let '(h, s) := slice_append (w_heap w) (PendingDNSResponses state) resp in
  (Ret (with_pending true s state), set_heap h w).
Definition pendingResponses (state : SocketState) : M (list dnsPacketResponse) :=
  mget (fun w => slice_view (w_heap w) (PendingDNSResponses state)).
Definition takePendingDNSResponse (state : SocketState) : M dnsPacketResponse :=
  pending <~ pendingResponses state;
  match pending with
  | [] => merrno EAGAIN
  | resp :: _ => mret resp
  end.
Definition dropPending (n : nat) (state : SocketState) : M unit :=
  insertState (with_pending (DNSManaged state) (slice_drop n (PendingDNSResponses state)) state).

(** The common tail of the four send handlers: resolve, ask, queue. *)
Definition sendQuery (pid : Z) (state : SocketState) (payload : list Z) (addrPtr addrLen : Z)
    : M (option Z) :=
  dest <~ resolveDNSDestination pid state addrPtr addrLen;
  if negb dest.2 then mret None
  else
    reply <~ dnsRoundTrip dest.1 payload;
    state' <~ queueResponse state {| dr_Payload := reply; dr_Source := dest.1 |};
    run! insertState state';
    mret (Some (zlen payload)).

Definition emulateDNSSendTo (pid : Z) (req : ScmpNotifReq) : M (option Z) :=
  st <~ lookupManagedUDPSocket pid req;
  match st with
  | None => mret None
  | Some state =>
      payload <~ readProcessPayload pid (arg req 1) (argi req 2);
      sendQuery pid state payload (arg req 4) (argi req 5)
  end.

Definition emulateDNSWrite (pid : Z) (req : ScmpNotifReq) : M (option Z) :=
  st <~ lookupManagedUDPSocket pid req;
  match st with
  | None => mret None
  | Some state =>
      payload <~ readProcessPayload pid (arg req 1) (argi req 2);
      sendQuery pid state payload 0 0
  end.

Definition has_control (msg : list Z) : bool :=
  negb (msg_Control msg =? 0) && (0 <? msg_Controllen msg).

Definition emulateDNSSendMsg (pid : Z) (req : ScmpNotifReq) : M (option Z) :=
  st <~ lookupManagedUDPSocket pid req;
  match st with
  | None => mret None
  | Some state =>
      msg <~ readProcessValue sizeof_Msghdr pid (arg req 1);
      if has_control msg then merrno EOPNOTSUPP
      else
        payload <~ readPayloadFromIovecs pid (msg_Iov msg) (to_int (msg_Iovlen msg));
        sendQuery pid state payload (msg_Name msg) (msg_Namelen msg)
  end.

Definition emulateDNSRead (pid : Z) (req : ScmpNotifReq) : M (option Z) :=
  st <~ lookupManagedUDPSocket pid req;
  match st with
  | None => mret None
  | Some state =>
      resp <~ takePendingDNSResponse state;
      n <~ writeProcessPayload pid (arg req 1) (argi req 2) (dr_Payload resp);
      run! dropPending 1 state;
      mret (Some n)
  end.

Definition has_flag (flags bit : Z) : bool := negb (Z.land flags bit =? 0).

Definition emulateDNSRecvFrom (pid : Z) (req : ScmpNotifReq) : M (option Z) :=
  st <~ lookupManagedUDPSocket pid req;
  match st with
  | None => mret None
  | Some state =>
      let flags := argi req 3 in
      resp <~ takePendingDNSResponse state;
      n <~ writeProcessPayload pid (arg req 1) (argi req 2) (dr_Payload resp);
      run! writeRecvfromSockaddr pid (arg req 4) (arg req 5) (dr_Source resp);
      run! (if has_flag flags MSG_PEEK then mret tt else dropPending 1 state);
      mret (Some n)
  end.

(** [msg] after a delivery: no control data, flags saying whether it was cut. *)
Definition finish_msg (truncated : bool) (msg : list Z) : list Z :=
  set_Flags (if truncated then MSG_TRUNC else 0) (set_Controllen 0 msg).

Definition emulateDNSRecvMsg (pid : Z) (req : ScmpNotifReq) : M (option Z) :=
  st <~ lookupManagedUDPSocket pid req;
  match st with
  | None => mret None
  | Some state =>
      let msgAddr := arg req 1 in
      let flags := argi req 2 in
      msg <~ readProcessValue sizeof_Msghdr pid msgAddr;
      resp <~ takePendingDNSResponse state;
      wr <~ writePayloadToIovecs pid (msg_Iov msg) (to_int (msg_Iovlen msg)) (dr_Payload resp);
      msg' <~ writeMsghdrSockaddr pid msg (dr_Source resp);
      run! writeProcessValue pid msgAddr (finish_msg wr.2 msg');
      run! (if has_flag flags MSG_PEEK then mret tt else dropPending 1 state);
      mret (Some wr.1)
  end.

(** [if sent > 0 { return sent, true, nil }; return 0, true, err] *)
Definition partial {A} (sent : Z) (e : gerror) : M (option Z + A) :=
  if 0 <? sent then mret (inl (Some sent)) else mfail e.

(** The loop of sendmmsg: [inl] is a return from inside it, [inr] its end. *)
Fixpoint sendmmsg_loop (pid vec idx : Z) (msgs : list (list Z)) (state : SocketState) (sent : Z)
    : M (option Z + SocketState * Z) :=
  match msgs with
  | [] => mret (inr (state, sent))
  | msg :: msgs =>
      if has_control msg then partial sent (EErrno EOPNOTSUPP)
      else
        payload <~ mtry (readPayloadFromIovecs pid (msg_Iov msg) (to_int (msg_Iovlen msg)));
        match payload with
        | inl e => partial sent e
        | inr payload =>
            dest <~ mtry (resolveDNSDestination pid state (msg_Name msg) (msg_Namelen msg));
            match dest with
            | inl e => partial sent e
            | inr (destination, false) =>
                mret (inl (if 0 <? sent then Some sent else None))
            | inr (destination, true) =>
                reply <~ mtry (dnsRoundTrip destination payload);
                match reply with
                | inl e => partial sent e
                | inr reply =>
                    state' <~ queueResponse state {| dr_Payload := reply; dr_Source := destination |};
                    wrote <~ mtry (writeProcessValue pid (element_addr vec idx sizeof_rawMmsghdr)
                                     (set_Len (zlen payload) msg));
                    match wrote with
                    | inl e => partial sent e
                    | inr _ => sendmmsg_loop pid vec (idx + 1) msgs state' (sent + 1)
                    end
                end
            end
        end
  end.

Definition emulateDNSSendMMsg (pid : Z) (req : ScmpNotifReq) : M (option Z) :=
  st <~ lookupManagedUDPSocket pid req;
  match st with
  | None => mret None
  | Some state =>
      let msgCount := argi req 2 in
      if msgCount <? 0 then merrno EINVAL
      else
        msgs <~ readProcessValues sizeof_rawMmsghdr pid (arg req 1) msgCount;
        r <~ sendmmsg_loop pid (arg req 1) 0 msgs state 0;
        match r with
        | inl early => mret early
        | inr (state', sent) => run! insertState state'; mret (Some sent)
        end
  end.

(** The loop of recvmmsg over the messages and the pending responses: the
    number received, or the error of the first one. *)
Fixpoint recvmmsg_loop (pid vec : Z) (received : Z) (msgs : list (list Z))
    (pending : list dnsPacketResponse) : M Z :=
  match msgs, pending with
  | msg :: msgs, resp :: pending =>
      let stop e := if 0 <? received then mret received else mfail e in
      wr <~ mtry (writePayloadToIovecs pid (msg_Iov msg) (to_int (msg_Iovlen msg)) (dr_Payload resp));
      match wr with
      | inl e => stop e
      | inr (n, truncated) =>
          msg' <~ mtry (writeMsghdrSockaddr pid msg (dr_Source resp));
          match msg' with
          | inl e => stop e
          | inr msg' =>
              wrote <~ mtry (writeProcessValue pid (element_addr vec received sizeof_rawMmsghdr)
                               (set_Len (to_uint32 n) (finish_msg truncated msg')));
              match wrote with
              | inl e => stop e
              | inr _ => recvmmsg_loop pid vec (received + 1) msgs pending
              end
          end
      end
  | _, _ => mret received
  end.

Definition emulateDNSRecvMMsg (pid : Z) (req : ScmpNotifReq) : M (option Z) :=
  st <~ lookupManagedUDPSocket pid req;
  match st with
  | None => mret None
  | Some state =>
      let msgVecAddr := arg req 1 in
      let msgCount := argi req 2 in
      let flags := argi req 3 in
      if msgCount <? 0 then merrno EINVAL
      else
        msgs <~ readProcessValues sizeof_rawMmsghdr pid msgVecAddr msgCount;
        pending <~ pendingResponses state;
        if zlen pending =? 0 then merrno EAGAIN
        else
          received <~ recvmmsg_loop pid msgVecAddr 0 msgs pending;
          if received =? 0 then merrno EAGAIN
          else
            run! (if has_flag flags MSG_PEEK then mret tt else dropPending (Z.to_nat received) state);
            mret (Some received)
  end.

Definition pfd_Fd : list Z -> Z := get_i32 0.
Definition pfd_Events : list Z -> Z := get_i16 4.
Definition set_Revents (v : Z) : list Z -> list Z := patch 6 (le_enc 2 v).

(** One poll entry: its new value, whether it is handled here, and whether it
    is ready. *)
Definition poll_entry (reg : gmap (Z * Z) SocketState) (h : gmap nat (list dnsPacketResponse))
    (pid : Z) (pfd : list Z) : list Z * bool * bool :=
  if pfd_Fd pfd <? 0 then (set_Revents 0 pfd, false, false)
  else
    match LookupForPID pid (pfd_Fd pfd) reg with
    | Some state =>
        if bool_decide (Kind state = KindUDP) &&
           negb (zlen (slice_view h (PendingDNSResponses state)) =? 0)
        then
          let revents := Z.lor (if has_flag (pfd_Events pfd) POLLIN then POLLIN else 0)
                               (if has_flag (pfd_Events pfd) POLLOUT then POLLOUT else 0) in
          (set_Revents revents pfd, true, negb (revents =? 0))
        else (set_Revents 0 pfd, false, false)
    | None => (set_Revents 0 pfd, false, false)
    end.

Fixpoint poll_write (pid ptr idx : Z) (pfds : list (list Z)) : M unit :=
  match pfds with
  | [] => mret tt
  | pfd :: pfds =>
      run! writeProcessValue pid (element_addr ptr idx sizeof_PollFd) pfd;
      poll_write pid ptr (idx + 1) pfds
  end.

Definition emulateDNSPollFDs (pid fdsPtr fdCount : Z) : M (option Z) :=
  if fdCount <? 0 then merrno EINVAL
  else if fdCount =? 0 then mret None
  else
    pollFDs <~ readProcessValues sizeof_PollFd pid fdsPtr fdCount;
    entries <~ mget (fun w => poll_entry (w_reg w) (w_heap w) pid <$> pollFDs);
    if negb (existsb (fun e => e.1.2) entries) then mret None
    else
      run! poll_write pid fdsPtr 0 ((fun e => e.1.1) <$> entries);
      mret (Some (zlen (filter (fun e : list Z * bool * bool => e.2 = true) entries))).

Definition emulateDNSPoll (pid : Z) (req : ScmpNotifReq) : M (option Z) :=
  emulateDNSPollFDs pid (arg req 0) (argi req 1).
Definition emulateDNSPPoll (pid : Z) (req : ScmpNotifReq) : M (option Z) :=
  emulateDNSPollFDs pid (arg req 0) (argi req 1).

Definition emulateDNSIoctl (pid : Z) (req : ScmpNotifReq) : M bool :=
  st <~ lookupManagedUDPSocket pid req;
  match st with
  | None => mret false
  | Some state =>
      if negb (arg req 1 =? ioctlFIONREAD) then mret false
      else if arg req 2 =? 0 then merrno EFAULT
      else
        pending <~ pendingResponses state;
        let n := match pending with [] => 0 | resp :: _ => zlen (dr_Payload resp) end in
        run! writeProcessValue pid (arg req 2) (le_enc 4 n);
        mret true
  end.

(** * Sockets *)

(** The loop of [injectSocket] around the descriptor installation. *)
Fixpoint install_loop (fuel : nat) (reqID helperFD : Z) (kind : SocketKind) : M Z :=
  match fuel with
  | O => fun w => (OutOfFuel, w)
  | S fuel =>
      childFD <~ reserveChildFD kind (minChildFDForSocketKind kind);
      if childFD <? 0 then
        run! mkeffect (sys_close helperFD);
        merrno EMFILE
      else
        r <~ mtry (addFDWithResult reqID helperFD (to_uint32 childFD) ADDFD_FLAG_SETFD 0);
        match r with
        | inr _ => mret childFD
        | inl e =>
            run! releaseChildFD childFD;
            if fd_busy e then install_loop fuel reqID helperFD kind
            else
              run! mkeffect (sys_close helperFD);
              mfail e
        end
  end.

Definition newSocketState (pid : Z) (kind : SocketKind) (childFD helperFD family socketType protocol : Z)
    : SocketState := {|
  Kind := kind; ChildPID := pid; ChildFD := childFD; HelperFD := helperFD; Family := family;
  SocketType := socketType; Protocol := protocol;
  Blocking := Z.land socketType SOCK_NONBLOCK =? 0;
  DNSManaged := false; ConnectedHost := ""; ConnectedPort := 0; PendingDNSResponses := nil_slice;
  OriginalHost := ""; OriginalPort := 0; RedirectAddr := "" |}.

Definition injectSocket (fuel : nat) (req : ScmpNotifReq) : M (option Z) :=
  let family := argi req 0 in
  let socketType := argi req 1 in
  let protocol := argi req 2 in
  km <~ mlift (classifyManagedSocket targets family socketType protocol);
  if negb km.2 then mret None
  else
    helperFD <~ mkernel (sys_socket family socketType protocol);
    childFD <~ install_loop fuel (rq_ID req) helperFD km.1;
    let pid := notificationPID 0 req in
    run! CloseForPID pid childFD;
    run! mmodify (set_reg (InsertForPID pid (newSocketState pid km.1 childFD helperFD family socketType protocol)));
    mret (Some childFD).

Definition handleConnect (childFD : Z) (destination : DecodedSockaddr) : M unit :=
  if childFD <? 0 then merrno EBADF
  else
    st <~ mget (fun w => Lookup childFD (w_reg w));
    match st with
    | None => mret tt
    | Some state =>
        if (HelperFD state <? 0) || negb (bool_decide (Kind state = KindTCP)) then mret tt
        else
          route <~ mlift (routeTCPDestination targets (Family state) (sa_Host destination) (sa_Port destination));
          connectErr <~ (fun w => let '(e, k) := sys_connect (HelperFD state) route.2 (w_kernel w) in
                                  (Ret e, set_kernel k w));
          run! match connectErr with
               | None => mret tt
               | Some e =>
                   if (e =? EINPROGRESS) || (e =? EALREADY) then
                     fun w => let '(e, k) := wait_connect (HelperFD state) (w_kernel w) in
                              (match e with None => Ret tt | Some e => Fail e end, set_kernel k w)
                   else merrno e
               end;
          run! insertState (with_peer (DNSManaged state) (ConnectedHost state) (ConnectedPort state)
                              (sa_Host destination) (sa_Port destination) route.1 (ChildFD state) state);
          if RecordRawTCPOrigin_set targets then
            local <~ mtry (mkernel (getsockname_retry (HelperFD state)));
            match local with
            | inr addr =>
                if bool_decide (addr = "") then mret tt
                else mkeffect (record_origin addr (sa_Host destination) (sa_Port destination))
            | inl _ => mret tt
            end
          else mret tt
    end.

Definition reinstallConnectedSocket (notifID : Z) (state : SocketState) : M unit :=
  if (ChildFD state <? 0) || (HelperFD state <? 0) then merrno EBADF
  else
    let newFDFlags := if has_flag (SocketType state) SOCK_CLOEXEC then O_CLOEXEC else 0 in
    run! addFDWithResult notifID (HelperFD state) (to_uint32 (ChildFD state)) ADDFD_FLAG_SETFD newFDFlags;
    mret tt.

Definition handleDNSConnect (childFD : Z) (state : SocketState) (destination : DecodedSockaddr) : M unit :=
  if negb (DNSRoundTrip_set targets) then merrno EHOSTUNREACH
  else insertState (with_peer true (sa_Host destination) (sa_Port destination)
                      (sa_Host destination) (sa_Port destination) "" childFD state).
Definition handleDNSDisconnect (childFD : Z) (state : SocketState) : M unit :=
  insertState (with_peer false "" 0 "" 0 "" childFD state).

Definition redirectConnect (pid : Z) (req : ScmpNotifReq) : M bool :=
  let childFD := argi req 0 in
  st <~ lookupSocket pid childFD;
  match st with
  | None => mret false
  | Some state =>
      let addrPtr := arg req 1 in
      let addrLen := argi req 2 in
      if (addrPtr =? 0) || (addrLen <=? 0) || (maxSockaddrBytes <? addrLen) then merrno EINVAL
      else
        rawAddr <~ readProcessMemory pid addrPtr addrLen;
        decoded <~ mlift (DecodeSockaddr rawAddr);
        if sa_Family decoded =? AF_UNSPEC then
          match Kind state with
          | KindUDP => run! handleDNSDisconnect childFD state; mret false
          | _ => mret false
          end
        else
          match Kind state with
          | KindTCP =>
              run! handleConnect childFD decoded;
              updated <~ lookupSocket pid childFD;
              match updated with
              | None => merrno EBADF
              | Some updated => run! reinstallConnectedSocket (rq_ID req) updated; mret true
              end
          | KindUDP =>
              if negb (sa_Port decoded =? 53) then
                run! CloseForPID pid childFD;
                run! releaseChildFD childFD;
                mret false
              else run! handleDNSConnect childFD state decoded; mret true
          | KindUnknown => mret false
          end
  end.

Definition emulateGetpeername (pid : Z) (req : ScmpNotifReq) : M bool :=
  let childFD := argi req 0 in
  if childFD <? 0 then merrno EBADF
  else
    st <~ lookupSocket pid childFD;
    match st with
    | None => mret false
    | Some state =>
        if bool_decide (OriginalHost state = "") || (OriginalPort state <=? 0) then merrno ENOTCONN
        else
          run! writeSockaddr pid (arg req 1) (arg req 2)
                 {| sa_Family := peernameFamily (OriginalHost state) (Family state);
                    sa_Host := OriginalHost state; sa_Port := OriginalPort state |};
          mret true
    end.

(** The two ways a duplicate is installed: at or above a minimum (dup,
    F_DUPFD), or at a chosen number (dup2, dup3). *)
Definition dup_above (pid reqID oldFD minFD flags : Z) (state : SocketState) : M (option Z) :=
  let minFD := minDupFDForState state minFD in
  let minFD := if minFD <=? oldFD then oldFD + 1 else minFD in
  childFD <~ addFDAtOrAbove reqID (HelperFD state) minFD flags;
  run! DupForPID pid oldFD childFD;
  mret (Some childFD).
Definition dup_at (pid reqID oldFD newFD flags : Z) (state : SocketState) : M (option Z) :=
  if newFD <? 0 then merrno EBADF
  else if oldFD =? newFD then mret (Some oldFD)
  else
    childFD <~ addFDWithResult reqID (HelperFD state) (to_uint32 newFD) ADDFD_FLAG_SETFD flags;
    run! DupForPID pid oldFD childFD;
    mret (Some childFD).

Definition duplicateSocket (pid : Z) (req : ScmpNotifReq) : M (option Z) :=
  let oldFD := argi req 0 in
  if oldFD <? 0 then merrno EBADF
  else
    st <~ lookupSocket pid oldFD;
    match st with
    | None => mret None
    | Some state =>
        if rq_Syscall req =? SYS_DUP then dup_above pid (rq_ID req) oldFD 0 0 state
        else if rq_Syscall req =? SYS_DUP3 then
          dup_at pid (rq_ID req) oldFD (argi req 1)
            (if has_flag (argi req 2) O_CLOEXEC then O_CLOEXEC else 0) state
        else if rq_Syscall req =? SYS_FCNTL then
          if argi req 1 =? F_DUPFD then dup_above pid (rq_ID req) oldFD (argi req 2) 0 state
          else if argi req 1 =? F_DUPFD_CLOEXEC then
            dup_above pid (rq_ID req) oldFD (argi req 2) O_CLOEXEC state
          else mret None
        else if (0 <=? optionalDup2Syscall) && (rq_Syscall req =? optionalDup2Syscall) then
          dup_at pid (rq_ID req) oldFD (argi req 1) 0 state
        else mret None
    end.

(** * Dispatch *)

Definition isPollSyscall (n : Z) : bool := (0 <=? optionalPollSyscall) && (n =? optionalPollSyscall).
Definition isDupLikeSyscall (n : Z) : bool :=
  (n =? SYS_DUP) || (n =? SYS_DUP3) || (n =? SYS_FCNTL) ||
  ((0 <=? optionalDup2Syscall) && (n =? optionalDup2Syscall)).

(** uint64 of a result, and the three responses. *)
Definition respond (id : Z) (m : M (option Z)) : M ScmpNotifResp :=
  r <~ mtry m;
  match r with
  | inl e => mret (ErrorResp id (errnoFromError e))
  | inr None => mret (Continue id)
  | inr (Some n) => mret (Success id (n mod 2 ^ 64))
  end.
Definition handled0 (m : M bool) : M (option Z) :=
  b <~ m;
  mret (if b : bool then Some 0 else None).

Definition closeNotification (pid : Z) (req : ScmpNotifReq) : M ScmpNotifResp :=
  let fd := argi req 0 in
  if 0 <=? fd then
    run! CloseForPID pid fd;
    run! releaseChildFD fd;
    mret (Continue (rq_ID req))
  else mret (Continue (rq_ID req)).

Definition processNotification (fuel : nat) (pid : Z) (req : ScmpNotifReq) : M ScmpNotifResp :=
  let targetPID := notificationPID pid req in
  let n := rq_Syscall req in
  let respond := respond (rq_ID req) in
  if n =? SYS_SOCKET then respond (injectSocket fuel req)
  else if n =? SYS_CONNECT then respond (handled0 (redirectConnect targetPID req))
  else if n =? SYS_GETPEERNAME then respond (handled0 (emulateGetpeername targetPID req))
  else if n =? SYS_READ then respond (emulateDNSRead targetPID req)
  else if n =? SYS_SENDTO then respond (emulateDNSSendTo targetPID req)
  else if n =? SYS_WRITE then respond (emulateDNSWrite targetPID req)
  else if n =? SYS_RECVFROM then respond (emulateDNSRecvFrom targetPID req)
  else if n =? SYS_SENDMSG then respond (emulateDNSSendMsg targetPID req)
  else if n =? SYS_RECVMSG then respond (emulateDNSRecvMsg targetPID req)
  else if n =? SYS_SENDMMSG then respond (emulateDNSSendMMsg targetPID req)
  else if n =? SYS_RECVMMSG then respond (emulateDNSRecvMMsg targetPID req)
  else if n =? SYS_PPOLL then respond (emulateDNSPPoll targetPID req)
  else if n =? SYS_IOCTL then respond (handled0 (emulateDNSIoctl targetPID req))
  else if n =? SYS_CLOSE then closeNotification targetPID req
  else if (n =? SYS_DUP) || (n =? SYS_DUP3) || (n =? SYS_FCNTL) then respond (duplicateSocket targetPID req)
  else if isPollSyscall n then respond (emulateDNSPoll targetPID req)
  else if isDupLikeSyscall n then respond (duplicateSocket targetPID req)
  else mret (Continue (rq_ID req)).
End supervisor.
