(* ===== verification/SupervisorProofs.v ===== *)
(** Proof infrastructure for the supervisor: which parts of the state a handler
    may touch, and the invariant of the registry and of the response queues. *)
From S2P Require Import Prelude GoStrings GoNet Sys Sockaddr Kernel FDRegistry ProcMem Supervisor.

Section frame.
Context `{Kernel}.

(** [m] changes nothing but the kernel state. *)
Definition kernel_only {A} (m : M A) : Prop := forall w, exists k, (m w).2 = set_kernel k w.

Lemma set_kernel_id w : set_kernel (w_kernel w) w = w.
Proof. by destruct w. Qed.
Lemma set_kernel_twice k k' w : set_kernel k (set_kernel k' w) = set_kernel k w.
Proof. done. Qed.

Lemma ko_ret {A} (a : A) : kernel_only (mret a).
Proof. intros w. exists (w_kernel w). by rewrite set_kernel_id. Qed.
Lemma ko_fail {A} e : kernel_only (mfail e : M A).
Proof. intros w. exists (w_kernel w). by rewrite set_kernel_id. Qed.
Lemma ko_errno {A} n : kernel_only (merrno n : M A).
Proof. apply ko_fail. Qed.
Lemma ko_panic {A} : kernel_only (mpanic : M A).
Proof. intros w. exists (w_kernel w). by rewrite set_kernel_id. Qed.
Lemma ko_lift {A} (o : gerror + A) : kernel_only (mlift o).
Proof. intros w. exists (w_kernel w). by rewrite set_kernel_id. Qed.
Lemma ko_get {A} (f : world -> A) : kernel_only (mget f).
Proof. intros w. exists (w_kernel w). by rewrite set_kernel_id. Qed.
Lemma ko_kernel {A} (f : kstate -> (gerror + A) * kstate) : kernel_only (mkernel f).
Proof. intros w. unfold mkernel. destruct (f (w_kernel w)) as [r k]. by exists k. Qed.
Lemma ko_keffect f : kernel_only (mkeffect f).
Proof. intros w. by exists (f (w_kernel w)). Qed.
Lemma ko_bind {A B} (m : M A) (f : A -> M B) :
  kernel_only m -> (forall a, kernel_only (f a)) -> kernel_only (mbind m f).
Proof.
  intros Hm Hf w. unfold mbind. destruct (Hm w) as [k E]. destruct (m w) as [[a|e| |] w']; simpl in *; subst;
    try (by exists k).
  destruct (Hf a (set_kernel k w)) as [k' E']. exists k'. by rewrite E', set_kernel_twice.
Qed.
Lemma ko_try {A} (m : M A) : kernel_only m -> kernel_only (mtry m).
Proof.
  intros Hm w. unfold mtry. destruct (Hm w) as [k E]. exists k.
  destruct (m w) as [[a|e| |] w']; simpl in *; by subst.
Qed.
Lemma ko_if {A} (b : bool) (m m' : M A) : kernel_only m -> kernel_only m' -> kernel_only (if b then m else m').
Proof. by destruct b. Qed.
End frame.

Create HintDb frame.
#[export] Hint Resolve ko_ret ko_fail ko_errno ko_panic ko_lift ko_get ko_kernel ko_keffect ko_bind ko_try
  ko_if : frame.
#[export] Hint Extern 2 (kernel_only _) =>
  match goal with |- kernel_only (match ?x with _ => _ end) => destruct x end : frame.

Ltac frame := eauto 20 with frame.

Section memory_frame.
Context `{GoLib} `{Kernel} (targets : RuntimeTargets).

Lemma readProcessMemory_ko pid addr size : kernel_only (readProcessMemory pid addr size).
Proof. unfold readProcessMemory. frame. Qed.
Lemma readProcessMemoryExact_ko pid addr size : kernel_only (readProcessMemoryExact pid addr size).
Proof. pose proof readProcessMemory_ko. unfold readProcessMemoryExact. frame. Qed.
Lemma writeProcessMemoryExact_ko pid addr data : kernel_only (writeProcessMemoryExact pid addr data).
Proof. unfold writeProcessMemoryExact. frame. Qed.
Hint Resolve readProcessMemoryExact_ko writeProcessMemoryExact_ko : frame.

Lemma readProcessValues_ko size pid addr count : kernel_only (readProcessValues size pid addr count).
Proof. unfold readProcessValues. frame. Qed.
Lemma readProcessPayload_ko pid addr n : kernel_only (readProcessPayload pid addr n).
Proof. unfold readProcessPayload. frame. Qed.
Lemma writeProcessPayload_ko pid addr n p : kernel_only (writeProcessPayload pid addr n p).
Proof. unfold writeProcessPayload. frame. Qed.
Hint Resolve readProcessValues_ko : frame.

Lemma gather_ko pid iovs p : kernel_only (gather pid iovs p).
Proof. revert p. induction iovs; intros; simpl; frame. Qed.
Lemma scatter_ko pid iovs p n : kernel_only (scatter pid iovs p n).
Proof. revert n. induction iovs; intros; simpl; frame. Qed.
Hint Resolve gather_ko scatter_ko : frame.

Lemma readPayloadFromIovecs_ko pid p n : kernel_only (readPayloadFromIovecs pid p n).
Proof. unfold readPayloadFromIovecs. frame. Qed.
Lemma writePayloadToIovecs_ko pid p n l : kernel_only (writePayloadToIovecs pid p n l).
Proof. unfold writePayloadToIovecs. frame. Qed.
Lemma writeSockaddr_ko pid a l s : kernel_only (writeSockaddr pid a l s).
Proof. unfold writeSockaddr, readProcessValue, writeProcessValue. frame. Qed.
Hint Resolve writeSockaddr_ko : frame.
Lemma writeRecvfromSockaddr_ko pid a l s : kernel_only (writeRecvfromSockaddr pid a l s).
Proof. unfold writeRecvfromSockaddr. frame. Qed.
Lemma writeMsghdrSockaddr_ko pid m s : kernel_only (writeMsghdrSockaddr pid m s).
Proof. unfold writeMsghdrSockaddr. frame. Qed.
Lemma dnsRoundTrip_ko d p : kernel_only (dnsRoundTrip targets d p).
Proof. unfold dnsRoundTrip. frame. Qed.
Lemma resolveDNSDestination_ko pid s a l : kernel_only (resolveDNSDestination pid s a l).
Proof. unfold resolveDNSDestination. frame. Qed.
Lemma addFDWithResult_ko a b c d e : kernel_only (addFDWithResult targets a b c d e).
Proof. unfold addFDWithResult. frame. Qed.
Hint Resolve addFDWithResult_ko : frame.
Lemma addFD_scan_ko n a b c d : kernel_only (addFD_scan targets n a b c d).
Proof. revert c. induction n; intros; simpl; frame. Qed.
Lemma poll_write_ko pid p i l : kernel_only (poll_write pid p i l).
Proof. revert i. induction l; intros; simpl; unfold writeProcessValue; frame. Qed.
Lemma closeManagedHelperFD_ko fd : kernel_only (closeManagedHelperFD fd).
Proof. unfold closeManagedHelperFD. frame. Qed.
Lemma lookupSocket_ko pid fd : kernel_only (lookupSocket pid fd).
Proof. unfold lookupSocket. frame. Qed.
Lemma lookupManagedUDPSocket_ko pid req : kernel_only (lookupManagedUDPSocket pid req).
Proof. unfold lookupManagedUDPSocket, lookupSocket. frame. Qed.
Lemma takePendingDNSResponse_ko s : kernel_only (takePendingDNSResponse s).
Proof. unfold takePendingDNSResponse, pendingResponses. frame. Qed.
Lemma recvmmsg_loop_ko pid vec r msgs ps : kernel_only (recvmmsg_loop pid vec r msgs ps).
Proof.
  pose proof writePayloadToIovecs_ko. pose proof writeMsghdrSockaddr_ko.
  revert r ps. induction msgs as [|m msgs IH]; intros r [|p ps]; cbn [recvmmsg_loop];
    unfold writeProcessValue; frame.
Qed.
End memory_frame.

#[export] Hint Resolve readProcessMemory_ko readProcessMemoryExact_ko writeProcessMemoryExact_ko
  readProcessValues_ko readProcessPayload_ko writeProcessPayload_ko readPayloadFromIovecs_ko
  writePayloadToIovecs_ko writeSockaddr_ko writeRecvfromSockaddr_ko writeMsghdrSockaddr_ko dnsRoundTrip_ko
  resolveDNSDestination_ko addFDWithResult_ko addFD_scan_ko poll_write_ko closeManagedHelperFD_ko
  lookupSocket_ko lookupManagedUDPSocket_ko takePendingDNSResponse_ko recvmmsg_loop_ko : frame.

(** * The invariant *)

Section invariant.
Context `{GoLib} `{Kernel} (targets : RuntimeTargets).

(** A registered state is a TCP or UDP socket, and its queue is a window of an
    existing array. *)
Definition queue_ok (h : gmap nat (list dnsPacketResponse)) (s : SocketState) : Prop :=
  slice_ok h (PendingDNSResponses s) /\ Kind s <> KindUnknown.
(** A queued response fits the packet limit. *)
Definition reply_ok (r : dnsPacketResponse) : Prop := zlen (dr_Payload r) <= maxDNSPacketSize.
Record Inv (w : world) : Prop := {
  inv_keys : registry_ok (w_reg w);
  inv_queues : map_Forall (fun _ s => queue_ok (w_heap w) s) (w_reg w);
  inv_replies : map_Forall (fun _ l => Forall reply_ok l) (w_heap w);
}.

(** The invariant together with the well-formedness of a state a handler holds. *)
Definition Held (s : SocketState) (w : world) : Prop := Inv w /\ queue_ok (w_heap w) s.

(** Partial correctness for the invariant: [m] started in [P] keeps [Inv]
    whatever its outcome, and establishes [Q] when it returns. *)
Definition hoare {A} (P : world -> Prop) (m : M A) (Q : A -> world -> Prop) : Prop :=
  forall w, P w -> Inv (m w).2 /\ forall a, (m w).1 = Ret a -> Q a (m w).2.

Lemma Inv_kernel k w : Inv w -> Inv (set_kernel k w).
Proof. intros []. by split. Qed.

Lemma hoare_bind {A B} P R Q (m : M A) (f : A -> M B) :
  hoare P m R -> (forall a, hoare (R a) (f a) Q) -> hoare P (mbind m f) Q.
Proof.
  intros Hm Hf w HP. destruct (Hm w HP) as [I1 R1]. unfold mbind.
  destruct (m w) as [[a|e| |] w']; simpl in *; try done.
  apply Hf. by apply R1.
Qed.

Lemma hoare_conseq {A} (P P' : world -> Prop) Q (m : M A) :
  (forall w, P' w -> P w) -> hoare P m Q -> hoare P' m Q.
Proof. intros I Hm w HP. by apply Hm, I. Qed.

Lemma hoare_post {A} P (Q Q' : A -> world -> Prop) (m : M A) :
  (forall a w, Q a w -> Q' a w) -> hoare P m Q -> hoare P m Q'.
Proof. intros I Hm w HP. destruct (Hm w HP) as [I1 Q1]. split; [done|]. eauto. Qed.

Lemma hoare_try {A} P Q (m : M A) :
  hoare P m Q -> hoare P (mtry m) (fun r w => match r with inr a => Q a w | inl _ => Inv w end).
Proof.
  intros Hm w HP. destruct (Hm w HP) as [I1 Q1]. unfold mtry.
  destruct (m w) as [[a|e| |] w']; simpl in *; (split; [done|]); intros b [= <-]; eauto.
Qed.

(** A kernel-only program keeps everything that does not mention the kernel. *)
Lemma hoare_ko {A} (P : world -> Prop) (m : M A) :
  (forall w, P w -> Inv w) -> (forall k w, P w -> P (set_kernel k w)) -> kernel_only m ->
  hoare P m (fun _ => P).
Proof. intros PI PK K w HP. destruct (K w) as [k E]. rewrite E. split; eauto. Qed.

Lemma hoare_ko_Inv {A} (m : M A) : kernel_only m -> hoare Inv m (fun _ => Inv).
Proof. apply hoare_ko; auto using Inv_kernel. Qed.

Lemma hoare_ko_Held {A} s (m : M A) : kernel_only m -> hoare (Held s) m (fun _ => Held s).
Proof.
  apply hoare_ko; [by intros w []|]. intros k w [I Q]. split; [by apply Inv_kernel|done].
Qed.

Lemma hoare_ret {A} (P : world -> Prop) (Q : A -> world -> Prop) a :
  (forall w, P w -> Inv w /\ Q a w) -> hoare P (mret a) Q.
Proof. intros I w HP. destruct (I w HP). split; [done|]. by intros ? [= <-]. Qed.

Lemma LookupForPID_in pid fd reg s : LookupForPID pid fd reg = Some s -> exists k, reg !! k = Some s.
Proof.
  unfold LookupForPID. destruct (fd <? 0); [done|].
  destruct (lookupKeyLocked reg _ fd) as [k|]; simpl; [|done]. by exists k.
Qed.

Lemma hoare_lookup pid fd :
  hoare Inv (lookupSocket pid fd) (fun r w => match r with Some s => Held s w | None => Inv w end).
Proof.
  intros w I. split; [done|]. intros r [= <-]. simpl.
  destruct (LookupForPID pid fd (w_reg w)) as [s|] eqn:E; [|done].
  apply LookupForPID_in in E as [k E]. split; [done|]. by apply (inv_queues w I k).
Qed.

Lemma hoare_lookup_udp pid req :
  hoare Inv (lookupManagedUDPSocket pid req)
    (fun r w => match r with Some s => Held s w /\ Kind s = KindUDP | None => Inv w end).
Proof.
  unfold lookupManagedUDPSocket. destruct (argi req 0 <? 0); [by apply hoare_ret|].
  eapply hoare_bind; [apply hoare_lookup|]. intros [s|]; simpl.
  - apply hoare_ret. intros w [I Q]. case_bool_decide; done.
  - by apply hoare_ret.
Qed.

Lemma Inv_insertState s w : Held s w -> Inv (set_reg (Insert s) w).
Proof.
  intros [[I1 I2 I3] Q]. split; simpl; [by apply InsertForPID_ok| |done].
  unfold Insert, InsertForPID. destruct (ChildFD s <? 0); [done|].
  by apply map_Forall_insert_2.
Qed.

Lemma hoare_insertState s : hoare (Held s) (insertState s) (fun _ => Inv).
Proof. intros w HP. split; [|intros [] _]; by apply Inv_insertState. Qed.

Lemma slice_ok_append h s x h' s' t :
  slice_append h s x = (h', s') -> slice_ok h t -> slice_ok h' t.
Proof.
  unfold slice_append. case_bool_decide; intros [= <- <-] [L A]; (split; [done|]); intros C.
  - destruct (A C) as (a & Ha & B). rewrite lookup_alter. case_decide as D.
    + rewrite D, Ha. simpl. eexists. split; [done|]. by rewrite length_insert.
    + by exists a.
  - destruct (A C) as (a & Ha & B). exists a. split; [|done].
    rewrite lookup_insert_ne; [done|]. intros E.
    apply (is_fresh (dom h)). rewrite E. by apply elem_of_dom_2 in Ha.
Qed.

Lemma slice_append_replies h s x h' s' :
  slice_append h s x = (h', s') -> reply_ok x -> map_Forall (fun _ l => Forall reply_ok l) h ->
  map_Forall (fun _ l => Forall reply_ok l) h'.
Proof.
  intros E X F. unfold slice_append in E. case_bool_decide; injection E as <- <-.
  - intros k l. rewrite lookup_alter. case_decide as D; [|apply F]. subst.
    destruct (h !! _) as [l0|] eqn:L; simpl; [|done]. intros [= <-].
    apply Forall_insert; [|done]. by apply (F _ _ L).
  - apply map_Forall_insert_2; [|done]. apply Forall_app. split.
    + unfold slice_view. apply Forall_take, Forall_drop.
      destruct (h !! _) as [l0|] eqn:L; simpl; [by apply (F _ _ L)|constructor].
    + constructor; [done|]. apply Forall_replicate. done.
Qed.

Lemma hoare_queueResponse s x :
  hoare (fun w => Held s w /\ reply_ok x) (queueResponse s x) (fun s' => Held s').
Proof.
  intros w [[[I1 I2 I3] [Q K]] X]. unfold queueResponse.
  destruct (slice_append (w_heap w) (PendingDNSResponses s) x) as [h' sl] eqn:E. simpl.
  assert (I' : Inv (set_heap h' w)).
  { split; [done| |].
    - intros k t Ht. split; simpl; [|by apply (I2 k)]. eapply slice_ok_append; [done|]. by apply (I2 k).
    - by eapply slice_append_replies. }
  split; [done|]. intros s' [= <-]. split; [done|].
  split; [|done]. simpl. eapply slice_append_ok in E as [OK _]; done.
Qed.

Lemma hoare_dropPending n s :
  hoare (fun w => Held s w /\ (n <= length (slice_view (w_heap w) (PendingDNSResponses s)))%nat)
    (dropPending n s) (fun _ => Inv).
Proof.
  unfold dropPending. intros w [[I [Q K]] L]. apply hoare_insertState. split; [done|].
  split; [|done]. simpl. apply slice_drop_ok; [done|].
  by rewrite <- (slice_view_length (w_heap w)).
Qed.

Lemma hoare_CloseForPID pid fd : hoare Inv (CloseForPID pid fd) (fun _ => Inv).
Proof.
  unfold CloseForPID. destruct (fd <? 0); [by apply hoare_ret|].
  eapply hoare_bind; [apply hoare_ko_Inv; frame|]. intros reg; simpl.
  destruct (lookupKeyLocked reg _ fd) as [k|]; [|by apply hoare_ret].
  eapply hoare_bind; [apply hoare_ko_Inv; frame|]. intros _ w [I1 I2 I3]; simpl.
  assert (Inv (set_reg (delete k) w)); [|done].
  split; simpl; [by apply registry_ok_delete| |done]. by apply map_Forall_delete.
Qed.

Lemma hoare_releaseChildFD fd : hoare Inv (releaseChildFD fd) (fun _ => Inv).
Proof.
  unfold releaseChildFD. destruct (fd <? 0); [by apply hoare_ret|].
  intros w [I1 I2 I3]. simpl. assert (Inv (set_fds (w_reserved w ∖ {[fd]}) (w_nextTCP w) (w_nextUDP w) w)); done.
Qed.
End invariant.

(** * Every handler keeps the invariant *)

Section handlers.
Context `{GoLib} `{Kernel} (targets : RuntimeTargets).

(** A held state with at least [n] pending responses. *)
Definition HeldN (n : nat) (s : SocketState) (w : world) : Prop :=
  Held s w /\ (n <= length (slice_view (w_heap w) (PendingDNSResponses s)))%nat.

Lemma hoare_ko_HeldN {A} n s (m : M A) : kernel_only m -> hoare (HeldN n s) m (fun _ => HeldN n s).
Proof.
  apply hoare_ko; [by intros w [[]]|]. intros k w [[I Q] L]. split; [split|]; [by apply Inv_kernel|done|done].
Qed.

Lemma Held_Inv s w : Held s w -> Inv w.
Proof. by intros []. Qed.

Lemma hoare_weaken {A} s (m : M A) Q : hoare Inv m Q -> hoare (Held s) m Q.
Proof. apply hoare_conseq, Held_Inv. Qed.

Lemma hoare_ret_Inv {A} (P : world -> Prop) (a : A) :
  (forall w, P w -> Inv w) -> hoare P (mret a) (fun _ => Inv).
Proof. intros I. apply hoare_ret. auto. Qed.

Lemma hoare_ko_end {A} P (m : M A) : (forall w, P w -> Inv w) -> kernel_only m -> hoare P m (fun _ => Inv).
Proof. intros PI K. eapply hoare_conseq; [exact PI|]. by apply hoare_ko_Inv. Qed.

Lemma hoare_takePending s : hoare (Held s) (takePendingDNSResponse s) (fun _ => HeldN 1 s).
Proof.
  intros w HH. unfold takePendingDNSResponse, pendingResponses, mbind, mget.
  destruct (slice_view _ _) as [|r l] eqn:E; simpl; (split; [by apply Held_Inv in HH|]); [done|].
  intros a [= <-]. split; [done|]. rewrite E. simpl. lia.
Qed.

Lemma dnsRoundTrip_bound d p w reply :
  (dnsRoundTrip targets d p w).1 = Ret reply -> zlen reply <= maxDNSPacketSize.
Proof.
  unfold dnsRoundTrip, mbind, mtry. intros E.
  repeat (split_match_in E; simplify_eq/=; try (unfold mret, mfail, merrno in *; simplify_eq/=)).
  all: lia.
Qed.

Lemma hoare_dnsRoundTrip s d p :
  hoare (Held s) (dnsRoundTrip targets d p) (fun r w => Held s w /\ zlen r <= maxDNSPacketSize).
Proof.
  intros w HH. destruct (hoare_ko_Held s _ (dnsRoundTrip_ko targets d p) w HH) as [I Q].
  split; [done|]. intros r E. split; [by apply (Q r)|]. by eapply dnsRoundTrip_bound.
Qed.

Lemma hoare_sendQuery pid s payload a l : hoare (Held s) (sendQuery targets pid s payload a l) (fun _ => Inv).
Proof.
  unfold sendQuery. eapply hoare_bind; [apply hoare_ko_Held; frame|]. intros [dest []]; simpl.
  2: { apply hoare_ret_Inv, Held_Inv. }
  eapply hoare_bind; [apply hoare_dnsRoundTrip|]. intros reply; simpl.
  eapply hoare_bind; [apply (hoare_queueResponse s {| dr_Payload := reply; dr_Source := dest |})|]. intros s'; simpl.
  eapply hoare_bind; [apply hoare_insertState|]. intros ?. by apply hoare_ret_Inv.
Qed.

(** Look a managed UDP socket up, then run a body on the state found. *)
Lemma hoare_udp pid req (body : SocketState -> M (option Z)) :
  (forall s, hoare (Held s) (body s) (fun _ => Inv)) ->
  hoare Inv (mbind (lookupManagedUDPSocket pid req)
    (fun st => match st with None => mret None | Some s => body s end)) (fun _ => Inv).
Proof.
  intros Hb. eapply hoare_bind; [apply hoare_lookup_udp|]. intros [s|]; simpl.
  - eapply hoare_conseq; [|apply Hb]. by intros w [].
  - by apply hoare_ret_Inv.
Qed.

Lemma hoare_peek n s (b : bool) :
  hoare (HeldN n s) (if b then mret tt else dropPending n s) (fun _ => Inv).
Proof.
  destruct b; [apply hoare_ret_Inv; by intros w [[]]|]. apply hoare_dropPending.
Qed.

Ltac peel := eapply hoare_bind; [first [apply hoare_ko_Held; by frame|apply hoare_ko_HeldN; by frame|
                                        apply hoare_ko_Inv; by frame]|intro; simpl].

Lemma hoare_SendTo pid req : hoare Inv (emulateDNSSendTo targets pid req) (fun _ => Inv).
Proof. apply hoare_udp. intros s. peel. apply hoare_sendQuery. Qed.
Lemma hoare_Write pid req : hoare Inv (emulateDNSWrite targets pid req) (fun _ => Inv).
Proof. apply hoare_udp. intros s. peel. apply hoare_sendQuery. Qed.
Lemma hoare_SendMsg pid req : hoare Inv (emulateDNSSendMsg targets pid req) (fun _ => Inv).
Proof.
  apply hoare_udp. intros s. unfold readProcessValue. peel.
  destruct (has_control _); [apply hoare_ko_end; [apply Held_Inv|frame]|].
  peel. apply hoare_sendQuery.
Qed.
Lemma hoare_Read pid req : hoare Inv (emulateDNSRead pid req) (fun _ => Inv).
Proof.
  apply hoare_udp. intros s. eapply hoare_bind; [apply hoare_takePending|]. intros resp; simpl.
  peel. eapply hoare_bind; [apply (hoare_peek 1 s false)|]. intros ?. by apply hoare_ret_Inv.
Qed.
Lemma hoare_RecvFrom pid req : hoare Inv (emulateDNSRecvFrom pid req) (fun _ => Inv).
Proof.
  apply hoare_udp. intros s. eapply hoare_bind; [apply hoare_takePending|]. intros resp; simpl.
  peel. peel. eapply hoare_bind; [apply hoare_peek|]. intros ?. by apply hoare_ret_Inv.
Qed.
Lemma hoare_RecvMsg pid req : hoare Inv (emulateDNSRecvMsg pid req) (fun _ => Inv).
Proof.
  apply hoare_udp. intros s. unfold readProcessValue, writeProcessValue. peel.
  eapply hoare_bind; [apply hoare_takePending|]. intros resp; simpl.
  do 3 peel. eapply hoare_bind; [apply hoare_peek|]. intros ?. by apply hoare_ret_Inv.
Qed.

Lemma hoare_partial {A} (P : world -> Prop) sent e (Q : option Z + A -> world -> Prop) :
  (forall w, P w -> Inv w) -> (forall n w, Inv w -> Q (inl n) w) -> hoare P (partial sent e) Q.
Proof.
  intros PI QI. unfold partial. destruct (0 <? sent).
  - apply hoare_ret. eauto.
  - intros w HP. split; [by apply PI|done].
Qed.

Lemma hoare_sendmmsg_loop pid vec idx msgs s sent :
  hoare (Held s) (sendmmsg_loop targets pid vec idx msgs s sent)
    (fun r w => match r with inl _ => Inv w | inr (s', _) => Held s' w end).
Proof.
  revert idx s sent. induction msgs as [|msg msgs IH]; intros idx s sent; cbn [sendmmsg_loop].
  - apply hoare_ret. intros w HH. split; [by apply Held_Inv in HH|done].
  - destruct (has_control msg); [apply hoare_partial; [apply Held_Inv|done]|].
    eapply hoare_bind; [apply hoare_ko_Held; frame|]. intros [e|payload];
      [apply hoare_partial; [apply Held_Inv|done]|].
    eapply hoare_bind; [apply hoare_ko_Held; frame|]. intros [e|[dest []]];
      [apply hoare_partial; [apply Held_Inv|done]| |].
    2: { apply hoare_ret. intros w HH. split; by apply Held_Inv in HH. }
    eapply hoare_bind; [apply hoare_try, hoare_dnsRoundTrip|]. intros [e|reply];
      [by apply hoare_partial|].
    eapply hoare_bind; [apply (hoare_queueResponse s {| dr_Payload := reply; dr_Source := dest |})|].
    intros s'; simpl.
    eapply hoare_bind; [apply hoare_ko_Held; unfold writeProcessValue; frame|]. intros [e|u];
      [apply hoare_partial; [apply Held_Inv|done]|]. apply IH.
Qed.

Lemma hoare_SendMMsg pid req : hoare Inv (emulateDNSSendMMsg targets pid req) (fun _ => Inv).
Proof.
  apply hoare_udp. intros s. destruct (_ <? 0); [apply hoare_ko_end; [apply Held_Inv|frame]|].
  peel. eapply hoare_bind; [apply hoare_sendmmsg_loop|]. intros [early|[s' sent]]; simpl.
  - by apply hoare_ret_Inv.
  - eapply hoare_bind; [apply hoare_insertState|]. intros ?. by apply hoare_ret_Inv.
Qed.

Lemma recvmmsg_loop_bound pid vec r msgs ps w n :
  (recvmmsg_loop pid vec r msgs ps w).1 = Ret n -> r <= n <= r + zlen ps.
Proof.
  revert r ps w. induction msgs as [|m msgs IH]; intros r [|p ps] w; cbn [recvmmsg_loop];
    try (intros [= <-]; unfold zlen; simpl; lia).
  unfold zlen. rewrite length_cons, Nat2Z.inj_succ.
  unfold mbind, mtry. intros E.
  repeat (split_match_in E; simplify_eq/=; try (unfold mret, mfail in *; simplify_eq/=; lia)).
  all: try (apply IH in E; unfold zlen in E; lia).
Qed.

Lemma hoare_RecvMMsg pid req : hoare Inv (emulateDNSRecvMMsg pid req) (fun _ => Inv).
Proof.
  apply hoare_udp. intros s. destruct (_ <? 0); [apply hoare_ko_end; [apply Held_Inv|frame]|].
  peel.
  eapply hoare_bind with (R := fun p w => HeldN (length p) s w).
  { intros w HH. split; [by apply Held_Inv in HH|]. intros p [= <-]. by split. }
  intros pending. destruct (zlen pending =? 0); [apply hoare_ko_end; [by intros w [[]]|frame]|].
  eapply hoare_bind with (R := fun n w => HeldN (length pending) s w /\ 0 <= n <= zlen pending).
  { intros w HN. destruct (hoare_ko_HeldN _ _ _ (recvmmsg_loop_ko pid (arg req 1) 0 a pending) w HN) as [I Q].
    split; [done|]. intros n E. split; [by eapply Q|]. apply recvmmsg_loop_bound in E. lia. }
  intros n. destruct (n =? 0); [apply hoare_ko_end; [by intros w [[[]]]|frame]|].
  apply hoare_bind with (R := fun _ => Inv); [|intros ?; by apply hoare_ret_Inv].
  eapply hoare_conseq; [|apply hoare_peek]. intros w [[HH L] B]. split; [done|].
  unfold zlen in B. lia.
Qed.

Lemma hoare_PollFDs pid p n : hoare Inv (emulateDNSPollFDs pid p n) (fun _ => Inv).
Proof. apply hoare_ko_Inv. unfold emulateDNSPollFDs. frame. Qed.
Lemma hoare_Ioctl pid req : hoare Inv (emulateDNSIoctl pid req) (fun _ => Inv).
Proof. apply hoare_ko_Inv. unfold emulateDNSIoctl, pendingResponses, writeProcessValue. frame. Qed.
Lemma hoare_Getpeername pid req : hoare Inv (emulateGetpeername pid req) (fun _ => Inv).
Proof. apply hoare_ko_Inv. unfold emulateGetpeername. frame. Qed.

Lemma hoare_reserve kind n : hoare Inv (reserveChildFD kind n) (fun _ => Inv).
Proof.
  intros w [I1 I2 I3]. unfold reserveChildFD.
  destruct (find_free _ _ _) as [fd|]; [destruct kind|]; simpl; (split; [by split|]); intros; by split.
Qed.

Lemma hoare_install_loop fuel id fd kind : hoare Inv (install_loop targets fuel id fd kind) (fun _ => Inv).
Proof.
  induction fuel as [|fuel IH]; cbn [install_loop]; [by intros w I; split|].
  eapply hoare_bind; [apply hoare_reserve|]. intros cfd; simpl.
  destruct (cfd <? 0); [apply hoare_ko_Inv; frame|].
  eapply hoare_bind; [apply hoare_ko_Inv; frame|]. intros [e|r]; simpl; [|by apply hoare_ret_Inv].
  eapply hoare_bind; [apply hoare_releaseChildFD|]. intros ?; simpl.
  destruct (fd_busy e); [done|]. apply hoare_ko_Inv; frame.
Qed.

Lemma hoare_pure {A} (P : Prop) (m : M A) Q : (P -> hoare Inv m Q) -> hoare (fun w => Inv w /\ P) m Q.
Proof. intros Hm w [I HP]. by apply Hm. Qed.

Lemma classify_known family ty proto kind :
  classifyManagedSocket targets family ty proto = inr (kind, true) -> kind <> KindUnknown.
Proof. unfold classifyManagedSocket. intros E. repeat (split_match_in E; simplify_eq/=); done. Qed.

Lemma hoare_injectSocket fuel req : hoare Inv (injectSocket targets fuel req) (fun _ => Inv).
Proof.
  unfold injectSocket. destruct (classifyManagedSocket _ _ _ _) as [e|[kind managed]] eqn:C.
  { by intros w I. }
  eapply (hoare_bind Inv (fun km w => Inv w /\ km = (kind, managed))).
  { intros w I. split; [done|]. by intros ? [= <-]. }
  intros km. apply hoare_pure. intros ->. simpl.
  destruct managed; simpl; [|by apply hoare_ret_Inv].
  assert (NK : kind <> KindUnknown) by (by eapply classify_known).
  peel. eapply hoare_bind; [apply hoare_install_loop|]. intros cfd; simpl.
  eapply hoare_bind; [apply hoare_CloseForPID|]. intros ?; simpl.
  apply hoare_bind with (R := fun _ => Inv); [|intros ?; by apply hoare_ret_Inv].
  intros w [I1 I2 I3]. assert (I : Inv (set_reg (InsertForPID (notificationPID 0 req)
    (newSocketState (notificationPID 0 req) kind cfd a (argi req 0) (argi req 1) (argi req 2))) w)).
  { split; simpl; [by apply InsertForPID_ok| |done]. unfold InsertForPID. destruct (_ <? 0); [done|].
    apply map_Forall_insert_2; [|done]. split; [|done]. split; simpl; [lia|done]. }
  split; [done|]. intros [] _. done.
Qed.

Lemma hoare_handleConnect fd d : hoare Inv (handleConnect targets fd d) (fun _ => Inv).
Proof.
  unfold handleConnect. destruct (fd <? 0); [apply hoare_ko_Inv; frame|].
  eapply hoare_bind; [apply (hoare_lookup 0 fd)|]. intros [s|]; [|by apply hoare_ret_Inv].
  destruct (_ || _); [apply hoare_ret_Inv, Held_Inv|].
  peel. eapply hoare_bind.
  { apply hoare_ko_Held. intros w. destruct (sys_connect _ _ _) as [e k]. by exists k. }
  intros e; simpl. eapply hoare_bind.
  { apply (hoare_ko_Held s). destruct e as [e|]; [|frame]. destruct (_ || _); [|frame].
    intros w. destruct (wait_connect _ _) as [e' k]. by exists k. }
  intros ?; simpl. eapply hoare_bind.
  { eapply hoare_conseq; [|apply hoare_insertState]. intros w [I Q]. by split. }
  intros ?; simpl. apply hoare_ko_Inv. frame.
Qed.

Lemma hoare_redirectConnect pid req : hoare Inv (redirectConnect targets pid req) (fun _ => Inv).
Proof.
  unfold redirectConnect. eapply hoare_bind; [apply hoare_lookup|].
  intros [s|]; simpl; [|by apply hoare_ret_Inv].
  destruct (_ || _ || _); [apply hoare_ko_end; [apply Held_Inv|frame]|].
  peel. peel.
  assert (Hins : forall s', PendingDNSResponses s' = PendingDNSResponses s -> Kind s' = Kind s ->
            forall b : bool, hoare (Held s) (mbind (insertState s') (fun _ => mret b)) (fun _ => Inv)).
  { intros s' E EK b. apply hoare_bind with (R := fun _ => Inv); [|intros ?; by apply hoare_ret_Inv].
    eapply hoare_conseq; [|apply hoare_insertState]. intros w [I Q]. split; [done|].
    unfold queue_ok. by rewrite E, EK. }
  destruct (_ =? AF_UNSPEC).
  { destruct (Kind s) eqn:K; try apply hoare_ret_Inv, Held_Inv. apply Hins; simpl; congruence. }
  destruct (Kind s) eqn:K; [apply hoare_ret_Inv, Held_Inv| |].
  - apply hoare_weaken. eapply hoare_bind; [apply hoare_handleConnect|]. intros ?; simpl.
    apply hoare_ko_Inv. unfold reinstallConnectedSocket. frame.
  - destruct (negb _).
    + apply hoare_weaken. eapply hoare_bind; [apply hoare_CloseForPID|]. intros ?; simpl.
      eapply hoare_bind; [apply hoare_releaseChildFD|]. intros ?. by apply hoare_ret_Inv.
    + unfold handleDNSConnect. destruct (negb (DNSRoundTrip_set targets)).
      * apply hoare_ko_end; [apply Held_Inv|frame].
      * apply Hins; simpl; congruence.
Qed.

Lemma hoare_DupForPID pid src dst : hoare Inv (DupForPID pid src dst) (fun _ => Inv).
Proof.
  unfold DupForPID. destruct (_ || _) eqn:E; [apply hoare_ko_Inv; frame|].
  apply orb_false_iff in E as [_ Hd]. destruct (src =? dst); [by apply hoare_ret_Inv|].
  eapply hoare_bind with (R := fun reg w => Inv w /\ reg = w_reg w).
  { intros w I. split; [done|]. intros r [= <-]. done. }
  intros reg; simpl. destruct (_ ≫= _) as [s|] eqn:L.
  2: { apply hoare_ko_end; [by intros w []|frame]. }
  apply bind_Some in L as (k & _ & L).
  eapply hoare_conseq with (P := Held s).
  { intros w [I ->]. split; [done|]. by apply (inv_queues w I k). }
  peel. eapply hoare_bind; [apply (hoare_ko_Held s); frame|]. intros ? w [[I1 I2 I3] Q]; simpl.
  match goal with |- Inv ?w' /\ _ => assert (Inv w'); [|done] end.
  split; simpl; [| |done].
  - apply map_Forall_insert_2; [|done]. simpl. pose proof (normalizeRegistryPID_nonneg pid). split; [done|lia].
  - by apply map_Forall_insert_2.
Qed.

Lemma hoare_duplicateSocket pid req : hoare Inv (duplicateSocket targets pid req) (fun _ => Inv).
Proof.
  assert (Habove : forall id o m f s, hoare (Held s) (dup_above targets pid id o m f s) (fun _ => Inv)).
  { intros. unfold dup_above, addFDAtOrAbove. peel. apply hoare_weaken.
    eapply hoare_bind; [apply hoare_DupForPID|]. intros ?. by apply hoare_ret_Inv. }
  assert (Hat : forall id o m f s, hoare (Held s) (dup_at targets pid id o m f s) (fun _ => Inv)).
  { intros. unfold dup_at. destruct (m <? 0); [apply hoare_ko_end; [apply Held_Inv|frame]|].
    destruct (o =? m); [apply hoare_ret_Inv, Held_Inv|]. peel. apply hoare_weaken.
    eapply hoare_bind; [apply hoare_DupForPID|]. intros ?. by apply hoare_ret_Inv. }
  unfold duplicateSocket. destruct (_ <? 0); [apply hoare_ko_Inv; frame|].
  eapply hoare_bind; [apply hoare_lookup|]. intros [s|]; simpl; [|by apply hoare_ret_Inv].
  repeat match goal with |- hoare _ (if ?b then _ else _) _ => destruct b end; auto;
    apply hoare_ret_Inv, Held_Inv.
Qed.

Lemma hoare_respond id m : hoare Inv m (fun _ => Inv) -> hoare Inv (respond id m) (fun _ => Inv).
Proof.
  intros Hm. unfold respond. eapply hoare_bind; [apply hoare_try, Hm|].
  intros [e|[n|]]; by apply hoare_ret_Inv.
Qed.
Lemma hoare_handled0 m : hoare Inv m (fun _ => Inv) -> hoare Inv (handled0 m) (fun _ => Inv).
Proof. intros Hm. unfold handled0. eapply hoare_bind; [exact Hm|]. intros b. by apply hoare_ret_Inv. Qed.
Lemma hoare_closeNotification pid req : hoare Inv (closeNotification pid req) (fun _ => Inv).
Proof.
  unfold closeNotification. destruct (_ <=? _); [|by apply hoare_ret_Inv].
  eapply hoare_bind; [apply hoare_CloseForPID|]. intros ?; simpl.
  eapply hoare_bind; [apply hoare_releaseChildFD|]. intros ?. by apply hoare_ret_Inv.
Qed.

Lemma hoare_processNotification fuel pid req :
  hoare Inv (processNotification targets fuel pid req) (fun _ => Inv).
Proof.
  unfold processNotification.
  repeat match goal with |- hoare _ (if ?b then _ else _) _ => destruct b end;
    try apply hoare_respond; try apply hoare_handled0;
    auto using hoare_injectSocket, hoare_redirectConnect, hoare_Getpeername, hoare_Read, hoare_SendTo,
      hoare_Write, hoare_RecvFrom, hoare_SendMsg, hoare_RecvMsg, hoare_SendMMsg, hoare_RecvMMsg,
      hoare_Ioctl, hoare_closeNotification, hoare_duplicateSocket.
  - apply hoare_PollFDs.
  - apply hoare_PollFDs.
  - by apply hoare_ret_Inv.
Qed.
End handlers.
