(* ===== verification/Egress.v ===== *)
(** What the supervisor asks of the outside world: a logic for the kernel calls
    of the handlers, and the proof that, whatever the sandboxed process does,
    connections go to the configured ingress addresses only and datagrams only
    to the DNS callback, on port 53 and within the packet limit. *)
From S2P Require Import Prelude GoStrings GoNet Sys Sockaddr Kernel FDRegistry ProcMem Supervisor SupervisorProofs.

(** The addresses the supervisor may connect to: the ingress of the family. *)
Definition ingress `{GoLib} (targets : RuntimeTargets) (sa : Sockaddr) : Prop :=
  match sa with
  | SockaddrInet4 _ _ => parseTCPAddr (RawTCPAddr targets) = inr sa
  | SockaddrInet6 _ _ => parseTCPAddr (RawTCPAddrV6 targets) = inr sa
  end.

(** A property of the kernel state kept by every call the supervisor may make:
    connections to an ingress address, DNS round trips on port 53 with a
    bounded payload, and every other call unrestricted. *)
Record keeps `{GoLib} `{Kernel} (targets : RuntimeTargets) (P : kstate -> Prop) : Prop := {
  keeps_socket a b c k : P k -> P (sys_socket a b c k).2;
  keeps_dup fd k : P k -> P (sys_dup fd k).2;
  keeps_close fd k : P k -> P (sys_close fd k);
  keeps_wait fd k : P k -> P (wait_connect fd k).2;
  keeps_getsockname fd k : P k -> P (getsockname_retry fd k).2;
  keeps_writev pid addr data k : P k -> P (vm_writev pid addr data k).2;
  keeps_addfd id src new flags fdflags k : P k -> P (ioctl_addfd id src new flags fdflags k).2;
  keeps_origin local host port k : P k -> P (record_origin local host port k);
  keeps_connect fd sa k : ingress targets sa -> P k -> P (sys_connect fd sa k).2;
  keeps_dns host payload k :
    DNSRoundTrip_set targets = true -> zlen payload <= maxDNSPacketSize ->
    P k -> P (dns_upstream host 53 payload k).2;
}.

Section logic.
Context `{GoLib} `{Kernel} (P : kstate -> Prop).

(** [m] keeps [P], and what it returns satisfies [Q]. *)
Definition ktriple {A} (m : M A) (Q : A -> Prop) : Prop :=
  forall w, P (w_kernel w) -> P (w_kernel (m w).2) /\ forall a, (m w).1 = Ret a -> Q a.
Definition kpres {A} (m : M A) : Prop := forall w, P (w_kernel w) -> P (w_kernel (m w).2).

Lemma ktriple_bind {A B} (m : M A) (f : A -> M B) R Q :
  ktriple m R -> (forall a, R a -> ktriple (f a) Q) -> ktriple (mbind m f) Q.
Proof.
  intros Hm Hf w HP. destruct (Hm w HP) as [P1 Q1]. unfold mbind.
  destruct (m w) as [[a|e| |] w']; simpl in *; try done. apply Hf; auto.
Qed.
Lemma ktriple_kpres {A} (m : M A) Q : ktriple m Q -> kpres m.
Proof. intros Hm w HP. by apply Hm. Qed.
Lemma kpres_ktriple {A} (m : M A) (Q : A -> Prop) :
  kpres m -> (forall w a, (m w).1 = Ret a -> Q a) -> ktriple m Q.
Proof. intros Hm HQ w HP. split; eauto. Qed.
Lemma kpres_bind_post {A B} (m : M A) (f : A -> M B) (R : A -> Prop) :
  ktriple m R -> (forall a, R a -> kpres (f a)) -> kpres (mbind m f).
Proof.
  intros Hm Hf. apply (ktriple_kpres _ (fun _ => True)). eapply ktriple_bind; [exact Hm|].
  intros a Ra w HP. split; [by apply Hf|done].
Qed.

Lemma kp_bind {A B} (m : M A) (f : A -> M B) : kpres m -> (forall a, kpres (f a)) -> kpres (mbind m f).
Proof. intros Hm Hf. by eapply kpres_bind_post; [apply (kpres_ktriple m (fun _ => True))|]. Qed.
Lemma kp_try {A} (m : M A) : kpres m -> kpres (mtry m).
Proof. intros Hm w HP. specialize (Hm w HP). unfold mtry. by destruct (m w) as [[a|e| |] w']. Qed.
Lemma kp_ret {A} (a : A) : kpres (mret a).
Proof. by intros w HP. Qed.
Lemma kp_fail {A} e : kpres (mfail e : M A).
Proof. by intros w HP. Qed.
Lemma kp_errno {A} n : kpres (merrno n : M A).
Proof. by intros w HP. Qed.
Lemma kp_panic {A} : kpres (mpanic : M A).
Proof. by intros w HP. Qed.
Lemma kp_lift {A} (o : gerror + A) : kpres (mlift o).
Proof. by intros w HP. Qed.
Lemma kp_get {A} (f : world -> A) : kpres (mget f).
Proof. by intros w HP. Qed.
Lemma kp_set_reg f : kpres (mmodify (set_reg f)).
Proof. by intros w HP. Qed.
Lemma kp_kernel {A} (f : kstate -> (gerror + A) * kstate) : (forall k, P k -> P (f k).2) -> kpres (mkernel f).
Proof. intros Hf w HP. specialize (Hf _ HP). unfold mkernel. by destruct (f (w_kernel w)). Qed.
Lemma kp_keffect f : (forall k, P k -> P (f k)) -> kpres (mkeffect f).
Proof. intros Hf w HP. by apply Hf. Qed.
Lemma kp_if {A} (b : bool) (m m' : M A) : kpres m -> kpres m' -> kpres (if b then m else m').
Proof. by destruct b. Qed.
End logic.

Create HintDb egress.
#[export] Hint Resolve kp_bind kp_try kp_ret kp_fail kp_errno kp_panic kp_lift kp_get kp_set_reg kp_if : egress.
#[export] Hint Extern 2 (kpres _ _) =>
  match goal with |- kpres _ (match ?x with _ => _ end) => destruct x end : egress.
Ltac egress := eauto 20 with egress.
(** The same, one deterministic step at a time, for the long handlers. *)
Ltac egress_steps :=
  repeat first
    [ progress cbv beta
    | solve [eauto 3 with egress]
    | apply kp_bind; [|intros ?]
    | match goal with |- kpres _ (match ?x with _ => _ end) => destruct x end ].

Section handlers.
Context `{GoLib} `{Kernel} (targets : RuntimeTargets) (P : kstate -> Prop) (HK : keeps targets P).
Notation kpres := (kpres P).

Lemma kp_socket a b c : kpres (mkernel (sys_socket a b c)).
Proof. apply kp_kernel, (keeps_socket _ _ HK). Qed.
Lemma kp_dup fd : kpres (mkernel (sys_dup fd)).
Proof. apply kp_kernel, (keeps_dup _ _ HK). Qed.
Lemma kp_close fd : kpres (mkeffect (sys_close fd)).
Proof. apply kp_keffect, (keeps_close _ _ HK). Qed.
Lemma kp_getsockname fd : kpres (mkernel (getsockname_retry fd)).
Proof. apply kp_kernel, (keeps_getsockname _ _ HK). Qed.
Lemma kp_writev pid addr data : kpres (mkernel (vm_writev pid addr data)).
Proof. apply kp_kernel, (keeps_writev _ _ HK). Qed.
Lemma kp_addfd a b c d e : kpres (mkernel (ioctl_addfd a b c d e)).
Proof. apply kp_kernel, (keeps_addfd _ _ HK). Qed.
Lemma kp_origin a b c : kpres (mkeffect (record_origin a b c)).
Proof. apply kp_keffect, (keeps_origin _ _ HK). Qed.
Lemma kp_release fd : kpres (releaseChildFD fd).
Proof. unfold releaseChildFD. apply kp_if; by intros w HP. Qed.
Lemma kp_reserve kind n : kpres (reserveChildFD kind n).
Proof. intros w HP. unfold reserveChildFD. destruct (find_free _ _ _), kind; done. Qed.
Lemma kp_queue s x : kpres (queueResponse s x).
Proof. intros w HP. unfold queueResponse. by destruct (slice_append _ _ _). Qed.
Hint Resolve kp_socket kp_dup kp_close kp_getsockname kp_writev kp_addfd kp_origin kp_release kp_reserve
  kp_queue : egress.

(** ** Memory *)

Lemma kp_readExact pid addr size : kpres (readProcessMemoryExact pid addr size).
Proof. unfold readProcessMemoryExact, readProcessMemory. egress. Qed.
Lemma kp_writeExact pid addr data : kpres (writeProcessMemoryExact pid addr data).
Proof. unfold writeProcessMemoryExact. egress. Qed.
Hint Resolve kp_readExact kp_writeExact : egress.
Lemma kp_readValues size pid addr count : kpres (readProcessValues size pid addr count).
Proof. unfold readProcessValues. egress. Qed.
Hint Resolve kp_readValues : egress.
Lemma kp_gather pid iovs p : kpres (gather pid iovs p).
Proof. revert p. induction iovs; intros; simpl; egress. Qed.
Lemma kp_scatter pid iovs p n : kpres (scatter pid iovs p n).
Proof. revert n. induction iovs; intros; simpl; egress. Qed.
Hint Resolve kp_gather kp_scatter : egress.
Lemma kp_writeIovecs pid p n l : kpres (writePayloadToIovecs pid p n l).
Proof. unfold writePayloadToIovecs. egress. Qed.
Lemma kp_writePayload pid addr n l : kpres (writeProcessPayload pid addr n l).
Proof. unfold writeProcessPayload. egress. Qed.
Lemma kp_writeSockaddr pid a l s : kpres (writeSockaddr pid a l s).
Proof. unfold writeSockaddr, readProcessValue, writeProcessValue. egress. Qed.
Hint Resolve kp_writeIovecs kp_writePayload kp_writeSockaddr : egress.
Lemma kp_writeRecvfrom pid a l s : kpres (writeRecvfromSockaddr pid a l s).
Proof. unfold writeRecvfromSockaddr. egress. Qed.
Lemma kp_writeMsghdr pid m s : kpres (writeMsghdrSockaddr pid m s).
Proof. unfold writeMsghdrSockaddr. egress. Qed.
Hint Resolve kp_writeRecvfrom kp_writeMsghdr : egress.

(** ** Payload bounds *)

Lemma readProcessMemoryExact_length pid addr size w data :
  (readProcessMemoryExact pid addr size w).1 = Ret data -> zlen data = size.
Proof.
  unfold readProcessMemoryExact. destruct (size <? 0); [done|].
  destruct (size =? 0) eqn:Z0; [intros [= <-]; unfold zlen; simpl; lia|].
  destruct (addr =? 0); [done|]. unfold mbind.
  destruct (readProcessMemory _ _ _ _) as [[d|e| |] w']; try done.
  destruct (zlen d =? size) eqn:L; [|done]. intros [= <-]. lia.
Qed.

Lemma readProcessPayload_bound pid addr n w data :
  (readProcessPayload pid addr n w).1 = Ret data -> zlen data <= maxDNSPacketSize.
Proof.
  unfold readProcessPayload. destruct (_ || _) eqn:B; [done|]. to_prop.
  destruct (n =? 0); [by intros [= <-]|]. intros E%readProcessMemoryExact_length. lia.
Qed.

Lemma gather_bound pid iovs p w data t t' :
  zlen p = t -> 0 <= t -> iovecs_total iovs t = Some t' -> (gather pid iovs p w).1 = Ret data ->
  zlen data = t'.
Proof.
  revert p t w. induction iovs as [|iov iovs IH]; intros p t w Lp Lt; cbn [iovecs_total gather].
  - by intros [= <-] [= <-].
  - destruct (_ || _) eqn:B; [done|]. to_prop. intros T.
    assert (Hi : iov_Len iov <= maxDNSPacketSize) by lia.
    destruct (iov_Len iov =? 0) eqn:Z0.
    + assert (E0 : iov_Len iov = 0) by lia. rewrite E0 in T. rewrite Z.add_0_r in T. by eapply IH.
    + unfold mbind. destruct (readProcessMemoryExact _ _ _ _) as [[c|e| |] w'] eqn:R; try done.
      pose proof (readProcessMemoryExact_length pid (iov_Base iov) (to_int (iov_Len iov)) w c) as Lc.
      rewrite R in Lc. specialize (Lc eq_refl). apply IH with (t := t + to_int (iov_Len iov)); [| |done].
      all: unfold zlen in *; rewrite ?length_app; lia.
Qed.

Lemma iovecs_total_bound iovs t t' :
  t <= maxDNSPacketSize -> iovecs_total iovs t = Some t' -> t' <= maxDNSPacketSize.
Proof.
  revert t. induction iovs as [|iov iovs IH]; intros t Ht; cbn [iovecs_total]; [by intros [= <-]|].
  destruct (_ || _) eqn:B; [done|]. to_prop. apply IH. lia.
Qed.

Lemma readPayloadFromIovecs_bound pid p n w data :
  (readPayloadFromIovecs pid p n w).1 = Ret data -> zlen data <= maxDNSPacketSize.
Proof.
  unfold readPayloadFromIovecs. destruct (n <? 0); [done|]. destruct (n =? 0); [by intros [= <-]|].
  destruct (p =? 0); [done|]. unfold mbind.
  destruct (readProcessValues _ _ _ _ _) as [[iovs|e| |] w']; try done.
  destruct (iovecs_total iovs 0) as [t|] eqn:T; [|done]. intros G.
  rewrite (gather_bound pid iovs [] w' data 0 t) by first [done|lia]. eapply iovecs_total_bound; [|done]. done.
Qed.

Lemma kt_payload pid addr n : ktriple P (readProcessPayload pid addr n) (fun d => zlen d <= maxDNSPacketSize).
Proof.
  apply kpres_ktriple; [unfold readProcessPayload; egress|]. intros w a. apply readProcessPayload_bound.
Qed.
Lemma kt_iovecs pid p n : ktriple P (readPayloadFromIovecs pid p n) (fun d => zlen d <= maxDNSPacketSize).
Proof.
  apply kpres_ktriple; [unfold readPayloadFromIovecs; egress|]. intros w a. apply readPayloadFromIovecs_bound.
Qed.
Lemma kt_try {A} (m : M A) (Q : A -> Prop) :
  ktriple P m Q -> ktriple P (mtry m) (fun r => match r with inr a => Q a | inl _ => True end).
Proof.
  intros Hm w HP. destruct (Hm w HP) as [P1 Q1]. unfold mtry.
  destruct (m w) as [[a|e| |] w']; simpl in *; (split; [done|]); intros ? [= <-]; auto.
Qed.

(** ** Handlers *)

Lemma kp_dnsRoundTrip d payload : zlen payload <= maxDNSPacketSize -> kpres (dnsRoundTrip targets d payload).
Proof.
  intros L. unfold dnsRoundTrip. destruct (DNSRoundTrip_set targets) eqn:D; simpl; [|egress].
  destruct (sa_Port d =? 53) eqn:E; simpl; [|egress]. apply Z.eqb_eq in E. rewrite E.
  apply kp_bind; [|intros [e|r]; egress].
  apply kp_try, kp_kernel. intros k. by apply (keeps_dns _ _ HK).
Qed.
Lemma kp_resolve pid s a l : kpres (resolveDNSDestination pid s a l).
Proof. unfold resolveDNSDestination. egress. Qed.
Hint Resolve kp_dnsRoundTrip kp_resolve : egress.
Lemma kp_sendQuery pid s payload a l :
  zlen payload <= maxDNSPacketSize -> kpres (sendQuery targets pid s payload a l).
Proof. intros L. unfold sendQuery, insertState. egress. Qed.
Hint Resolve kp_sendQuery : egress.
Lemma kp_lookup_udp pid req : kpres (lookupManagedUDPSocket pid req).
Proof. unfold lookupManagedUDPSocket, lookupSocket. egress. Qed.
Hint Resolve kp_lookup_udp : egress.

Ltac sized := eapply kpres_bind_post; [apply kt_payload || apply kt_iovecs|intros; by egress].

Lemma kp_SendTo pid req : kpres (emulateDNSSendTo targets pid req).
Proof. unfold emulateDNSSendTo. apply kp_bind; [egress|]. intros [s|]; [sized|egress]. Qed.
Lemma kp_Write pid req : kpres (emulateDNSWrite targets pid req).
Proof. unfold emulateDNSWrite. apply kp_bind; [egress|]. intros [s|]; [sized|egress]. Qed.
Lemma kp_SendMsg pid req : kpres (emulateDNSSendMsg targets pid req).
Proof.
  unfold emulateDNSSendMsg, readProcessValue. apply kp_bind; [egress|]. intros [s|]; [|egress].
  apply kp_bind; [egress|]. intros msg. apply kp_if; [egress|]. sized.
Qed.
Lemma kp_partial {A} n e : kpres (partial n e : M (option Z + A)).
Proof. unfold partial. egress. Qed.
Hint Resolve kp_partial : egress.
Lemma kp_sendmmsg_loop pid vec idx msgs s sent : kpres (sendmmsg_loop targets pid vec idx msgs s sent).
Proof.
  revert idx s sent. induction msgs as [|msg msgs IH]; intros; cbn [sendmmsg_loop]; [egress|].
  apply kp_if; [egress|]. eapply kpres_bind_post; [apply kt_try, kt_iovecs|].
  intros [e|payload] L; unfold writeProcessValue; egress.
Qed.
Lemma kp_SendMMsg pid req : kpres (emulateDNSSendMMsg targets pid req).
Proof. pose proof kp_sendmmsg_loop. unfold emulateDNSSendMMsg, insertState. egress. Qed.
Lemma kp_recvmmsg_loop pid vec r msgs ps : kpres (recvmmsg_loop pid vec r msgs ps).
Proof.
  revert r ps. induction msgs as [|m msgs IH]; intros r [|p ps]; cbn [recvmmsg_loop];
    unfold writeProcessValue; egress.
Qed.
Lemma kp_takePending s : kpres (takePendingDNSResponse s).
Proof. unfold takePendingDNSResponse, pendingResponses. egress. Qed.
Hint Resolve kp_recvmmsg_loop kp_takePending : egress.
Lemma kp_Recv pid req :
  kpres (emulateDNSRead pid req) /\ kpres (emulateDNSRecvFrom pid req) /\
  kpres (emulateDNSRecvMsg pid req) /\ kpres (emulateDNSRecvMMsg pid req).
Proof.
  unfold emulateDNSRead, emulateDNSRecvFrom, emulateDNSRecvMsg, emulateDNSRecvMMsg, dropPending, insertState,
    pendingResponses, readProcessValue, writeProcessValue.
  repeat split; egress.
Qed.
Lemma kp_poll_write pid p i l : kpres (poll_write pid p i l).
Proof. revert i. induction l; intros; simpl; unfold writeProcessValue; egress. Qed.
Hint Resolve kp_poll_write : egress.
Lemma kp_PollFDs pid p n : kpres (emulateDNSPollFDs pid p n).
Proof. unfold emulateDNSPollFDs. egress. Qed.
Lemma kp_Ioctl pid req : kpres (emulateDNSIoctl pid req).
Proof. unfold emulateDNSIoctl, pendingResponses, writeProcessValue. egress. Qed.

Lemma kp_CloseForPID pid fd : kpres (CloseForPID pid fd).
Proof. unfold CloseForPID, closeManagedHelperFD. egress. Qed.
Lemma kp_DupForPID pid src dst : kpres (DupForPID pid src dst).
Proof. unfold DupForPID, closeManagedHelperFD. egress. Qed.
Lemma kp_addFDWithResult a b c d e : kpres (addFDWithResult targets a b c d e).
Proof. unfold addFDWithResult. egress. Qed.
Hint Resolve kp_CloseForPID kp_DupForPID kp_addFDWithResult : egress.
Lemma kp_addFD_scan n a b c d : kpres (addFD_scan targets n a b c d).
Proof. revert c. induction n; intros; simpl; egress. Qed.
Lemma kp_addFDAtOrAbove a b c d : kpres (addFDAtOrAbove targets a b c d).
Proof. apply kp_addFD_scan. Qed.
#[local] Opaque addFDAtOrAbove.
Lemma kp_install_loop fuel id fd kind : kpres (install_loop targets fuel id fd kind).
Proof. induction fuel; cbn [install_loop]; [by intros w HP|]. egress. Qed.
Hint Resolve kp_addFDAtOrAbove kp_install_loop : egress.
Lemma kp_injectSocket fuel req : kpres (injectSocket targets fuel req).
Proof. unfold injectSocket. egress. Qed.

Lemma route_ingress family host port addr sa :
  routeTCPDestination targets family host port = inr (addr, sa) -> ingress targets sa /\ port <> 53.
Proof.
  unfold routeTCPDestination, selectIngressAddrForFamily. destruct (port =? 53) eqn:E53; [done|].
  case_bool_decide; [done|]. destruct (parseTCPAddr _) as [e|sa'] eqn:Ep; [done|].
  destruct (sockaddrMatchesFamily sa' family) eqn:F; [|done]. intros [= <- <-]. split; [|lia].
  destruct sa'; simpl in *; apply Z.eqb_eq in F; subst; done.
Qed.

Lemma kp_handleConnect fd d : kpres (handleConnect targets fd d).
Proof.
  unfold handleConnect, insertState. apply kp_if; [egress|]. apply kp_bind; [egress|].
  intros [s|]; [|egress]. apply kp_if; [egress|].
  eapply kpres_bind_post with (R := fun route => ingress targets route.2).
  { apply kpres_ktriple; [egress|]. intros w [addr sa] E. unfold mlift in E. simpl in E.
    destruct (routeTCPDestination _ _ _ _) as [e|[addr' sa']] eqn:R; [done|].
    simpl in E. injection E as <- <-. by apply route_ingress in R as [? _]. }
  intros [addr sa] I; simpl in *. apply kp_bind.
  { intros w HP. pose proof (keeps_connect _ _ HK (HelperFD s) sa (w_kernel w) I HP).
    by destruct (sys_connect _ _ _). }
  intros e. apply kp_bind; [|intros; egress]. destruct e as [e|]; [|egress]. apply kp_if; [|egress].
  intros w HP. pose proof (keeps_wait _ _ HK (HelperFD s) (w_kernel w) HP). by destruct (wait_connect _ _).
Qed.
Hint Resolve kp_handleConnect : egress.

Lemma kp_redirectConnect pid req : kpres (redirectConnect targets pid req).
Proof.
  unfold redirectConnect, handleDNSDisconnect, handleDNSConnect, reinstallConnectedSocket, lookupSocket,
    insertState, readProcessMemory. egress_steps.
Qed.
Lemma kp_Getpeername pid req : kpres (emulateGetpeername pid req).
Proof. unfold emulateGetpeername, lookupSocket. egress. Qed.
Lemma kp_duplicateSocket pid req : kpres (duplicateSocket targets pid req).
Proof. unfold duplicateSocket, dup_above, dup_at, lookupSocket. egress_steps. Qed.

Lemma kp_respond id m : kpres m -> kpres (respond id m).
Proof. intros Hm. unfold respond. egress. Qed.
Lemma kp_handled0 m : kpres m -> kpres (handled0 m).
Proof. intros Hm. unfold handled0. egress. Qed.
Lemma kp_closeNotification pid req : kpres (closeNotification pid req).
Proof. unfold closeNotification. egress. Qed.

Lemma kp_processNotification fuel pid req : kpres (processNotification targets fuel pid req).
Proof.
  pose proof (kp_Recv (notificationPID pid req) req) as (? & ? & ? & ?). unfold processNotification. cbv zeta.
  repeat first [apply kp_closeNotification|apply kp_if]; try apply kp_respond; try apply kp_handled0; unfold emulateDNSPPoll, emulateDNSPoll;
    first [done|apply kp_injectSocket|apply kp_redirectConnect|apply kp_Getpeername|apply kp_SendTo|
      apply kp_Write|apply kp_SendMsg|apply kp_SendMMsg|apply kp_PollFDs|apply kp_Ioctl|
      apply kp_duplicateSocket|apply kp_ret].
Qed.
End handlers.
