(* ===== verification/SampleKernel.v ===== *)
(** A concrete [Kernel], used only to evaluate the supervisor in witnesses: a
    memory given by the readable bytes at each address, and a log of calls. *)
From S2P Require Import Prelude GoStrings GoNet Sys Sockaddr Kernel FDRegistry ProcMem Supervisor Sample.

Inductive kevent :=
| KConnect (fd : Z) (sa : Sockaddr)
| KDns (host : string) (port : Z) (payload : list Z)
| KWrite (pid addr : Z) (data : list Z)
| KAddFD (src new : Z)
| KClose (fd : Z).

Record kmachine := { km_memory : Z -> list Z; km_next : Z; km_log : list kevent }.

Definition klog (e : kevent) (k : kmachine) : kmachine :=
  {| km_memory := km_memory k; km_next := km_next k; km_log := e :: km_log k |}.
Definition knew (k : kmachine) : (gerror + Z) * kmachine :=
  (inr (km_next k), {| km_memory := km_memory k; km_next := km_next k + 1; km_log := km_log k |}).

Definition sampleKernel : Kernel := {|
  kstate := kmachine;
  sys_socket _ _ _ := knew;
  sys_dup _ := knew;
  sys_close fd := klog (KClose fd);
  sys_connect fd sa k := (None, klog (KConnect fd sa) k);
  wait_connect _ k := (None, k);
  getsockname_retry _ k := (inl (EErrno EBADF), k);
  vm_readv _ addr size k := inr (take (Z.to_nat size) (km_memory k addr));
  vm_writev pid addr data k := (inr (zlen data), klog (KWrite pid addr data) k);
  ioctl_addfd _ src new _ _ k := (inr new, klog (KAddFD src new) k);
  dns_upstream host port payload k := (inr (7 :: payload), klog (KDns host port payload) k);
  record_origin _ _ _ k := k;
  append_growth c n := Nat.max (2 * c) n;
|}.

Definition sampleTargets : RuntimeTargets := {|
  DNSRoundTrip_set := true; RawTCPAddr := "127.0.0.1:9000"; RawTCPAddrV6 := "[::1]:9000";
  RecordRawTCPOrigin_set := false; notifyFD := 4 |}.

(** Addresses: 1000 a DNS server's sockaddr, 1100 a web server's, 2000 a
    payload, 3000 a message header with one oversized iovec at 3100, 4000 two
    message headers: the first good, the second with a control buffer. *)
Definition sample_memory (addr : Z) : list Z :=
  if addr =? 1000 then raw_inet4 [9; 9; 9; 9] 53
  else if addr =? 1100 then raw_inet4 [93; 184; 216; 34] 443
  else if addr =? 2000 then [1; 2; 3; 4]
  else if addr =? 3000 then le_enc 8 0 ++ le_enc 8 0 ++ le_enc 8 3100 ++ le_enc 8 1 ++ replicate 24 0
  else if addr =? 3100 then le_enc 8 5000 ++ le_enc 8 (2 ^ 63)
  else if addr =? 4000 then
    le_enc 8 1000 ++ le_enc 8 16 ++ le_enc 8 4200 ++ le_enc 8 1 ++ replicate 32 0 ++
    le_enc 8 1000 ++ le_enc 8 16 ++ le_enc 8 4200 ++ le_enc 8 1 ++ le_enc 8 6000 ++ le_enc 8 1 ++ replicate 16 0
  else if addr =? 4200 then le_enc 8 2000 ++ le_enc 8 4
  else [].
Definition sample_machine : @kstate sampleKernel := {| km_memory := sample_memory; km_next := 20; km_log := [] |}.

(** System calls of the sandboxed process 7. *)
Definition call (n : Z) (args : list Z) : ScmpNotifReq := {| rq_ID := 1; rq_Pid := 7; rq_Syscall := n; rq_Args := args |}.
Definition call_socket_udp := call SYS_SOCKET [AF_INET; SOCK_DGRAM; 0].
Definition call_socket_tcp := call SYS_SOCKET [AF_INET; SOCK_STREAM; 0].
Definition call_connect := call SYS_CONNECT [256; 1100; 16].
Definition call_sendto := call SYS_SENDTO [512; 2000; 4; 0; 1000; 16].
Definition call_recvfrom := call SYS_RECVFROM [512; 5000; 3; 0; 0; 0].
Definition call_recvmsg := call SYS_RECVMSG [512; 3000; 0].
Definition call_sendmmsg := call SYS_SENDMMSG [512; 4000; 2; 0].

(** A run: the notifications of a list, in order, from a fresh supervisor. *)
#[local] Existing Instance sampleLib.
#[local] Existing Instance sampleKernel.
Definition sample_start : @world sampleKernel := new_world sample_machine.
Fixpoint sample_run (reqs : list ScmpNotifReq) (w : @world sampleKernel) : @world sampleKernel :=
  match reqs with
  | [] => w
  | req :: reqs => sample_run reqs (processNotification sampleTargets 3 7 req w).2
  end.
