(* ===== verification/SupervisorTheorems.v ===== *)
(** What the syscall supervisor guarantees: the invariant of every reachable
    state, the confinement of its network traffic, the delivery of DNS
    responses, the allocation of child descriptors, and the places where the
    code falls short. *)
From S2P Require Import Prelude GoStrings GoNet Sys Sockaddr Kernel FDRegistry ProcMem Supervisor SupervisorProofs.
From S2P Require Import Egress Sample SampleKernel.

Section theorems.
Context `{GoLib} `{Kernel} (targets : RuntimeTargets).

(** The states the supervisor reaches from [k0]: it processes notifications of
    any process, in any order and with any outcome, while the rest of the
    system changes the kernel state by [env]. *)
Inductive reachable (env : kstate -> kstate -> Prop) (k0 : kstate) : world -> Prop :=
| reachable_start : reachable env k0 (new_world k0)
| reachable_notification fuel pid req w :
    reachable env k0 w -> reachable env k0 (processNotification targets fuel pid req w).2
| reachable_env w k :
    reachable env k0 w -> env (w_kernel w) k -> reachable env k0 (set_kernel k w).

Lemma new_world_Inv k : Inv (new_world k).
Proof. split; apply map_Forall_empty. Qed.

Lemma reachable_Inv env k0 w : reachable env k0 w -> Inv w.
Proof.
  induction 1 as [|fuel pid req w _ IH|w k _ IH _].
  - apply new_world_Inv.
  - by apply hoare_processNotification.
  - by apply Inv_kernel.
Qed.

Definition pending (pid fd : Z) (w : world) : option (list dnsPacketResponse) :=
  (fun s => slice_view (w_heap w) (PendingDNSResponses s)) <$> LookupForPID pid fd (w_reg w).

Lemma heap_view_ok h (s : pslice) :
  map_Forall (fun _ l => Forall reply_ok l) h -> Forall reply_ok (slice_view h s).
Proof.
  intros F. unfold slice_view. apply Forall_take, Forall_drop.
  destruct (h !! sl_arr s) as [l|] eqn:L; simpl; [by apply (F _ _ L)|constructor].
Qed.

(** C15. In every reachable state each registered socket is a TCP or UDP socket
    stored under its own process and descriptor and found there by a lookup,
    its response queue is fully backed by memory, and no queued response
    exceeds 64 KiB. *)
Theorem reachable_invariant env k0 w key s :
  reachable env k0 w -> w_reg w !! key = Some s ->
  key = (ChildPID s, ChildFD s) /\ 0 <= ChildPID s /\ 0 <= ChildFD s /\
  Kind s <> KindUnknown /\ LookupForPID (ChildPID s) (ChildFD s) (w_reg w) = Some s /\
  length (slice_view (w_heap w) (PendingDNSResponses s)) = sl_len (PendingDNSResponses s) /\
  Forall (fun r => zlen (dr_Payload r) <= maxDNSPacketSize) (slice_view (w_heap w) (PendingDNSResponses s)).
Proof.
  intros R L. apply reachable_Inv in R as [I1 I2 I3].
  destruct (I1 _ _ L) as (-> & P & F). destruct (I2 _ _ L) as [Q K].
  repeat split; try done.
  - by apply LookupForPID_exact.
  - by apply slice_view_length.
  - by apply heap_view_ok.
Qed.

(** C4. Egress confinement: take any property of the outside world that no
    permitted call can break, where the permitted calls are connections to the
    configured ingress address of the socket's family, DNS round trips to port
    53 with at most 64 KiB, and the local calls (sockets, descriptors, process
    memory). Whatever system calls the sandboxed processes make, the supervisor
    never breaks it: it connects nowhere else and sends nothing else. *)
Theorem egress_confined env k0 w (P : kstate -> Prop) :
  keeps targets P -> (forall k k', env k k' -> P k -> P k') -> P k0 ->
  reachable env k0 w -> P (w_kernel w).
Proof.
  intros HK HE HP0 R. induction R as [|fuel pid req w _ IH|w k _ IH E]; simpl.
  - done.
  - by apply (kp_processNotification targets P HK).
  - by eapply HE.
Qed.

(** The TCP routing decision: port 53 is refused with EPERM whatever the
    host, every other port is sent to the configured ingress of the socket's
    family whatever the host, and when that ingress is configured with a
    parsable address of the right family the decision succeeds. *)
Theorem routeTCPDestination_decision family host port :
  (port = 53 -> routeTCPDestination targets family host port = inl (EErrno EPERM)) /\
  (forall addr sa, routeTCPDestination targets family host port = inr (addr, sa) ->
     port <> 53 /\ ingress targets sa /\ sockaddrMatchesFamily sa family = true) /\
  (forall sa, port <> 53 ->
     parseTCPAddr (selectIngressAddrForFamily family (RawTCPAddr targets) (RawTCPAddrV6 targets)) = inr sa ->
     sockaddrMatchesFamily sa family = true ->
     exists addr, routeTCPDestination targets family host port = inr (addr, sa)).
Proof.
  unfold routeTCPDestination. split; [by intros ->|]. split.
  - intros addr sa E. pose proof (route_ingress targets family host port addr sa E) as [I N].
    split; [done|]. split; [done|]. repeat (split_match_in E; simplify_eq/=). done.
  - intros sa N E F. rewrite (proj2 (Z.eqb_neq _ _) N). case_bool_decide as B.
    + rewrite B in E. by vm_compute in E.
    + rewrite E, F. eauto.
Qed.

(** ** DNS over UDP sockets *)

Lemma lookup_udp_run pid req w s :
  LookupForPID pid (argi req 0) (w_reg w) = Some s -> Kind s = KindUDP ->
  lookupManagedUDPSocket pid req w = (Ret (Some s), w).
Proof.
  intros L K. unfold lookupManagedUDPSocket. destruct (argi req 0 <? 0) eqn:N.
  - unfold LookupForPID in L. by rewrite N in L.
  - unfold lookupSocket, mbind, mget, mret. rewrite L. simpl. by rewrite bool_decide_eq_true_2.
Qed.

Lemma queue_and_insert pid fd w s x :
  Inv w -> LookupForPID pid fd (w_reg w) = Some s ->
  exists s' w', queueResponse s x w = (Ret s', w') /\ w_kernel w' = w_kernel w /\ w_reg w' = w_reg w /\
    pending pid fd (insertState s' w').2 = Some (slice_view (w_heap w) (PendingDNSResponses s) ++ [x]) /\
    forall k, k <> (ChildPID s, ChildFD s) -> w_reg (insertState s' w').2 !! k = w_reg w !! k.
Proof.
  intros I L. unfold queueResponse. destruct (slice_append _ _ _) as [h' sl] eqn:E.
  assert (Q : slice_ok (w_heap w) (PendingDNSResponses s)).
  { destruct (LookupForPID_in _ _ _ _ L) as [k Lk]. by destruct (inv_queues w I k s Lk). }
  destruct (slice_append_ok _ _ _ _ _ Q E) as [_ V].
  destruct (LookupForPID_update pid fd (w_reg w) s (with_pending true sl s) (inv_keys w I) L) as [L' O]; [done..|].
  do 2 eexists. split; [done|]. split; [done|]. split; [done|]. unfold pending. simpl.
  rewrite L'. simpl. rewrite V. done.
Qed.

(** Sending a query: [sendto] on a managed UDP socket to port 53, answered
    by the DNS callback with at most 64 KiB, reports the whole payload as sent
    and appends exactly that answer, with the queried server as its source, to
    the end of the socket's queue; no other socket changes. *)
Theorem sendto_queues_reply pid req w s payload dest reply k' :
  Inv w -> LookupForPID pid (argi req 0) (w_reg w) = Some s -> Kind s = KindUDP ->
  DNSRoundTrip_set targets = true ->
  readProcessPayload pid (arg req 1) (argi req 2) w = (Ret payload, w) ->
  resolveDNSDestination pid s (arg req 4) (argi req 5) w = (Ret (dest, true), w) -> sa_Port dest = 53 ->
  dns_upstream (sa_Host dest) 53 payload (w_kernel w) = (inr reply, k') ->
  zlen reply <= maxDNSPacketSize ->
  exists w', emulateDNSSendTo targets pid req w = (Ret (Some (zlen payload)), w') /\
    pending pid (argi req 0) w' =
      (fun q => q ++ [{| dr_Payload := reply; dr_Source := dest |}]) <$> pending pid (argi req 0) w /\
    w_kernel w' = k' /\
    forall key, key <> (ChildPID s, ChildFD s) -> w_reg w' !! key = w_reg w !! key.
Proof.
  intros I L K D RP RD P53 U B.
  assert (RT : dnsRoundTrip targets dest payload w = (Ret reply, set_kernel k' w)).
  { unfold dnsRoundTrip. rewrite D, P53. simpl. unfold mbind, mtry, mkernel. rewrite U. simpl.
    by replace (maxDNSPacketSize <? zlen reply) with false by lia. }
  destruct (queue_and_insert pid (argi req 0) (set_kernel k' w) s {| dr_Payload := reply; dr_Source := dest |})
    as (s' & w1 & E & Ek & _ & Ep & Eo); [by apply Inv_kernel|done|].
  exists (insertState s' w1).2. split.
  - unfold emulateDNSSendTo, sendQuery. unfold mbind at 1. rewrite (lookup_udp_run pid req w s L K).
    unfold mbind at 1. rewrite RP. unfold mbind at 1. rewrite RD. cbn [snd negb fst].
    unfold mbind at 1. rewrite RT. unfold mbind at 1. by rewrite E.
  - rewrite Ep. split; [|split; [exact Ek|exact Eo]]. unfold pending. by rewrite L.
Qed.

Lemma writeProcessPayload_run pid addr len data w k' :
  0 < pid -> addr <> 0 -> 0 <= len ->
  vm_writev pid addr (take (Z.to_nat (Z.min len (zlen data))) data) (w_kernel w) =
    (inr (Z.min len (zlen data)), k') ->
  exists w', writeProcessPayload pid addr len data w = (Ret (Z.min len (zlen data)), w') /\
    w' = (if Z.min len (zlen data) =? 0 then w else set_kernel k' w).
Proof.
  intros P A Ln V. unfold writeProcessPayload. replace (len <? 0) with false by lia.
  destruct (_ || _) eqn:Z0.
  - to_prop. assert (E : Z.min len (zlen data) = 0) by (unfold zlen in *; lia). rewrite E. by exists w.
  - to_prop. rewrite (proj2 (Z.eqb_neq (Z.min _ _) 0)) by (unfold zlen in *; lia).
    replace (addr =? 0) with false by lia. exists (set_kernel k' w). split; [|done]. unfold writeProcessMemoryExact. rewrite (proj2 (Z.eqb_neq (zlen (take _ _)) 0)).
    2: { unfold zlen in *. rewrite length_take. lia. }
    replace (pid <=? 0) with false by lia. replace (addr =? 0) with false by lia.
    unfold mbind, mkernel. rewrite V. simpl. rewrite (proj2 (Z.eqb_eq _ (zlen (take _ _)))); [done|].
    unfold zlen in *. rewrite length_take. lia.
Qed.

(** Receiving a response: [recvfrom] without a source address, on a managed
    UDP socket with a queued response, into a writable buffer, writes
    the leading bytes of the oldest response there, as many as fit, reports their
    number, and then removes exactly that
    response from the queue, or nothing under MSG_PEEK; no other socket
    changes. *)
Theorem recvfrom_delivers_oldest pid req w s resp rest k' :
  Inv w -> LookupForPID pid (argi req 0) (w_reg w) = Some s -> Kind s = KindUDP ->
  slice_view (w_heap w) (PendingDNSResponses s) = resp :: rest ->
  0 < pid -> arg req 1 <> 0 -> 0 <= argi req 2 -> arg req 4 = 0 -> arg req 5 = 0 ->
  let n := Z.min (argi req 2) (zlen (dr_Payload resp)) in
  vm_writev pid (arg req 1) (take (Z.to_nat n) (dr_Payload resp)) (w_kernel w) = (inr n, k') ->
  exists w', emulateDNSRecvFrom pid req w = (Ret (Some n), w') /\
    pending pid (argi req 0) w' = Some (if has_flag (argi req 3) MSG_PEEK then resp :: rest else rest) /\
    w_kernel w' = (if n =? 0 then w_kernel w else k') /\
    forall key, key <> (ChildPID s, ChildFD s) -> w_reg w' !! key = w_reg w !! key.
Proof.
  intros I L K Q P A Ln A4 A5 n V.
  destruct (writeProcessPayload_run _ _ _ _ _ _ P A Ln V) as (w1 & W & Hw1).
  assert (Hreg : w_reg w1 = w_reg w /\ w_heap w1 = w_heap w /\ w_kernel w1 = (if n =? 0 then w_kernel w else k'))
    by (subst w1 n; by destruct (_ =? 0)).
  destruct Hreg as (Hreg & Hheap & Hk). clear Hw1.
  assert (RUN : forall body w2, (if has_flag (argi req 3) MSG_PEEK then mret tt else dropPending 1 s) w1 = (Ret tt, w2) ->
     body = Ret (Some n) -> emulateDNSRecvFrom pid req w = (body, w2)).
  { intros body w2 E ->. unfold emulateDNSRecvFrom. unfold mbind at 1. rewrite (lookup_udp_run pid req w s L K).
    unfold takePendingDNSResponse, pendingResponses. unfold mbind at 1 2. unfold mget. rewrite Q.
    cbn [mret]. unfold mbind at 1. rewrite W. unfold mbind at 1, writeRecvfromSockaddr. rewrite A4, A5. simpl.
    unfold mbind. by rewrite E. }
  destruct (has_flag (argi req 3) MSG_PEEK) eqn:PK.
  - exists w1. split; [by apply RUN|]. unfold pending. rewrite Hreg, Hheap, L. simpl. by rewrite Q, Hk.
  - eexists. split; [by apply RUN|].
    destruct (LookupForPID_update pid (argi req 0) (w_reg w) s
      (with_pending (DNSManaged s) (slice_drop 1 (PendingDNSResponses s)) s) (inv_keys w I) L) as [L' O]; [done..|].
    unfold pending. simpl. rewrite Hreg, Hheap, L', Hk. simpl. split; [|done].
    destruct (LookupForPID_in _ _ _ _ L) as [k Lk]. destruct (inv_queues w I k s Lk) as [QO _].
    pose proof (slice_view_length _ _ QO) as SL. rewrite Q in SL. simpl in SL.
    destruct (slice_drop_ok (w_heap w) (PendingDNSResponses s) 1 QO ltac:(lia)) as [_ ->]. by rewrite Q.
Qed.

(** The loop of [sendmmsg] either processes every message or returns early. *)
Definition loop_post (msgs : list (list Z)) (s : SocketState) (sent : Z) (r : option Z + SocketState * Z) : Prop :=
  match r with
  | inl (Some n) => sent <= n < sent + zlen msgs /\ 0 < n
  | inl None => sent = 0
  | inr (s', n) => n = sent + zlen msgs /\ ChildPID s' = ChildPID s /\ ChildFD s' = ChildFD s /\
      sl_len (PendingDNSResponses s') = (sl_len (PendingDNSResponses s) + length msgs)%nat
  end.

Lemma partial_post msg msgs s sent e w w' r :
  0 <= sent -> partial sent e w = (Ret r, w') -> w_reg w' = w_reg w /\ loop_post (msg :: msgs) s sent r.
Proof.
  intros S0. unfold partial. destruct (0 <? sent) eqn:S1; [|done].
  intros [= <- <-]. split; [done|]. unfold loop_post, zlen. simpl. lia.
Qed.

Lemma bind_try_inv {A B} (m : M A) (f : gerror + A -> M B) w r w' :
  kernel_only m -> mbind (mtry m) f w = (Ret r, w') ->
  exists x w1, w_reg w1 = w_reg w /\ f x w1 = (Ret r, w').
Proof.
  intros K. unfold mbind. destruct (ko_try m K w) as [k E].
  destruct (mtry m w) as [[x|e| |] w1]; simpl in *; try done. intros Ef. exists x, w1. split; [by rewrite E|done].
Qed.

Lemma queueResponse_shape s x w s' w' :
  queueResponse s x w = (Ret s', w') ->
  w_reg w' = w_reg w /\ ChildPID s' = ChildPID s /\ ChildFD s' = ChildFD s /\
  sl_len (PendingDNSResponses s') = S (sl_len (PendingDNSResponses s)).
Proof.
  unfold queueResponse, slice_append. case_bool_decide; intros [= <- <-]; done.
Qed.

Lemma sendmmsg_loop_post pid vec idx msgs s sent w w' r :
  0 <= sent -> sendmmsg_loop targets pid vec idx msgs s sent w = (Ret r, w') ->
  w_reg w' = w_reg w /\ loop_post msgs s sent r.
Proof.
  revert idx s sent w. induction msgs as [|msg msgs IH]; intros idx s sent w S0; cbn [sendmmsg_loop].
  - intros [= <- <-]. split; [done|]. unfold loop_post, zlen. simpl. repeat split; lia.
  - destruct (has_control msg); [by apply partial_post|]. intros E.
    apply bind_try_inv in E as ([e|payload] & w1 & <- & E); [by eapply partial_post| |by frame].
    apply bind_try_inv in E as ([e|[dest []]] & w2 & <- & E); [by eapply partial_post| | |by frame].
    2: { injection E as <- <-. split; [done|]. unfold loop_post, zlen. simpl. destruct (0 <? sent) eqn:S1; lia. }
    apply bind_try_inv in E as ([e|reply] & w3 & <- & E); [by eapply partial_post| |by frame].
    unfold mbind at 1 in E. destruct (queueResponse _ _ _) as [[s'|e| |] w4] eqn:Q; try done.
    apply queueResponse_shape in Q as (<- & QP & QF & QL).
    apply bind_try_inv in E as ([e|u] & w5 & <- & E); [by eapply partial_post| |unfold writeProcessValue; by frame].
    apply IH in E as [-> L]; [|lia]. split; [done|]. unfold loop_post, zlen in *. rewrite length_cons in *.
    rewrite QP, QF, QL in L. destruct r as [[n|]|[s'' n]]; [lia|lia|]. destruct L as (-> & -> & -> & ->).
    repeat split; lia.
Qed.

(** [sendmmsg] that reports [n] messages sent either processed all of them,
    and then the socket's queue has grown by [n] responses, or stopped early, and
    then the registry is what it was: the responses to the [n] queries that were
    answered are lost, although the process is told they were sent. *)
Theorem sendmmsg_partial_send_loses_responses pid req w w' n s :
  Inv w -> LookupForPID pid (argi req 0) (w_reg w) = Some s ->
  emulateDNSSendMMsg targets pid req w = (Ret (Some n), w') ->
  (n < argi req 2 -> 0 < n /\ w_reg w' = w_reg w) /\
  (n = argi req 2 -> exists s', LookupForPID pid (argi req 0) (w_reg w') = Some s' /\
     Z.of_nat (sl_len (PendingDNSResponses s')) = Z.of_nat (sl_len (PendingDNSResponses s)) + n) /\
  n <= argi req 2.
Proof.
  intros I L E. unfold emulateDNSSendMMsg in E. unfold mbind at 1 in E.
  destruct (decide (Kind s = KindUDP)) as [K|K].
  2: { unfold lookupManagedUDPSocket in E. destruct (argi req 0 <? 0); [done|].
       unfold lookupSocket, mbind, mget, mret in E. rewrite L in E. simpl in E.
       by rewrite bool_decide_eq_false_2 in E. }
  rewrite (lookup_udp_run pid req w s L K) in E. destruct (argi req 2 <? 0) eqn:C0; [done|].
  unfold mbind at 1 in E. destruct (readProcessValues _ _ _ _ _) as [[msgs|e| |] w1] eqn:RV; try done.
  assert (ER : w_reg w1 = w_reg w).
  { destruct (readProcessValues_ko sizeof_rawMmsghdr pid (arg req 1) (argi req 2) w) as [k Ek].
    rewrite RV in Ek. simpl in Ek. by rewrite Ek. }
  assert (LM : zlen msgs = argi req 2) by (eapply readProcessValues_length; [|exact RV]; lia).
  unfold mbind at 1 in E. destruct (sendmmsg_loop _ _ _ _ _ _ _ _) as [[r|e| |] w2] eqn:SL; try done.
  apply sendmmsg_loop_post in SL as [SR SP]; [|lia]. rewrite ER in SR. unfold loop_post in SP.
  destruct r as [early|[s' sent]].
  - injection E as -> <-. rewrite SR. split; [|split]; [by split; [lia|]|lia|lia].
  - unfold mbind, insertState, mmodify, mret in E. injection E as <- <-. destruct SP as (-> & EP & EF & EL).
    split; [lia|]. split; [|lia]. intros _. exists s'. simpl. rewrite SR.
    destruct (LookupForPID_update pid (argi req 0) (w_reg w) s s' (inv_keys w I) L EP EF) as [L' _].
    split; [done|]. unfold zlen in *. lia.
Qed.

(** ** Sizes that come from the process *)

(** A message count whose size in bytes wraps around: on a managed UDP
    socket [sendmmsg] with 2^58 messages passes every check without reading any
    memory and then panics in the allocation; [poll] does so with 2^61 entries on
    no socket at all. *)
Theorem oversized_counts_panic pid req w s :
  LookupForPID pid (argi req 0) (w_reg w) = Some s -> Kind s = KindUDP -> argi req 2 = 2 ^ 58 ->
  emulateDNSSendMMsg targets pid req w = (Panic, w) /\
  forall ptr, emulateDNSPollFDs pid ptr (2 ^ 61) w = (Panic, w).
Proof.
  intros L K C. split; [|done]. unfold emulateDNSSendMMsg. unfold mbind at 1.
  rewrite (lookup_udp_run pid req w s L K), C. done.
Qed.

(** [recvmsg] into an I/O vector whose first length is 2^63 or more: the
    length is converted to a negative [int] and the slice expression panics,
    where a length above SSIZE_MAX should be an error of the call. *)
Theorem recvmsg_negative_iovec_panics pid req w s msg resp rest iov iovs :
  LookupForPID pid (argi req 0) (w_reg w) = Some s -> Kind s = KindUDP ->
  slice_view (w_heap w) (PendingDNSResponses s) = resp :: rest -> dr_Payload resp <> [] ->
  readProcessValue sizeof_Msghdr pid (arg req 1) w = (Ret msg, w) ->
  0 < to_int (msg_Iovlen msg) -> msg_Iov msg <> 0 ->
  readProcessValues sizeof_Iovec pid (msg_Iov msg) (to_int (msg_Iovlen msg)) w = (Ret (iov :: iovs), w) ->
  2 ^ 63 <= iov_Len iov < 2 ^ 64 ->
  emulateDNSRecvMsg pid req w = (Panic, w).
Proof.
  intros L K Q NE RM C A RV B. unfold emulateDNSRecvMsg. unfold mbind at 1.
  rewrite (lookup_udp_run pid req w s L K). unfold mbind at 1. rewrite RM.
  unfold takePendingDNSResponse, pendingResponses. unfold mbind at 1 2. unfold mget. rewrite Q. cbn [mret].
  unfold mbind at 1, writePayloadToIovecs.
  replace (to_int (msg_Iovlen msg) <? 0) with false by lia.
  replace (to_int (msg_Iovlen msg) =? 0) with false by lia.
  replace (msg_Iov msg =? 0) with false by lia. unfold mbind at 1. rewrite RV.
  assert (0 < zlen (dr_Payload resp)) by (unfold zlen; destruct (dr_Payload resp); simpl; [done|lia]).
  unfold mbind at 1. cbn [scatter]. rewrite (to_int_negative (iov_Len iov)) by done.
  replace (zlen (dr_Payload resp) <=? 0) with false by lia. replace (iov_Len iov =? 0) with false by lia.
  replace (Z.min _ _ =? 0) with false by lia. by replace (Z.min _ _ <? 0) with true by lia.
Qed.

(** ** Descriptors *)

Lemma find_free_spec reserved fd n fd' :
  find_free reserved fd n = Some fd' ->
  fd <= fd' < fd + Z.of_nat n /\ fd' ∉ reserved /\ forall g, fd <= g < fd' -> g ∈ reserved.
Proof.
  revert fd. induction n as [|n IH]; intros fd; cbn [find_free]; [done|].
  case_bool_decide as R.
  - intros (B & N & A)%IH. split; [lia|]. split; [done|]. intros g G.
    destruct (decide (g = fd)) as [->|]; [done|]. apply A. lia.
  - intros [= <-]. split; [lia|]. split; [done|]. lia.
Qed.

Lemma find_free_none reserved fd n :
  find_free reserved fd n = None -> forall g, fd <= g < fd + Z.of_nat n -> g ∈ reserved.
Proof.
  revert fd. induction n as [|n IH]; intros fd; cbn [find_free]; [lia|].
  case_bool_decide as R; [|done]. intros E g G.
  destruct (decide (g = fd)) as [->|]; [done|]. apply (IH _ E). lia.
Qed.

(** The next descriptor [reserveChildFD] tries. *)
Definition next_child_fd (kind : SocketKind) (requestedMin : Z) (w : world) : Z :=
  Z.max (Z.max (minChildFDForSocketKind kind) requestedMin)
        (match kind with KindUDP => w_nextUDP w | _ => w_nextTCP w end).

Lemma reserveChildFD_next kind requestedMin w :
  reserveChildFD kind requestedMin w =
  match find_free (w_reserved w) (next_child_fd kind requestedMin w) 4096 with
  | None => (Ret (-1), w)
  | Some fd =>
      (Ret fd, match kind with
               | KindUDP => set_fds ({[fd]} ∪ w_reserved w) (w_nextTCP w) (fd + 1) w
               | _ => set_fds ({[fd]} ∪ w_reserved w) (fd + 1) (w_nextUDP w) w
               end)
  end.
Proof.
  unfold reserveChildFD, next_child_fd.
  match goal with |- context [find_free _ (if ?a <? ?b then ?b else ?a) _] =>
    replace (if a <? b then b else a) with (Z.max b a) end; [done|].
  destruct (_ <? _) eqn:E; lia.
Qed.

(** Child descriptors: [reserveChildFD] returns -1 and changes nothing when
    the 4096 descriptors from the next one on are all taken; otherwise it
    returns the first free one, at least the kind's minimum (256 for TCP, 512
    for UDP) and the requested one, marks exactly that one as taken, and the
    next reservation of the kind starts after it. *)
Theorem reserveChildFD_fresh kind requestedMin w :
  exists fd w', reserveChildFD kind requestedMin w = (Ret fd, w') /\
  (fd = -1 /\ w' = w /\ (forall g, next_child_fd kind requestedMin w <= g < next_child_fd kind requestedMin w + 4096 ->
                          g ∈ w_reserved w) \/
   next_child_fd kind requestedMin w <= fd /\ minChildFDForSocketKind kind <= fd /\ requestedMin <= fd /\
   fd ∉ w_reserved w /\ w_reserved w' = {[fd]} ∪ w_reserved w /\
   (forall g, next_child_fd kind requestedMin w <= g < fd -> g ∈ w_reserved w) /\
   fd < next_child_fd kind requestedMin w' /\ w_reg w' = w_reg w /\ w_kernel w' = w_kernel w).
Proof.
  rewrite reserveChildFD_next. set (n := next_child_fd kind requestedMin w).
  destruct (find_free (w_reserved w) n 4096) as [fd|] eqn:F.
  - apply find_free_spec in F as (B & N & A). exists fd. eexists. split; [done|]. right.
    assert (minChildFDForSocketKind kind <= n /\ requestedMin <= n) by (subst n; unfold next_child_fd; lia).
    split; [lia|]. split; [lia|]. split; [lia|]. split; [done|].
    destruct kind; simpl; (split; [done|]); (split; [done|]); unfold next_child_fd; simpl; (split; [lia|done]).
  - exists (-1), w. split; [done|]. left. split; [done|]. split; [done|].
    intros g G. apply (find_free_none _ _ _ F). lia.
Qed.

Lemma install_loop_terminates N id src kind fuel w :
  (forall id src new flags fdflags k e k',
     N <= new -> ioctl_addfd id src new flags fdflags k = (inl e, k') -> fd_busy e = false) ->
  N + 4096 <= 2 ^ 32 -> let next := next_child_fd kind (minChildFDForSocketKind kind) w in
  next <= N -> N - next < Z.of_nat fuel ->
  (install_loop targets fuel id src kind w).1 <> OutOfFuel.
Proof.
  intros HK HN. revert w. induction fuel as [|fuel IH]; intros w next Hn Hf; [lia|]. cbn [install_loop].
  unfold mbind at 1. rewrite reserveChildFD_next. fold next.
  destruct (find_free (w_reserved w) next 4096) as [fd|] eqn:F; [|done].
  apply find_free_spec in F as (B & _ & _).
  assert (0 <= next) by (subst next; unfold next_child_fd; destruct kind; simpl;
    unfold minManagedTCPChildFD, minManagedUDPChildFD; lia).
  replace (fd <? 0) with false by lia. unfold mbind at 1, mtry, addFDWithResult.
  destruct (notifyFD targets <? 0); [by unfold mbind, releaseChildFD; destruct (fd <? 0)|].
  destruct (src <? 0); [by unfold mbind, releaseChildFD; destruct (fd <? 0)|].
  unfold mbind at 1, mkernel. destruct (ioctl_addfd _ _ _ _ _ _) as [[e|r1] k'] eqn:A; [|done]. cbn [of_sum].
  unfold mbind at 1, releaseChildFD. replace (fd <? 0) with false by lia. unfold mmodify.
  destruct (fd_busy e) eqn:BE; [|done].
  destruct (decide (N <= fd)) as [G|G].
  { assert (fd_busy e = false); [|congruence]. eapply HK; [|exact A]. unfold to_uint32. rewrite Z.mod_small; lia. }
  subst next. unfold next_child_fd in *. apply IH; destruct kind; simpl in *; lia.
Qed.

Lemma bind_not_oof {A B} (m : M A) (f : A -> M B) w :
  (m w).1 <> OutOfFuel -> (forall a w', (f a w').1 <> OutOfFuel) -> (mbind m f w).1 <> OutOfFuel.
Proof. intros Hm Hf. unfold mbind. destruct (m w) as [[a|e| |] w']; by try apply Hf. Qed.

(** Socket creation terminates: if the kernel never reports a descriptor at
    or above some limit [N] as busy (it has a descriptor limit), the
    installation loop of [injectSocket] ends within [N] rounds, whatever is
    already reserved. *)
Theorem injectSocket_terminates N req w fuel :
  (forall id src new flags fdflags k e k',
     N <= new -> ioctl_addfd id src new flags fdflags k = (inl e, k') -> fd_busy e = false) ->
  N + 4096 <= 2 ^ 32 -> (forall kind, next_child_fd kind 0 w <= N) -> N <= Z.of_nat fuel ->
  (injectSocket targets fuel req w).1 <> OutOfFuel.
Proof.
  intros HK HN Hn Hf. unfold injectSocket. unfold mbind at 1, mlift.
  destruct (classifyManagedSocket _ _ _ _) as [e|[kind managed]]; [done|]. cbn [of_sum fst snd].
  destruct managed; [|done]. cbn [negb]. unfold mbind at 1, mkernel.
  destruct (sys_socket _ _ _ _) as [[e|hfd] k']; [done|]. cbn [of_sum].
  apply bind_not_oof.
  - apply (install_loop_terminates N); [done|done| |]; specialize (Hn kind);
      unfold next_child_fd in *; destruct kind; simpl in *; unfold minManagedTCPChildFD, minManagedUDPChildFD in *; lia.
  - intros cfd w'. apply bind_not_oof.
    + unfold CloseForPID, closeManagedHelperFD, mbind, mget. destruct (cfd <? 0); [done|].
      destruct (lookupKeyLocked _ _ _); [|done]. destruct (_ !! _); [|done]. by destruct (_ <=? _).
    + done.
Qed.

(** ** Descriptors shared between processes *)

Lemma lookupKeyLocked_unique states q p fd s :
  states !! (p, fd) = Some s -> (forall k, k.2 = fd -> is_Some (states !! k) -> k = (p, fd)) ->
  lookupKeyLocked states q fd = Some (p, fd).
Proof.
  intros L U. destruct (lookupKeyLocked states q fd) as [k|] eqn:E.
  - apply lookupKeyLocked_some in E as (E2 & S & _). f_equal. by apply U.
  - apply lookupKeyLocked_none in E as [_ [N|(p1 & p2 & N & S1 & S2)]].
    + by rewrite N in L.
    + apply U in S1, S2; [|done..]. congruence.
Qed.

(** A descriptor inherited through fork: when process [q], which has no
    entry of its own, closes descriptor [fd], the supervisor drops the entry of
    the only process [p] that has it registered; from then on a [connect] of
    [p] on its still open socket is not redirected but left to the kernel. *)
Theorem close_by_relative_unmanages_owner fuel p q fd s creq req w :
  w_reg w !! (p, fd) = Some s -> (forall k, k.2 = fd -> is_Some (w_reg w !! k) -> k = (p, fd)) ->
  0 < q -> q <> p -> 0 <= fd ->
  rq_Syscall creq = SYS_CLOSE -> rq_Pid creq = q -> argi creq 0 = fd ->
  rq_Syscall req = SYS_CONNECT -> rq_Pid req = p -> argi req 0 = fd ->
  let w' := (processNotification targets fuel 0 creq w).2 in
  processNotification targets fuel 0 req w' = (Ret (Continue (rq_ID req)), w').
Proof.
  intros L U Q QP F C1 C2 C3 R1 R2 R3 w'.
  assert (Hw' : w_reg w' = delete (p, fd) (w_reg w)).
  { subst w'. unfold processNotification. rewrite C1. cbn -[closeNotification].
    unfold closeNotification, notificationPID. rewrite C2, C3. replace (0 <? q) with true by lia.
    replace (0 <=? fd) with true by lia. unfold mbind at 1, CloseForPID. replace (fd <? 0) with false by lia.
    unfold mbind at 1, mget. rewrite (lookupKeyLocked_unique _ _ p fd s) by done. rewrite L.
    unfold closeManagedHelperFD, releaseChildFD. replace (fd <? 0) with false by lia.
    by destruct (minManagedHelperFD <=? HelperFD s). }
  unfold processNotification. rewrite R1. cbn -[redirectConnect]. unfold respond, handled0, redirectConnect.
  unfold mbind at 1, mtry, lookupSocket. unfold mbind at 1 2, mget. rewrite R3, Hw'.
  assert (LN : LookupForPID (notificationPID 0 req) fd (delete (p, fd) (w_reg w)) = None).
  { unfold LookupForPID. destruct (fd <? 0); [done|].
    destruct (lookupKeyLocked _ _ _) as [k|] eqn:E; [|done]. apply lookupKeyLocked_some in E as (E2 & [t S] & _).
    apply lookup_delete_Some in S as [N S]. exfalso. apply N. symmetry. apply U; eauto. }
  by rewrite LN.
Qed.

(** A descriptor number used by two processes: [connect] on a managed TCP
    socket looks the descriptor up without the process, finds it ambiguous and
    does nothing, and yet reports success: no connection is made for any
    destination, port 53 included, and the only effect is the reinstallation of
    the unconnected socket. *)
Theorem connect_ambiguous_descriptor_is_no_connect p q req w s t raw dest r k' :
  Inv w -> w_reg w !! (p, argi req 0) = Some s -> w_reg w !! (q, argi req 0) = Some t -> p <> q ->
  w_reg w !! (0, argi req 0) = None -> Kind s = KindTCP -> 0 <= HelperFD s -> 0 <= notifyFD targets ->
  arg req 1 <> 0 -> 0 < argi req 2 <= maxSockaddrBytes ->
  readProcessMemory p (arg req 1) (argi req 2) w = (Ret raw, w) ->
  DecodeSockaddr raw = inr dest -> sa_Family dest <> AF_UNSPEC ->
  ioctl_addfd (rq_ID req) (HelperFD s) (to_uint32 (argi req 0)) ADDFD_FLAG_SETFD
    (if has_flag (SocketType s) SOCK_CLOEXEC then O_CLOEXEC else 0) (w_kernel w) = (inr r, k') ->
  redirectConnect targets p req w = (Ret true, set_kernel k' w).
Proof.
  intros I Lp Lq PQ L0 K HF NF A1 A2 RM D UN AD.
  destruct (inv_keys w I _ _ Lp) as (Ek & Hp & Hf). injection Ek as EP EF. rewrite <- EP in Hp. rewrite <- EF in Hf.
  assert (Own : forall w0, w_reg w0 = w_reg w -> LookupForPID p (argi req 0) (w_reg w0) = Some s).
  { intros w0 ->. by apply LookupForPID_exact. }
  assert (Amb : Lookup (argi req 0) (w_reg w) = None).
  { unfold Lookup, LookupForPID. replace (argi req 0 <? 0) with false by lia.
    destruct (lookupKeyLocked _ _ _) as [k|] eqn:E; [|done]. exfalso.
    apply lookupKeyLocked_some in E as (E2 & [u S] & [->|[_ U]]).
    - unfold normalizeRegistryPID in S. simpl in S. by rewrite L0 in S.
    - apply PQ. assert ((p, argi req 0) = (q, argi req 0)) by (rewrite (U (q, argi req 0)); [apply U|..]; eauto).
      congruence. }
  unfold redirectConnect, lookupSocket. unfold mbind at 1, mget. rewrite (Own w) by done.
  replace (arg req 1 =? 0) with false by lia. replace (argi req 2 <=? 0) with false by lia.
  replace (maxSockaddrBytes <? argi req 2) with false by lia. cbn [orb]. unfold mbind at 1. rewrite RM.
  unfold mbind at 1, mlift. rewrite D. cbn [of_sum]. rewrite (proj2 (Z.eqb_neq _ _) UN), K.
  unfold mbind at 1, handleConnect. replace (argi req 0 <? 0) with false by lia.
  unfold mbind at 1, mget. rewrite Amb. cbn [mret]. unfold mbind at 1. rewrite (Own w) by done.
  unfold reinstallConnectedSocket, addFDWithResult. rewrite <- EF.
  replace (argi req 0 <? 0) with false by lia. replace (HelperFD s <? 0) with false by lia.
  replace (notifyFD targets <? 0) with false by lia. cbn [orb]. unfold mbind, mkernel. by rewrite AD.
Qed.

(** A duplicated UDP socket shares the response queue's memory: both
    entries hold the same slice, so when the array has room, a response queued
    through one descriptor is overwritten by the next response queued through
    the other. *)
Theorem dup_queue_overwritten (w : world) s x y s1 w1 s2 w2 :
  slice_ok (w_heap w) (PendingDNSResponses s) ->
  (sl_len (PendingDNSResponses s) < sl_cap (PendingDNSResponses s))%nat ->
  queueResponse s x w = (Ret s1, w1) ->
  queueResponse (with_child (ChildPID s) (ChildFD s + 1) s) y w1 = (Ret s2, w2) ->
  slice_view (w_heap w2) (PendingDNSResponses s1) = slice_view (w_heap w) (PendingDNSResponses s) ++ [y].
Proof.
  intros OK C E1 E2.
  assert (OK1 : slice_ok (w_heap w1) (PendingDNSResponses s) /\
                slice_view (w_heap w1) (PendingDNSResponses s) = slice_view (w_heap w) (PendingDNSResponses s) /\
                PendingDNSResponses s1 = {| sl_arr := sl_arr (PendingDNSResponses s);
                  sl_off := sl_off (PendingDNSResponses s); sl_len := S (sl_len (PendingDNSResponses s));
                  sl_cap := sl_cap (PendingDNSResponses s) |}).
  { unfold queueResponse in E1. destruct (slice_append _ _ _) as [h' sl] eqn:A. injection E1 as <- <-. simpl.
    split; [by eapply slice_ok_append|]. unfold slice_append in A. rewrite bool_decide_eq_true_2 in A by done.
    injection A as <- <-. split; [|done]. unfold slice_view. rewrite lookup_alter, decide_True by done.
    destruct (w_heap w !! _); simpl; [|done].
    rewrite drop_insert_ge by lia. by rewrite take_insert_ge by lia. }
  destruct OK1 as (OK1 & V1 & ->). unfold queueResponse in E2. cbn [with_child PendingDNSResponses] in E2.
  destruct (slice_append _ _ _) as [h' sl] eqn:A. injection E2 as <- <-. cbn [w_heap set_heap].
  pose proof (slice_append_ok _ _ _ _ _ OK1 A) as [_ V2]. rewrite V1 in V2. rewrite <- V2. f_equal.
  unfold slice_append in A. rewrite bool_decide_eq_true_2 in A by done. by injection A as _ <-.
Qed.
End theorems.

(** * Witnesses *)

Section witnesses.
#[local] Existing Instance sampleLib.
#[local] Existing Instance sampleKernel.

(** Nothing but the supervisor acts. *)
Definition no_env (k k' : @kstate sampleKernel) : Prop := k' = k.

Lemma sample_run_reachable reqs w :
  reachable sampleTargets no_env sample_machine w -> reachable sampleTargets no_env sample_machine (sample_run reqs w).
Proof. revert w. induction reqs; intros w R; simpl; [done|]. apply IHreqs. by constructor. Qed.

Lemma sample_reachable reqs : reachable sampleTargets no_env sample_machine (sample_run reqs sample_start).
Proof. apply sample_run_reachable, (reachable_start sampleTargets no_env sample_machine). Qed.
Lemma sample_Inv reqs : Inv (sample_run reqs sample_start).
Proof. eapply reachable_Inv, sample_reachable. Qed.

Definition sample_state (pid fd : Z) (w : @world sampleKernel) : SocketState :=
  default (newSocketState 0 KindUnknown 0 0 0 0 0) (LookupForPID pid fd (w_reg w)).
Lemma sample_state_ok pid fd w :
  bool_decide (is_Some (LookupForPID pid fd (w_reg w))) = true ->
  LookupForPID pid fd (w_reg w) = Some (sample_state pid fd w).
Proof. unfold sample_state. rewrite bool_decide_eq_true. by intros [s ->]. Qed.
Lemma sample_entry_ok pid fd w :
  bool_decide (is_Some (w_reg w !! (pid, fd))) = true -> 0 <= pid -> 0 <= fd ->
  w_reg w !! (pid, fd) = Some (sample_state pid fd w).
Proof.
  rewrite bool_decide_eq_true. intros [s E] P F. unfold sample_state.
  by rewrite (LookupForPID_exact pid fd _ s).
Qed.

Definition w_udp := sample_run [call_socket_udp] sample_start.
Definition w_asked := sample_run [call_socket_udp; call_sendto] sample_start.
Definition w_tcp := sample_run [call_socket_tcp; call_connect] sample_start.

Lemma reachable_invariant_witness :
  length (slice_view (w_heap w_asked) (PendingDNSResponses (sample_state 7 512 w_asked))) = 1%nat.
Proof.
  destruct (reachable_invariant sampleTargets no_env sample_machine w_asked (7, 512) (sample_state 7 512 w_asked))
    as (_ & _ & _ & _ & _ & -> & _).
  - apply sample_reachable.
  - apply sample_entry_ok; [vm_compute; reflexivity|lia|lia].
  - vm_compute. reflexivity.
Defined.

(** The log contains no connection outside the ingress and no datagram outside
    port 53. *)
Definition log_confined (k : @kstate sampleKernel) : Prop :=
  Forall (fun e => match e with
                   | KConnect _ sa => ingress sampleTargets sa
                   | KDns _ port payload => port = 53 /\ zlen payload <= maxDNSPacketSize
                   | _ => True
                   end) (km_log k).
Lemma log_confined_keeps : keeps sampleTargets log_confined.
Proof. split; intros; try done; by constructor. Qed.

Lemma egress_confined_witness : log_confined (w_kernel w_tcp).
Proof.
  apply (egress_confined sampleTargets no_env sample_machine w_tcp log_confined).
  - apply log_confined_keeps.
  - by intros k k' ->.
  - constructor.
  - apply sample_reachable.
Defined.

Lemma sendto_queues_reply_witness :
  exists w', emulateDNSSendTo sampleTargets 7 call_sendto w_udp = (Ret (Some 4), w') /\
    exists src, pending 7 512 w' = Some [{| dr_Payload := [7; 1; 2; 3; 4]; dr_Source := src |}].
Proof.
  destruct (sendto_queues_reply sampleTargets 7 call_sendto w_udp (sample_state 7 512 w_udp) [1; 2; 3; 4]
    {| sa_Family := AF_INET; sa_Host := "9.9.9.9"; sa_Port := 53 |} [7; 1; 2; 3; 4]
    (klog (KDns "9.9.9.9" 53 [1; 2; 3; 4]) (w_kernel w_udp))) as (w' & E & P & _).
  - apply sample_Inv.
  - apply sample_state_ok. vm_compute. reflexivity.
  - vm_compute. reflexivity.
  - reflexivity.
  - reflexivity.
  - reflexivity.
  - reflexivity.
  - reflexivity.
  - unfold zlen, maxDNSPacketSize. simpl. lia.
  - exists w'. split; [exact E|]. eexists. change 512 with (argi call_sendto 0). rewrite P.
    unfold pending. change (argi call_sendto 0) with 512.
    rewrite (sample_state_ok 7 512 w_udp) by (vm_compute; reflexivity). vm_compute. reflexivity.
Defined.

Lemma recvfrom_delivers_oldest_witness :
  exists w', emulateDNSRecvFrom 7 call_recvfrom w_asked = (Ret (Some 3), w') /\ pending 7 512 w' = Some [].
Proof.
  destruct (recvfrom_delivers_oldest 7 call_recvfrom w_asked (sample_state 7 512 w_asked)
    {| dr_Payload := [7; 1; 2; 3; 4]; dr_Source := {| sa_Family := AF_INET; sa_Host := "9.9.9.9"; sa_Port := 53 |} |}
    [] (klog (KWrite 7 5000 [7; 1; 2]) (w_kernel w_asked))) as (w' & E & P & _).
  - apply sample_Inv.
  - apply sample_state_ok. vm_compute. reflexivity.
  - vm_compute. reflexivity.
  - vm_compute. reflexivity.
  - lia.
  - vm_compute. discriminate.
  - vm_compute. discriminate.
  - reflexivity.
  - reflexivity.
  - reflexivity.
  - exists w'. split; [exact E|]. change 512 with (argi call_recvfrom 0). rewrite P. vm_compute. reflexivity.
Defined.

(** Two messages, the second refused: one is reported as sent, nothing is queued. *)
Definition w_half := (emulateDNSSendMMsg sampleTargets 7 call_sendmmsg w_udp).2.
Lemma sendmmsg_partial_send_loses_responses_witness : w_reg w_half = w_reg w_udp.
Proof.
  apply (sendmmsg_partial_send_loses_responses sampleTargets 7 call_sendmmsg w_udp w_half 1 (sample_state 7 512 w_udp)).
  - apply sample_Inv.
  - apply sample_state_ok. vm_compute. reflexivity.
  - unfold w_half. rewrite (surjective_pairing (emulateDNSSendMMsg _ _ _ _)). f_equal.
  - vm_compute. reflexivity.
Defined.

Definition call_sendmmsg_huge := call SYS_SENDMMSG [512; 4000; 2 ^ 58; 0].
Lemma oversized_counts_panic_witness : emulateDNSSendMMsg sampleTargets 7 call_sendmmsg_huge w_udp = (Panic, w_udp).
Proof.
  apply (oversized_counts_panic sampleTargets 7 call_sendmmsg_huge w_udp (sample_state 7 512 w_udp)).
  - apply sample_state_ok. vm_compute. reflexivity.
  - vm_compute. reflexivity.
  - vm_compute. reflexivity.
Defined.

Lemma recvmsg_negative_iovec_panics_witness : emulateDNSRecvMsg 7 call_recvmsg w_asked = (Panic, w_asked).
Proof.
  apply (recvmsg_negative_iovec_panics 7 call_recvmsg w_asked (sample_state 7 512 w_asked)
    (sample_memory 3000)
    {| dr_Payload := [7; 1; 2; 3; 4]; dr_Source := {| sa_Family := AF_INET; sa_Host := "9.9.9.9"; sa_Port := 53 |} |}
    [] (sample_memory 3100) []).
  - apply sample_state_ok. vm_compute. reflexivity.
  - vm_compute. reflexivity.
  - vm_compute. reflexivity.
  - discriminate.
  - reflexivity.
  - vm_compute. reflexivity.
  - vm_compute. discriminate.
  - reflexivity.
  - split; [vm_compute; discriminate|vm_compute; reflexivity].
Defined.

Lemma injectSocket_terminates_witness :
  (injectSocket sampleTargets 1024 call_socket_udp sample_start).1 <> OutOfFuel.
Proof.
  apply (injectSocket_terminates sampleTargets 1024).
  - intros id src new flags fdflags k e k' _ E. discriminate E.
  - lia.
  - intros []; vm_compute; discriminate.
  - lia.
Defined.

(** Process 8, a child of 7, closes the descriptor it inherited. *)
Definition close_by_8 : ScmpNotifReq := {| rq_ID := 2; rq_Pid := 8; rq_Syscall := SYS_CLOSE; rq_Args := [256] |}.
Definition w_tcp_open := sample_run [call_socket_tcp] sample_start.
Lemma close_by_relative_unmanages_owner_witness :
  (processNotification sampleTargets 3 0 call_connect (processNotification sampleTargets 3 0 close_by_8 w_tcp_open).2).1 =
  Ret (Continue 1).
Proof.
  assert (E : w_reg w_tcp_open !! (7, 256) = Some (sample_state 7 256 w_tcp_open))
    by (apply sample_entry_ok; [vm_compute; reflexivity|lia|lia]).
  rewrite (close_by_relative_unmanages_owner sampleTargets 3 7 8 256 (sample_state 7 256 w_tcp_open)
    close_by_8 call_connect w_tcp_open); try done.
  intros k _ [s S]. assert (D : dom (w_reg w_tcp_open) = {[(7, 256)]}) by reflexivity.
  apply elem_of_dom_2 in S. rewrite D in S. set_solver.
Defined.

(** Two processes with a socket at the same descriptor number. *)
Definition w_two_processes : world :=
  set_reg (InsertForPID 8 (newSocketState 8 KindTCP 256 30 AF_INET SOCK_STREAM 0)) w_tcp_open.
Lemma connect_ambiguous_descriptor_is_no_connect_witness :
  redirectConnect sampleTargets 7 call_connect w_two_processes =
  (Ret true, set_kernel (klog (KAddFD 20 256) (w_kernel w_two_processes)) w_two_processes).
Proof.
  apply (connect_ambiguous_descriptor_is_no_connect sampleTargets 7 8 call_connect w_two_processes
    (sample_state 7 256 w_two_processes) (sample_state 8 256 w_two_processes)
    (sample_memory 1100) {| sa_Family := AF_INET; sa_Host := "93.184.216.34"; sa_Port := 443 |} 256).
  - unfold w_two_processes. destruct (sample_Inv [call_socket_tcp]) as [I1 I2 I3].
    split; [by apply InsertForPID_ok| |done]. apply map_Forall_insert_2; [|done].
    split; [|done]. split; [done|]. simpl. lia.
  - apply sample_entry_ok; [vm_compute; reflexivity|lia|lia].
  - apply sample_entry_ok; [vm_compute; reflexivity|lia|lia].
  - lia.
  - vm_compute. reflexivity.
  - vm_compute. reflexivity.
  - vm_compute. discriminate.
  - vm_compute. discriminate.
  - vm_compute. discriminate.
  - split; vm_compute; [reflexivity|discriminate].
  - reflexivity.
  - vm_compute. reflexivity.
  - vm_compute. discriminate.
  - vm_compute. reflexivity.
Defined.

(** A queue of one response in an array of two. *)
Definition reply_a : dnsPacketResponse := {| dr_Payload := [1]; dr_Source := dr_Source zero_response |}.
Definition reply_b : dnsPacketResponse := {| dr_Payload := [2]; dr_Source := dr_Source zero_response |}.
Definition shared_socket : SocketState :=
  with_pending true {| sl_arr := 0; sl_off := 0; sl_len := 1; sl_cap := 2 |}
    (newSocketState 7 KindUDP 512 20 AF_INET SOCK_DGRAM 0).
Definition w_shared : @world sampleKernel := set_heap {[O := [reply_a; zero_response]]} sample_start.
Lemma dup_queue_overwritten_witness :
  exists s1 w1 s2 w2, queueResponse shared_socket reply_a w_shared = (Ret s1, w1) /\
    queueResponse (with_child 7 513 shared_socket) reply_b w1 = (Ret s2, w2) /\
    slice_view (w_heap w2) (PendingDNSResponses s1) = [reply_a; reply_b].
Proof.
  do 4 eexists. split; [reflexivity|]. split; [reflexivity|].
  eapply (dup_queue_overwritten w_shared shared_socket reply_a reply_b).
  - split; [simpl; lia|]. intros _. eexists. split; [reflexivity|]. simpl. lia.
  - simpl. lia.
  - reflexivity.
  - reflexivity.
Defined.
End witnesses.
