(* ===== verification/Turns.v ===== *)
(** The order of notifications: [enqueueNotificationTurn] and the goroutines of
    [serveNotifications] ([lifecycle_linux.go]).

    Each notification of a process gets a turn: it waits for the channel of the
    turn before it, runs, closes its own channel and then, in a separate critical
    section, takes itself off the books. Turns are numbered in the order of their
    arrival; the channel made by turn [i] is [i]. Every interleaving of these
    steps is a run of the step relation below. *)
From S2P Require Import Prelude GoStrings GoNet Sys Sockaddr Kernel FDRegistry ProcMem Supervisor.

Definition notificationOpKey (pid : Z) (req : ScmpNotifReq) : Z * Z :=
  (normalizeRegistryPID (notificationPID pid req), -1).

(** Before its turn, processing, channel closed, off the books. *)
Inductive phase := Waiting | Running | Closed | Released.
#[global] Instance phase_eq_dec : EqDecision phase.
Proof. solve_decision. Defined.

Record turn := { t_key : Z * Z; t_wait : option nat; t_done : nat; t_phase : phase }.
Definition set_phase (p : phase) (t : turn) : turn :=
  {| t_key := t_key t; t_wait := t_wait t; t_done := t_done t; t_phase := p |}.

Record turns := {
  q_tails : gmap (Z * Z) nat;      (* notifyQueueTails *)
  q_refs : gmap (Z * Z) Z;         (* notifyQueueRefs *)
  q_closed : gset nat;             (* the channels closed so far *)
  q_turns : list turn;             (* the goroutines started so far *)
}.
Definition no_turns : turns := {| q_tails := ∅; q_refs := ∅; q_closed := ∅; q_turns := [] |}.

(** The locked part of [enqueueNotificationTurn]. *)
Definition enqueueNotificationTurn (pid : Z) (req : ScmpNotifReq) (q : turns) : turns :=
  let key := notificationOpKey pid req in
  let doneCh := length (q_turns q) in
  {| q_tails := <[key := doneCh]> (q_tails q);
     q_refs := <[key := default 0 (q_refs q !! key) + 1]> (q_refs q);
     q_closed := q_closed q;
     q_turns := q_turns q ++ [{| t_key := key; t_wait := q_tails q !! key; t_done := doneCh; t_phase := Waiting |}] |}.

(** [<-waitForTurn] returns when there is nothing to wait for or the channel is closed. *)
Definition may_start (q : turns) (t : turn) : bool :=
  match t_wait t with None => true | Some c => bool_decide (c ∈ q_closed q) end.
Definition start_turn (i : nat) (t : turn) (q : turns) : turns :=
  {| q_tails := q_tails q; q_refs := q_refs q; q_closed := q_closed q;
     q_turns := <[i := set_phase Running t]> (q_turns q) |}.
(** [releaseTurn]: [close(doneCh)], then the locked part. *)
Definition close_turn (i : nat) (t : turn) (q : turns) : turns :=
  {| q_tails := q_tails q; q_refs := q_refs q; q_closed := {[t_done t]} ∪ q_closed q;
     q_turns := <[i := set_phase Closed t]> (q_turns q) |}.
Definition release_turn (i : nat) (t : turn) (q : turns) : turns :=
  let refs := default 0 (q_refs q !! t_key t) - 1 in
  {| q_tails := if (refs =? 0) && bool_decide (q_tails q !! t_key t = Some (t_done t))
                then delete (t_key t) (q_tails q) else q_tails q;
     q_refs := if refs =? 0 then delete (t_key t) (q_refs q) else <[t_key t := refs]> (q_refs q);
     q_closed := q_closed q;
     q_turns := <[i := set_phase Released t]> (q_turns q) |}.

(** What a goroutine that was started does next. *)
Inductive advance : turns -> turns -> Prop :=
| step_start i t q : q_turns q !! i = Some t -> t_phase t = Waiting -> may_start q t = true ->
    advance q (start_turn i t q)
| step_close i t q : q_turns q !! i = Some t -> t_phase t = Running -> advance q (close_turn i t q)
| step_release i t q : q_turns q !! i = Some t -> t_phase t = Closed -> advance q (release_turn i t q).
(** The loop of [serveNotifications] receives a notification, or a goroutine moves. *)
Inductive turn_step : turns -> turns -> Prop :=
| step_enqueue pid req q : turn_step q (enqueueNotificationTurn pid req q)
| step_advance q q' : advance q q' -> turn_step q q'.
Definition turns_reachable : turns -> Prop := rtc turn_step no_turns.

(** * The invariant *)

Definition finished (p : phase) : bool := match p with Closed | Released => true | _ => false end.
(** The turns of a key that still count. *)
Definition live (k : Z * Z) (t : turn) : Prop := t_key t = k /\ t_phase t <> Released.
#[global] Instance live_dec k t : Decision (live k t).
Proof. unfold live. apply _. Defined.
Definition live_count (k : Z * Z) (l : list turn) : Z := Z.of_nat (length (filter (live k) l)).

Record turns_inv (q : turns) : Prop := {
  ti_done i t : q_turns q !! i = Some t -> t_done t = i;
  ti_closed c : c ∈ q_closed q <-> exists t, q_turns q !! c = Some t /\ finished (t_phase t) = true;
  (** A turn waits for the last earlier turn of its key, or all of those are off the books. *)
  ti_wait j t : q_turns q !! j = Some t ->
    match t_wait t with
    | None => forall i s, (i < j)%nat -> q_turns q !! i = Some s -> t_key s = t_key t -> t_phase s = Released
    | Some c => (c < j)%nat /\ (exists s, q_turns q !! c = Some s /\ t_key s = t_key t) /\
                forall i s, (i < j)%nat -> q_turns q !! i = Some s -> t_key s = t_key t -> (i <= c)%nat
    end;
  ti_tail k : match q_tails q !! k with
    | None => forall i s, q_turns q !! i = Some s -> t_key s = k -> t_phase s = Released
    | Some c => (exists s, q_turns q !! c = Some s /\ t_key s = k) /\
                forall i s, q_turns q !! i = Some s -> t_key s = k -> (i <= c)%nat
    end;
  ti_refs k : default 0 (q_refs q !! k) = live_count k (q_turns q);
  ti_order i j s t : (i < j)%nat -> q_turns q !! i = Some s -> q_turns q !! j = Some t -> t_key s = t_key t ->
    t_phase t <> Waiting -> finished (t_phase s) = true;
}.

Lemma no_turns_inv : turns_inv no_turns.
Proof.
  split; cbn [no_turns q_turns q_tails q_refs q_closed]; intros; rewrite ?lookup_empty; try done.
  split; [set_solver|]. by intros (t & ? & _).
Qed.

Lemma live_count_snoc k l t : live_count k (l ++ [t]) = live_count k l + (if decide (live k t) then 1 else 0).
Proof.
  unfold live_count. rewrite filter_app, length_app, filter_cons. change (filter _ []) with (@nil turn).
  case_decide; simpl; lia.
Qed.

Lemma lookup_snoc_cases {A} (l : list A) x i y :
  (l ++ [x]) !! i = Some y -> l !! i = Some y /\ (i < length l)%nat \/ i = length l /\ y = x.
Proof.
  intros E. apply lookup_app_Some in E as [E|[L E]].
  - left. split; [done|]. by apply lookup_lt_Some in E.
  - right. destruct (i - length l)%nat eqn:D; [|done]. simpl in E. split; [lia|congruence].
Qed.

Lemma enqueue_inv pid req q : turns_inv q -> turns_inv (enqueueNotificationTurn pid req q).
Proof.
  intros I. set (k := notificationOpKey pid req). split; cbn [enqueueNotificationTurn q_turns q_tails q_refs q_closed].
  - intros i t E. apply lookup_snoc_cases in E as [[E _]|[-> ->]]; [by apply (ti_done q I)|done].
  - intros c. rewrite (ti_closed q I). split.
    + intros (t & E & F). exists t. split; [|done]. by apply lookup_app_l_Some.
    + intros (t & E & F). apply lookup_snoc_cases in E as [[E _]|[-> ->]]; [eauto|done].
  - intros j t E. apply lookup_snoc_cases in E as [[E L]|[-> ->]].
    + pose proof (ti_wait q I j t E) as W. destruct (t_wait t) as [c|].
      * destruct W as (C & (s & Es & K) & W). split; [done|]. split; [exists s; split; [by apply lookup_app_l_Some|done]|].
        intros i s' Hi Es'. apply lookup_snoc_cases in Es' as [[Es' _]|[-> ->]]; [by eapply W|lia].
      * intros i s Hi Es. apply lookup_snoc_cases in Es as [[Es _]|[-> ->]]; [by eapply W|lia].
    + cbn [t_wait t_key]. fold k. pose proof (ti_tail q I k) as T. destruct (q_tails q !! k) as [c|].
      * destruct T as ((s & Es & K) & T). split; [by apply lookup_lt_Some in Es|].
        split; [exists s; split; [by apply lookup_app_l_Some|done]|].
        intros i s' Hi Es'. apply lookup_snoc_cases in Es' as [[Es' _]|[-> ->]]; [by eapply T|lia].
      * intros i s Hi Es. apply lookup_snoc_cases in Es as [[Es _]|[-> ->]]; [by eapply T|lia].
  - intros k'. fold k. destruct (decide (k' = k)) as [->|N].
    + rewrite lookup_insert_eq. split; [eexists; split; [by apply list_lookup_middle|done]|].
      intros i s Es _. apply lookup_snoc_cases in Es as [[_ L]|[-> _]]; lia.
    + rewrite lookup_insert_ne by done. pose proof (ti_tail q I k') as T. destruct (q_tails q !! k') as [c|].
      * destruct T as ((s & Es & K) & T). split; [exists s; split; [by apply lookup_app_l_Some|done]|].
        intros i s' Es' K'. apply lookup_snoc_cases in Es' as [[Es' _]|[-> ->]]; [by eapply T|by destruct N].
      * intros i s' Es' K'. apply lookup_snoc_cases in Es' as [[Es' _]|[-> ->]]; [by eapply T|by destruct N].
  - intros k'. fold k. rewrite live_count_snoc, <- (ti_refs q I). destruct (decide (k' = k)) as [->|N].
    + rewrite lookup_insert_eq. simpl. by rewrite decide_True by done.
    + rewrite lookup_insert_ne by done. rewrite decide_False; [lia|]. intros [K _]. by destruct N.
  - intros i j s t Hij Es Et K P. apply lookup_snoc_cases in Et as [[Et L]|[-> ->]]; [|done].
    apply lookup_snoc_cases in Es as [[Es _]|[-> _]]; [|lia]. by apply (ti_order q I i j s t).
Qed.

(** ** Changing the phase of one turn *)

Lemma update_lookup (l : list turn) i t p j x :
  l !! i = Some t -> <[i := set_phase p t]> l !! j = Some x ->
  j = i /\ x = set_phase p t \/ j <> i /\ l !! j = Some x.
Proof.
  intros L. destruct (decide (i = j)) as [<-|N].
  - rewrite list_lookup_insert_eq by (by apply lookup_lt_Some in L). intros [= <-]. by left.
  - rewrite list_lookup_insert_ne by done. auto.
Qed.
Lemma update_lookup_old (l : list turn) i t p j y :
  l !! i = Some t -> l !! j = Some y ->
  exists x, <[i := set_phase p t]> l !! j = Some x /\ t_key x = t_key y /\
    (j = i /\ x = set_phase p t /\ y = t \/ j <> i /\ x = y).
Proof.
  intros L E. destruct (decide (i = j)) as [<-|N].
  - exists (set_phase p t). rewrite list_lookup_insert_eq by (by apply lookup_lt_Some in L).
    assert (y = t) as -> by congruence. repeat split. by left.
  - exists y. rewrite list_lookup_insert_ne by done. split; [done|]. split; [done|]. right. split; congruence.
Qed.

Lemma live_count_update k l i t p :
  l !! i = Some t ->
  live_count k (<[i := set_phase p t]> l) =
  live_count k l - (if decide (live k t) then 1 else 0) + (if decide (live k (set_phase p t)) then 1 else 0).
Proof.
  intros L. assert (Li := lookup_lt_Some _ _ _ L). rewrite insert_take_drop by done.
  rewrite <- (take_drop_middle l i t L) at 3. unfold live_count.
  rewrite !filter_app, !filter_cons, !length_app. repeat case_decide; simpl; lia.
Qed.

Lemma phase_update_inv q i t p tails refs closed :
  turns_inv q -> q_turns q !! i = Some t -> t_phase t <> Released -> p <> Waiting ->
  (finished (t_phase t) = true -> finished p = true) ->
  (forall j s, (j < i)%nat -> q_turns q !! j = Some s -> t_key s = t_key t -> finished (t_phase s) = true) ->
  (forall c, c ∈ closed <-> c ∈ q_closed q \/ c = i /\ finished p = true) ->
  (tails = q_tails q \/ tails = delete (t_key t) (q_tails q) /\ p = Released /\
     forall j s, j <> i -> q_turns q !! j = Some s -> t_key s = t_key t -> t_phase s = Released) ->
  (forall k, default 0 (refs !! k) = live_count k (<[i := set_phase p t]> (q_turns q))) ->
  turns_inv {| q_tails := tails; q_refs := refs; q_closed := closed; q_turns := <[i := set_phase p t]> (q_turns q) |}.
Proof.
  intros I L NR NW FM OR CL TL RF. split; cbn [q_turns q_tails q_refs q_closed].
  - intros j x [[-> ->]|[_ E]]%(update_lookup _ _ _ _ _ _ L); [apply (ti_done q I i t L)|by apply (ti_done q I)].
  - intros c. rewrite CL, (ti_closed q I). split.
    + intros [(y & E & F)|[-> F]].
      * destruct (update_lookup_old _ _ _ p _ _ L E) as (x & Ex & _ & [(-> & -> & ->)|[_ ->]]); eauto.
      * destruct (update_lookup_old _ _ _ p _ _ L L) as (x & Ex & _ & [(_ & -> & _)|[N _]]); [eauto|done].
    + intros (x & [[-> ->]|[_ E]]%(update_lookup _ _ _ _ _ _ L) & F); [by right|left; eauto].
  - intros j x Hx. assert (W : match t_wait x with
      | None => forall i0 s, (i0 < j)%nat -> q_turns q !! i0 = Some s -> t_key s = t_key x -> t_phase s = Released
      | Some c => (c < j)%nat /\ (exists s, q_turns q !! c = Some s /\ t_key s = t_key x) /\
                forall i0 s, (i0 < j)%nat -> q_turns q !! i0 = Some s -> t_key s = t_key x -> (i0 <= c)%nat end).
    { apply (update_lookup _ _ _ _ _ _ L) in Hx as [[-> ->]|[_ Hx]]; [apply (ti_wait q I i t L)|apply (ti_wait q I j x Hx)]. }
    destruct (t_wait x) as [c|].
    + destruct W as (C & (s & Es & K) & W). split; [done|]. split.
      * destruct (update_lookup_old _ _ _ p _ _ L Es) as (s' & Es' & K' & _). exists s'. split; [done|congruence].
      * intros i0 s0 Hi [[-> ->]|[_ E]]%(update_lookup _ _ _ _ _ _ L) K0; by eapply W.
    + intros i0 s0 Hi [[-> ->]|[_ E]]%(update_lookup _ _ _ _ _ _ L) K0; [|by eapply W].
      destruct NR. by apply (W i t).
  - intros k. assert (OLD : match q_tails q !! k with
      | None => forall i0 s, <[i := set_phase p t]> (q_turns q) !! i0 = Some s -> t_key s = k -> t_phase s = Released
      | Some c => (exists s, <[i := set_phase p t]> (q_turns q) !! c = Some s /\ t_key s = k) /\
          forall i0 s, <[i := set_phase p t]> (q_turns q) !! i0 = Some s -> t_key s = k -> (i0 <= c)%nat end).
    { pose proof (ti_tail q I k) as T. destruct (q_tails q !! k) as [c|].
      - destruct T as ((s & Es & K) & T). split.
        + destruct (update_lookup_old _ _ _ p _ _ L Es) as (s' & Es' & K' & _). exists s'. split; [done|congruence].
        + intros i0 s0 [[-> ->]|[_ E]]%(update_lookup _ _ _ _ _ _ L) K0; by eapply T.
      - intros i0 s0 [[-> ->]|[_ E]]%(update_lookup _ _ _ _ _ _ L) K0; [|by eapply T]. destruct NR. by apply (T i t). }
    destruct TL as [->|(-> & -> & AR)]; [done|]. destruct (decide (k = t_key t)) as [->|N].
    + rewrite lookup_delete_eq. intros i0 s0 [[-> ->]|[N0 E]]%(update_lookup _ _ _ _ _ _ L) K0; [done|by eapply AR].
    + by rewrite lookup_delete_ne.
  - done.
  - intros a b s x Hab Es Ex K P.
    assert (OLD : forall y, q_turns q !! a = Some y -> t_key y = t_key x -> finished (t_phase y) = true).
    { intros y Ey Ky. apply (update_lookup _ _ _ _ _ _ L) in Ex as [[-> ->]|[_ Ex]].
      - by eapply OR.
      - by apply (ti_order q I a b y x). }
    apply (update_lookup _ _ _ _ _ _ L) in Es as [[-> ->]|[_ Es]]; [|by apply OLD].
    cbn [t_phase set_phase]. apply FM. by apply (OLD t).
Qed.

(** ** The steps *)

Lemma live_count_zero k l : live_count k l = 0 -> forall i s, l !! i = Some s -> t_key s = k -> t_phase s = Released.
Proof.
  intros Z i s E K. destruct (decide (t_phase s = Released)) as [|N]; [done|]. exfalso.
  assert (In : s ∈ filter (live k) l) by (apply list_elem_of_filter; split; [done|by eapply list_elem_of_lookup_2]).
  unfold live_count in Z. destruct (filter (live k) l); [by apply not_elem_of_nil in In|simpl in Z; lia].
Qed.

Lemma live_count_same k l i t p :
  l !! i = Some t -> t_phase t <> Released -> p <> Released ->
  live_count k (<[i := set_phase p t]> l) = live_count k l.
Proof.
  intros L N1 N2. rewrite (live_count_update k l i t p L). unfold live. cbn [t_key t_phase set_phase].
  repeat case_decide; tauto || lia.
Qed.

(** A turn that may start has only finished turns of its key before it. *)
Lemma may_start_order q i t :
  turns_inv q -> q_turns q !! i = Some t -> may_start q t = true ->
  forall j s, (j < i)%nat -> q_turns q !! j = Some s -> t_key s = t_key t -> finished (t_phase s) = true.
Proof.
  intros I L M j s Hj E K. pose proof (ti_wait q I i t L) as W. unfold may_start in M. destruct (t_wait t) as [c|].
  - destruct W as (C & (y & Ey & Ky) & W). apply bool_decide_eq_true, (ti_closed q I) in M as (y' & Ey' & F).
    assert (y' = y) as -> by congruence. pose proof (W j s Hj E K). destruct (decide (j = c)) as [->|Nj].
    + by assert (s = y) as -> by congruence.
    + apply (ti_order q I j c s y); [lia|done|done|congruence|]. intros P. by rewrite P in F.
  - by rewrite (W j s Hj E K).
Qed.

Lemma started_order q i t :
  turns_inv q -> q_turns q !! i = Some t -> t_phase t <> Waiting ->
  forall j s, (j < i)%nat -> q_turns q !! j = Some s -> t_key s = t_key t -> finished (t_phase s) = true.
Proof. intros I L N j s Hj E K. by apply (ti_order q I j i s t). Qed.

Lemma start_inv q i t :
  turns_inv q -> q_turns q !! i = Some t -> t_phase t = Waiting -> may_start q t = true -> turns_inv (start_turn i t q).
Proof.
  intros I L P M. apply phase_update_inv; try done; rewrite ?P; try done.
  - by apply may_start_order.
  - intros c. simpl. naive_solver.
  - by left.
  - intros k. rewrite live_count_same by (done || congruence). apply (ti_refs q I).
Qed.

Lemma close_inv q i t :
  turns_inv q -> q_turns q !! i = Some t -> t_phase t = Running -> turns_inv (close_turn i t q).
Proof.
  intros I L P. apply phase_update_inv; try done; rewrite ?P; try done.
  - by apply started_order; [..|rewrite P].
  - intros c. rewrite elem_of_union, elem_of_singleton, (ti_done q I i t L). simpl. naive_solver.
  - by left.
  - intros k. rewrite live_count_same by (done || congruence). apply (ti_refs q I).
Qed.

(** Releasing a turn takes one off its key's count. *)
Lemma release_refs q i t k :
  turns_inv q -> q_turns q !! i = Some t -> t_phase t = Closed ->
  default 0 (q_refs (release_turn i t q) !! k) = live_count k (q_turns (release_turn i t q)).
Proof.
  intros I L P. cbn [release_turn q_refs q_turns]. rewrite (live_count_update k _ i t Released L).
  rewrite <- (ti_refs q I), (decide_False (P := live k (set_phase Released t))) by (unfold live; simpl; tauto).
  destruct (decide (t_key t = k)) as [<-|N].
  - rewrite decide_True by (split; [done|by rewrite P]).
    case_match eqn:Z; [rewrite lookup_delete_eq; simpl; apply Z.eqb_eq in Z; lia|]. rewrite lookup_insert_eq. simpl. lia.
  - rewrite decide_False by (unfold live; tauto).
    case_match; [rewrite lookup_delete_ne by done|rewrite lookup_insert_ne by done]; lia.
Qed.

Lemma release_inv q i t :
  turns_inv q -> q_turns q !! i = Some t -> t_phase t = Closed -> turns_inv (release_turn i t q).
Proof.
  intros I L P. apply phase_update_inv; try done; rewrite ?P; try done.
  - by apply started_order; [..|rewrite P].
  - intros c. split; [by left|]. intros [?|[-> _]]; [done|]. apply (ti_closed q I). exists t. by rewrite P.
  - destruct (_ && _) eqn:B; [right|by left]. split; [done|]. split; [done|]. intros j s N E K.
    apply andb_true_iff in B as [B _]. apply (live_count_zero (t_key t) (<[i := set_phase Released t]> (q_turns q))) with (i := j); [|by rewrite list_lookup_insert_ne|done].
    pose proof (release_refs q i t (t_key t) I L P) as R. cbn [release_turn q_refs q_turns] in R.
    rewrite B, lookup_delete_eq in R. by symmetry.
  - intros k. apply (release_refs q i t k I L P).
Qed.

Lemma advance_inv q q' : advance q q' -> turns_inv q -> turns_inv q'.
Proof. intros [] I; [by apply start_inv|by apply close_inv|by apply release_inv]. Qed.
Lemma turn_step_inv q q' : turn_step q q' -> turns_inv q -> turns_inv q'.
Proof. intros [] I; [by apply enqueue_inv|by eapply advance_inv]. Qed.
Lemma reachable_turns_inv q : turns_reachable q -> turns_inv q.
Proof.
  assert (P : forall q0, rtc turn_step q0 q -> turns_inv q0 -> turns_inv q).
  { intros q0 R. induction R; eauto using turn_step_inv. }
  intros R. apply (P no_turns R no_turns_inv).
Qed.

(** * Order, progress, bookkeeping *)

(** The steps a turn has left. *)
Definition phase_work (p : phase) : nat := match p with Waiting => 3 | Running => 2 | Closed => 1 | Released => 0 end.
Fixpoint work (l : list turn) : nat :=
  match l with [] => 0%nat | t :: rest => (phase_work (t_phase t) + work rest)%nat end.

Lemma work_update l i t p :
  l !! i = Some t -> (work (<[i := set_phase p t]> l) + phase_work (t_phase t) = work l + phase_work p)%nat.
Proof.
  revert i. induction l as [|x l IH]; intros [|i] E; simplify_eq/=; [lia|]. specialize (IH i E). lia.
Qed.
Lemma advance_work q q' : advance q q' -> work (q_turns q) = S (work (q_turns q')).
Proof.
  intros [i t q0 L P _|i t q0 L P|i t q0 L P]; cbn [start_turn close_turn release_turn q_turns];
    match goal with |- context [set_phase ?p _] => pose proof (work_update _ _ _ p L) as W end;
    rewrite P in W; simpl in W; lia.
Qed.

Definition all_released (q : turns) : Prop := Forall (fun t => t_phase t = Released) (q_turns q).
#[global] Instance all_released_dec q : Decision (all_released q).
Proof. unfold all_released. apply _. Defined.

(** The first turn that is not released can always move. *)
Lemma first_unreleased (l : list turn) :
  ~ Forall (fun t => t_phase t = Released) l ->
  exists i t, l !! i = Some t /\ t_phase t <> Released /\ forall j s, (j < i)%nat -> l !! j = Some s -> t_phase s = Released.
Proof.
  induction l as [|x l IH]; intros N; [by destruct N|]. destruct (decide (t_phase x = Released)) as [R|R].
  - destruct IH as (i & t & E & P & B); [intros F; destruct N; by constructor|]. exists (S i), t.
    split; [done|]. split; [done|]. intros [|j] s Hj Es; simpl in Es; [congruence|]. apply (B j s); [lia|done].
  - exists 0%nat, x. split; [done|]. split; [done|]. intros; lia.
Qed.
Lemma unreleased_can_advance q : turns_inv q -> ~ all_released q -> exists q', advance q q'.
Proof.
  intros I N. destruct (first_unreleased _ N) as (i & t & E & P & B). destruct (t_phase t) eqn:T; [| | |done].
  - exists (start_turn i t q). constructor; [done|done|]. pose proof (ti_wait q I i t E) as W. unfold may_start.
    destruct (t_wait t) as [c|]; [|done]. destruct W as (C & (s & Es & _) & _). apply bool_decide_eq_true.
    apply (ti_closed q I). exists s. split; [done|]. by rewrite (B c s C Es).
  - exists (close_turn i t q). by constructor.
  - exists (release_turn i t q). by constructor.
Qed.

Lemma all_released_refs q k : turns_inv q -> all_released q -> default 0 (q_refs q !! k) = 0.
Proof.
  intros I A. rewrite (ti_refs q I). unfold live_count. induction A as [|x l R A IH]; [done|].
  rewrite filter_cons_False; [done|]. by intros [_ ?].
Qed.

(** ** A schedule *)

Definition run_start (i : nat) (q : turns) : turns := from_option (fun t => start_turn i t q) q (q_turns q !! i).
Definition run_close (i : nat) (q : turns) : turns := from_option (fun t => close_turn i t q) q (q_turns q !! i).
Definition run_release (i : nat) (q : turns) : turns := from_option (fun t => release_turn i t q) q (q_turns q !! i).

Section Schedule.
Context (pid : Z) (req : ScmpNotifReq).
Definition two_queued : turns := enqueueNotificationTurn pid req (enqueueNotificationTurn pid req no_turns).
Definition second_running : turns := run_start 1 (run_close 0 (run_start 0 two_queued)).
Definition late_release : turns := run_release 0 (run_release 1 (run_close 1 second_running)).
End Schedule.

Definition some_req : ScmpNotifReq := {| rq_ID := 1; rq_Pid := 7; rq_Syscall := 0; rq_Args := [] |}.

Lemma second_running_reachable : turns_reachable (second_running 7 some_req).
Proof.
  unfold second_running, two_queued.
  eapply rtc_l; [apply (step_enqueue 7 some_req)|]. eapply rtc_l; [apply (step_enqueue 7 some_req)|].
  eapply rtc_l; [apply step_advance, (step_start 0); by vm_compute|].
  eapply rtc_l; [apply step_advance, (step_close 0); by vm_compute|].
  eapply rtc_l; [apply step_advance, (step_start 1); by vm_compute|]. apply rtc_refl.
Qed.

(** C16. Notifications of one process are handled one at a time and in the order
    of their arrival, whatever the goroutines' interleaving: no two turns of a
    key run together, and once a turn has started, every earlier turn of its key
    has closed its channel. *)
Theorem turns_fifo_exclusive (q : turns) :
  turns_reachable q ->
  (forall i j s t, q_turns q !! i = Some s -> q_turns q !! j = Some t -> t_key s = t_key t ->
     t_phase s = Running -> t_phase t = Running -> i = j) /\
  (forall i j s t, (i < j)%nat -> q_turns q !! i = Some s -> q_turns q !! j = Some t -> t_key s = t_key t ->
     t_phase t <> Waiting -> finished (t_phase s) = true).
Proof.
  intros I%reachable_turns_inv. split; [|apply (ti_order q I)].
  intros i j s t Es Et K Rs Rt. destruct (decide (i = j)) as [|N]; [done|].
  destruct (decide (i < j)%nat) as [H|H].
  - assert (F : finished (t_phase s) = true) by (apply (ti_order q I i j s t); by rewrite ?Rt). by rewrite Rs in F.
  - assert (F : finished (t_phase t) = true) by (apply (ti_order q I j i t s); [lia|done..|by rewrite Rs]). by rewrite Rt in F.
Qed.
(** With two turns queued and the second one running, the first has closed its channel. *)
Lemma turns_fifo_exclusive_witness :
  exists s, q_turns (second_running 7 some_req) !! 0%nat = Some s /\ finished (t_phase s) = true.
Proof.
  eexists. split; [reflexivity|].
  eapply (proj2 (turns_fifo_exclusive _ second_running_reachable) 0%nat 1%nat);
    [apply le_n|reflexivity|reflexivity|reflexivity|discriminate].
Defined.

(** C17. No notification is stuck behind another: from a reachable state, the
    turns that were started never deadlock, finish in exactly [work] steps
    whatever the schedule, and when they have, no key counts a turn any more. *)
Theorem turns_drain (q q' : turns) (n : nat) :
  turns_reachable q -> nsteps advance n q q' ->
  (n + work (q_turns q') = work (q_turns q))%nat /\
  (~ all_released q' -> exists q'', advance q' q'') /\
  (all_released q' -> forall k, default 0 (q_refs q' !! k) = 0).
Proof.
  intros I%reachable_turns_inv S. induction S as [q|n q q1 q' A S IH].
  - split; [done|]. split; [by apply unreleased_can_advance|]. intros R k. by apply all_released_refs.
  - destruct (IH (advance_inv _ _ A I)) as [W [P R]]. apply advance_work in A. split; [lia|done].
Qed.
(** The running second turn needs two steps, and the first one more. *)
Lemma turns_drain_witness :
  exists q', nsteps advance 0 (second_running 7 some_req) q' /\ work (q_turns q') = 3%nat /\ exists q'', advance q' q''.
Proof.
  exists (second_running 7 some_req). split; [constructor|]. split; [reflexivity|].
  apply (turns_drain _ _ 0 second_running_reachable (nsteps_O _ _)). intros A.
  inversion A as [|? ? R ?]. discriminate R.
Defined.

(** When the bookkeeping of two turns is done in the other order, the last turn
    sees a count that is not zero and the first one a tail that is not its own:
    the process' entry stays in [notifyQueueTails] with nothing left to do. *)
Lemma turns_tail_left_behind :
  exists q, turns_reachable q /\ all_released q /\ q_refs q = ∅ /\
            q_tails q !! notificationOpKey 7 some_req = Some 1%nat.
Proof.
  exists (late_release 7 some_req). split.
  - unfold turns_reachable; etrans; [apply second_running_reachable|]. unfold late_release.
    eapply rtc_l; [apply step_advance, (step_close 1); by vm_compute|].
    eapply rtc_l; [apply step_advance, (step_release 1); by vm_compute|].
    eapply rtc_l; [apply step_advance, (step_release 0); by vm_compute|]. apply rtc_refl.
  - split; [by repeat constructor|]. split; by vm_compute.
Qed.
