(* ===== verification/Access.v ===== *)
(** Access events and their accounting: [accesslog.go] and [accesssummary.go].

    A sandbox's audit state holds three tables, by host (twice) and by request.
    The entries of the Go maps are pointers that never leave them (snapshots
    copy), so they are values here. A time is an instant in Z; 0 is the zero
    [time.Time]. *)
From S2P Require Import Prelude GoStrings GoNet Policy.

Definition PolicyModeEnforce : string := "enforce".
Definition PolicyModeAudit : string := "audit".
Definition TrafficModeProxy : string := "proxy".
Definition TrafficModeTransparent : string := "transparent".

Definition normalizePolicyMode `{GoLib} (mode : string) : result string :=
  if bool_decide (mode = "") then Ok PolicyModeEnforce
  else if bool_decide (mode = PolicyModeEnforce) || bool_decide (mode = PolicyModeAudit) then Ok mode
  else Err ("invalid policy mode " +:+ Quote mode).
Definition normalizedPolicyModeOrDefault `{GoLib} (mode : string) : string :=
  match normalizePolicyMode mode with
  | Err _ => PolicyModeEnforce
  | Ok normalized => normalized
  end.
Definition normalizeTrafficMode `{GoLib} (mode : string) : string :=
  let normalized := ToLower (TrimSpace mode) in
  if bool_decide (normalized = "") then TrafficModeProxy else normalized.

(** * Events *)

Record accessEvent := {
  ev_Time : Z;
  ev_SandboxID : string;
  ev_TrafficMode : string;
  ev_Kind : string;
  ev_Protocol : string;
  ev_ProtocolSource : string;
  ev_ProtocolConfidence : string;
  ev_Host : string;
  ev_Port : Z;
  ev_Method : string;
  ev_Path : string;
  ev_Allowed : bool;
  ev_StatusCode : Z;
  ev_Result : string;
  ev_Error : string;
  ev_PolicyMode : string;
  ev_PolicyAllowed : bool;
  ev_PolicyViolations : list string;
}.

(** [AccessLogEntry] has the same fields; its violations are a copy. *)
Definition AccessLogEntry : Type := accessEvent.
Definition toAccessLogEntry (e : accessEvent) : AccessLogEntry := e.

Definition event_base (sandboxID kind : string) (protocol : string * string * string)
    (host : string) (port : Z) (method path : string) : accessEvent := {|
  ev_Time := 0; ev_SandboxID := sandboxID; ev_TrafficMode := ""; ev_Kind := kind;
  ev_Protocol := protocol.1.1; ev_ProtocolSource := protocol.1.2; ev_ProtocolConfidence := protocol.2;
  ev_Host := host; ev_Port := port; ev_Method := method; ev_Path := path;
  ev_Allowed := false; ev_StatusCode := 0; ev_Result := ""; ev_Error := "";
  ev_PolicyMode := ""; ev_PolicyAllowed := false; ev_PolicyViolations := [] |}.
(** [event.Allowed = a; event.StatusCode = c; event.Result = r; event.Error = e] *)
Definition event_outcome (allowed : bool) (status : Z) (res err : string) (e : accessEvent) : accessEvent := {|
  ev_Time := ev_Time e; ev_SandboxID := ev_SandboxID e; ev_TrafficMode := ev_TrafficMode e; ev_Kind := ev_Kind e;
  ev_Protocol := ev_Protocol e; ev_ProtocolSource := ev_ProtocolSource e;
  ev_ProtocolConfidence := ev_ProtocolConfidence e;
  ev_Host := ev_Host e; ev_Port := ev_Port e; ev_Method := ev_Method e; ev_Path := ev_Path e;
  ev_Allowed := allowed; ev_StatusCode := status; ev_Result := res; ev_Error := err;
  ev_PolicyMode := ev_PolicyMode e; ev_PolicyAllowed := ev_PolicyAllowed e;
  ev_PolicyViolations := ev_PolicyViolations e |}.
Definition event_stamp (time : Z) (mode : string) (e : accessEvent) : accessEvent := {|
  ev_Time := time; ev_SandboxID := ev_SandboxID e; ev_TrafficMode := mode; ev_Kind := ev_Kind e;
  ev_Protocol := ev_Protocol e; ev_ProtocolSource := ev_ProtocolSource e;
  ev_ProtocolConfidence := ev_ProtocolConfidence e;
  ev_Host := ev_Host e; ev_Port := ev_Port e; ev_Method := ev_Method e; ev_Path := ev_Path e;
  ev_Allowed := ev_Allowed e; ev_StatusCode := ev_StatusCode e; ev_Result := ev_Result e; ev_Error := ev_Error e;
  ev_PolicyMode := ev_PolicyMode e; ev_PolicyAllowed := ev_PolicyAllowed e;
  ev_PolicyViolations := ev_PolicyViolations e |}.

Definition eventWithPolicyMetadata `{GoLib} (event : accessEvent) (mode : string) (eval : policyEvaluation)
    : accessEvent := {|
  ev_Time := ev_Time event; ev_SandboxID := ev_SandboxID event; ev_TrafficMode := ev_TrafficMode event;
  ev_Kind := ev_Kind event; ev_Protocol := ev_Protocol event; ev_ProtocolSource := ev_ProtocolSource event;
  ev_ProtocolConfidence := ev_ProtocolConfidence event;
  ev_Host := ev_Host event; ev_Port := ev_Port event; ev_Method := ev_Method event; ev_Path := ev_Path event;
  ev_Allowed := ev_Allowed event; ev_StatusCode := ev_StatusCode event; ev_Result := ev_Result event;
  ev_Error := ev_Error event;
  ev_PolicyMode := normalizedPolicyModeOrDefault mode; ev_PolicyAllowed := Allowed eval;
  ev_PolicyViolations := Reasons eval |}.

Definition normalizeHostPort `{GoLib} (host : string) (port : Z) : string * Z :=
  let trimmed := TrimSpace host in
  if bool_decide (trimmed = "") then ("", port)
  else
    match SplitHostPort trimmed with
    | Ok (splitHost, splitPort) => (ToLower splitHost, default port (Atoi splitPort))
    | Err _ => (ToLower trimmed, port)
    end.

(** The host and port an event is accounted under. *)
Definition event_host `{GoLib} (event : accessEvent) : string * Z :=
  let '(host, port) := normalizeHostPort (ev_Host event) (ev_Port event) in
  (if bool_decide (host = "") then ToLower (ev_Host event) else host, port).

(** * The tables *)

Record AccessedDomain := {
  ad_Host : string;
  ad_TrafficMode : string;
  ad_Attempts : Z;
  ad_LastResult : string;
  ad_LastError : string;
  ad_LastSeenAt : Z;
  ad_LastPort : Z;
  ad_ConnectSeen : bool;
  ad_HTTPSeen : bool;
  ad_MITMSeen : bool;
}.
Record AccessedHostSummary := {
  hs_Host : string;
  hs_TrafficMode : string;
  hs_Attempts : Z;
  hs_LastResult : string;
  hs_LastError : string;
  hs_LastSeenAt : Z;
  hs_LastPort : Z;
  hs_ConnectSeen : bool;
  hs_HTTPSeen : bool;
  hs_MITMSeen : bool;
  hs_DNSSeen : bool;
  hs_PolicyViolations : Z;
  hs_PolicyAllowedCount : Z;
  hs_PolicyDeniedCount : Z;
}.
Record RequestAggregate := {
  ra_Kind : string;
  ra_Host : string;
  ra_Port : Z;
  ra_Method : string;
  ra_Path : string;
  ra_Attempts : Z;
  ra_AllowedCount : Z;
  ra_DeniedCount : Z;
  ra_PolicyAllowedCount : Z;
  ra_PolicyDeniedCount : Z;
  ra_LastSeenAt : Z;
  ra_LastStatusCode : Z;
  ra_LastError : string;
}.
Record sandboxAuditState := {
  as_domains : gmap string AccessedDomain;
  as_hosts : gmap string AccessedHostSummary;
  as_requests : gmap string RequestAggregate;
}.
Definition newSandboxAuditState : sandboxAuditState := {| as_domains := ∅; as_hosts := ∅; as_requests := ∅ |}.

Definition is_kind (e : accessEvent) (kind : string) : bool := bool_decide (ev_Kind e = kind).
Definition bump (b : bool) (n : Z) : Z := if b then n + 1 else n.

Section record.
Context `{GoLib}.

Definition new_domain (host : string) : AccessedDomain := {|
  ad_Host := host; ad_TrafficMode := ""; ad_Attempts := 0; ad_LastResult := ""; ad_LastError := "";
  ad_LastSeenAt := 0; ad_LastPort := 0; ad_ConnectSeen := false; ad_HTTPSeen := false; ad_MITMSeen := false |}.
Definition recordAccessedDomain (event : accessEvent) (state : gmap string AccessedDomain)
    : gmap string AccessedDomain :=
  let '(host, port) := event_host event in
  let entry := default (new_domain host) (state !! host) in
  <[host := {|
      ad_Host := ad_Host entry;
      ad_TrafficMode := normalizeTrafficMode (ev_TrafficMode event);
      ad_Attempts := ad_Attempts entry + 1;
      ad_LastResult := ev_Result event; ad_LastError := ev_Error event;
      ad_LastSeenAt := ev_Time event; ad_LastPort := port;
      ad_ConnectSeen := is_kind event "connect" || ad_ConnectSeen entry;
      ad_HTTPSeen := is_kind event "http" || ad_HTTPSeen entry;
      ad_MITMSeen := is_kind event "mitm" || ad_MITMSeen entry |}]> state.

Definition new_host_summary (host : string) : AccessedHostSummary := {|
  hs_Host := host; hs_TrafficMode := ""; hs_Attempts := 0; hs_LastResult := ""; hs_LastError := "";
  hs_LastSeenAt := 0; hs_LastPort := 0; hs_ConnectSeen := false; hs_HTTPSeen := false; hs_MITMSeen := false;
  hs_DNSSeen := false; hs_PolicyViolations := 0; hs_PolicyAllowedCount := 0; hs_PolicyDeniedCount := 0 |}.
Definition recordHostSummaryAggregate (event : accessEvent) (state : gmap string AccessedHostSummary)
    : gmap string AccessedHostSummary :=
  let '(host, port) := event_host event in
  let entry := default (new_host_summary host) (state !! host) in
  <[host := {|
      hs_Host := hs_Host entry;
      hs_TrafficMode := normalizeTrafficMode (ev_TrafficMode event);
      hs_Attempts := hs_Attempts entry + 1;
      hs_LastResult := ev_Result event; hs_LastError := ev_Error event;
      hs_LastSeenAt := ev_Time event; hs_LastPort := port;
      hs_ConnectSeen := is_kind event "connect" || is_kind event "transparent_connect" || hs_ConnectSeen entry;
      hs_HTTPSeen := is_kind event "http" || hs_HTTPSeen entry;
      hs_MITMSeen := is_kind event "mitm" || hs_MITMSeen entry;
      hs_DNSSeen := is_kind event "dns" || hs_DNSSeen entry;
      hs_PolicyViolations := hs_PolicyViolations entry + Z.of_nat (length (ev_PolicyViolations event));
      hs_PolicyAllowedCount := bump (ev_PolicyAllowed event) (hs_PolicyAllowedCount entry);
      hs_PolicyDeniedCount := bump (negb (ev_PolicyAllowed event)) (hs_PolicyDeniedCount entry) |}]> state.

(** The separator is the NUL byte. *)
Definition requestAggregateKey (kind host : string) (port : Z) (method path : string) : string :=
  Join [kind; host; Itoa port; method; path] (str1 0).

Definition new_aggregate (event : accessEvent) (host : string) (port : Z) : RequestAggregate := {|
  ra_Kind := ev_Kind event; ra_Host := host; ra_Port := port; ra_Method := ev_Method event;
  ra_Path := ev_Path event; ra_Attempts := 0; ra_AllowedCount := 0; ra_DeniedCount := 0;
  ra_PolicyAllowedCount := 0; ra_PolicyDeniedCount := 0; ra_LastSeenAt := 0; ra_LastStatusCode := 0;
  ra_LastError := "" |}.
Definition event_key (event : accessEvent) : string :=
  requestAggregateKey (ev_Kind event) (event_host event).1 (event_host event).2 (ev_Method event) (ev_Path event).
Definition recordRequestAggregate (event : accessEvent) (state : gmap string RequestAggregate)
    : gmap string RequestAggregate :=
  let '(host, port) := event_host event in
  let key := requestAggregateKey (ev_Kind event) host port (ev_Method event) (ev_Path event) in
  let entry := default (new_aggregate event host port) (state !! key) in
  <[key := {|
      ra_Kind := ra_Kind entry; ra_Host := ra_Host entry; ra_Port := ra_Port entry;
      ra_Method := ra_Method entry; ra_Path := ra_Path entry;
      ra_Attempts := ra_Attempts entry + 1;
      ra_AllowedCount := bump (ev_Allowed event) (ra_AllowedCount entry);
      ra_DeniedCount := bump (negb (ev_Allowed event)) (ra_DeniedCount entry);
      ra_PolicyAllowedCount := bump (ev_PolicyAllowed event) (ra_PolicyAllowedCount entry);
      ra_PolicyDeniedCount := bump (negb (ev_PolicyAllowed event)) (ra_PolicyDeniedCount entry);
      ra_LastSeenAt := ev_Time event; ra_LastStatusCode := ev_StatusCode event;
      ra_LastError := ev_Error event |}]> state.

Definition record_event (event : accessEvent) (s : sandboxAuditState) : sandboxAuditState := {|
  as_domains := recordAccessedDomain event (as_domains s);
  as_hosts := recordHostSummaryAggregate event (as_hosts s);
  as_requests := recordRequestAggregate event (as_requests s) |}.

Definition updateAuditStateLocked (event : accessEvent) (state : gmap string sandboxAuditState)
    : gmap string sandboxAuditState :=
  if bool_decide (ev_SandboxID event = "") then state
  else <[ev_SandboxID event := record_event event (default newSandboxAuditState (state !! ev_SandboxID event))]> state.
End record.

(** * Snapshots *)

(** Go's string order: bytewise. *)
Fixpoint string_le (a b : string) : bool :=
  match a, b with
  | EmptyString, _ => true
  | String _ _, EmptyString => false
  | String c a, String d b =>
      (byte_of c <? byte_of d) || ((byte_of c =? byte_of d) && string_le a b)
  end.
(** Lexicographic combination, as in the comparison functions of the sorts. *)
Definition lex {A} `{EqDecision A} (a b : A) (le : bool) (rest : bool) : bool :=
  if decide (a = b) then rest else le.

Definition host_summary_le (l r : AccessedHostSummary) : Prop := string_le (hs_Host l) (hs_Host r) = true.
Definition aggregate_le (l r : RequestAggregate) : Prop :=
  lex (ra_Kind l) (ra_Kind r) (string_le (ra_Kind l) (ra_Kind r))
  (lex (ra_Host l) (ra_Host r) (string_le (ra_Host l) (ra_Host r))
  (lex (ra_Port l) (ra_Port r) (ra_Port l <=? ra_Port r)
  (lex (ra_Method l) (ra_Method r) (string_le (ra_Method l) (ra_Method r))
  (string_le (ra_Path l) (ra_Path r))))) = true.
#[global] Instance host_summary_le_dec l r : Decision (host_summary_le l r).
Proof. unfold host_summary_le. apply _. Defined.
#[global] Instance aggregate_le_dec l r : Decision (aggregate_le l r).
Proof. unfold aggregate_le. apply _. Defined.

Definition snapshotAccessedDomains (state : gmap string AccessedDomain) : list AccessedDomain :=
  (map_to_list state).*2.
Definition snapshotHostSummaries (state : gmap string AccessedHostSummary) : list AccessedHostSummary :=
  merge_sort host_summary_le (map_to_list state).*2.
Definition snapshotRequestAggregates (state : gmap string RequestAggregate) : list RequestAggregate :=
  merge_sort aggregate_le (map_to_list state).*2.

Record AccessSummary := { sum_Hosts : list AccessedHostSummary; sum_Requests : list RequestAggregate }.
