(* ===== verification/AccessProofs.v ===== *)
(** The accounting is exact: each table is a grouping of the recorded events. *)
From S2P Require Import Prelude GoStrings GoNet Policy Access.

(** ** Grouped folds *)

Section grouping.
Context {E V : Type} (key : E -> string) (init : E -> V) (f : E -> V -> V).

Definition group_update (m : gmap string V) (e : E) : gmap string V :=
  <[key e := f e (default (init e) (m !! key e))]> m.
Definition group_value (es : list E) : option V :=
  match es with
  | [] => None
  | e :: es => Some (foldl (fun v e => f e v) (f e (init e)) es)
  end.

Lemma group_value_snoc es e :
  group_value (es ++ [e]) = Some (f e (default (init e) (group_value es))).
Proof. destruct es; simpl; [done|]. by rewrite foldl_snoc. Qed.

(** The entry of a key is computed from the events of that key alone, in order. *)
Lemma group_fold es k :
  foldl group_update ∅ es !! k = group_value (filter (fun e => key e = k) es).
Proof.
  induction es as [|e es IH] using rev_ind; [done|].
  rewrite foldl_snoc, filter_app. unfold group_update at 1. simpl.
  rewrite filter_cons. destruct (decide (key e = k)) as [<-|N].
  - rewrite lookup_insert_eq, IH. change (filter _ []) with (@nil E). by rewrite group_value_snoc.
  - rewrite lookup_insert_ne by done. change (filter _ []) with (@nil E). by rewrite app_nil_r.
Qed.

(** A property of the value and the events seen so far, kept by [f]. *)
Lemma group_value_ind (P : list E -> V -> Prop) es v :
  (forall e, P [e] (f e (init e))) -> (forall es e v, P es v -> P (es ++ [e]) (f e v)) ->
  group_value es = Some v -> P es v.
Proof.
  intros P1 PS. revert v. induction es as [|e es IH] using rev_ind; intros v; [done|].
  rewrite group_value_snoc. intros [= <-]. destruct es as [|e0 es]; [apply P1|].
  simpl. apply (PS (e0 :: es)). by apply IH.
Qed.
End grouping.

Section accounting.
Context `{GoLib}.

Definition record_all (evs : list accessEvent) : sandboxAuditState :=
  foldl (fun s e => record_event e s) newSandboxAuditState evs.

Definition host_key (e : accessEvent) : string := (event_host e).1.
Definition count (p : accessEvent -> bool) (evs : list accessEvent) : Z :=
  Z.of_nat (length (filter (fun e => p e = true) evs)).
Definition violations (evs : list accessEvent) : Z :=
  foldr (fun e n => Z.of_nat (length (ev_PolicyViolations e)) + n) 0 evs.

Lemma count_snoc p evs e : count p (evs ++ [e]) = bump (p e) (count p evs).
Proof.
  unfold count, bump. rewrite filter_app, length_app, filter_cons. change (filter _ []) with (@nil accessEvent).
  destruct (p e); simpl; lia.
Qed.
Lemma count_nil p : count p [] = 0.
Proof. done. Qed.
Lemma violations_snoc evs e : violations (evs ++ [e]) = violations evs + Z.of_nat (length (ev_PolicyViolations e)).
Proof. induction evs; simpl; lia. Qed.
Lemma existsb_snoc {A} (p : A -> bool) l x : existsb p (l ++ [x]) = p x || existsb p l.
Proof. rewrite existsb_app. simpl. rewrite orb_false_r. apply orb_comm. Qed.

(** One entry's step, as a function of the event and the old entry. *)
Definition host_step (e : accessEvent) (x : AccessedHostSummary) : AccessedHostSummary := {|
  hs_Host := hs_Host x; hs_TrafficMode := normalizeTrafficMode (ev_TrafficMode e);
  hs_Attempts := hs_Attempts x + 1; hs_LastResult := ev_Result e; hs_LastError := ev_Error e;
  hs_LastSeenAt := ev_Time e; hs_LastPort := (event_host e).2;
  hs_ConnectSeen := is_kind e "connect" || is_kind e "transparent_connect" || hs_ConnectSeen x;
  hs_HTTPSeen := is_kind e "http" || hs_HTTPSeen x; hs_MITMSeen := is_kind e "mitm" || hs_MITMSeen x;
  hs_DNSSeen := is_kind e "dns" || hs_DNSSeen x;
  hs_PolicyViolations := hs_PolicyViolations x + Z.of_nat (length (ev_PolicyViolations e));
  hs_PolicyAllowedCount := bump (ev_PolicyAllowed e) (hs_PolicyAllowedCount x);
  hs_PolicyDeniedCount := bump (negb (ev_PolicyAllowed e)) (hs_PolicyDeniedCount x) |}.
Definition aggregate_step (e : accessEvent) (x : RequestAggregate) : RequestAggregate := {|
  ra_Kind := ra_Kind x; ra_Host := ra_Host x; ra_Port := ra_Port x; ra_Method := ra_Method x; ra_Path := ra_Path x;
  ra_Attempts := ra_Attempts x + 1;
  ra_AllowedCount := bump (ev_Allowed e) (ra_AllowedCount x);
  ra_DeniedCount := bump (negb (ev_Allowed e)) (ra_DeniedCount x);
  ra_PolicyAllowedCount := bump (ev_PolicyAllowed e) (ra_PolicyAllowedCount x);
  ra_PolicyDeniedCount := bump (negb (ev_PolicyAllowed e)) (ra_PolicyDeniedCount x);
  ra_LastSeenAt := ev_Time e; ra_LastStatusCode := ev_StatusCode e; ra_LastError := ev_Error e |}.

Lemma recordHostSummaryAggregate_group e m :
  recordHostSummaryAggregate e m = group_update host_key (fun e => new_host_summary (host_key e)) host_step m e.
Proof. unfold recordHostSummaryAggregate, group_update, host_key, host_step. by destruct (event_host e). Qed.
Lemma recordRequestAggregate_group e m :
  recordRequestAggregate e m =
  group_update event_key (fun e => new_aggregate e (event_host e).1 (event_host e).2) aggregate_step m e.
Proof. unfold recordRequestAggregate, group_update, event_key, aggregate_step. by destruct (event_host e). Qed.

Lemma record_all_hosts evs :
  as_hosts (record_all evs) = foldl (group_update host_key (fun e => new_host_summary (host_key e)) host_step) ∅ evs.
Proof.
  unfold record_all. induction evs as [|e evs IH] using rev_ind; [done|].
  rewrite !foldl_snoc. cbn [record_event as_hosts]. by rewrite IH, recordHostSummaryAggregate_group.
Qed.
Lemma record_all_requests evs :
  as_requests (record_all evs) =
  foldl (group_update event_key (fun e => new_aggregate e (event_host e).1 (event_host e).2) aggregate_step) ∅ evs.
Proof.
  unfold record_all. induction evs as [|e evs IH] using rev_ind; [done|].
  rewrite !foldl_snoc. cbn [record_event as_requests]. by rewrite IH, recordRequestAggregate_group.
Qed.

Lemma zlength_snoc {A} (l : list A) x : Z.of_nat (length (l ++ [x])) = Z.of_nat (length l) + 1.
Proof. rewrite length_app. simpl. lia. Qed.

(** What an entry says about the events it was made from. *)
Definition host_counts (evs : list accessEvent) (x : AccessedHostSummary) : Prop :=
  hs_Attempts x = Z.of_nat (length evs) /\
  hs_PolicyAllowedCount x = count ev_PolicyAllowed evs /\
  hs_PolicyDeniedCount x = count (fun e => negb (ev_PolicyAllowed e)) evs /\
  hs_PolicyViolations x = violations evs /\
  hs_DNSSeen x = existsb (fun e => is_kind e "dns") evs /\
  hs_HTTPSeen x = existsb (fun e => is_kind e "http") evs /\
  hs_MITMSeen x = existsb (fun e => is_kind e "mitm") evs /\
  hs_ConnectSeen x = existsb (fun e => is_kind e "connect" || is_kind e "transparent_connect") evs.
Definition request_counts (evs : list accessEvent) (x : RequestAggregate) : Prop :=
  ra_Attempts x = Z.of_nat (length evs) /\
  ra_AllowedCount x = count ev_Allowed evs /\ ra_DeniedCount x = count (fun e => negb (ev_Allowed e)) evs /\
  ra_PolicyAllowedCount x = count ev_PolicyAllowed evs /\
  ra_PolicyDeniedCount x = count (fun e => negb (ev_PolicyAllowed e)) evs.

Lemma count_one p e : count p [e] = bump (p e) 0.
Proof. apply (count_snoc p [] e). Qed.

Lemma host_entry_counts evs x :
  group_value (fun e => new_host_summary (host_key e)) host_step evs = Some x -> host_counts evs x.
Proof.
  apply group_value_ind.
  - intros e. unfold host_counts. rewrite !count_one. cbn. by rewrite !orb_false_r, Z.add_0_r.
  - intros es e v (A & B & C & D & E1 & E2 & E3 & E4). unfold host_counts. cbn.
    rewrite !count_snoc, violations_snoc, !existsb_snoc, zlength_snoc. by rewrite A, B, C, D, E1, E2, E3, E4.
Qed.

Lemma request_entry_counts evs x :
  group_value (fun e => new_aggregate e (event_host e).1 (event_host e).2) aggregate_step evs = Some x ->
  request_counts evs x.
Proof.
  apply group_value_ind.
  - intros e. unfold request_counts. by rewrite !count_one.
  - intros es e v (A & B & C & D & E1). unfold request_counts. cbn.
    rewrite !count_snoc, zlength_snoc. by rewrite A, B, C, D, E1.
Qed.

(** Both tables, entry by entry. *)
Lemma hosts_exact evs host :
  match as_hosts (record_all evs) !! host with
  | None => filter (fun e => host_key e = host) evs = []
  | Some x => host_counts (filter (fun e => host_key e = host) evs) x
  end.
Proof.
  rewrite record_all_hosts, group_fold. destruct (group_value _ _ _) as [x|] eqn:E.
  - by apply host_entry_counts.
  - by destruct (filter _ _).
Qed.
Lemma requests_exact evs key :
  match as_requests (record_all evs) !! key with
  | None => filter (fun e => event_key e = key) evs = []
  | Some x => request_counts (filter (fun e => event_key e = key) evs) x
  end.
Proof.
  rewrite record_all_requests, group_fold. destruct (group_value _ _ _) as [x|] eqn:E.
  - by apply request_entry_counts.
  - by destruct (filter _ _).
Qed.
End accounting.

(** ** Request keys *)

Definition nul_free (s : string) : Prop := CountByte s (char_of 0) = O.

Lemma app_sep_inj a b r s c :
  CountByte a c = O -> CountByte b c = O -> a +:+ String c r = b +:+ String c s -> a = b /\ r = s.
Proof.
  revert b. induction a as [|x a IH]; intros [|y b]; rewrite ?string_app_nil, ?string_app_cons; cbn [CountByte].
  - by intros _ _ [= ->].
  - intros _ B [= <- _]. by rewrite bool_decide_eq_true_2 in B.
  - intros A _ [= -> _]. by rewrite bool_decide_eq_true_2 in A.
  - intros A B [= -> E]. case_bool_decide; [done|]. destruct (IH b A B E) as [-> ->]. done.
Qed.

Lemma digits_nul_free s : string_all is_digit s = true -> nul_free s.
Proof.
  unfold nul_free. induction s as [|c s IH]; [done|]. cbn [string_all CountByte]. rewrite andb_true_iff.
  intros [D A]. rewrite IH by done. case_bool_decide as E; [|done]. by subst c.
Qed.

Lemma Join5 a b c d e : Join [a; b; c; d; e] (str1 0) =
  a +:+ String (char_of 0) (b +:+ String (char_of 0) (c +:+ String (char_of 0) (d +:+ String (char_of 0) e))).
Proof. unfold str1. cbn [Join]. by rewrite !string_app_cons, !string_app_nil. Qed.

(** Different requests have different keys, as long as the separator does not
    occur in what it separates. *)
Lemma requestAggregateKey_inj k h p m pa k' h' p' m' pa' :
  nul_free k -> nul_free k' -> nul_free h -> nul_free h' -> nul_free m -> nul_free m' ->
  0 <= p <= max_int -> 0 <= p' <= max_int ->
  requestAggregateKey k h p m pa = requestAggregateKey k' h' p' m' pa' ->
  k = k' /\ h = h' /\ p = p' /\ m = m' /\ pa = pa'.
Proof.
  intros K K' Hh Hh' Mm Mm' P P'. unfold requestAggregateKey. rewrite !Join5. intros E.
  apply app_sep_inj in E as [-> E]; [|done..]. apply app_sep_inj in E as [-> E]; [|done..].
  apply app_sep_inj in E as [I E]; [|apply digits_nul_free, Itoa_digits; lia..].
  apply app_sep_inj in E as [-> E]; [|done..]. repeat split; try done.
  apply (f_equal Atoi) in I. rewrite !Atoi_Itoa in I by done. congruence.
Qed.

(** ** Orders of the snapshots *)

Lemma string_le_total a b : string_le a b = true \/ string_le b a = true.
Proof.
  revert b. induction a as [|c a IH]; intros [|d b]; simpl; auto. destruct (IH b) as [E|E]; rewrite E.
  - destruct (Z.lt_trichotomy (byte_of c) (byte_of d)) as [L|[L|L]]; [left|left|right]; to_prop; lia.
  - destruct (Z.lt_trichotomy (byte_of c) (byte_of d)) as [L|[L|L]]; [left|right|right]; to_prop; lia.
Qed.
Lemma string_le_trans a b c : string_le a b = true -> string_le b c = true -> string_le a c = true.
Proof.
  revert b c. induction a as [|x a IH]; intros [|y b] [|z c]; simpl; try done.
  rewrite !orb_true_iff, !andb_true_iff, !Z.ltb_lt, !Z.eqb_eq. intros [?|[? A]] [?|[? B]]; [lia|lia|lia|].
  right. split; [lia|]. by eapply IH.
Qed.
Lemma string_le_antisym a b : string_le a b = true -> string_le b a = true -> a = b.
Proof.
  revert b. induction a as [|x a IH]; intros [|y b]; simpl; try done.
  rewrite !orb_true_iff, !andb_true_iff, !Z.ltb_lt, !Z.eqb_eq. intros [?|[E A]] [?|[? B]]; [lia|lia|lia|].
  apply byte_of_inj in E as ->. f_equal. by apply IH.
Qed.

Section lex_order.
Context {A : Type} `{EqDecision A} (le : A -> A -> bool).
Context (total : forall a b, le a b = true \/ le b a = true)
        (trans : forall a b c, le a b = true -> le b c = true -> le a c = true)
        (antisym : forall a b, le a b = true -> le b a = true -> a = b).

Lemma lex_total a b r r' :
  r = true \/ r' = true -> lex a b (le a b) r = true \/ lex b a (le b a) r' = true.
Proof. intros R. unfold lex. destruct (decide (a = b)), (decide (b = a)); try congruence; auto. Qed.
Lemma lex_trans a b c r1 r2 r3 :
  (r1 = true -> r2 = true -> r3 = true) ->
  lex a b (le a b) r1 = true -> lex b c (le b c) r2 = true -> lex a c (le a c) r3 = true.
Proof.
  intros R. unfold lex. intros A1 A2. repeat case_decide; subst; try done; eauto.
Qed.
Lemma lex_antisym a b r r' : lex a b (le a b) r = true -> lex b a (le b a) r' = true -> a = b /\ r = true /\ r' = true.
Proof.
  unfold lex. destruct (decide (a = b)) as [->|N]; [by rewrite decide_True|].
  rewrite decide_False by done. intros A1 A2. destruct N. by apply antisym.
Qed.
End lex_order.

Lemma zle_total a b : (a <=? b) = true \/ (b <=? a) = true.
Proof. lia. Qed.
Lemma zle_trans a b c : (a <=? b) = true -> (b <=? c) = true -> (a <=? c) = true.
Proof. lia. Qed.
Lemma zle_antisym a b : (a <=? b) = true -> (b <=? a) = true -> a = b.
Proof. lia. Qed.

#[global] Instance host_summary_le_total : Total host_summary_le.
Proof. intros l r. apply string_le_total. Qed.
#[global] Instance host_summary_le_trans : Transitive host_summary_le.
Proof. intros a b c. apply string_le_trans. Qed.
#[global] Instance aggregate_le_total : Total aggregate_le.
Proof.
  intros l r. unfold aggregate_le. repeat (apply lex_total; [apply string_le_total || apply zle_total|]).
  apply string_le_total.
Qed.
#[global] Instance aggregate_le_trans : Transitive aggregate_le.
Proof.
  intros a b c A B. unfold aggregate_le in *.
  eapply (lex_trans string_le string_le_trans string_le_antisym); [|exact A|exact B]. clear A B. intros A B.
  eapply (lex_trans string_le string_le_trans string_le_antisym); [|exact A|exact B]. clear A B. intros A B.
  eapply (lex_trans Z.leb zle_trans zle_antisym); [|exact A|exact B]. clear A B. intros A B.
  eapply (lex_trans string_le string_le_trans string_le_antisym); [|exact A|exact B]. clear A B. intros A B.
  by eapply string_le_trans.
Qed.
Lemma aggregate_le_antisym a b : aggregate_le a b -> aggregate_le b a ->
  ra_Kind a = ra_Kind b /\ ra_Host a = ra_Host b /\ ra_Port a = ra_Port b /\
  ra_Method a = ra_Method b /\ ra_Path a = ra_Path b.
Proof.
  unfold aggregate_le. intros A B.
  destruct (lex_antisym string_le string_le_antisym _ _ _ _ A B) as (E1 & A1 & B1).
  destruct (lex_antisym string_le string_le_antisym _ _ _ _ A1 B1) as (E2 & A2 & B2).
  destruct (lex_antisym Z.leb zle_antisym _ _ _ _ A2 B2) as (E3 & A3 & B3).
  destruct (lex_antisym string_le string_le_antisym _ _ _ _ A3 B3) as (E4 & A4 & B4).
  repeat split; try done. by apply string_le_antisym.
Qed.
