(* ===== verification/Manager.v ===== *)
(** The host side of bbox: the sandbox registry ([proxy_registry.go]), the audit
    log of the manager ([manager_audit.go]), the proxy, MITM, CONNECT and DNS
    services ([manager_proxy_service.go], [manager_connect_service.go],
    [manager_dns_service.go]) and the request handlers of [manager.go].

    The outside world is the class [Net]: the clock, URL parsing and printing,
    the HTTP transport, the DNS message library and the exchange with a DNS
    server. Handlers pass the state [host] along; a service gets its [record]
    callback as an argument, as in the code. *)
From S2P Require Import Prelude GoStrings GoNet Sys Policy Access.

(** * The outside world *)

(** [url.URL]; of [User] its text. *)
Record URL := {
  u_Scheme : string; u_Opaque : string; u_User : option string; u_Host : string; u_Path : string; u_RawPath : string;
  u_OmitHost : bool; u_ForceQuery : bool; u_RawQuery : string; u_Fragment : string; u_RawFragment : string }.
(** A URL made of these fields; the others are zero. *)
Definition url_of (scheme host path rawPath rawQuery : string) : URL := {|
  u_Scheme := scheme; u_Opaque := ""; u_User := None; u_Host := host; u_Path := path; u_RawPath := rawPath;
  u_OmitHost := false; u_ForceQuery := false; u_RawQuery := rawQuery; u_Fragment := ""; u_RawFragment := "" |}.

(** A response body: what it yields, and the error it ends with, if any. *)
Record stream := { st_data : string; st_err : option string }.
Record Response := { rs_StatusCode : Z; rs_Header : Header; rs_Body : option stream }.

(** The request handed to the transport; its URL is the text it was built from. *)
Record OutRequest := {
  or_Method : string; or_URL : string; or_Header : Header; or_Host : string; or_Body : string;
}.

Record Resource := { rr_Type : Z; rr_Data : string }.

Class Net := {
  nstate : Type;
  now : nstate -> Z;
  url_Parse : string -> result URL;
  url_String : URL -> string;
  (** The error of [http.NewRequestWithContext] for a method and a URL text. *)
  newRequest_error : string -> string -> option string;
  roundTrip_http : OutRequest -> nstate -> result Response * nstate;
  (** [dnsmessage]: [Parser.Start], [Parser.AllQuestions], [Unpack] and [Pack]. *)
  dns_header : Type;
  dns_start_error : string -> option string;
  dns_AllQuestions : string -> result (list string);
  dns_Unpack : string -> result (dns_header * list Resource * list Resource * list Resource);
  dns_Pack : dns_header * list Resource * list Resource * list Resource -> result string;
  dns_servers : nstate -> list string;
  (** [roundTrip] of the DNS service: network, server, payload. *)
  dns_exchange : string -> string -> string -> nstate -> result string * nstate;
}.

(** * Messages ([helperproto]) *)

Record ProxyRequest := { pr_Method : string; pr_URL : string; pr_Header : Header; pr_Body : string }.
Record ProxyResponse := { ps_StatusCode : Z; ps_Header : Header; ps_Body : string; ps_Error : string }.
Record MITMRequest := {
  mr_Scheme : string; mr_Authority : string; mr_Host : string; mr_Method : string; mr_Path : string;
  mr_RawQuery : string; mr_Header : Header; mr_Body : string; mr_Proto : string; mr_BodyTooLarge : bool;
}.
Record ConnectRequest := {
  cr_Host : string; cr_Port : Z; cr_Transparent : bool; cr_ProtocolMetadata : string * string * string;
}.
Record ConnectResponse := { cs_StatusCode : Z; cs_Message : string; cs_Error : string }.
Record DNSRequest := { dq_Network : string; dq_Host : string; dq_Port : Z; dq_Payload : string }.
Record DNSResponse := { ds_Payload : string; ds_Error : string }.

Definition StatusOK : Z := 200.
Definition StatusBadRequest : Z := 400.
Definition StatusForbidden : Z := 403.
Definition StatusRequestEntityTooLarge : Z := 413.
Definition StatusBadGateway : Z := 502.
Definition MethodConnect : string := "CONNECT".
Definition newline : string := str1 10.

Definition text_plain : Header := [("Content-Type", ["text/plain; charset=utf-8"])].
Definition response_error (status : Z) (err : string) : ProxyResponse :=
  {| ps_StatusCode := status; ps_Header := []; ps_Body := ""; ps_Error := err |}.
Definition response_denied (status : Z) (reason : string) : ProxyResponse :=
  {| ps_StatusCode := status; ps_Header := text_plain;
     ps_Body := "proxy request denied: " +:+ reason +:+ newline; ps_Error := "" |}.

(** * Host names, ports, protocols *)

Section names.
Context `{GoLib}.

Definition defaultPortForScheme (scheme : string) : Z :=
  if bool_decide (ToLower scheme = "https") then 443
  else if bool_decide (ToLower scheme = "http") then 80 else 0.

(** [url.URL.Port]: the digits after the last colon of the host. *)
Definition url_Port (host : string) : string :=
  match LastIndexByte host ":" with
  | Some i => let port := string_drop (S i) host in if string_all is_digit port then port else ""
  | None => ""
  end.

Definition authorityPort (authority : string) : string :=
  if bool_decide (authority = "") then ""
  else match SplitHostPort authority with
       | Ok (_, port) => port
       | Err _ => ""
       end.

Definition mitmHostPort (requestHost authority scheme : string) : string * Z :=
  let requestHost := TrimSpace requestHost in
  let base := if bool_decide (requestHost = "") then authority else requestHost in
  if bool_decide (base = "") then normalizeHostPort base 0
  else if negb (bool_decide (requestHost = "")) then
    if negb (bool_decide (authorityPort base = "")) then
      match Atoi (authorityPort base) with
      | Some parsed => normalizeHostPort base parsed
      | None => normalizeHostPort base 0
      end
    else
      let fallback := normalizeHostPort base (defaultPortForScheme scheme) in
      if negb (bool_decide (authorityPort authority = "")) then
        match Atoi (authorityPort authority) with
        | Some parsed => normalizeHostPort base parsed
        | None => fallback
        end
      else fallback
  else
    let port := if negb (bool_decide (authorityPort base = ""))
                then default 0 (Atoi (authorityPort base)) else defaultPortForScheme scheme in
    normalizeHostPort base port.

Definition classifyProxyAccessProtocol (scheme : string) : string * string * string :=
  let s := ToLower (TrimSpace scheme) in
  if bool_decide (s = "https") then ("https", "http_headers", "definite")
  else if bool_decide (s = "http") || bool_decide (s = "") then ("http", "http_headers", "definite")
  else (s, "http_headers", "probable").

(** [http.Header.Get] for a canonical key. *)
Definition header_Get (h : Header) (key : string) : string :=
  match list_find (fun kv => kv.1 = key) h with
  | Some (_, (_, v :: _)) => v
  | _ => ""
  end.
Definition isGRPCMITMRequest (req : MITMRequest) : bool :=
  if negb (HasPrefix (ToUpper (TrimSpace (mr_Proto req))) "HTTP/2") then false
  else HasPrefix (ToLower (TrimSpace (header_Get (mr_Header req) "Content-Type"))) "application/grpc".
Definition classifyMITMAccessProtocol (req : MITMRequest) : string * string * string :=
  if isGRPCMITMRequest req then ("grpc", "http_headers", "definite") else ("https", "http_connect", "definite").

Definition validateMITMHostAuthority (requestHost authority : string) : result unit :=
  if bool_decide (TrimSpace authority = "") || bool_decide (TrimSpace requestHost = "") then Ok tt
  else
    normalizedRequestHost <-! normalizePolicyHostname requestHost;
    normalizedAuthorityHost <-! normalizePolicyHostname authority;
    if bool_decide (normalizedRequestHost = normalizedAuthorityHost) then Ok tt
    else Err ("request host " +:+ Quote normalizedRequestHost +:+ " does not match upstream authority " +:+
              Quote normalizedAuthorityHost).

Definition connectAccessKind (transparent : bool) : string :=
  if transparent then "transparent_connect" else "connect".

Definition normalizeDNSNetwork (network : string) : result string :=
  let n := ToLower (TrimSpace network) in
  if bool_decide (n ∈ [""; "udp"; "udp4"; "udp6"]) then Ok "udp"
  else if bool_decide (n ∈ ["tcp"; "tcp4"; "tcp6"]) then Ok "tcp"
  else Err ("unsupported dns network " +:+ Quote network).
End names.

(** The body read, whether it was cut, or the read error: [io.ReadAll] of the
    stream, or of at most [maxBytes+1] bytes of it (an [int64] sum). *)
Definition readBoundedResponse (body : option stream) (maxBytes : Z) : result (string * bool) :=
  match body with
  | None => Ok ("", false)
  | Some s =>
      let whole := match st_err s with Some e => Err e | None => Ok (st_data s, false) end in
      if maxBytes <=? 0 then whole
      else
        let limit := to_int (maxBytes + 1) in
        if limit <=? 0 then Ok ("", false)
        else if limit <=? slen (st_data s) then Ok (string_take (Z.to_nat maxBytes) (st_data s), true)
        else whole
  end.

(** * Services *)

Record serviceConfig := { sc_maxRequestBodyBytes : Z; sc_maxResponseBodyBytes : Z; sc_policyMode : string }.

Section services.
Context `{GoLib} `{Net}.

(** The service state is any type with the network inside; [record] is the
    manager's callback. *)
Context {St : Type} (net : St -> nstate) (set_net : nstate -> St -> St) (record : accessEvent -> St -> St).

Definition body_too_large (cfg : serviceConfig) (body : string) : bool :=
  (0 <? sc_maxRequestBodyBytes cfg) && (sc_maxRequestBodyBytes cfg <? slen body).
Definition policy_blocks (cfg : serviceConfig) (eval : policyEvaluation) : bool :=
  negb (Allowed eval) && negb (bool_decide (sc_policyMode cfg = PolicyModeAudit)).
Definition reason_of (eval : policyEvaluation) : string := default "" (firstReasonAsError eval).

(** The tail shared by the two services: build the request, send it, read the
    response. [bad] is the status of the error responses, [what] their texts. *)
Definition forward (cfg : serviceConfig) (bad : Z) (whatBuild whatRead : string) (event : accessEvent)
    (out : OutRequest) (st : St) : ProxyResponse * St :=
  match newRequest_error (or_Method out) (or_URL out) with
  | Some e =>
      (response_error bad ("build outbound " +:+ whatBuild +:+ ": " +:+ e),
       record (event_outcome true 0 "upstream_error" e event) st)
  | None =>
      let '(r, n) := roundTrip_http out (net st) in
      let st := set_net n st in
      match r with
      | Err e => (response_error bad e, record (event_outcome true 0 "upstream_error" e event) st)
      | Ok resp =>
          match readBoundedResponse (rs_Body resp) (sc_maxResponseBodyBytes cfg) with
          | Err e =>
              (response_error bad ("read outbound " +:+ whatRead +:+ " body: " +:+ e),
               record (event_outcome true (rs_StatusCode resp) "upstream_error" e event) st)
          | Ok (_, true) =>
              let e := "upstream response body exceeds configured limit" in
              (response_error bad e,
               record (event_outcome true (rs_StatusCode resp) "upstream_error" e event) st)
          | Ok (body, false) =>
              ({| ps_StatusCode := rs_StatusCode resp; ps_Header := rs_Header resp; ps_Body := body; ps_Error := "" |},
               record (event_outcome true (rs_StatusCode resp) "allowed" "" event) st)
          end
      end
  end.

Definition deny (status : Z) (reason : string) (event : accessEvent) (st : St) : ProxyResponse * St :=
  (response_denied status reason, record (event_outcome false status "denied" reason event) st).

Definition inspection_limit : string := "request body exceeds inspection limit".

Definition HandleProxyRequest (cfg : serviceConfig) (policy : compiledPolicy) (sandboxID : string)
    (req : ProxyRequest) (st : St) : ProxyResponse * St :=
  match url_Parse (pr_URL req) with
  | Err e => (response_error 0 ("parse request URL " +:+ Quote (pr_URL req) +:+ ": " +:+ e), st)
  | Ok targetURL =>
      let path := if bool_decide (u_Path targetURL = "") then "/" else u_Path targetURL in
      let port := if negb (bool_decide (url_Port (u_Host targetURL) = ""))
                  then default 0 (Atoi (url_Port (u_Host targetURL)))
                  else defaultPortForScheme (u_Scheme targetURL) in
      let '(host, port) := normalizeHostPort (u_Host targetURL) port in
      let policyEval := evaluateRequest policy
        {| pq_Method := pr_Method req; pq_Host := u_Host targetURL; pq_Path := path;
           pq_Header := pr_Header req; pq_Body := pr_Body req; pq_BodyTooLarge := false |} in
      let event := eventWithPolicyMetadata
        (event_base sandboxID "http" (classifyProxyAccessProtocol (u_Scheme targetURL)) host port
           (pr_Method req) path) (sc_policyMode cfg) policyEval in
      if body_too_large cfg (pr_Body req) then deny StatusRequestEntityTooLarge inspection_limit event st
      else if policy_blocks cfg policyEval then deny StatusForbidden (reason_of policyEval) event st
      else
        forward cfg 0 "request" "response" event
          {| or_Method := pr_Method req; or_URL := url_String targetURL; or_Header := pr_Header req;
             or_Host := u_Host targetURL; or_Body := pr_Body req |} st
  end.

(** [url.Host] is what the request built from the text has as its host unless
    the caller sets another one. *)
Definition HandleMITMRequest (cfg : serviceConfig) (policy : compiledPolicy) (sandboxID : string)
    (req : MITMRequest) (st : St) : ProxyResponse * St :=
  let scheme := if bool_decide (mr_Scheme req = "") then "https" else mr_Scheme req in
  let authority := if bool_decide (mr_Authority req = "") then mr_Host req else mr_Authority req in
  let policyHost := if bool_decide (mr_Host req = "") then authority else mr_Host req in
  let path := if bool_decide (mr_Path req = "") then "/" else mr_Path req in
  let '(host, port) := mitmHostPort (mr_Host req) authority scheme in
  let policyEval := evaluateRequest policy
    {| pq_Method := mr_Method req; pq_Host := policyHost; pq_Path := mr_Path req;
       pq_Header := mr_Header req; pq_Body := mr_Body req; pq_BodyTooLarge := mr_BodyTooLarge req |} in
  let event := eventWithPolicyMetadata
    (event_base sandboxID "mitm" (classifyMITMAccessProtocol req) host port (mr_Method req) path)
    (sc_policyMode cfg) policyEval in
  if mr_BodyTooLarge req then deny StatusRequestEntityTooLarge inspection_limit event st
  else
    match validateMITMHostAuthority policyHost authority with
    | Err e => deny StatusForbidden e event st
    | Ok _ =>
        if body_too_large cfg (mr_Body req) then deny StatusRequestEntityTooLarge inspection_limit event st
        else if policy_blocks cfg policyEval then deny StatusForbidden (reason_of policyEval) event st
        else if bool_decide (authority = "") then
          let e := "MITM request authority is required" in
          (response_error StatusBadRequest e, record (event_outcome false StatusBadRequest "denied" e event) st)
        else
          forward cfg StatusBadGateway "MITM request" "MITM response" event
            {| or_Method := mr_Method req;
               or_URL := url_String (url_of scheme authority path "" (mr_RawQuery req));
               or_Header := mr_Header req;
               or_Host := if bool_decide (mr_Host req = "") then authority else mr_Host req;
               or_Body := mr_Body req |} st
    end.

Definition HandleConnectRequest (policyMode : string) (policy : compiledPolicy) (sandboxID : string)
    (req : ConnectRequest) (st : St) : ConnectResponse * St :=
  let '(host, port) := normalizeHostPort (cr_Host req) (cr_Port req) in
  let eval := evaluateConnect policy (cr_Host req) (cr_Port req) (cr_Transparent req) in
  let event := eventWithPolicyMetadata
    (event_base sandboxID (connectAccessKind (cr_Transparent req)) (cr_ProtocolMetadata req) host port
       MethodConnect "") policyMode eval in
  if negb (Allowed eval) && negb (bool_decide (policyMode = PolicyModeAudit)) then
    ({| cs_StatusCode := StatusForbidden; cs_Message := "connect request denied"; cs_Error := reason_of eval |},
     record (event_outcome false StatusForbidden "denied" (reason_of eval) event) st)
  else
    ({| cs_StatusCode := StatusOK; cs_Message := ""; cs_Error := "" |},
     record (event_outcome true StatusOK "allowed" "" event) st).
End services.

Section constructors.
Context `{GoLib}.
Definition newManagerProxyService (maxRequestBodyBytes maxResponseBodyBytes : Z) (policyMode : string) : serviceConfig := {|
  sc_maxRequestBodyBytes := maxRequestBodyBytes; sc_maxResponseBodyBytes := maxResponseBodyBytes;
  sc_policyMode := normalizedPolicyModeOrDefault policyMode |}.
Definition newManagerConnectService (policyMode : string) : string := normalizedPolicyModeOrDefault policyMode.
End constructors.

(** ** DNS *)

Section dns.
Context `{GoLib} `{Net}.

Definition validateDNSQuery (payload : string) : result unit :=
  match dns_start_error payload with
  | Some e => Err ("parse dns query: " +:+ e)
  | None =>
      match dns_AllQuestions payload with
      | Err e => Err ("parse dns query questions: " +:+ e)
      | Ok _ => Ok tt
      end
  end.

Fixpoint question_hosts (seen : list string) (questions : list string) : list string :=
  match questions with
  | [] => []
  | name :: questions =>
      let host := ToLower (TrimSpace (TrimSuffix name ".")) in
      if bool_decide (host = "") || bool_decide (host ∈ seen) then question_hosts seen questions
      else host :: question_hosts (host :: seen) questions
  end.
Definition dnsQuestionHosts (payload : string) : result (list string) :=
  match dns_start_error payload with
  | Some e => Err ("parse dns query: " +:+ e)
  | None =>
      match dns_AllQuestions payload with
      | Err e => Err ("parse dns query questions: " +:+ e)
      | Ok questions => Ok (question_hosts [] questions)
      end
  end.

Definition TypeAAAA : Z := 28.
Definition filterAAAAResources (resources : list Resource) : list Resource :=
  filter (fun r => rr_Type r <> TypeAAAA) resources.
Definition stripAAAARecords (payload : string) : result string :=
  match dns_Unpack payload with
  | Err e => Err ("parse dns response: " +:+ e)
  | Ok (hd, answers, authorities, additionals) =>
      result_wrap (fun e => "pack dns response: " +:+ e)
        (dns_Pack (hd, filterAAAAResources answers, filterAAAAResources authorities, filterAAAAResources additionals))
  end.

(** The servers in order until one answers; the errors joined otherwise. *)
Fixpoint try_servers (network payload : string) (servers : list string) (errs : string) (n : nstate)
    : result string * nstate :=
  match servers with
  | [] => (Err (if bool_decide (errs = "") then "no DNS servers configured" else errs), n)
  | upstream :: servers =>
      match dns_exchange network upstream payload n with
      | (Ok response, n) => (Ok response, n)
      | (Err e, n) =>
          let e := network +:+ " " +:+ upstream +:+ ": " +:+ e in
          try_servers network payload servers (if bool_decide (errs = "") then e else errs +:+ newline +:+ e) n
      end
  end.
Definition handleQuery (network payload : string) (n : nstate) : result string * nstate :=
  if bool_decide (payload = "") then (Err "dns query payload is empty", n)
  else
    match validateDNSQuery payload with
    | Err e => (Err e, n)
    | Ok _ =>
        match normalizeDNSNetwork network with
        | Err e => (Err e, n)
        | Ok normalizedNetwork => try_servers normalizedNetwork payload (dns_servers n) "" n
        end
    end.
End dns.

(** * The manager *)

Section manager.
Context `{GoLib} `{Net}.

Record Sandbox := { sb_trafficMode : string; sb_policyMode : string }.

(** [sandboxes] maps an id to a possibly nil sandbox; [audit] is the manager's
    entry of [auditStateByManager]; [log] is what the access logger received. *)
Record ProxyManager := {
  pm_defaultPolicy : compiledPolicy;
  pm_sandboxes : gmap string (option Sandbox);
  pm_policies : gmap string compiledPolicy;
  pm_audit : option (gmap string sandboxAuditState);
  pm_hasLogger : bool;
  pm_log : list AccessLogEntry;
  pm_requestBodyLimitBytes : Z;
  pm_responseBodyLimitBytes : Z;
  pm_policyMode : string;
}.
Record host := { h_mgr : ProxyManager; h_net : nstate }.

Definition set_registry (sandboxes : gmap string (option Sandbox)) (policies : gmap string compiledPolicy)
    (m : ProxyManager) : ProxyManager := {|
  pm_defaultPolicy := pm_defaultPolicy m; pm_sandboxes := sandboxes; pm_policies := policies;
  pm_audit := pm_audit m; pm_hasLogger := pm_hasLogger m; pm_log := pm_log m;
  pm_requestBodyLimitBytes := pm_requestBodyLimitBytes m; pm_responseBodyLimitBytes := pm_responseBodyLimitBytes m;
  pm_policyMode := pm_policyMode m |}.
Definition set_audit (audit : option (gmap string sandboxAuditState)) (log : list AccessLogEntry)
    (m : ProxyManager) : ProxyManager := {|
  pm_defaultPolicy := pm_defaultPolicy m; pm_sandboxes := pm_sandboxes m; pm_policies := pm_policies m;
  pm_audit := audit; pm_hasLogger := pm_hasLogger m; pm_log := log;
  pm_requestBodyLimitBytes := pm_requestBodyLimitBytes m; pm_responseBodyLimitBytes := pm_responseBodyLimitBytes m;
  pm_policyMode := pm_policyMode m |}.

(** ** Registry *)

Definition Register (id : string) (policy : option compiledPolicy) (m : ProxyManager) : result ProxyManager :=
  if bool_decide (id = "") then Err "sandbox ID is required"
  else if bool_decide (is_Some (pm_sandboxes m !! id)) then Err ("sandbox " +:+ Quote id +:+ " is already registered")
  else Ok (set_registry (<[id := None]> (pm_sandboxes m))
                        (<[id := default (pm_defaultPolicy m) policy]> (pm_policies m)) m).
Definition Attach (id : string) (sandbox : Sandbox) (m : ProxyManager) : result ProxyManager :=
  if bool_decide (is_Some (pm_sandboxes m !! id))
  then Ok (set_registry (<[id := Some sandbox]> (pm_sandboxes m)) (pm_policies m) m)
  else Err ("sandbox " +:+ Quote id +:+ " is not registered").
Definition Unregister (id : string) (m : ProxyManager) : ProxyManager :=
  set_registry (delete id (pm_sandboxes m)) (delete id (pm_policies m)) m.
Definition AttachedSandboxes (m : ProxyManager) : list Sandbox :=
  omap id (map_to_list (pm_sandboxes m)).*2.

Definition auditStateLocked (m : ProxyManager) : gmap string sandboxAuditState := default ∅ (pm_audit m).
Definition initAuditStateLocked (id : string) (m : ProxyManager) : ProxyManager :=
  if bool_decide (id = "") then m
  else
    let state := auditStateLocked m in
    set_audit (Some (if bool_decide (is_Some (state !! id)) then state else <[id := newSandboxAuditState]> state))
              (pm_log m) m.
Definition removeAuditStateLocked (id : string) (m : ProxyManager) : ProxyManager :=
  if bool_decide (id = "") then m
  else match pm_audit m with
       | None => m
       | Some state =>
           let state := delete id state in
           set_audit (if bool_decide (state = ∅) then None else Some state) (pm_log m) m
       end.

Definition registerSandbox (id : string) (policy : option compiledPolicy) (m : ProxyManager) : result ProxyManager :=
  m <-! Register id policy m;
  Ok (initAuditStateLocked id m).
Definition attachSandbox (id : string) (sandbox : Sandbox) : ProxyManager -> result ProxyManager := Attach id sandbox.
Definition unregisterSandbox (id : string) (m : ProxyManager) : ProxyManager :=
  removeAuditStateLocked id (Unregister id m).

Definition trafficModeForSandbox (id : string) (m : ProxyManager) : string :=
  if bool_decide (id = "") then TrafficModeProxy
  else match pm_sandboxes m !! id with
       | Some (Some sandbox) => normalizeTrafficMode (sb_trafficMode sandbox)
       | _ => TrafficModeProxy
       end.
Definition policyModeForSandbox (id : string) (m : ProxyManager) : string :=
  match (if bool_decide (id = "") then None else pm_sandboxes m !! id) with
  | Some (Some sandbox) => normalizedPolicyModeOrDefault (sb_policyMode sandbox)
  | _ => normalizedPolicyModeOrDefault (pm_policyMode m)
  end.

(** ** Recording *)

Definition recordAccessEvent (event : accessEvent) (h : host) : host :=
  let m := h_mgr h in
  if bool_decide (ev_SandboxID event = "") then h
  else
    let time := if ev_Time event =? 0 then now (h_net h) else ev_Time event in
    let mode := if bool_decide (ev_TrafficMode event = "") then trafficModeForSandbox (ev_SandboxID event) m
                else ev_TrafficMode event in
    let event := event_stamp time (normalizeTrafficMode mode) event in
    if bool_decide (is_Some (pm_sandboxes m !! ev_SandboxID event)) then
      {| h_mgr := set_audit (Some (updateAuditStateLocked event (auditStateLocked m)))
                    (if pm_hasLogger m then pm_log m ++ [toAccessLogEntry event] else pm_log m) m;
         h_net := h_net h |}
    else h.

Definition accessedDomainsSnapshot (id : string) (m : ProxyManager) : list AccessedDomain :=
  if bool_decide (id = "") then []
  else match pm_audit m ≫= (fun state => state !! id) with
       | Some s => snapshotAccessedDomains (as_domains s)
       | None => []
       end.
Definition accessSummarySnapshot (id : string) (m : ProxyManager) : AccessSummary :=
  match (if bool_decide (id = "") then None else pm_audit m ≫= (fun state => state !! id)) with
  | Some s => {| sum_Hosts := snapshotHostSummaries (as_hosts s); sum_Requests := snapshotRequestAggregates (as_requests s) |}
  | None => {| sum_Hosts := []; sum_Requests := [] |}
  end.

(** ** Handlers *)

Definition set_host_net (n : nstate) (h : host) : host := {| h_mgr := h_mgr h; h_net := n |}.
Definition not_registered (id : string) : string := "sandbox " +:+ Quote id +:+ " is not registered".
Definition proxyService (id : string) (m : ProxyManager) : serviceConfig :=
  newManagerProxyService (pm_requestBodyLimitBytes m) (pm_responseBodyLimitBytes m) (policyModeForSandbox id m).

Definition handleProxyRequest (id : string) (req : ProxyRequest) (h : host) : ProxyResponse * host :=
  match pm_policies (h_mgr h) !! id with
  | None => (response_error 0 (not_registered id), h)
  | Some policy =>
      HandleProxyRequest h_net set_host_net recordAccessEvent (proxyService id (h_mgr h)) policy id req h
  end.
Definition handleMITMRequest (id : string) (req : MITMRequest) (h : host) : ProxyResponse * host :=
  match pm_policies (h_mgr h) !! id with
  | None => (response_error StatusBadGateway (not_registered id), h)
  | Some policy =>
      HandleMITMRequest h_net set_host_net recordAccessEvent (proxyService id (h_mgr h)) policy id req h
  end.
Definition handleConnectRequest (id : string) (req : ConnectRequest) (h : host) : ConnectResponse * host :=
  match pm_policies (h_mgr h) !! id with
  | None => ({| cs_StatusCode := StatusBadGateway; cs_Message := ""; cs_Error := not_registered id |}, h)
  | Some policy =>
      HandleConnectRequest recordAccessEvent (newManagerConnectService (policyModeForSandbox id (h_mgr h)))
        policy id req h
  end.

Definition dns_event (id host : string) (mode : string) (eval : policyEvaluation) (allowed : bool) (status : Z)
    (res err : string) : accessEvent :=
  eventWithPolicyMetadata
    (event_outcome allowed status res err (event_base id "dns" ("", "", "") host 53 "" "")) mode eval.

(** The evaluations of the hosts in order, or the first denied host. *)
Fixpoint evaluate_hosts (policy : compiledPolicy) (mode : string) (hosts : list string)
    : (string * policyEvaluation) + list policyEvaluation :=
  match hosts with
  | [] => inr []
  | host :: hosts =>
      let eval := evaluateDNS policy host in
      if negb (Allowed eval) && negb (bool_decide (mode = PolicyModeAudit)) then inl (host, eval)
      else match evaluate_hosts policy mode hosts with
           | inl d => inl d
           | inr evals => inr (eval :: evals)
           end
  end.
Definition record_hosts (id mode : string) (allowed : bool) (status : Z) (res err : string)
    (hosts : list (string * policyEvaluation)) (h : host) : host :=
  foldl (fun h he => recordAccessEvent (dns_event id he.1 mode he.2 allowed status res err) h) h hosts.

Definition handleDNSRequest (id : string) (req : DNSRequest) (h : host) : DNSResponse * host :=
  let fail e := {| ds_Payload := ""; ds_Error := e |} in
  match pm_policies (h_mgr h) !! id with
  | None => (fail (not_registered id), h)
  | Some policy =>
      match dnsQuestionHosts (dq_Payload req) with
      | Err e => (fail e, h)
      | Ok hosts =>
          let hosts := if bool_decide (hosts = []) && negb (bool_decide (TrimSpace (dq_Host req) = ""))
                       then [TrimSpace (dq_Host req)] else hosts in
          let mode := policyModeForSandbox id (h_mgr h) in
          match evaluate_hosts policy mode hosts with
          | inl (host, eval) =>
              (fail ("dns request denied: " +:+ reason_of eval),
               recordAccessEvent (dns_event id host mode eval false StatusForbidden "denied" (reason_of eval)) h)
          | inr evals =>
              let '(r, n) := handleQuery (dq_Network req) (dq_Payload req) (h_net h) in
              let h := set_host_net n h in
              match r with
              | Err e =>
                  (fail e, record_hosts id mode true StatusBadGateway "upstream_error" e (zip hosts evals) h)
              | Ok payload =>
                  let stripped := if bool_decide (trafficModeForSandbox id (h_mgr h) = TrafficModeTransparent)
                                  then stripAAAARecords payload else Ok payload in
                  match stripped with
                  | Err e => (fail e, h)
                  | Ok payload =>
                      ({| ds_Payload := payload; ds_Error := "" |},
                       record_hosts id mode true StatusOK "allowed" "" (zip hosts evals) h)
                  end
              end
          end
      end
  end.
End manager.
