(* ===== verification/SampleNet.v ===== *)
(** A concrete [Net], used only to evaluate the host side in witnesses: a log of
    what was sent, URLs of the form http://host/path, and a toy message format
    for DNS answers ("A" and an address, "M" for an A and an AAAA record). *)
From S2P Require Import Prelude GoStrings GoNet Policy Access Manager Sample.

Inductive nevent := NHttp (out : OutRequest) | NDns (network server payload : string).

Definition sample_url (s : string) : result URL :=
  if HasPrefix s "http://" then
    let rest := string_drop 7 s in
    match IndexByte rest "/" with
    | Some i => Ok (url_of "http" (string_take i rest) (string_drop i rest) "" "")
    | None => Ok (url_of "http" rest "" "" "")
    end
  else Err "missing protocol scheme".

Definition rrA (d : string) : Resource := {| rr_Type := 1; rr_Data := d |}.
Definition rrAAAA : Resource := {| rr_Type := TypeAAAA; rr_Data := "::1" |}.
Definition sample_message : Type := unit * list Resource * list Resource * list Resource.
Definition sample_unpack (s : string) : result sample_message :=
  match s with
  | String "A" d => Ok (tt, [rrA d], [], [])
  | String "M" d => Ok (tt, [rrA d; rrAAAA], [], [])
  | _ => Err "short message"
  end.
Definition sample_pack (m : sample_message) : result string :=
  match m with
  | (_, [r], [], []) => if rr_Type r =? 1 then Ok ("A" +:+ rr_Data r) else Err "unsupported"
  | _ => Err "unsupported"
  end.

Lemma sample_pack_unpack m s : sample_pack m = Ok s -> sample_unpack s = Ok m.
Proof.
  destruct m as [[[[] [|[t d] [|? ?]]] [|? ?]] [|? ?]]; simpl; try done.
  destruct (t =? 1) eqn:E; [|done]. intros [= <-]. apply Z.eqb_eq in E. subst.
  change ("A" +:+ d) with (String "A" d). done.
Qed.

Definition sampleNet : Net := {|
  nstate := list nevent;
  now _ := 1;
  url_Parse := sample_url;
  url_String u := u_Scheme u +:+ "://" +:+ u_Host u +:+ u_Path u;
  newRequest_error _ _ := None;
  roundTrip_http out n :=
    (Ok {| rs_StatusCode := 200; rs_Header := []; rs_Body := Some {| st_data := "hello"; st_err := None |} |},
     NHttp out :: n);
  dns_header := unit;
  dns_start_error _ := None;
  dns_AllQuestions s := Ok [s];
  dns_Unpack := sample_unpack;
  dns_Pack := sample_pack;
  dns_servers _ := ["9.9.9.9:53"];
  dns_exchange network server payload n := (Ok "M1.2.3.4", NDns network server payload :: n);
|}.
