(* ===== verification/ManagerTheorems.v ===== *)
(** What the host side guarantees: enforcement of the policy in front of every
    outgoing request, faithful accounting, and the audit mode. *)
From S2P Require Import Prelude GoStrings GoNet Sys Policy PolicySpec Access AccessProofs Manager Sample SampleNet PolicyTheorems.

Section theorems.
Context `{GoLib} `{Net}.

(** ** Recording leaves the network and the registry alone *)

Lemma record_net event h : h_net (recordAccessEvent event h) = h_net h.
Proof. unfold recordAccessEvent. by repeat case_bool_decide. Qed.
Lemma record_registry event h :
  pm_sandboxes (h_mgr (recordAccessEvent event h)) = pm_sandboxes (h_mgr h) /\
  pm_policies (h_mgr (recordAccessEvent event h)) = pm_policies (h_mgr h) /\
  pm_policyMode (h_mgr (recordAccessEvent event h)) = pm_policyMode (h_mgr h).
Proof. unfold recordAccessEvent. by repeat case_bool_decide. Qed.

Lemma policyMode_cases mode :
  normalizedPolicyModeOrDefault mode = PolicyModeEnforce \/ normalizedPolicyModeOrDefault mode = PolicyModeAudit.
Proof.
  unfold normalizedPolicyModeOrDefault, normalizePolicyMode. repeat case_bool_decide; simpl; naive_solver.
Qed.
Lemma policyModeForSandbox_cases id m :
  policyModeForSandbox id m = PolicyModeEnforce \/ policyModeForSandbox id m = PolicyModeAudit.
Proof. unfold policyModeForSandbox. repeat case_match; apply policyMode_cases. Qed.
Lemma proxyService_mode id m : sc_policyMode (proxyService id m) = policyModeForSandbox id m.
Proof.
  unfold proxyService, newManagerProxyService. cbn [sc_policyMode].
  by destruct (policyModeForSandbox_cases id m) as [-> | ->].
Qed.
Lemma policy_blocks_enforce id m eval :
  policyModeForSandbox id m = PolicyModeEnforce ->
  policy_blocks (proxyService id m) eval = negb (Allowed eval).
Proof. intros E. unfold policy_blocks. rewrite proxyService_mode, E. simpl. by rewrite andb_true_r. Qed.
Lemma policy_blocks_audit id m eval :
  policyModeForSandbox id m = PolicyModeAudit -> policy_blocks (proxyService id m) eval = false.
Proof. intros E. unfold policy_blocks. rewrite proxyService_mode, E. simpl. by rewrite andb_false_r. Qed.

(** The forwarding tail sends exactly [out], or nothing when it cannot be built,
    and records one event that says the request was let through. *)
Lemma forward_spec cfg bad wb wr event out (h : host) :
  exists resp n res status err,
    forward h_net set_host_net recordAccessEvent cfg bad wb wr event out h =
      (resp, recordAccessEvent (event_outcome true status res err event) (set_host_net n h)) /\
    n = (match newRequest_error (or_Method out) (or_URL out) with
         | Some _ => h_net h
         | None => (roundTrip_http out (h_net h)).2
         end).
Proof.
  unfold forward. destruct (newRequest_error _ _) as [e|].
  { exists (response_error bad ("build outbound " +:+ wb +:+ ": " +:+ e)), (h_net h). destruct h. by do 4 eexists. }
  destruct (roundTrip_http out (h_net h)) as [[resp|e] n]; [|by do 6 eexists].
  destruct (readBoundedResponse _ _) as [[body []]|e]; by do 6 eexists.
Qed.

(** The policy's view of a proxied request. *)
Definition proxy_policy_request (u : URL) (req : ProxyRequest) : PolicyRequest := {|
  pq_Method := pr_Method req; pq_Host := u_Host u;
  pq_Path := if bool_decide (u_Path u = "") then "/" else u_Path u;
  pq_Header := pr_Header req; pq_Body := pr_Body req; pq_BodyTooLarge := false |}.
Definition proxy_out_request (u : URL) (req : ProxyRequest) : OutRequest := {|
  or_Method := pr_Method req; or_URL := url_String u; or_Header := pr_Header req; or_Host := u_Host u;
  or_Body := pr_Body req |}.

(** C2. Enforcement for proxied HTTP requests: for a sandbox whose policy was
    compiled from [pol], in enforce mode, a request whose URL parses is
    forwarded if and only if it fits the inspection limit and some rule of [pol]
    admits it, and then the transport gets exactly that method, URL, headers and
    body (unless it cannot be built); a request that fits but is not admitted is
    answered 403 and never touches the network. Either way one event is
    recorded, marked allowed exactly when the request was let through. *)
Theorem proxy_request_enforced id req h pol p u :
  compilePolicy pol = Ok p -> pm_policies (h_mgr h) !! id = Some p ->
  policyModeForSandbox id (h_mgr h) = PolicyModeEnforce -> url_Parse (pr_URL req) = Ok u ->
  let fits := body_too_large (proxyService id (h_mgr h)) (pr_Body req) = false in
  let out := proxy_out_request u req in
  exists resp event n,
    handleProxyRequest id req h = (resp, recordAccessEvent event (set_host_net n h)) /\
    ev_SandboxID event = id /\ ev_Kind event = "http" /\
    (ev_Allowed event = true <-> fits /\ admits_request pol (proxy_policy_request u req)) /\
    (ev_Allowed event = true ->
       n = (if newRequest_error (or_Method out) (or_URL out) then h_net h else (roundTrip_http out (h_net h)).2)) /\
    (ev_Allowed event = false -> n = h_net h /\ ps_StatusCode resp = ev_StatusCode event /\
       (fits -> ps_StatusCode resp = StatusForbidden)).
Proof.
  intros C P E U fits out. unfold handleProxyRequest. rewrite P. unfold HandleProxyRequest. rewrite U.
  destruct (normalizeHostPort _ _) as [hh pp]. fold (proxy_policy_request u req). fold out.
  pose proof (evaluateRequest_iff pol p (proxy_policy_request u req) C) as R.
  set (eval := evaluateRequest p (proxy_policy_request u req)) in *.
  rewrite (policy_blocks_enforce id (h_mgr h) eval E).
  unfold fits. destruct (body_too_large _ _).
  { do 2 eexists. exists (h_net h). split; [by destruct h|]. cbn. naive_solver. }
  destruct (Allowed eval) eqn:A; cbn [negb].
  - match goal with |- context [forward _ _ _ ?cfg ?b ?x ?y ?ev ?o h] =>
      destruct (forward_spec cfg b x y ev o h) as (resp & n & res & st & err & -> & ->) end.
    do 3 eexists. split; [done|]. cbn. destruct (newRequest_error _ _); naive_solver.
  - do 2 eexists. exists (h_net h). split; [by destruct h|]. cbn.
    assert (~ admits_request pol (proxy_policy_request u req)) by (rewrite <- R; congruence). naive_solver.
Qed.

(** ** MITM *)

Definition mitm_authority (req : MITMRequest) : string :=
  if bool_decide (mr_Authority req = "") then mr_Host req else mr_Authority req.
Definition mitm_policy_host (req : MITMRequest) : string :=
  if bool_decide (mr_Host req = "") then mitm_authority req else mr_Host req.
Definition mitm_policy_request (req : MITMRequest) : PolicyRequest := {|
  pq_Method := mr_Method req; pq_Host := mitm_policy_host req; pq_Path := mr_Path req;
  pq_Header := mr_Header req; pq_Body := mr_Body req; pq_BodyTooLarge := mr_BodyTooLarge req |}.

Lemma validate_same_host rh a :
  validateMITMHostAuthority rh a = Ok tt -> TrimSpace a <> "" -> TrimSpace rh <> "" ->
  exists host, normalizePolicyHostname rh = Ok host /\ normalizePolicyHostname a = Ok host.
Proof.
  unfold validateMITMHostAuthority. intros V A R.
  rewrite !bool_decide_eq_false_2 in V by done. cbn [orb] in V.
  destruct (normalizePolicyHostname rh) as [x|]; [|done].
  destruct (normalizePolicyHostname a) as [y|]; [|done]. simpl in V.
  case_bool_decide; [|done]. subst. by exists y.
Qed.

Lemma normalize_blank host : TrimSpace host = "" -> forall h, normalizePolicyHostname host <> Ok h.
Proof. intros E h. unfold normalizePolicyHostname. rewrite E. done. Qed.

(** An intercepted request that reaches the network. *)
Lemma mitm_forwarded id req h pol p resp h' :
  compilePolicy pol = Ok p -> pm_policies (h_mgr h) !! id = Some p ->
  policyModeForSandbox id (h_mgr h) = PolicyModeEnforce ->
  handleMITMRequest id req h = (resp, h') ->
  h_net h' <> h_net h ->
  mr_BodyTooLarge req = false /\ body_too_large (proxyService id (h_mgr h)) (mr_Body req) = false /\
  admits_request pol (mitm_policy_request req) /\ validateMITMHostAuthority (mitm_policy_host req) (mitm_authority req) = Ok tt /\
  exists out, h_net h' = (roundTrip_http out (h_net h)).2 /\
    or_Method out = mr_Method req /\ or_Body out = mr_Body req /\ or_Header out = mr_Header req /\
    or_URL out = url_String (url_of (if bool_decide (mr_Scheme req = "") then "https" else mr_Scheme req) (mitm_authority req)
                          (if bool_decide (mr_Path req = "") then "/" else mr_Path req) "" (mr_RawQuery req)).
Proof.
  intros C P E HM NE. unfold handleMITMRequest in HM. rewrite P in HM. unfold HandleMITMRequest in HM.
  fold (mitm_authority req) in HM. fold (mitm_policy_host req) in HM. fold (mitm_policy_request req) in HM.
  destruct (mitmHostPort _ _ _) as [hh pp].
  pose proof (evaluateRequest_iff pol p (mitm_policy_request req) C) as R.
  set (eval := evaluateRequest p (mitm_policy_request req)) in *.
  rewrite (policy_blocks_enforce id (h_mgr h) eval E) in HM.
  assert (DENY : forall s r e, deny recordAccessEvent s r e h = (resp, h') -> False).
  { intros s r e [= <- <-]. by rewrite record_net in NE. }
  destruct (mr_BodyTooLarge req) eqn:B1; [by destruct (DENY _ _ _ HM)|].
  destruct (validateMITMHostAuthority _ _) as [[]|e] eqn:V; [|by destruct (DENY _ _ _ HM)].
  destruct (body_too_large _ _) eqn:B2; [by destruct (DENY _ _ _ HM)|].
  destruct (Allowed eval) eqn:A; cbn [negb] in HM; [|by destruct (DENY _ _ _ HM)].
  case_bool_decide as AE; [injection HM as <- <-; by rewrite record_net in NE|].
  split; [done|]. split; [done|]. assert (AD := proj1 R eq_refl). split; [done|]. split; [done|].
  match type of HM with forward _ _ _ ?cfg ?b ?x ?y ?ev ?out _ = _ =>
    destruct (forward_spec cfg b x y ev out h) as (r & n & res & st & err & F & N); exists out end.
  rewrite F in HM. injection HM as <- <-. rewrite record_net in *. cbn [h_net set_host_net] in *.
  destruct (newRequest_error _ _) eqn:NR; [congruence|]. done.
Qed.

(** C3. Enforcement for intercepted TLS requests: in enforce mode a request
    reaches the network only when its body was inspected, some rule of the
    written policy admits it, and the upstream it is sent to (the authority in
    the URL, unless it is blank) has the very host name the policy admitted; a
    request that names another host in its Host header than the tunnel's
    authority is refused with 403. *)
Theorem mitm_request_enforced id req h pol p resp h' :
  compilePolicy pol = Ok p -> pm_policies (h_mgr h) !! id = Some p ->
  policyModeForSandbox id (h_mgr h) = PolicyModeEnforce ->
  handleMITMRequest id req h = (resp, h') ->
  h_net h' <> h_net h ->
  mr_BodyTooLarge req = false /\ body_too_large (proxyService id (h_mgr h)) (mr_Body req) = false /\
  admits_request pol (mitm_policy_request req) /\
  exists out, h_net h' = (roundTrip_http out (h_net h)).2 /\
    or_Method out = mr_Method req /\ or_Body out = mr_Body req /\ or_Header out = mr_Header req /\
    or_URL out = url_String (url_of (if bool_decide (mr_Scheme req = "") then "https" else mr_Scheme req) (mitm_authority req)
                          (if bool_decide (mr_Path req = "") then "/" else mr_Path req) "" (mr_RawQuery req)) /\
    (TrimSpace (mitm_authority req) <> "" ->
     exists host, normalizePolicyHostname (mitm_policy_host req) = Ok host /\
                  normalizePolicyHostname (mitm_authority req) = Ok host).
Proof.
  intros C P E HM NE. destruct (mitm_forwarded id req h pol p resp h' C P E HM NE) as (B1 & B2 & AD & V & out & O1 & O2 & O3 & O4 & O5).
  split; [done|]. split; [done|]. split; [done|]. exists out. do 5 (split; [done|]).
  intros NB. apply (validate_same_host _ _ V NB). intros Bl.
  destruct AD as (_ & host & r0 & NH & _). by apply (normalize_blank _ Bl host).
Qed.

(** ** CONNECT *)

(** C13. Enforcement for tunnels: in enforce mode a CONNECT (or a transparent
    connection) is answered 200 if and only if the written policy admits the
    destination, and 403 otherwise; in audit mode it is always answered 200. The
    answer and the recorded event agree. *)
Theorem connect_request_enforced id req h pol p :
  compilePolicy pol = Ok p -> pm_policies (h_mgr h) !! id = Some p ->
  exists resp event, handleConnectRequest id req h = (resp, recordAccessEvent event h) /\
    ev_StatusCode event = cs_StatusCode resp /\
    (ev_Allowed event = true <-> cs_StatusCode resp = StatusOK) /\
    (ev_Allowed event = false <-> cs_StatusCode resp = StatusForbidden) /\
    (ev_PolicyAllowed event = true <->
       if cr_Transparent req then admits_transparent pol (cr_Host req)
       else admits_connect pol (cr_Host req) (cr_Port req)) /\
    (policyModeForSandbox id (h_mgr h) = PolicyModeEnforce -> ev_Allowed event = ev_PolicyAllowed event) /\
    (policyModeForSandbox id (h_mgr h) = PolicyModeAudit -> ev_Allowed event = true).
Proof.
  intros C P. unfold handleConnectRequest. rewrite P. unfold HandleConnectRequest.
  destruct (normalizeHostPort _ _) as [hh pp].
  assert (R : Allowed (evaluateConnect p (cr_Host req) (cr_Port req) (cr_Transparent req)) = true <->
    if cr_Transparent req then admits_transparent pol (cr_Host req)
    else admits_connect pol (cr_Host req) (cr_Port req)).
  { destruct (cr_Transparent req); [by apply evaluateTransparent_iff|by apply evaluateConnect_iff]. }
  set (eval := evaluateConnect _ _ _ _) in *. unfold newManagerConnectService.
  destruct (policyModeForSandbox_cases id (h_mgr h)) as [E|E]; rewrite E.
  - change (bool_decide (normalizedPolicyModeOrDefault PolicyModeEnforce = PolicyModeAudit)) with false.
    destruct (Allowed eval) eqn:A; cbn [negb andb]; do 2 eexists; (split; [done|]); cbn; rewrite ?A; naive_solver.
  - change (bool_decide (normalizedPolicyModeOrDefault PolicyModeAudit = PolicyModeAudit)) with true.
    cbn [negb]. rewrite andb_false_r. do 2 eexists. split; [done|]. cbn. naive_solver.
Qed.

(** ** DNS *)

Lemma evaluate_hosts_enforce pol p hosts evals :
  compilePolicy pol = Ok p -> evaluate_hosts p PolicyModeEnforce hosts = inr evals ->
  Forall (admits_dns pol) hosts /\ length evals = length hosts.
Proof.
  intros C. revert evals. induction hosts as [|host hosts IH]; intros evals; simpl; [by intros [= <-]|].
  destruct (Allowed _) eqn:A; simpl; [|done].
  destruct (evaluate_hosts _ _ _) as [d|es]; [done|]. intros [= <-].
  destruct (IH es eq_refl) as [F L]. split; [|simpl; congruence]. constructor; [|done].
  by apply (evaluateDNS_iff pol p host C).
Qed.

Lemma evaluate_hosts_denied p mode hosts host eval :
  evaluate_hosts p mode hosts = inl (host, eval) ->
  host ∈ hosts /\ eval = evaluateDNS p host /\ Allowed eval = false.
Proof.
  induction hosts as [|x hosts IH]; simpl; [done|].
  destruct (negb _ && negb _) eqn:B.
  - intros [= <- <-]. to_prop. set_solver.
  - destruct (evaluate_hosts _ _ _) as [d|es]; [|done]. intros [= ->]. destruct (IH eq_refl). set_solver.
Qed.

Lemma record_hosts_frame id mode a s r e l h :
  h_net (record_hosts id mode a s r e l h) = h_net h.
Proof. revert h. induction l; intros h; simpl; [done|]. unfold record_hosts in *. simpl. rewrite IHl. apply record_net. Qed.

Lemma string_app_nonempty a b : a <> "" -> a +:+ b <> "".
Proof. destruct a; [done|]. by rewrite string_app_cons. Qed.

Lemma try_servers_error network payload servers errs n n' :
  try_servers network payload servers errs n <> (Err "", n').
Proof.
  revert errs n. induction servers as [|s servers IH]; intros errs n; cbn [try_servers].
  - case_bool_decide; congruence.
  - by destruct (dns_exchange _ _ _ _) as [[r|e] n1].
Qed.
Lemma handleQuery_error network payload n n' : handleQuery network payload n <> (Err "", n').
Proof.
  unfold handleQuery. case_bool_decide; [done|].
  unfold validateDNSQuery. destruct (dns_start_error payload); [intros [= E]; by apply string_app_nonempty in E|].
  destruct (dns_AllQuestions payload); [|intros [= E]; by apply string_app_nonempty in E].
  destruct (normalizeDNSNetwork network) eqn:N; [apply try_servers_error|]. intros [= ->].
  unfold normalizeDNSNetwork in N. repeat case_bool_decide; try done.
Qed.

(** The names a query is checked for. *)
Definition checked_hosts (req : DNSRequest) : result (list string) :=
  hosts <-! dnsQuestionHosts (dq_Payload req);
  Ok (if bool_decide (hosts = []) && negb (bool_decide (TrimSpace (dq_Host req) = ""))
      then [TrimSpace (dq_Host req)] else hosts).

(** A name a query asks for: that of one of its questions, without the final dot,
    in lower case. The root has none. *)
Definition asks (payload name : string) : Prop :=
  exists questions q, dns_AllQuestions payload = Ok questions /\ q ∈ questions /\
    name = ToLower (TrimSpace (TrimSuffix q ".")) /\ name <> "".
(** The records of a section without the IPv6 addresses (type 28), in order. *)
Definition without_ipv6 (section kept : list Resource) : Prop :=
  kept `sublist_of` section /\ forall r, r ∈ kept <-> r ∈ section /\ rr_Type r <> 28.
Lemma filterAAAA_without section : without_ipv6 section (filterAAAAResources section).
Proof.
  split; [apply sublist_filter|]. intros r. unfold filterAAAAResources. rewrite list_elem_of_filter. unfold TypeAAAA. tauto.
Qed.
Lemma question_hosts_elem seen questions name :
  name ∈ question_hosts seen questions <->
  name ∉ seen /\ name <> "" /\ exists q, q ∈ questions /\ name = ToLower (TrimSpace (TrimSuffix q ".")).
Proof.
  revert seen. induction questions as [|q questions IH]; intros seen; cbn [question_hosts]; [set_solver|].
  set (host := ToLower (TrimSpace (TrimSuffix q "."))) in *.
  destruct (decide (host = "")) as [E|E]; [rewrite (bool_decide_eq_true_2 (host = "")) by done; cbn [orb]; rewrite IH; set_solver|].
  rewrite (bool_decide_eq_false_2 (host = "")) by done. cbn [orb]. case_bool_decide as S; rewrite ?elem_of_cons, IH; [set_solver|].
  destruct (decide (name = host)) as [->|N]; [set_solver|]. set_solver.
Qed.
Lemma dnsQuestionHosts_asks payload hosts name : dnsQuestionHosts payload = Ok hosts -> name ∈ hosts <-> asks payload name.
Proof.
  unfold dnsQuestionHosts, asks. destruct (dns_start_error payload); [done|]. destruct (dns_AllQuestions payload) as [qs|]; [|done].
  intros [= <-]. rewrite question_hosts_elem. split.
  - intros (_ & N & q & Q & ->). by exists qs, q.
  - intros (qs' & q & [= <-] & Q & -> & N). split; [by apply not_elem_of_nil|]. split; [done|]. by exists q.
Qed.

(** What happens to a query whose names are known. *)
Lemma dns_hosts_enforced id req h pol p resp h' hosts :
  compilePolicy pol = Ok p -> pm_policies (h_mgr h) !! id = Some p ->
  policyModeForSandbox id (h_mgr h) = PolicyModeEnforce ->
  handleDNSRequest id req h = (resp, h') -> checked_hosts req = Ok hosts ->
  (h_net h' <> h_net h -> Forall (admits_dns pol) hosts) /\
  (~ Forall (admits_dns pol) hosts -> h_net h' = h_net h /\ ds_Payload resp = "" /\ ds_Error resp <> "").
Proof.
  intros C P E HD CH. unfold handleDNSRequest in HD. rewrite P in HD. unfold checked_hosts in CH.
  destruct (dnsQuestionHosts (dq_Payload req)) as [qs|e]; [|done]. cbn [result_bind] in CH.
  injection CH as CH. rewrite CH, E in HD.
  destruct (evaluate_hosts p PolicyModeEnforce hosts) as [[host eval]|evals] eqn:EV.
  { injection HD as <- <-. rewrite record_net. by cbn [ds_Payload ds_Error]. }
  by apply (evaluate_hosts_enforce pol p hosts evals C) in EV as [F L].
Qed.
(** The answer in transparent mode, whatever the policy. *)
Lemma dns_transparent_answer id req h p resp h' :
  pm_policies (h_mgr h) !! id = Some p -> handleDNSRequest id req h = (resp, h') ->
  trafficModeForSandbox id (h_mgr h) = TrafficModeTransparent -> ds_Error resp = "" ->
  exists answer n hd an au ad an' au' ad',
    handleQuery (dq_Network req) (dq_Payload req) (h_net h) = (Ok answer, n) /\ dns_Unpack answer = Ok (hd, an, au, ad) /\
    dns_Pack (hd, an', au', ad') = Ok (ds_Payload resp) /\ without_ipv6 an an' /\ without_ipv6 au au' /\ without_ipv6 ad ad'.
Proof.
  intros P HD TM OK. unfold handleDNSRequest in HD. rewrite P in HD.
  destruct (dnsQuestionHosts (dq_Payload req)) as [qs|e] eqn:QH.
  2: { injection HD as <- <-. cbn in OK. subst e. unfold dnsQuestionHosts in QH.
       destruct (dns_start_error _); [injection QH as QH; by apply string_app_nonempty in QH|].
       destruct (dns_AllQuestions _); [done|]. injection QH as QH. by apply string_app_nonempty in QH. }
  destruct (evaluate_hosts p _ _) as [[host eval]|evals]; [by injection HD as <- <-|].
  destruct (handleQuery _ _ _) as [[answer|e] n] eqn:Q; [|injection HD as <- <-; cbn in OK; subst e; by apply handleQuery_error in Q].
  cbn [h_mgr set_host_net] in HD. rewrite bool_decide_eq_true_2 in HD by done. unfold stripAAAARecords in HD.
  destruct (dns_Unpack answer) as [[[[hd an] au] ad]|e] eqn:U; [|by injection HD as <- <-].
  destruct (dns_Pack _) as [s|e] eqn:PK; simpl in HD; injection HD as <- <-; [|done].
  exists answer, n, hd, an, au, ad, (filterAAAAResources an), (filterAAAAResources au), (filterAAAAResources ad).
  split; [done|]. split; [done|]. split; [done|]. split; [apply filterAAAA_without|]. split; apply filterAAAA_without.
Qed.

(** C14. Enforcement for DNS: in enforce mode a query reaches a DNS server only
    if its questions can be read and the written policy admits every name they ask
    for that is not empty (nor the host the request gives, when no question has a
    name: only a query without any name goes unchecked, see
    [dns_nameless_query_unchecked]); a query for a name that is not admitted is
    refused without touching the network. In transparent mode an answer given back
    is the message the server sent, packed again without its AAAA records. *)
Theorem dns_request_enforced id req h pol p resp h' :
  compilePolicy pol = Ok p -> pm_policies (h_mgr h) !! id = Some p ->
  policyModeForSandbox id (h_mgr h) = PolicyModeEnforce -> handleDNSRequest id req h = (resp, h') ->
  (h_net h' <> h_net h ->
   (exists questions, dns_AllQuestions (dq_Payload req) = Ok questions) /\
   (forall name, asks (dq_Payload req) name -> admits_dns pol name) /\
   ((forall name, ~ asks (dq_Payload req) name) -> TrimSpace (dq_Host req) <> "" -> admits_dns pol (TrimSpace (dq_Host req)))) /\
  (forall name, asks (dq_Payload req) name -> ~ admits_dns pol name ->
   h_net h' = h_net h /\ ds_Payload resp = "" /\ ds_Error resp <> "") /\
  (trafficModeForSandbox id (h_mgr h) = TrafficModeTransparent -> ds_Error resp = "" ->
   exists answer n hd an au ad an' au' ad',
     handleQuery (dq_Network req) (dq_Payload req) (h_net h) = (Ok answer, n) /\ dns_Unpack answer = Ok (hd, an, au, ad) /\
     dns_Pack (hd, an', au', ad') = Ok (ds_Payload resp) /\ without_ipv6 an an' /\ without_ipv6 au au' /\ without_ipv6 ad ad').
Proof.
  intros C P E HD.
  assert (T := dns_transparent_answer id req h p resp h' P HD).
  destruct (dnsQuestionHosts (dq_Payload req)) as [qs|e] eqn:QH.
  2: { unfold handleDNSRequest in HD. rewrite P, QH in HD. injection HD as <- <-. split; [done|]. split; [|done].
       intros name (questions & q & Q & _). split; [done|]. split; [done|]. unfold dnsQuestionHosts in QH.
       destruct (dns_start_error _); [injection QH as <-; by apply string_app_nonempty|]. by rewrite Q in QH. }
  pose proof (fun name => dnsQuestionHosts_asks _ _ name QH) as A.
  assert (CH : checked_hosts req = Ok (if bool_decide (qs = []) && negb (bool_decide (TrimSpace (dq_Host req) = ""))
      then [TrimSpace (dq_Host req)] else qs)) by (unfold checked_hosts; by rewrite QH).
  destruct (dns_hosts_enforced id req h pol p resp h' _ C P E HD CH) as [F1 F2]. split; [|split; [|done]].
  - intros N. specialize (F1 N). split; [|split].
    + unfold dnsQuestionHosts in QH. destruct (dns_start_error _); [done|]. destruct (dns_AllQuestions _) as [q|]; [by exists q|done].
    + intros name Hn%A. destruct qs; [by apply not_elem_of_nil in Hn|]. cbn in F1. rewrite Forall_forall in F1. by apply F1.
    + intros Em Hh. destruct qs as [|x qs]; [|destruct (Em x); apply A; by left]. rewrite (bool_decide_eq_true_2 _ eq_refl), (bool_decide_eq_false_2 _ Hh) in F1.
      by inversion F1.
  - intros name Hn%A D. apply F2. intros F. destruct qs; [by apply not_elem_of_nil in Hn|]. cbn in F. rewrite Forall_forall in F. by apply D, F.
Qed.

(** A query without a usable name is not checked: when no question has a
    name (as a query for the root has none) and the request carries no host, the
    query is sent to the DNS servers whatever the policy and the mode, and no
    event is recorded. *)
Theorem dns_nameless_query_unchecked id req h p :
  pm_policies (h_mgr h) !! id = Some p -> checked_hosts req = Ok [] ->
  exists resp, handleDNSRequest id req h =
    (resp, set_host_net (handleQuery (dq_Network req) (dq_Payload req) (h_net h)).2 h).
Proof.
  intros P CH. unfold handleDNSRequest. rewrite P. unfold checked_hosts in CH.
  destruct (dnsQuestionHosts (dq_Payload req)) as [qs|e]; [|done]. cbn [result_bind] in CH.
  injection CH as CH. rewrite CH. cbn [evaluate_hosts].
  destruct (handleQuery _ _ _) as [[payload|e] n]; [|by eexists]. cbn [h_mgr set_host_net].
  destruct (bool_decide (trafficModeForSandbox _ _ = _)); [destruct (stripAAAARecords payload)|]; by eexists.
Qed.

(** ** Audit mode *)

(** The manager with another policy for one sandbox. *)
Definition with_policy (id : string) (p : compiledPolicy) (h : host) : host :=
  {| h_mgr := set_registry (pm_sandboxes (h_mgr h)) (<[id := p]> (pm_policies (h_mgr h))) (h_mgr h);
     h_net := h_net h |}.

Lemma forward_independent cfg b x y ev1 ev2 out (h1 h2 : host) :
  h_net h1 = h_net h2 ->
  (forward h_net set_host_net recordAccessEvent cfg b x y ev1 out h1).1 =
  (forward h_net set_host_net recordAccessEvent cfg b x y ev2 out h2).1 /\
  h_net (forward h_net set_host_net recordAccessEvent cfg b x y ev1 out h1).2 =
  h_net (forward h_net set_host_net recordAccessEvent cfg b x y ev2 out h2).2.
Proof.
  intros E. unfold forward. rewrite E. destruct (newRequest_error _ _); simpl; [by rewrite !record_net|].
  destruct (roundTrip_http _ _) as [[r|e] n]; simpl; [|by rewrite !record_net].
  destruct (readBoundedResponse _ _) as [[bd []]|e]; simpl; by rewrite !record_net.
Qed.

(** Audit mode observes without interfering: for a sandbox in audit mode
    the answers to proxied, intercepted and tunnel requests and everything sent
    to the network are the same under any two policies. *)
Theorem audit_mode_ignores_policy id h p1 p2 preq mreq creq :
  policyModeForSandbox id (h_mgr h) = PolicyModeAudit ->
  let h1 := with_policy id p1 h in
  let h2 := with_policy id p2 h in
  ((handleProxyRequest id preq h1).1 = (handleProxyRequest id preq h2).1 /\
   h_net (handleProxyRequest id preq h1).2 = h_net (handleProxyRequest id preq h2).2) /\
  ((handleMITMRequest id mreq h1).1 = (handleMITMRequest id mreq h2).1 /\
   h_net (handleMITMRequest id mreq h1).2 = h_net (handleMITMRequest id mreq h2).2) /\
  (handleConnectRequest id creq h1).1 = (handleConnectRequest id creq h2).1.
Proof.
  intros E h1 h2. assert (S1 : proxyService id (h_mgr h1) = proxyService id (h_mgr h)) by done.
  assert (S2 : proxyService id (h_mgr h2) = proxyService id (h_mgr h)) by done.
  assert (P1 : pm_policies (h_mgr h1) !! id = Some p1) by apply lookup_insert_eq.
  assert (P2 : pm_policies (h_mgr h2) !! id = Some p2) by apply lookup_insert_eq.
  split; [|split].
  - unfold handleProxyRequest. rewrite P1, P2, S1, S2. unfold HandleProxyRequest.
    destruct (url_Parse _) as [u|e]; [|done]. destruct (normalizeHostPort _ _) as [hh pp].
    destruct (body_too_large _ _); [by simpl; rewrite !record_net|].
    rewrite !policy_blocks_audit by done. by apply forward_independent.
  - unfold handleMITMRequest. rewrite P1, P2, S1, S2. unfold HandleMITMRequest.
    destruct (mitmHostPort _ _ _) as [hh pp]. rewrite !policy_blocks_audit by done.
    destruct (mr_BodyTooLarge mreq); [by simpl; rewrite !record_net|].
    destruct (validateMITMHostAuthority _ _); [|by simpl; rewrite !record_net].
    destruct (body_too_large _ _); [by simpl; rewrite !record_net|].
    fold (mitm_authority mreq). destruct (bool_decide (mitm_authority mreq = "")); [by simpl; rewrite !record_net|]. by apply forward_independent.
  - unfold handleConnectRequest. rewrite P1, P2. unfold HandleConnectRequest.
    destruct (normalizeHostPort _ _) as [hh pp].
    change (policyModeForSandbox id (h_mgr h1)) with (policyModeForSandbox id (h_mgr h)).
    change (policyModeForSandbox id (h_mgr h2)) with (policyModeForSandbox id (h_mgr h)). rewrite E.
    change (bool_decide (newManagerConnectService PolicyModeAudit = PolicyModeAudit)) with true.
    by rewrite !andb_false_r.
Qed.

(** ** Accounting *)

(** The audit state after a sequence of recorded events. *)
Definition audit_after (evs : list accessEvent) : gmap string sandboxAuditState :=
  foldl (fun st e => updateAuditStateLocked e st) ∅ evs.

Lemma audit_after_group evs id :
  id <> "" ->
  audit_after evs !! id =
  group_value (fun _ => newSandboxAuditState) record_event (filter (fun e => ev_SandboxID e = id) evs).
Proof.
  intros N. rewrite <- group_fold. unfold audit_after.
  assert (G : forall a b : gmap string sandboxAuditState, a !! id = b !! id ->
    foldl (fun st e => updateAuditStateLocked e st) a evs !! id =
    foldl (group_update ev_SandboxID (fun _ => newSandboxAuditState) record_event) b evs !! id); [|by apply G].
  induction evs as [|e evs IH]; intros a b E; [done|]. cbn [foldl]. apply IH.
  unfold updateAuditStateLocked, group_update. case_bool_decide as B.
  - rewrite B. by rewrite lookup_insert_ne.
  - destruct (decide (ev_SandboxID e = id)) as [->|N']; [by rewrite !lookup_insert_eq, E|].
    by rewrite !lookup_insert_ne.
Qed.

Lemma audit_after_sandbox evs id :
  id <> "" ->
  default newSandboxAuditState (audit_after evs !! id) = record_all (filter (fun e => ev_SandboxID e = id) evs).
Proof.
  intros N. rewrite audit_after_group by done. unfold record_all. destruct (filter _ _); [done|].
  by cbn [group_value default foldl].
Qed.

(** C19. Exact accounting: whatever events are recorded, in any order and for any
    sandboxes, a sandbox's host row counts exactly its own events for that host
    (attempts, policy allows and denials, violations, which kinds were seen) and
    its request row exactly its own events with that request key (allowed,
    denied, policy allowed, policy denied), a row exists only if there is such
    an event, and two requests without NUL bytes share a row only if kind, host,
    port, method and path are all equal. *)
Theorem audit_accounting_exact evs id host key :
  id <> "" ->
  let state := default newSandboxAuditState (audit_after evs !! id) in
  let mine := filter (fun e => ev_SandboxID e = id) evs in
  match as_hosts state !! host with
  | None => filter (fun e => host_key e = host) mine = []
  | Some x => host_counts (filter (fun e => host_key e = host) mine) x
  end /\
  match as_requests state !! key with
  | None => filter (fun e => event_key e = key) mine = []
  | Some x => request_counts (filter (fun e => event_key e = key) mine) x
  end /\
  forall e1 e2,
    (forall e, e = e1 \/ e = e2 -> nul_free (ev_Kind e) /\ nul_free (host_key e) /\ nul_free (ev_Method e) /\
       0 <= (event_host e).2 <= max_int) ->
    event_key e1 = event_key e2 ->
    ev_Kind e1 = ev_Kind e2 /\ event_host e1 = event_host e2 /\ ev_Method e1 = ev_Method e2 /\ ev_Path e1 = ev_Path e2.
Proof.
  intros N state mine. subst state mine. rewrite (audit_after_sandbox evs id N).
  split; [apply hosts_exact|]. split; [apply requests_exact|]. intros e1 e2 F E.
  destruct (F e1) as (K1 & H1 & M1 & P1); [auto|]. destruct (F e2) as (K2 & H2 & M2 & P2); [auto|].
  unfold event_key in E. apply requestAggregateKey_inj in E as (? & ? & ? & ? & ?); [|done..].
  repeat split; try done. destruct (event_host e1), (event_host e2). simpl in *. congruence.
Qed.

Lemma record_all_host_field evs k x : as_hosts (record_all evs) !! k = Some x -> hs_Host x = k.
Proof.
  rewrite record_all_hosts, group_fold. intros E.
  assert (F : Forall (fun e => host_key e = k) (filter (fun e => host_key e = k) evs)).
  { apply Forall_forall. intros e He. by apply list_elem_of_filter in He as [? _]. }
  revert F. eapply (group_value_ind _ _ (fun es x => Forall (fun e => host_key e = k) es -> hs_Host x = k)); [| |exact E].
  - intros e F. by inversion F.
  - intros es e v IH F. apply IH. by apply Forall_app in F as [F _].
Qed.
Lemma record_all_request_field evs k x :
  as_requests (record_all evs) !! k = Some x ->
  requestAggregateKey (ra_Kind x) (ra_Host x) (ra_Port x) (ra_Method x) (ra_Path x) = k.
Proof.
  rewrite record_all_requests, group_fold. intros E.
  assert (F : Forall (fun e => event_key e = k) (filter (fun e => event_key e = k) evs)).
  { apply Forall_forall. intros e He. by apply list_elem_of_filter in He as [? _]. }
  revert F. eapply (group_value_ind _ _ (fun es x => Forall (fun e => event_key e = k) es ->
    requestAggregateKey (ra_Kind x) (ra_Host x) (ra_Port x) (ra_Method x) (ra_Path x) = k)); [| |exact E].
  - intros e F. by inversion F.
  - intros es e v IH F. apply IH. by apply Forall_app in F as [F _].
Qed.

Lemma elem_of_values {V} (m : gmap string V) l x : l ≡ₚ (map_to_list m).*2 -> x ∈ l -> exists k, m !! k = Some x.
Proof.
  intros P. rewrite P, list_elem_of_fmap. intros ([k v] & -> & M%elem_of_map_to_list). by exists k.
Qed.

(** Reports are deterministic: whatever order Go's map iteration yields the
    rows in, sorting them gives the same list, which is ordered by host, or by
    kind, host, port, method and path, and contains each row once. *)
Theorem snapshots_deterministic evs lh lr :
  let s := record_all evs in
  lh ≡ₚ (map_to_list (as_hosts s)).*2 -> lr ≡ₚ (map_to_list (as_requests s)).*2 ->
  merge_sort host_summary_le lh = snapshotHostSummaries (as_hosts s) /\
  merge_sort aggregate_le lr = snapshotRequestAggregates (as_requests s) /\
  StronglySorted host_summary_le (snapshotHostSummaries (as_hosts s)) /\
  StronglySorted aggregate_le (snapshotRequestAggregates (as_requests s)) /\
  snapshotHostSummaries (as_hosts s) ≡ₚ lh /\ snapshotRequestAggregates (as_requests s) ≡ₚ lr.
Proof.
  intros s Ph Pr. unfold snapshotHostSummaries, snapshotRequestAggregates.
  assert (Sh : forall l, merge_sort host_summary_le l ≡ₚ l) by apply merge_sort_Permutation.
  assert (Sr : forall l, merge_sort aggregate_le l ≡ₚ l) by apply merge_sort_Permutation.
  split; [|split; [|split; [|split; [|split]]]].
  - apply (StronglySorted_unique_strong host_summary_le); try apply StronglySorted_merge_sort; try apply _.
    2: by rewrite !Sh.
    intros x y Hx Hy L1 L2. rewrite Sh in Hx. rewrite Sh in Hy.
    apply (elem_of_values _ _ _ Ph) in Hx as [k Hx]. apply (elem_of_values _ _ _ (reflexivity _)) in Hy as [k' Hy].
    pose proof (string_le_antisym _ _ L1 L2) as E.
    rewrite (record_all_host_field _ _ _ Hx), (record_all_host_field _ _ _ Hy) in E. subst. congruence.
  - apply (StronglySorted_unique_strong aggregate_le); try apply StronglySorted_merge_sort; try apply _.
    2: by rewrite !Sr.
    intros x y Hx Hy L1 L2. rewrite Sr in Hx. rewrite Sr in Hy.
    apply (elem_of_values _ _ _ Pr) in Hx as [k Hx]. apply (elem_of_values _ _ _ (reflexivity _)) in Hy as [k' Hy].
    pose proof (aggregate_le_antisym _ _ L1 L2) as (E1 & E2 & E3 & E4 & E5).
    pose proof (record_all_request_field _ _ _ Hx). pose proof (record_all_request_field _ _ _ Hy). congruence.
  - apply StronglySorted_merge_sort; apply _.
  - apply StronglySorted_merge_sort; apply _.
  - by rewrite Sh, Ph.
  - by rewrite Sr, Pr.
Qed.

(** ** The registry *)

(** A property of the host state kept by recording and by the network is kept by
    every request handler. *)
Section preserve.
Context (P : host -> Prop).
Context (P_record : forall e h, P h -> P (recordAccessEvent e h)) (P_net : forall n h, P h -> P (set_host_net n h)).

Lemma forward_preserves cfg b x y ev out h :
  P h -> P (forward h_net set_host_net recordAccessEvent cfg b x y ev out h).2.
Proof.
  intros HP. destruct (forward_spec cfg b x y ev out h) as (r & n & res & st & err & -> & _). simpl. auto.
Qed.
Lemma proxy_preserves id req h : P h -> P (handleProxyRequest id req h).2.
Proof.
  intros HP. unfold handleProxyRequest. destruct (_ !! id); [|done]. unfold HandleProxyRequest.
  destruct (url_Parse _); [|done]. destruct (normalizeHostPort _ _). unfold deny.
  destruct (body_too_large _ _); [by apply P_record|]. destruct (policy_blocks _ _); [by apply P_record|].
  by apply forward_preserves.
Qed.
Lemma mitm_preserves id req h : P h -> P (handleMITMRequest id req h).2.
Proof.
  intros HP. unfold handleMITMRequest. destruct (_ !! id); [|done]. unfold HandleMITMRequest.
  fold (mitm_authority req). destruct (mitmHostPort _ _ _). unfold deny.
  destruct (mr_BodyTooLarge _); [by apply P_record|].
  destruct (validateMITMHostAuthority _ _); [|by apply P_record].
  destruct (body_too_large _ _); [by apply P_record|]. destruct (policy_blocks _ _); [by apply P_record|].
  destruct (bool_decide (mitm_authority req = "")); [by apply P_record|]. by apply forward_preserves.
Qed.
Lemma connect_preserves id req h : P h -> P (handleConnectRequest id req h).2.
Proof.
  intros HP. unfold handleConnectRequest. destruct (_ !! id); [|done]. unfold HandleConnectRequest.
  destruct (normalizeHostPort _ _). destruct (_ && _); by apply P_record.
Qed.
Lemma record_hosts_preserves id mode a s r e l h : P h -> P (record_hosts id mode a s r e l h).
Proof. unfold record_hosts. revert h. induction l; intros h HP; simpl; auto. Qed.
Lemma dns_preserves id req h : P h -> P (handleDNSRequest id req h).2.
Proof.
  intros HP. unfold handleDNSRequest. destruct (_ !! id); [|done]. destruct (dnsQuestionHosts _); [|done].
  destruct (evaluate_hosts _ _ _) as [[]|]; [by apply P_record|].
  destruct (handleQuery _ _ _) as [[payload|e] n]; [|by apply record_hosts_preserves, P_net].
  destruct (bool_decide (trafficModeForSandbox _ _ = _)); [destruct (stripAAAARecords payload)|];
    cbn [snd]; auto using record_hosts_preserves.
Qed.
End preserve.

Inductive host_reachable (h0 : host) : host -> Prop :=
| hr_start : host_reachable h0 h0
| hr_register id policy h m : host_reachable h0 h -> registerSandbox id policy (h_mgr h) = Ok m ->
    host_reachable h0 {| h_mgr := m; h_net := h_net h |}
| hr_attach id sandbox h m : host_reachable h0 h -> attachSandbox id sandbox (h_mgr h) = Ok m ->
    host_reachable h0 {| h_mgr := m; h_net := h_net h |}
| hr_unregister id h : host_reachable h0 h ->
    host_reachable h0 {| h_mgr := unregisterSandbox id (h_mgr h); h_net := h_net h |}
| hr_proxy id req h : host_reachable h0 h -> host_reachable h0 (handleProxyRequest id req h).2
| hr_mitm id req h : host_reachable h0 h -> host_reachable h0 (handleMITMRequest id req h).2
| hr_connect id req h : host_reachable h0 h -> host_reachable h0 (handleConnectRequest id req h).2
| hr_dns id req h : host_reachable h0 h -> host_reachable h0 (handleDNSRequest id req h).2
| hr_net n h : host_reachable h0 h -> host_reachable h0 (set_host_net n h).

(** Registry, policies and audit state speak of the same sandboxes. *)
Definition manager_inv (m : ProxyManager) : Prop :=
  forall id, (is_Some (pm_sandboxes m !! id) <-> is_Some (pm_policies m !! id)) /\
             (is_Some (pm_sandboxes m !! id) <-> is_Some (auditStateLocked m !! id)) /\
             (is_Some (pm_sandboxes m !! id) -> id <> "").

Lemma is_Some_insert {V} (m : gmap string V) k v k' : is_Some (<[k := v]> m !! k') <-> k' = k \/ is_Some (m !! k').
Proof.
  destruct (decide (k' = k)) as [->|N]; [rewrite lookup_insert_eq; naive_solver|].
  rewrite lookup_insert_ne by done. naive_solver.
Qed.
Lemma is_Some_delete {V} (m : gmap string V) k k' : is_Some (delete k m !! k') <-> k' <> k /\ is_Some (m !! k').
Proof.
  destruct (decide (k' = k)) as [->|N]; [rewrite lookup_delete_eq; split; [by intros []|naive_solver]|].
  rewrite lookup_delete_ne by done. naive_solver.
Qed.

Lemma record_manager_inv e h : manager_inv (h_mgr h) -> manager_inv (h_mgr (recordAccessEvent e h)).
Proof.
  intros I. unfold recordAccessEvent. case_bool_decide as E0; [done|]. case_bool_decide as S; [|done].
  intros id. destruct (I id) as (I1 & I2 & I3). cbn [h_mgr set_audit pm_sandboxes pm_policies pm_audit].
  split; [done|]. split; [|done]. unfold auditStateLocked at 1. cbn [pm_audit set_audit default].
  unfold updateAuditStateLocked. cbn [event_stamp ev_SandboxID] in *.
  rewrite (bool_decide_eq_false_2 (ev_SandboxID e = "")) by done. unfold Datatypes.id. rewrite is_Some_insert. naive_solver.
Qed.
Lemma register_manager_inv id policy m m' :
  manager_inv m -> registerSandbox id policy m = Ok m' -> manager_inv m'.
Proof.
  intros I. unfold registerSandbox, Register. case_bool_decide as E0; [done|]. case_bool_decide as S; [done|].
  cbn [result_bind]. intros [= <-] id'. unfold initAuditStateLocked. rewrite bool_decide_eq_false_2 by done.
  destruct (I id') as (I1 & I2 & I3). destruct (I id) as (_ & J2 & _). cbn.
  unfold auditStateLocked in *. cbn in *. rewrite !is_Some_insert.
  split; [naive_solver|]. split; [|naive_solver].
  rewrite bool_decide_eq_false_2 by naive_solver. rewrite is_Some_insert. naive_solver.
Qed.
Lemma unregister_manager_inv id m : manager_inv m -> manager_inv (unregisterSandbox id m).
Proof.
  intros I id'. destruct (I id') as (I1 & I2 & I3). unfold unregisterSandbox, removeAuditStateLocked.
  case_bool_decide as E0.
  - subst. unfold Unregister, auditStateLocked in *. cbn in *. rewrite !is_Some_delete. naive_solver.
  - unfold Unregister. cbn. unfold auditStateLocked in *. destruct (pm_audit m) as [st|] eqn:A; cbn in *.
    + assert (D : default ∅ (if bool_decide (delete id st = ∅) then None else Some (delete id st)) = delete id st).
      { case_bool_decide; [by symmetry|done]. }
      rewrite D, !is_Some_delete. naive_solver.
    + rewrite A. cbn. rewrite !is_Some_delete. rewrite lookup_empty in *. naive_solver.
Qed.

(** C20. The registry invariant: from a manager without sandboxes, after any
    sequence of registrations, attachments, removals and requests, exactly the
    same sandboxes have a registry entry, a policy and an audit state; removing
    a sandbox forgets its audit state, and a later registration under the same
    name starts with empty reports. *)
Theorem manager_registry_invariant h0 h id policy m' :
  pm_sandboxes (h_mgr h0) = ∅ -> pm_policies (h_mgr h0) = ∅ -> pm_audit (h_mgr h0) = None ->
  host_reachable h0 h ->
  manager_inv (h_mgr h) /\
  pm_policies (unregisterSandbox id (h_mgr h)) !! id = None /\
  (registerSandbox id policy (unregisterSandbox id (h_mgr h)) = Ok m' ->
     accessSummarySnapshot id m' = {| sum_Hosts := []; sum_Requests := [] |}).
Proof.
  intros Z1 Z2 Z3 R.
  assert (I : manager_inv (h_mgr h)).
  { induction R; eauto using register_manager_inv, unregister_manager_inv.
    - intros id0. unfold auditStateLocked. rewrite Z1, Z2, Z3. cbn. rewrite !lookup_empty. naive_solver.
    - unfold attachSandbox, Attach in *. case_bool_decide as S; [|done]. simplify_eq. intros id1.
      destruct (IHR id1) as (I1 & I2 & I3). unfold auditStateLocked in *. cbn. rewrite is_Some_insert. naive_solver.
    - apply (proxy_preserves (fun h => manager_inv (h_mgr h))); auto using record_manager_inv.
    - apply (mitm_preserves (fun h => manager_inv (h_mgr h))); auto using record_manager_inv.
    - apply (connect_preserves (fun h => manager_inv (h_mgr h))); auto using record_manager_inv.
    - apply (dns_preserves (fun h => manager_inv (h_mgr h))); auto using record_manager_inv. }
  split; [done|]. pose proof (unregister_manager_inv id _ I) as IU.
  assert (PN : pm_sandboxes (unregisterSandbox id (h_mgr h)) !! id = None).
  { unfold unregisterSandbox, removeAuditStateLocked, Unregister. case_bool_decide; [by cbn; rewrite lookup_delete_eq|].
    cbn. destruct (pm_audit (h_mgr h)); cbn; by rewrite lookup_delete_eq. }
  destruct (IU id) as (U1 & U2 & _). rewrite PN in U1, U2. split; [apply eq_None_not_Some; naive_solver|].
  unfold registerSandbox, Register. case_bool_decide as E0; [done|]. case_bool_decide as S; [done|].
  cbn [result_bind]. intros [= <-]. unfold accessSummarySnapshot, initAuditStateLocked.
  rewrite (bool_decide_eq_false_2 (id = "")) by done. unfold auditStateLocked in *. cbn -[unregisterSandbox] in *.
  rewrite bool_decide_eq_false_2 by naive_solver. rewrite lookup_insert_eq. done.
Qed.
End theorems.

(** * Witnesses *)

Section witnesses.
#[local] Existing Instance sampleLib.
#[local] Existing Instance sampleNet.

(** Two sandboxes under [demo_policy']: "box" enforcing and transparent, "lab" auditing. *)
Definition demo_manager : ProxyManager := {|
  pm_defaultPolicy := compiled demo_policy';
  pm_sandboxes := <["box" := Some {| sb_trafficMode := "transparent"; sb_policyMode := "enforce" |}]>
                  (<["lab" := Some {| sb_trafficMode := "proxy"; sb_policyMode := "audit" |}]> ∅);
  pm_policies := <["box" := compiled demo_policy']> (<["lab" := compiled demo_policy']> ∅);
  pm_audit := Some (<["box" := newSandboxAuditState]> (<["lab" := newSandboxAuditState]> ∅));
  pm_hasLogger := true; pm_log := []; pm_requestBodyLimitBytes := 1000; pm_responseBodyLimitBytes := 0;
  pm_policyMode := "" |}.
Definition demo_host : @host sampleLib sampleNet := {| h_mgr := demo_manager; h_net := ([] : @nstate sampleNet) |}.
Definition get_request (url : string) : ProxyRequest :=
  {| pr_Method := "GET"; pr_URL := url; pr_Header := []; pr_Body := "" |}.
Definition demo_url : URL :=
  url_of "http" "www.example.com" "/x" "" "".

Lemma demo_policy_compiles : compilePolicy demo_policy' = Ok (compiled demo_policy').
Proof. eval_ok. Qed.

Lemma proxy_request_enforced_witness :
  exists resp event n, handleProxyRequest "box" (get_request "http://www.example.com/x") demo_host =
    (resp, recordAccessEvent event (set_host_net n demo_host)) /\ ev_Kind event = "http".
Proof.
  destruct (proxy_request_enforced "box" (get_request "http://www.example.com/x") demo_host
    demo_policy' (compiled demo_policy') demo_url) as (resp & event & n & E & _ & K & _).
  - apply demo_policy_compiles.
  - reflexivity.
  - vm_compute. reflexivity.
  - vm_compute. reflexivity.
  - exists resp, event, n. split; [exact E|exact K].
Defined.

Definition mitm_get (authority host : string) : MITMRequest := {|
  mr_Scheme := ""; mr_Authority := authority; mr_Host := host; mr_Method := "GET"; mr_Path := "/";
  mr_RawQuery := ""; mr_Header := []; mr_Body := ""; mr_Proto := "HTTP/1.1"; mr_BodyTooLarge := false |}.
Lemma mitm_request_enforced_witness :
  admits_request demo_policy' (mitm_policy_request (mitm_get "www.example.com:443" "WWW.example.com")).
Proof.
  destruct (mitm_request_enforced "box" (mitm_get "www.example.com:443" "WWW.example.com") demo_host
    demo_policy' (compiled demo_policy')
    (handleMITMRequest "box" (mitm_get "www.example.com:443" "WWW.example.com") demo_host).1
    (handleMITMRequest "box" (mitm_get "www.example.com:443" "WWW.example.com") demo_host).2) as (_ & _ & A & _).
  - apply demo_policy_compiles.
  - reflexivity.
  - vm_compute. reflexivity.
  - apply surjective_pairing.
  - vm_compute. discriminate.
  - exact A.
Defined.

Definition connect_to (host : string) : ConnectRequest :=
  {| cr_Host := host; cr_Port := 8443; cr_Transparent := false; cr_ProtocolMetadata := ("tls", "sni", "definite") |}.
Lemma connect_request_enforced_witness :
  exists resp event, handleConnectRequest "box" (connect_to "api.example.com") demo_host =
    (resp, recordAccessEvent event demo_host) /\ ev_Allowed event = ev_PolicyAllowed event.
Proof.
  destruct (connect_request_enforced "box" (connect_to "api.example.com") demo_host demo_policy'
    (compiled demo_policy')) as (resp & event & E & _ & _ & _ & _ & A & _).
  - apply demo_policy_compiles.
  - reflexivity.
  - exists resp, event. split; [exact E|]. apply A. vm_compute. reflexivity.
Defined.

Definition dns_query (name : string) : DNSRequest :=
  {| dq_Network := "udp"; dq_Host := ""; dq_Port := 53; dq_Payload := name |}.
Lemma dns_request_enforced_witness :
  admits_dns demo_policy' "www.example.com" /\
  (handleDNSRequest "box" (dns_query "WWW.example.com.") demo_host).1 = {| ds_Payload := "A1.2.3.4"; ds_Error := "" |}.
Proof.
  split; [|vm_compute; reflexivity].
  destruct (dns_request_enforced "box" (dns_query "WWW.example.com.") demo_host demo_policy' (compiled demo_policy')
    (handleDNSRequest "box" (dns_query "WWW.example.com.") demo_host).1
    (handleDNSRequest "box" (dns_query "WWW.example.com.") demo_host).2) as [N _].
  - apply demo_policy_compiles.
  - reflexivity.
  - vm_compute. reflexivity.
  - apply surjective_pairing.
  - apply N; [vm_compute; discriminate|]. exists ["WWW.example.com."], "WWW.example.com.".
    split; [reflexivity|]. split; [left|]. split; [vm_compute; reflexivity|discriminate].
Defined.

Lemma dns_nameless_query_unchecked_witness :
  exists resp, handleDNSRequest "box" (dns_query ".") demo_host =
    (resp, set_host_net (handleQuery "udp" "." []).2 demo_host).
Proof.
  apply (dns_nameless_query_unchecked "box" (dns_query ".") demo_host (compiled demo_policy')).
  - reflexivity.
  - vm_compute. reflexivity.
Defined.

Lemma audit_mode_ignores_policy_witness :
  (handleConnectRequest "lab" (connect_to "x") (with_policy "lab" {| rules := [] |} demo_host)).1 =
  (handleConnectRequest "lab" (connect_to "x") (with_policy "lab" (compiled demo_policy') demo_host)).1.
Proof.
  apply (audit_mode_ignores_policy "lab" demo_host {| rules := [] |} (compiled demo_policy')
    (get_request "") (mitm_get "" "") (connect_to "x")).
  vm_compute. reflexivity.
Defined.

Definition demo_event (host : string) (allowed : bool) : accessEvent :=
  event_outcome allowed 200 "allowed" "" (event_base "box" "dns" ("", "", "") host 53 "" "").
Lemma audit_accounting_exact_witness :
  match as_hosts (default newSandboxAuditState
          (audit_after [demo_event "A.com" true; demo_event "b.com" true; demo_event "a.com" false] !! "box")) !! "a.com" with
  | None => False
  | Some x => hs_Attempts x = 2
  end.
Proof.
  pose proof (audit_accounting_exact [demo_event "A.com" true; demo_event "b.com" true; demo_event "a.com" false]
    "box" "a.com" "" ltac:(discriminate)) as (A & _).
  destruct (as_hosts _ !! "a.com") as [x|].
  - destruct A as (A & _). rewrite A. vm_compute. reflexivity.
  - vm_compute in A. discriminate A.
Defined.

Lemma snapshots_deterministic_witness :
  let s := record_all [demo_event "A.com" true; demo_event "b.com" true] in
  merge_sort host_summary_le (reverse (map_to_list (as_hosts s)).*2) = snapshotHostSummaries (as_hosts s).
Proof.
  apply (snapshots_deterministic [demo_event "A.com" true; demo_event "b.com" true] _
    (map_to_list (as_requests (record_all [demo_event "A.com" true; demo_event "b.com" true]))).*2).
  - apply reverse_Permutation.
  - reflexivity.
Defined.

(** A manager without sandboxes, one registration, one tunnel request. *)
Definition empty_host : @host sampleLib sampleNet :=
  {| h_mgr := set_audit None [] (set_registry ∅ ∅ demo_manager); h_net := ([] : @nstate sampleNet) |}.
Definition registered_host : @host sampleLib sampleNet :=
  {| h_mgr := the (h_mgr empty_host) (registerSandbox "box" None (h_mgr empty_host)); h_net := h_net empty_host |}.
Lemma manager_registry_invariant_witness :
  manager_inv (h_mgr (handleConnectRequest "box" (connect_to "api.example.com") registered_host).2).
Proof.
  apply (manager_registry_invariant empty_host
    (handleConnectRequest "box" (connect_to "api.example.com") registered_host).2 "box" None demo_manager).
  - reflexivity.
  - reflexivity.
  - reflexivity.
  - apply hr_connect. apply (hr_register empty_host "box" None empty_host); [apply hr_start|].
    apply the_ok. vm_compute. reflexivity.
Defined.
End witnesses.
