(* ===== verification/Docker.v ===== *)
(** Mediation of the Docker socket: operations ([docker_socket_mapping.go]),
    policy ([docker_socket_policy.go]), inspection of builds
    ([docker_socket_build.go]) and the proxy handler ([docker_socket_proxy.go]).

    [archive/tar], [encoding/json], query parsing, the HTTP client of the daemon
    socket and the client's connection are the class [DockerEnv]. *)
From S2P Require Import Prelude GoStrings GoPath GoNet Sys Policy Access Manager.

(** * Written policies *)

Record DockerHTTPMatch := { dh_Methods : list string; dh_PathPatterns : list string }.
Record DockerBuildMatch := { db_Context : string; db_DockerfilePaths : list string }.
Record DockerSocketRule := {
  dr_Action : string;
  dr_Operations : list string;
  dr_HTTP : option DockerHTTPMatch;
  dr_Build : option DockerBuildMatch;
}.
Record DockerSocketPolicy := { dp_DefaultAction : string; dp_Rules : list DockerSocketRule }.

Definition DockerRuleActionAllow : string := "allow".
Definition DockerRuleActionDeny : string := "deny".
Definition DockerBuildContextMatchLocalOnly : string := "local_only".

(** What the proxy knows of a request. *)
Record dockerBuildRequest := { br_Dockerfile : string; br_Remote : string; br_Tags : list string; br_BodyKind : string }.
Record dockerSocketRequest := {
  dq_Method' : string; dq_Path' : string; dq_Operation : string; dq_Build : option dockerBuildRequest;
}.

Section docker.
Context `{GoLib}.

Definition normalizeDockerOperation (op : string) : string := ToLower (TrimSpace op).

(** * Paths and operations *)

Fixpoint skip_digits (s : string) : nat * string :=
  match s with
  | String c s' => if is_digit c then let '(n, rest) := skip_digits s' in (S n, rest) else (O, s)
  | "" => (O, "")
  end.
Definition at_boundary (s : string) : bool := match s with "" => true | String c _ => bool_decide (c = "/"%char) end.
(** [dockerAPIVersionPrefixRe.ReplaceAllString(s, "/")]: a leading /v1 or /v1.2
    followed by a slash or the end, with that slash, becomes a slash. *)
Definition strip_version (s : string) : string :=
  let cut rest := String "/" (match rest with "" => "" | String _ r => r end) in
  match s with
  | String "/" (String "v" v) =>
      let '(n, rest) := skip_digits v in
      match n with
      | O => s
      | S _ =>
          if at_boundary rest then cut rest
          else match rest with
               | String "." f =>
                   let '(n, rest) := skip_digits f in
                   match n with
                   | O => s
                   | S _ => if at_boundary rest then cut rest else s
                   end
               | _ => s
               end
      end
  | _ => s
  end.

Definition normalizeDockerAPIPath (path : string) : string :=
  let normalized := TrimSpace path in
  if bool_decide (normalized = "") then "/"
  else
    let normalized := match IndexByte normalized "?" with Some i => string_take i normalized | None => normalized end in
    if bool_decide (normalized = "") then "/"
    else
      let normalized := if HasPrefix normalized "/" then normalized else "/" +:+ normalized in
      let normalized := strip_version normalized in
      if bool_decide (normalized = "") then "/"
      else if 1 <? slen normalized then
        let trimmed := TrimRightByte normalized "/" in
        if bool_decide (trimmed = "") then "/" else trimmed
      else normalized.

Definition splitPathSegments (path : string) : list string :=
  let trimmed := TrimByte path "/" in
  if bool_decide (trimmed = "") then [] else SplitByte trimmed "/".
Definition pathSegmentCount (path : string) : Z := Z.of_nat (length (splitPathSegments path)).
Fixpoint match_segments (segments pattern : list string) : bool :=
  match segments, pattern with
  | [], [] => true
  | s :: segments, p :: pattern =>
      (if bool_decide (p = "*") then negb (bool_decide (s = "")) else bool_decide (s = p)) &&
      match_segments segments pattern
  | _, _ => false
  end.
Definition matchPathPattern (path pattern : string) : bool :=
  match_segments (splitPathSegments path) (splitPathSegments pattern).

Record dockerRequestMeta := { dm_Method : string; dm_Path : string; dm_Operation : string }.
Definition mapDockerRequest (method path : string) : dockerRequestMeta :=
  let m := ToUpper (TrimSpace method) in
  let p := normalizeDockerAPIPath path in
  let eq (x y : string) := bool_decide (x = y) in
  {| dm_Method := m; dm_Path := p;
     dm_Operation :=
       if eq m "POST" && eq p "/images/create" then "image_pull"
       else if eq m "GET" && HasPrefix p "/images/" && HasSuffix p "/json" && (3 <=? pathSegmentCount p)
       then "image_inspect"
       else if eq m "POST" && eq p "/build" then "build"
       else if eq m "POST" && matchPathPattern p "/containers/*/exec" then "exec_create"
       else if eq m "POST" && matchPathPattern p "/exec/*/start" then "exec_start"
       else if eq m "GET" && matchPathPattern p "/containers/*/archive" then "archive_read"
       else "unknown" |}.

Definition isPhase1DockerOperationSupported (op : string) : bool :=
  let op := normalizeDockerOperation op in
  bool_decide (op ∈ ["image_pull"; "image_inspect"; "build"]).
Definition requiresDockerSocketRequestInspection (op : string) : bool :=
  bool_decide (normalizeDockerOperation op = "build").

(** * Policy *)

Record compiledDockerBuildMatch := { cb_context : string; cb_dockerfilePatterns : list regexp }.
Record compiledDockerSocketRule := {
  cd_action : string;
  cd_operations : gset string;
  cd_httpMethods : gset string;
  cd_pathPatterns : list regexp;
  cd_build : option compiledDockerBuildMatch;
}.
Record compiledDockerSocketPolicy := { cd_defaultAction : string; cd_rules : list compiledDockerSocketRule }.

Definition normalizeDockerRuleAction (action : string) (allowDefault : bool) : result string :=
  let normalized := ToLower (TrimSpace action) in
  if bool_decide (normalized = "") && allowDefault then Ok DockerRuleActionDeny
  else if bool_decide (normalized = DockerRuleActionAllow) || bool_decide (normalized = DockerRuleActionDeny)
  then Ok normalized
  else Err ("invalid docker rule action " +:+ Quote action).
Definition normalizeDockerBuildContextMatch (value : string) : result string :=
  let normalized := ToLower (TrimSpace value) in
  if bool_decide (normalized = "") || bool_decide (normalized = DockerBuildContextMatchLocalOnly) then Ok normalized
  else Err ("invalid docker build context match " +:+ Quote value).

(** The loops that normalise names and refuse the empty one. *)
Definition compile_names (norm : string -> string) (err : string) (names : list string) : result (list string) :=
  result_map (fun name => guard! negb (bool_decide (norm name = "")) else err; Ok (norm name)) names.

Definition compileDockerBuildMatch (index : Z) (m : DockerBuildMatch) : result compiledDockerBuildMatch :=
  context <-! result_wrap (fun e => "rule " +:+ Itoa index +:+ " build context: " +:+ e)
                (normalizeDockerBuildContextMatch (db_Context m));
  patterns <-! compileRegexps (db_DockerfilePaths m) (rule_error index "compile" "build dockerfile path pattern");
  Ok {| cb_context := context; cb_dockerfilePatterns := patterns |}.

Definition compileDockerSocketRule (index : Z) (rule : DockerSocketRule) : result compiledDockerSocketRule :=
  action <-! result_wrap (fun e => "rule " +:+ Itoa index +:+ " action: " +:+ e)
               (normalizeDockerRuleAction (dr_Action rule) false);
  operations <-! compile_names normalizeDockerOperation
                   ("rule " +:+ Itoa index +:+ " operation cannot be empty") (dr_Operations rule);
  methods <-! compile_names normalize_method
                ("rule " +:+ Itoa index +:+ " HTTP method cannot be empty")
                (match dr_HTTP rule with Some h => dh_Methods h | None => [] end);
  patterns <-! compileRegexps (match dr_HTTP rule with Some h => dh_PathPatterns h | None => [] end)
                 (rule_error index "compile" "HTTP path pattern");
  build <-! match dr_Build rule with
            | None => Ok None
            | Some b => b <-! compileDockerBuildMatch index b; Ok (Some b)
            end;
  Ok {| cd_action := action; cd_operations := list_to_set operations; cd_httpMethods := list_to_set methods;
        cd_pathPatterns := patterns; cd_build := build |}.

Fixpoint compile_docker_rules (index : Z) (rules : list DockerSocketRule) : result (list compiledDockerSocketRule) :=
  match rules with
  | [] => Ok []
  | rule :: rules =>
      compiled <-! compileDockerSocketRule index rule;
      rest <-! compile_docker_rules (index + 1) rules;
      Ok (compiled :: rest)
  end.
Definition compileDockerSocketPolicy (policy : DockerSocketPolicy) : result compiledDockerSocketPolicy :=
  defaultAction <-! normalizeDockerRuleAction (dp_DefaultAction policy) true;
  rules <-! compile_docker_rules 0 (dp_Rules policy);
  Ok {| cd_defaultAction := defaultAction; cd_rules := rules |}.

Definition no_patterns (l : list regexp) : bool := match l with [] => true | _ => false end.
Definition build_matches (m : compiledDockerBuildMatch) (req : option dockerBuildRequest) : bool :=
  match req with
  | None => false
  | Some b =>
      (if bool_decide (cb_context m = DockerBuildContextMatchLocalOnly)
       then bool_decide (br_Remote b = "") && bool_decide (br_BodyKind b = "tar") else true) &&
      (no_patterns (cb_dockerfilePatterns m) || matches_any (cb_dockerfilePatterns m) (br_Dockerfile b))
  end.
Definition rule_matches (r : compiledDockerSocketRule) (req : dockerSocketRequest) : bool :=
  (bool_decide (cd_operations r = ∅) || bool_decide (normalizeDockerOperation (dq_Operation req) ∈ cd_operations r)) &&
  (bool_decide (cd_httpMethods r = ∅) || bool_decide (normalize_method (dq_Method' req) ∈ cd_httpMethods r)) &&
  (let path := TrimSpace (dq_Path' req) in
   no_patterns (cd_pathPatterns r) ||
   matches_any (cd_pathPatterns r) (if bool_decide (path = "") then "/" else path)) &&
  match cd_build r with None => true | Some b => build_matches b (dq_Build req) end.
Definition evaluateDocker (p : compiledDockerSocketPolicy) (req : dockerSocketRequest) : string :=
  match list_find (fun r => rule_matches r req = true) (cd_rules p) with
  | Some (_, r) => cd_action r
  | None => if bool_decide (cd_defaultAction p = "") then DockerRuleActionDeny else cd_defaultAction p
  end.
End docker.

(** * Builds *)

Definition normalizeDockerBuildPath (value : string) : string :=
  let trimmed := TrimSpace value in
  if bool_decide (trimmed = "") then "Dockerfile"
  else
    let cleaned := path_Clean (ReplaceByte trimmed "\" "/") in
    if bool_decide (cleaned = ".") || bool_decide (cleaned = "") then ""
    else if HasPrefix cleaned "/" then ""
    else if bool_decide (cleaned = "..") then ""
    else if HasPrefix cleaned "../" then ""
    else cleaned.

Definition normalizeDockerBuildTags (values : list string) : list string :=
  filter (fun t => t <> "") (TrimSpace <$> values).

(** The body kind after one more signal. *)
Definition setDockerBuildBodyKind (current kind : string) : result string :=
  if bool_decide (kind = "") then Ok current
  else if bool_decide (current = "") then Ok kind
  else if bool_decide (current = kind) then Ok current
  else Err ("conflicting docker build context signals: " +:+ current +:+ " and " +:+ kind).

Section push.
Context `{GoLib}.
Definition push_word (value : string) : string := ToLower (TrimSpace value).
Fixpoint parseDockerBuildPush (values : list string) : result bool :=
  match values with
  | [] => Ok false
  | value :: values =>
      let w := push_word value in
      if bool_decide (w ∈ ["1"; "t"; "true"; "yes"]) then rest <-! parseDockerBuildPush values; Ok true
      else if bool_decide (w ∈ ["0"; "f"; "false"; "no"]) then parseDockerBuildPush values
      else if bool_decide (w = "") then Err "docker build push parameter cannot be empty"
      else Err ("docker build push parameter " +:+ Quote value +:+ " is ambiguous")
  end.
End push.

(** A request of the sandboxed Docker client. *)
Record ClientRequest := {
  cl_Method : string; cl_Path : string; cl_RawPath : string; cl_RawQuery : string;
  cl_Host : string; cl_Header : Header; cl_Body : option stream; cl_ContentLength : Z;
}.
(** The request to the daemon: as received, but for its headers and a body that
    was read before. *)
Record DaemonRequest := {
  dd_Method : string; dd_Path : string; dd_RawPath : string; dd_RawQuery : string;
  dd_Host : string; dd_Header : Header; dd_Body : option stream; dd_ContentLength : Z;
}.

Class DockerEnv `{Net} := {
  (** [url.URL.Query]: the values of each key. *)
  url_Query : string -> gmap string (list string);
  (** The entry names of a tar archive up to its end or an error. *)
  tar_Names : string -> list string * option string;
  (** The length of a JSON array of objects. *)
  json_objects : string -> result nat;
  daemon_request_error : DaemonRequest -> option string;
  daemon_Do : DaemonRequest -> nstate -> result Response * nstate;
  (** The error of writing the answer to the client, if any. *)
  client_write_error : nstate -> option string;
}.

Section build.
Context `{GoLib} `{DockerEnv}.

Fixpoint check_outputs (values : list string) : result unit :=
  match values with
  | [] => Ok tt
  | value :: values =>
      let trimmed := TrimSpace value in
      if bool_decide (trimmed = "") then Err "docker build outputs parameter cannot be empty"
      else match json_objects trimmed with
           | Err e => Err ("parse docker build outputs: " +:+ e)
           | Ok O => Err "docker build outputs parameter cannot be empty"
           | Ok (S _) => check_outputs values
           end
  end.
Definition detectDockerBuildExport (query : gmap string (list string)) : result string :=
  push <-! match query !! "push" with Some values => parseDockerBuildPush values | None => Ok false end;
  if push : bool then Ok "export"
  else
    match query !! "output" with
    | Some values =>
        if existsb (fun v => bool_decide (TrimSpace v = "")) values
        then Err "docker build output parameter cannot be empty" else Ok "export"
    | None =>
        match query !! "outputs" with
        | Some values => _ <-! check_outputs values; Ok "export"
        | None => Ok ""
        end
    end.

Definition validateDockerBuildContextBody (header : Header) (body dockerfilePath : string) : result bool :=
  if bool_decide (body = "") then Ok false
  else
    let contentType := TrimSpace (header_Get header "Content-Type") in
    if negb (bool_decide (contentType = "")) && negb (HasPrefix (ToLower contentType) "application/x-tar")
    then Err ("unsupported docker build content type " +:+ Quote contentType)
    else
      match tar_Names body with
      | (_, Some e) => Err ("read docker build context tar: " +:+ e)
      | (names, None) =>
          if existsb (fun name => bool_decide (normalizeDockerBuildPath name = dockerfilePath)) names then Ok true
          else Err ("docker build context missing dockerfile " +:+ Quote dockerfilePath)
      end.

(** [url.Values.Get]: the first value, or none. *)
Definition query_Get (query : gmap string (list string)) (key : string) : string :=
  match query !! key with Some (v :: _) => v | _ => "" end.

Definition inspectDockerBuildRequest (req : ClientRequest) (body : string) : result dockerBuildRequest :=
  let query := url_Query (cl_RawQuery req) in
  let dockerfile := normalizeDockerBuildPath (query_Get query "dockerfile") in
  let remote := TrimSpace (query_Get query "remote") in
  let tags := normalizeDockerBuildTags (default [] (query !! "t")) in
  if bool_decide (dockerfile = "") then Err "build dockerfile path cannot be empty"
  else
    kind <-! (if negb (bool_decide (remote = "")) then setDockerBuildBodyKind "" "remote" else Ok "");
    exportKind <-! detectDockerBuildExport query;
    kind <-! setDockerBuildBodyKind kind exportKind;
    hasTarBody <-! validateDockerBuildContextBody (cl_Header req) body dockerfile;
    kind <-! (if hasTarBody : bool then setDockerBuildBodyKind kind "tar" else Ok kind);
    if bool_decide (kind = "") then Err "unsupported docker build request body"
    else Ok {| br_Dockerfile := dockerfile; br_Remote := remote; br_Tags := tags; br_BodyKind := kind |}.

(** * The handler *)

Definition header_Del (name : string) (h : Header) : Header :=
  filter (fun kv => kv.1 <> CanonicalMIMEHeaderKey name) h.
Definition header_Values (h : Header) (key : string) : list string :=
  match list_find (fun kv => kv.1 = key) h with Some (_, (_, vs)) => vs | None => [] end.
Definition hop_by_hop : list string :=
  ["Connection"; "Keep-Alive"; "Proxy-Authenticate"; "Proxy-Authorization"; "Proxy-Connection"; "TE"; "Trailer";
   "Transfer-Encoding"; "Upgrade"].
(** The names listed in the Connection header, blank ones skipped. *)
Definition connection_tokens (h : Header) : list string :=
  filter (fun t => t <> "")
    (TrimSpace <$> (header_Values h "Connection" ≫= (fun value => SplitByte value ","))).
Definition stripHopByHopHeaders (h : Header) : Header :=
  foldl (fun h name => header_Del name h) h
    ((CanonicalMIMEHeaderKey <$> connection_tokens h) ++ hop_by_hop).

Record ClientAnswer := { ca_StatusCode : Z; ca_Header : Header; ca_Body : string }.

Definition dockerSocketEventWithPolicy (event : accessEvent) (mode : string) (allowed : bool) (reason : string)
    : accessEvent := {|
  ev_Time := ev_Time event; ev_SandboxID := ev_SandboxID event; ev_TrafficMode := ev_TrafficMode event;
  ev_Kind := ev_Kind event; ev_Protocol := ev_Protocol event; ev_ProtocolSource := ev_ProtocolSource event;
  ev_ProtocolConfidence := ev_ProtocolConfidence event; ev_Host := ev_Host event; ev_Port := ev_Port event;
  ev_Method := ev_Method event; ev_Path := ev_Path event; ev_Allowed := ev_Allowed event;
  ev_StatusCode := ev_StatusCode event; ev_Result := ev_Result event; ev_Error := ev_Error event;
  ev_PolicyMode := normalizedPolicyModeOrDefault mode; ev_PolicyAllowed := allowed;
  ev_PolicyViolations := if negb allowed && negb (bool_decide (TrimSpace reason = ""))
                         then [reason] else ev_PolicyViolations event |}.

Definition writeDockerSocketDenied (event : accessEvent) (statusCode : Z) (h : host) : ClientAnswer * host :=
  let status := if ev_StatusCode event =? 0 then statusCode else ev_StatusCode event in
  let err := if bool_decide (ev_Error event = "")
             then match ev_PolicyViolations event with v :: _ => v | [] => "" end else ev_Error event in
  ({| ca_StatusCode := statusCode; ca_Header := text_plain;
      ca_Body := "docker request denied: " +:+ err +:+ newline |},
   recordAccessEvent (event_outcome false status "denied" err event) h).

(** What the client receives, and the error of the copy. *)
Definition writeDockerSocketUpstreamResponse (resp : Response) (n : nstate) : ClientAnswer * option string :=
  let answer body := {| ca_StatusCode := rs_StatusCode resp; ca_Header := stripHopByHopHeaders (rs_Header resp);
                        ca_Body := body |} in
  match rs_Body resp with
  | None => (answer "", None)
  | Some s => (answer (st_data s), match client_write_error n with Some e => Some e | None => st_err s end)
  end.

Definition error_answer (status : Z) (err : string) : ClientAnswer :=
  {| ca_StatusCode := status; ca_Header := text_plain ++ [("X-Content-Type-Options", ["nosniff"])];
     ca_Body := err +:+ newline |}.

(** The request the daemon gets when the policy lets the client's through. *)
Definition daemon_request (req : ClientRequest) (body : option stream) (length : Z) : DaemonRequest := {|
  dd_Method := cl_Method req; dd_Path := cl_Path req; dd_RawPath := cl_RawPath req; dd_RawQuery := cl_RawQuery req;
  dd_Host := cl_Host req; dd_Header := stripHopByHopHeaders (cl_Header req); dd_Body := body;
  dd_ContentLength := length |}.

Definition forward_docker (event : accessEvent) (out : DaemonRequest) (h : host) : ClientAnswer * host :=
  match daemon_request_error out with
  | Some e => (error_answer StatusBadGateway e, recordAccessEvent (event_outcome true 0 "upstream_error" e event) h)
  | None =>
      let '(r, n) := daemon_Do out (h_net h) in
      let h := set_host_net n h in
      match r with
      | Err e => (error_answer StatusBadGateway e, recordAccessEvent (event_outcome true 0 "upstream_error" e event) h)
      | Ok resp =>
          match writeDockerSocketUpstreamResponse resp n with
          | (answer, Some e) =>
              (answer, recordAccessEvent (event_outcome true (rs_StatusCode resp) "upstream_error" e event) h)
          | (answer, None) =>
              (answer, recordAccessEvent (event_outcome true (rs_StatusCode resp) "allowed" "" event) h)
          end
      end
  end.

Definition docker_event (sandboxID : string) (req : ClientRequest) (meta : dockerRequestMeta) : accessEvent :=
  event_base sandboxID "docker_socket" ("", "", "") "docker" 0 (ToUpper (TrimSpace (cl_Method req))) (dm_Path meta).

Definition serveDockerSocketProxy (sandboxID : string) (policy : compiledDockerSocketPolicy)
    (req : ClientRequest) (h : host) : ClientAnswer * host :=
  let meta := mapDockerRequest (cl_Method req) (cl_Path req) in
  let mode := policyModeForSandbox sandboxID (h_mgr h) in
  let event := docker_event sandboxID req meta in
  let denied reason status := writeDockerSocketDenied (dockerSocketEventWithPolicy event mode false reason) status h in
  if bool_decide (dm_Operation meta = "unknown") then
    denied ("docker endpoint " +:+ Quote (dm_Path meta) +:+ " is not supported") StatusForbidden
  else if negb (isPhase1DockerOperationSupported (dm_Operation meta)) then
    denied ("docker operation " +:+ Quote (dm_Operation meta) +:+ " is not supported in phase 1") StatusForbidden
  else
    let inspectBody := requiresDockerSocketRequestInspection (dm_Operation meta) in
    match (if inspectBody then readBoundedResponse (cl_Body req) (pm_requestBodyLimitBytes (h_mgr h)) else Ok ("", false)) with
    | Err e => denied ("read docker request body: " +:+ e) StatusForbidden
    | Ok (_, true) => denied "docker request body exceeds inspection limit" StatusRequestEntityTooLarge
    | Ok (body, false) =>
        let outBody := if inspectBody then Some {| st_data := body; st_err := None |} else cl_Body req in
        let outLength := if inspectBody then slen body else cl_ContentLength req in
        match (if bool_decide (dm_Operation meta = "build")
               then b <-! inspectDockerBuildRequest req body; Ok (Some b) else Ok None) with
        | Err e => denied e StatusForbidden
        | Ok buildReq =>
            let decision := evaluateDocker policy
              {| dq_Method' := dm_Method meta; dq_Path' := dm_Path meta; dq_Operation := dm_Operation meta;
                 dq_Build := buildReq |} in
            let policyAllowed := bool_decide (decision = DockerRuleActionAllow) in
            let event := dockerSocketEventWithPolicy event mode policyAllowed
              ("docker operation " +:+ Quote (dm_Operation meta) +:+ " is not allowed by policy") in
            if negb policyAllowed && negb (bool_decide (mode = PolicyModeAudit))
            then writeDockerSocketDenied event StatusForbidden h
            else forward_docker event (daemon_request req outBody outLength) h
        end
    end.
End build.
