(* ===== verification/DockerTheorems.v ===== *)
(** What the Docker socket proxy guarantees: the meaning of its policies, what
    can reach the daemon, and the soundness of the build inspection. *)
From S2P Require Import Prelude GoStrings GoPath GoNet Sys Policy PolicySpec Access Manager ManagerTheorems Docker.
From S2P Require Import Sample SampleNet PolicyTheorems.

Section policy.
Context `{GoLib}.

(** ** What a written rule means *)

Definition build_admits (m : DockerBuildMatch) (req : option dockerBuildRequest) : Prop :=
  exists b, req = Some b /\
    (ToLower (TrimSpace (db_Context m)) = DockerBuildContextMatchLocalOnly ->
       br_Remote b = "" /\ br_BodyKind b = "tar") /\
    (db_DockerfilePaths m = [] \/ pattern_hits (db_DockerfilePaths m) (br_Dockerfile b)).
Definition docker_rule_admits (r : DockerSocketRule) (req : dockerSocketRequest) : Prop :=
  (dr_Operations r = [] \/ exists op, op ∈ dr_Operations r /\
     normalizeDockerOperation op = normalizeDockerOperation (dq_Operation req)) /\
  (forall h, dr_HTTP r = Some h ->
     (dh_Methods h = [] \/ exists m, m ∈ dh_Methods h /\ normalize_method m = normalize_method (dq_Method' req)) /\
     (dh_PathPatterns h = [] \/ pattern_hits (dh_PathPatterns h)
        (if bool_decide (TrimSpace (dq_Path' req) = "") then "/" else TrimSpace (dq_Path' req)))) /\
  (forall m, dr_Build r = Some m -> build_admits m (dq_Build req)).

(** The first rule that admits the request decides, else the default. *)
Definition docker_policy_allows (pol : DockerSocketPolicy) (req : dockerSocketRequest) : Prop :=
  (exists before r after, dp_Rules pol = before ++ r :: after /\
     Forall (fun r => ~ docker_rule_admits r req) before /\ docker_rule_admits r req /\
     ToLower (TrimSpace (dr_Action r)) = DockerRuleActionAllow) \/
  Forall (fun r => ~ docker_rule_admits r req) (dp_Rules pol) /\
  ToLower (TrimSpace (dp_DefaultAction pol)) = DockerRuleActionAllow.

(** ** Compilation preserves it *)

Lemma compile_names_ok norm err names out :
  compile_names norm err names = Ok out -> out = norm <$> names.
Proof.
  unfold compile_names. rewrite result_map_ok. induction 1 as [|x y l k E _ IH]; [done|].
  destruct (negb _) in E; [|done]. injection E as <-. simpl. by rewrite IH.
Qed.
Lemma names_match norm err names out x :
  compile_names norm err names = Ok out ->
  (bool_decide ((list_to_set out : gset string) = ∅) || bool_decide (x ∈ (list_to_set out : gset string)) = true <->
   names = [] \/ exists n, n ∈ names /\ norm n = x).
Proof.
  intros ->%compile_names_ok. rewrite orb_true_iff, !bool_decide_eq_true, elem_of_list_to_set, list_elem_of_fmap.
  assert (E : (list_to_set (norm <$> names) : gset string) = ∅ <-> names = []).
  { split; [|by intros ->]. destruct names as [|n l]; [done|]. simpl. intros E. set_solver. }
  rewrite E. naive_solver.
Qed.
Lemma patterns_match pats wrap res s :
  compileRegexps pats wrap = Ok res ->
  no_patterns res || matches_any res s = true <-> pats = [] \/ pattern_hits pats s.
Proof.
  intros C. rewrite orb_true_iff, (compileRegexps_hits _ _ _ s C).
  apply result_map_length in C. destruct res, pats; simpl in *; naive_solver.
Qed.

Lemma action_normal a d x : normalizeDockerRuleAction a d = Ok x ->
  (x = DockerRuleActionAllow <-> ToLower (TrimSpace a) = DockerRuleActionAllow) /\ x <> "".
Proof.
  unfold normalizeDockerRuleAction. destruct (bool_decide (_ = "") && d) eqn:B.
  - intros [= <-]. to_prop. destruct B as [-> _]. done.
  - destruct (_ || _) eqn:B2; [|done]. intros [= <-]. to_prop. split; [done|]. intros E. rewrite E in B2. by destruct B2.
Qed.

Lemma build_match_iff index m c req :
  compileDockerBuildMatch index m = Ok c -> build_matches c req = true <-> build_admits m req.
Proof.
  unfold compileDockerBuildMatch. intros C.
  apply result_bind_ok in C as (ctx & C1 & C). apply result_bind_ok in C as (pats & C2 & [= <-]).
  apply result_wrap_ok in C1. unfold normalizeDockerBuildContextMatch in C1.
  destruct (_ || _) eqn:B in C1; [|done]. injection C1 as <-.
  unfold build_matches, build_admits. destruct req as [b|]; [|naive_solver]. cbn [cb_context cb_dockerfilePatterns].
  rewrite andb_true_iff, (patterns_match _ _ _ _ C2).
  destruct (decide (ToLower (TrimSpace (db_Context m)) = DockerBuildContextMatchLocalOnly)) as [L|L];
    [rewrite (bool_decide_eq_true_2 _ L)|rewrite (bool_decide_eq_false_2 _ L)];
    rewrite ?andb_true_iff, ?bool_decide_eq_true.
  - split; [intros [[R K] P]; by exists b|]. intros (b' & [= <-] & L' & P). by destruct (L' L).
  - split; [intros [_ P]; by exists b|]. by intros (b' & [= <-] & _ & P).
Qed.

Lemma docker_rule_iff index r c req :
  compileDockerSocketRule index r = Ok c ->
  (rule_matches c req = true <-> docker_rule_admits r req) /\
  (cd_action c = DockerRuleActionAllow <-> ToLower (TrimSpace (dr_Action r)) = DockerRuleActionAllow).
Proof.
  unfold compileDockerSocketRule. intros C.
  apply result_bind_ok in C as (action & C1 & C). apply result_bind_ok in C as (ops & C2 & C).
  apply result_bind_ok in C as (methods & C3 & C). apply result_bind_ok in C as (pats & C4 & C).
  apply result_bind_ok in C as (build & C5 & [= <-]).
  apply result_wrap_ok, action_normal in C1 as [A _]. split; [|done].
  unfold rule_matches, docker_rule_admits. cbn [cd_operations cd_httpMethods cd_pathPatterns cd_build].
  rewrite !andb_true_iff, (names_match _ _ _ _ _ C2), (names_match _ _ _ _ _ C3), (patterns_match _ _ _ _ C4).
  assert (EB : match build with None => true | Some b => build_matches b (dq_Build req) end = true <->
               (forall m, dr_Build r = Some m -> build_admits m (dq_Build req))).
  { destruct (dr_Build r) as [m|].
    - apply result_bind_ok in C5 as (b & C5 & [= <-]). rewrite (build_match_iff _ _ _ _ C5). naive_solver.
    - injection C5 as <-. naive_solver. }
  rewrite EB. destruct (dr_HTTP r); naive_solver.
Qed.

Lemma compile_docker_rules_ok index rules cs :
  compile_docker_rules index rules = Ok cs ->
  Forall2 (fun r c => exists i, compileDockerSocketRule i r = Ok c) rules cs.
Proof.
  revert index cs. induction rules as [|r rules IH]; intros index cs; cbn [compile_docker_rules].
  - intros [= <-]. constructor.
  - intros C. apply result_bind_ok in C as (c & C1 & C). apply result_bind_ok in C as (rest & C2 & [= <-]).
    constructor; eauto.
Qed.

(** The first match of the compiled rules, seen on the written ones. *)
Lemma first_match_iff rules cs req (d : string) :
  Forall2 (fun r c => exists i, compileDockerSocketRule i r = Ok c) rules cs ->
  (match list_find (fun c => rule_matches c req = true) cs with Some (_, c) => cd_action c | None => d end =
     DockerRuleActionAllow) <->
  (exists before r after, rules = before ++ r :: after /\
     Forall (fun r => ~ docker_rule_admits r req) before /\ docker_rule_admits r req /\
     ToLower (TrimSpace (dr_Action r)) = DockerRuleActionAllow) \/
  Forall (fun r => ~ docker_rule_admits r req) rules /\ d = DockerRuleActionAllow.
Proof.
  induction 1 as [|r c rules cs [i C] _ IH].
  - simpl. split; [by right|]. intros [(b & r & a & E & _)|[_ E]]; [by destruct b|done].
  - destruct (docker_rule_iff i r c req C) as [M A]. cbn [list_find]. case_decide as D.
    + apply M in D. rewrite A. split.
      * intros AL. left. by exists [], r, rules.
      * intros [(b & r' & a & E & F & R & AL)|[F _]]; [|by inversion F].
        destruct b as [|r0 b]; simplify_eq/=; [done|]. by inversion F.
    + assert (N : ~ docker_rule_admits r req) by (by rewrite <- M).
      assert (EQ : match prod_map S id <$> list_find (fun c => rule_matches c req = true) cs with
                   | Some (_, c) => cd_action c | None => d end =
                   match list_find (fun c => rule_matches c req = true) cs with
                   | Some (_, c) => cd_action c | None => d end) by (by destruct (list_find _ cs) as [[]|]).
      rewrite EQ, IH. split.
      * intros [(b & r' & a & -> & F & R)|[F E]]; [left|right; by split; [constructor|]].
        exists (r :: b), r', a. split; [done|]. split; [by constructor|done].
      * intros [(b & r' & a & E & F & R & AL)|[F E]]; [|right; by inversion F].
        destruct b as [|r0 b]; simplify_eq/=. left. exists b, r', a. inversion F. done.
Qed.

(** C18. Docker policies mean what they say: a compiled policy allows a request
    exactly when the first rule of the written policy that admits it (operation,
    HTTP method, path and build constraints, an omitted one being no constraint)
    is an allow rule, or when no rule admits it and the default is allow. *)
Theorem docker_policy_refines pol c req :
  compileDockerSocketPolicy pol = Ok c ->
  evaluateDocker c req = DockerRuleActionAllow <-> docker_policy_allows pol req.
Proof.
  unfold compileDockerSocketPolicy. intros C.
  apply result_bind_ok in C as (d & C1 & C). apply result_bind_ok in C as (rules & C2 & [= <-]).
  apply action_normal in C1 as [A N]. apply compile_docker_rules_ok in C2.
  unfold evaluateDocker, docker_policy_allows. cbn [cd_rules cd_defaultAction].
  rewrite (bool_decide_eq_false_2 (d = "")) by done. rewrite (first_match_iff _ _ _ _ C2). by rewrite A.
Qed.
End policy.

(** ** Paths inside the build context *)

(** A path component that stays where it is. *)
Definition plain_component (c : string) : Prop := c <> "" /\ c <> "." /\ c <> ".." /\ CountByte c "/" = O.

Lemma SplitByte_no_sep s c w : w ∈ SplitByte s c -> CountByte w c = O.
Proof.
  revert w. induction s as [|d s IH]; intros w; cbn [SplitByte]; [set_solver|].
  case_bool_decide as E; [set_solver|]. destruct (SplitByte s c) as [|x l].
  - intros ->%list_elem_of_singleton. simpl. by rewrite bool_decide_eq_false_2.
  - intros [->|W]%elem_of_cons; [|apply IH; set_solver]. simpl. rewrite bool_decide_eq_false_2 by done.
    apply IH. set_solver.
Qed.

(** The stack of [clean_go]: plain components on top of unresolved dot-dots. *)
Definition clean_stack (out : list string) : Prop :=
  exists plain n, out = plain ++ replicate n ".." /\ Forall plain_component plain.

Lemma rev_replicate {A} n (x : A) : rev (replicate n x) = replicate n x.
Proof.
  induction n as [|n IH]; [done|]. simpl. rewrite IH. change [x] with (replicate 1 x).
  rewrite <- replicate_add. by rewrite Nat.add_comm.
Qed.

Lemma clean_go_stack parts out :
  Forall (fun p => CountByte p "/" = O) parts -> clean_stack out ->
  exists plain n, clean_go false out parts = replicate n ".." ++ plain /\ Forall plain_component plain.
Proof.
  intros FP. revert out. induction FP as [|p parts Hp FP IH]; intros out S; cbn [clean_go].
  - destruct S as (plain & n & -> & F). exists (rev plain), n. rewrite rev_app_distr, rev_replicate.
    split; [done|]. by apply List.Forall_rev.
  - destruct (bool_decide (p = "") || bool_decide (p = ".")) eqn:B1; [by apply IH|]. to_prop.
    destruct B1 as [P1 P2]. case_bool_decide as B2.
    + destruct S as ([|x plain] & n & -> & F); simpl.
      * subst p. destruct n as [|n]; simpl; apply IH; [by exists [], 1%nat|by exists [], (S (S n))].
      * inversion F as [|? ? X F']. rewrite bool_decide_eq_false_2 by apply X. apply IH. by exists plain, n.
    + apply IH. destruct S as (plain & n & -> & F). exists (p :: plain), n. split; [done|]. by constructor.
Qed.

Lemma HasPrefix_app a b : HasPrefix (a +:+ b) a = true.
Proof.
  unfold HasPrefix. induction a as [|c a IH]; [by destruct b|]. rewrite string_app_cons. simpl.
  by destruct (Ascii.ascii_dec c c).
Qed.

(** Build paths cannot leave the context: the Dockerfile path the proxy
    accepts for a build, and the name it compares archive entries under, is
    empty (and then refused) or consists of plain components, none of them empty,
    "." or "..", without a leading slash, whatever the client sends. *)
Theorem docker_build_path_stays_inside value :
  normalizeDockerBuildPath value = "" \/
  exists components, normalizeDockerBuildPath value = Join components "/" /\ components <> [] /\
    Forall plain_component components.
Proof.
  unfold normalizeDockerBuildPath. case_bool_decide as T.
  { right. exists ["Dockerfile"]. repeat split; [done|]. constructor; [|constructor].
    repeat split; vm_compute; congruence. }
  set (p := ReplaceByte _ _ _). set (cleaned := path_Clean p).
  destruct (bool_decide (cleaned = ".") || bool_decide (cleaned = "")) eqn:B1; [by left|].
  destruct (HasPrefix cleaned "/") eqn:B2; [by left|].
  destruct (bool_decide (cleaned = "..")) eqn:B3; [by left|].
  destruct (HasPrefix cleaned "../") eqn:B4; [by left|]. right. to_prop.
  unfold cleaned, path_Clean in *. clear cleaned. destruct (HasPrefix p "/").
  { by rewrite HasPrefix_app in B2. }
  destruct (clean_go_stack (SplitByte p "/") []) as (plain & n & E & F).
  { apply Forall_forall. intros w Hw. by eapply SplitByte_no_sep. }
  { by exists [], O. }
  rewrite E in *. case_bool_decide as Em; [by destruct B1|].
  assert (n = O) as ->.
  { destruct n as [|[|n]]; [done| |].
    - destruct plain as [|x plain]; [done|]. exfalso. cbn [replicate app Join] in B4.
      change (".." +:+ "/" +:+ ?x) with ("../" +:+ x) in B4. by rewrite HasPrefix_app in B4.
    - exfalso. cbn [replicate app Join] in B4. change (".." +:+ "/" +:+ ?x) with ("../" +:+ x) in B4.
      by rewrite HasPrefix_app in B4. }
  exists plain. split; [done|]. split; [|done]. by intros ->.
Qed.

Section proxy.
Context `{GoLib} `{DockerEnv}.

(** ** Inspection of builds *)

Lemma setDockerBuildBodyKind_ok cur kind out :
  setDockerBuildBodyKind cur kind = Ok out ->
  (cur <> "" -> out = cur /\ (kind = "" \/ kind = cur)) /\ (cur = "" -> out = kind).
Proof. unfold setDockerBuildBodyKind. repeat case_bool_decide; naive_solver. Qed.

Lemma inspect_tar req body b :
  inspectDockerBuildRequest req body = Ok b -> br_BodyKind b = "tar" ->
  let query := url_Query (cl_RawQuery req) in
  TrimSpace (query_Get query "remote") = "" /\ br_Remote b = "" /\ detectDockerBuildExport query = Ok "" /\
  br_Dockerfile b = normalizeDockerBuildPath (query_Get query "dockerfile") /\ br_Dockerfile b <> "" /\
  validateDockerBuildContextBody (cl_Header req) body (br_Dockerfile b) = Ok true.
Proof.
  unfold inspectDockerBuildRequest. case_bool_decide as D; [done|]. intros C K.
  apply result_bind_ok in C as (k1 & C1 & C). apply result_bind_ok in C as (ek & C2 & C).
  apply result_bind_ok in C as (k2 & C3 & C). apply result_bind_ok in C as (ht & C4 & C).
  apply result_bind_ok in C as (k3 & C5 & C). case_bool_decide as B; [done|]. injection C as <-.
  cbn [br_BodyKind br_Remote br_Dockerfile] in *. subst k3.
  assert (EK : ek = "" \/ ek = "export").
  { unfold detectDockerBuildExport in C2. apply result_bind_ok in C2 as (push & _ & C2).
    destruct push; [naive_solver|]. destruct (_ !! "output"); [destruct (existsb _ _); naive_solver|].
    destruct (_ !! "outputs"); [|naive_solver]. apply result_bind_ok in C2 as (? & _ & C2). naive_solver. }
  apply setDockerBuildBodyKind_ok in C3 as [S1 S2].
  destruct (decide (TrimSpace (query_Get (url_Query (cl_RawQuery req)) "remote") = "")) as [R|R].
  - rewrite bool_decide_eq_true_2 in C1 by done. injection C1 as <-. specialize (S2 eq_refl). subst k2.
    destruct ht; [apply setDockerBuildBodyKind_ok in C5 as [T1 T2]|simplify_eq; naive_solver].
    destruct EK as [-> | ->]; [done|]. destruct T1 as [T _]; done.
  - rewrite bool_decide_eq_false_2 in C1 by done. injection C1 as <-. destruct S1 as [-> _]; [done|].
    destruct ht; [apply setDockerBuildBodyKind_ok in C5 as [T1 T2]|simplify_eq; naive_solver].
    destruct T1 as [T _]; done.
Qed.

(** A rule that asks for a local context is enforced by the inspection: a
    build it matches declares no remote context, no push and no export, uploads
    a tar archive whose names can all be read, and that archive contains the
    Dockerfile the request names. *)
Theorem docker_local_only_build_is_local req body b m :
  inspectDockerBuildRequest req body = Ok b -> build_matches m (Some b) = true ->
  cb_context m = DockerBuildContextMatchLocalOnly ->
  let query := url_Query (cl_RawQuery req) in
  TrimSpace (query_Get query "remote") = "" /\ detectDockerBuildExport query = Ok "" /\ body <> "" /\
  br_Dockerfile b <> "" /\
  exists names name, tar_Names body = (names, None) /\ name ∈ names /\
    normalizeDockerBuildPath name = br_Dockerfile b.
Proof.
  intros I M L query. unfold build_matches in M. rewrite L in M.
  rewrite (bool_decide_eq_true_2 (DockerBuildContextMatchLocalOnly = _)) in M by done. to_prop.
  destruct M as [[_ K] _]. destruct (inspect_tar req body b I K) as (R & _ & X & _ & D & V).
  split; [done|]. split; [done|]. unfold validateDockerBuildContextBody in V.
  case_bool_decide as B; [done|]. split; [done|]. split; [done|].
  destruct (_ && _); [done|]. destruct (tar_Names body) as [names [e|]]; [done|].
  destruct (existsb _ _) eqn:Ex; [|done]. apply existsb_exists in Ex as (name & IN & E).
  apply bool_decide_eq_true in E. exists names, name. split; [done|]. split; [|done].
  by apply list_elem_of_In.
Qed.

(** ** Enforcement *)

(** The header fields that concern one connection only: the fixed ones, under
    the names net/http stores them by, and those the Connection header names. *)
Definition single_hop (h : Header) (name : string) : Prop :=
  name ∈ ["Connection"; "Keep-Alive"; "Proxy-Authenticate"; "Proxy-Authorization"; "Proxy-Connection"; "Te"; "Trailer";
          "Transfer-Encoding"; "Upgrade"] \/
  exists value token, value ∈ header_Values h "Connection" /\ token ∈ SplitByte value "," /\
    TrimSpace token <> "" /\ name = CanonicalMIMEHeaderKey (TrimSpace token).

Lemma canonical_go_idemp u s : canonical_go u (canonical_go u s) = canonical_go u s.
Proof.
  revert u. induction s as [|c s IH]; intros u; simpl; [done|].
  assert (E : (if u then upper_char (if u then upper_char c else lower_char c)
               else lower_char (if u then upper_char c else lower_char c)) =
              (if u then upper_char c else lower_char c)).
  { clear. by destruct u, c as [[][][][][][][][]]. }
  rewrite E. f_equal. apply IH.
Qed.
Lemma canonical_valid u s : string_all valid_header_byte s = true -> string_all valid_header_byte (canonical_go u s) = true.
Proof.
  revert u. induction s as [|c s IH]; intros u; simpl; [done|].
  rewrite !andb_true_iff. intros [V1 V2]. split; [|by apply IH].
  revert V1. clear. by destruct u, c as [[][][][][][][][]].
Qed.
Lemma canonical_idemp s : CanonicalMIMEHeaderKey (CanonicalMIMEHeaderKey s) = CanonicalMIMEHeaderKey s.
Proof.
  unfold CanonicalMIMEHeaderKey. destruct (string_all valid_header_byte s) eqn:V; [|by rewrite V].
  rewrite canonical_valid by done. apply canonical_go_idemp.
Qed.

(** Deleting names one after the other keeps, in order, exactly the fields none
    of them names. *)
Lemma foldl_header_Del names h :
  foldl (fun h name => header_Del name h) h names `sublist_of` h /\
  forall kv, kv ∈ foldl (fun h name => header_Del name h) h names <->
             kv ∈ h /\ forall name, name ∈ names -> kv.1 <> CanonicalMIMEHeaderKey name.
Proof.
  revert h. induction names as [|x names IH]; intros h; simpl; [split; [done|set_solver]|].
  destruct (IH (header_Del x h)) as [S A]. split.
  - etrans; [exact S|]. apply sublist_filter.
  - intros kv. rewrite A. unfold header_Del. rewrite list_elem_of_filter. set_solver.
Qed.
Lemma hop_by_hop_canonical :
  CanonicalMIMEHeaderKey <$> hop_by_hop =
  ["Connection"; "Keep-Alive"; "Proxy-Authenticate"; "Proxy-Authorization"; "Proxy-Connection"; "Te"; "Trailer";
   "Transfer-Encoding"; "Upgrade"].
Proof. vm_compute. reflexivity. Qed.
Lemma single_hop_names h name :
  single_hop h name <->
  exists n, n ∈ (CanonicalMIMEHeaderKey <$> connection_tokens h) ++ hop_by_hop /\ name = CanonicalMIMEHeaderKey n.
Proof.
  unfold single_hop. rewrite <- hop_by_hop_canonical. setoid_rewrite elem_of_app. setoid_rewrite list_elem_of_fmap.
  unfold connection_tokens. setoid_rewrite list_elem_of_filter. setoid_rewrite list_elem_of_fmap.
  setoid_rewrite list_elem_of_bind. split.
  - intros [(n & -> & N)|(value & token & V & T & NE & ->)]; [eauto|].
    exists (CanonicalMIMEHeaderKey (TrimSpace token)). split; [|by rewrite canonical_idemp].
    left. exists (TrimSpace token). naive_solver.
  - intros (n & [(t & -> & NE & token & -> & value & T & V)|N] & ->); [right|left; eauto].
    exists value, token. by rewrite canonical_idemp.
Qed.
(** What [stripHopByHopHeaders] keeps: in order, exactly the fields that are
    not for one connection. *)
Lemma stripHopByHop_spec h :
  stripHopByHopHeaders h `sublist_of` h /\
  forall kv, kv ∈ stripHopByHopHeaders h <-> kv ∈ h /\ ~ single_hop h kv.1.
Proof.
  unfold stripHopByHopHeaders.
  destruct (foldl_header_Del ((CanonicalMIMEHeaderKey <$> connection_tokens h) ++ hop_by_hop) h) as [S A].
  split; [done|]. intros kv. rewrite A, single_hop_names. naive_solver.
Qed.

Lemma forward_docker_net event out h :
  h_net (forward_docker event out h).2 =
  (if daemon_request_error out then h_net h else (daemon_Do out (h_net h)).2).
Proof.
  unfold forward_docker. destruct (daemon_request_error out); simpl; [by rewrite record_net|].
  destruct (daemon_Do out (h_net h)) as [[resp|e] n]; simpl; [|by rewrite record_net].
  destruct (writeDockerSocketUpstreamResponse resp n) as [a [e|]]; simpl; by rewrite record_net.
Qed.
Lemma denied_net event status h : h_net (writeDockerSocketDenied event status h).2 = h_net h.
Proof. apply record_net. Qed.

(** The classifier names a build only "build": every other operation it gives
    is forwarded without inspection. *)
Lemma not_build_plain method path :
  dm_Operation (mapDockerRequest method path) <> "build" ->
  requiresDockerSocketRequestInspection (dm_Operation (mapDockerRequest method path)) = false.
Proof.
  unfold mapDockerRequest. cbn [dm_Operation]. intros NB.
  repeat match goal with |- context [if ?b then _ else _] => destruct b end; done.
Qed.

(** C6. What reaches the Docker daemon: in any mode only requests that by their
    method and their path as written (dot segments are not resolved, see
    [docker_inspect_accepts_dotdot]) are image pulls, image inspections or
    builds; in enforce mode only if the policy allows them; a build only after
    its whole body was read within the limit and inspected, and with that body
    and its length. A pull or an inspection has its body and length as received.
    The daemon gets the method, path, query and host of the request unchanged,
    and of its header fields, in order, exactly those that are not hop-by-hop:
    none of the nine fixed ones and none the Connection header names. *)
Theorem docker_socket_enforced id policy req h answer h' :
  serveDockerSocketProxy id policy req h = (answer, h') -> h_net h' <> h_net h ->
  let meta := mapDockerRequest (cl_Method req) (cl_Path req) in
  isPhase1DockerOperationSupported (dm_Operation meta) = true /\
  exists out build,
    h_net h' = (daemon_Do out (h_net h)).2 /\
    (policyModeForSandbox id (h_mgr h) = PolicyModeEnforce ->
     evaluateDocker policy {| dq_Method' := dm_Method meta; dq_Path' := dm_Path meta;
                              dq_Operation := dm_Operation meta; dq_Build := build |} = DockerRuleActionAllow) /\
    (if decide (dm_Operation meta = "build")
     then exists b body, build = Some b /\
       readBoundedResponse (cl_Body req) (pm_requestBodyLimitBytes (h_mgr h)) = Ok (body, false) /\
       inspectDockerBuildRequest req body = Ok b /\
       dd_Body out = Some {| st_data := body; st_err := None |} /\ dd_ContentLength out = slen body
     else build = None /\ dd_Body out = cl_Body req /\ dd_ContentLength out = cl_ContentLength req) /\
    dd_Method out = cl_Method req /\ dd_Path out = cl_Path req /\ dd_RawPath out = cl_RawPath req /\
    dd_RawQuery out = cl_RawQuery req /\ dd_Host out = cl_Host req /\
    dd_Header out `sublist_of` cl_Header req /\
    forall kv, kv ∈ dd_Header out <-> kv ∈ cl_Header req /\ ~ single_hop (cl_Header req) kv.1.
Proof.
  intros S NE meta. unfold serveDockerSocketProxy in S. fold meta in S.
  assert (DENY : forall e s, writeDockerSocketDenied e s h = (answer, h') -> False).
  { intros e s E. apply NE. rewrite <- (denied_net e s h). by rewrite E. }
  case_bool_decide as U; [by destruct (DENY _ _ S)|].
  destruct (isPhase1DockerOperationSupported (dm_Operation meta)) eqn:P1; [|by destruct (DENY _ _ S)]. cbn [negb] in S.
  split; [done|].
  destruct (if requiresDockerSocketRequestInspection _ then _ else _) as [[body []]|e] eqn:RB;
    [by destruct (DENY _ _ S)| |by destruct (DENY _ _ S)].
  destruct (if bool_decide (dm_Operation meta = "build") then _ else _) as [build|e] eqn:BR; [|by destruct (DENY _ _ S)].
  destruct (negb _ && negb _) eqn:PB; [by destruct (DENY _ _ S)|].
  match type of S with forward_docker ?e ?o h = _ => pose proof (forward_docker_net e o h) as N; exists o, build end.
  rewrite S in N. cbn [snd] in N. destruct (daemon_request_error _); [congruence|].
  split; [done|]. split.
  { intros E. rewrite E in PB. change (bool_decide (PolicyModeEnforce = PolicyModeAudit)) with false in PB.
    cbn [negb] in PB. rewrite andb_true_r in PB. to_prop. done. }
  split.
  { destruct (decide (dm_Operation meta = "build")) as [OP|OP].
    - rewrite bool_decide_eq_true_2 in BR by done. apply result_bind_ok in BR as (b & BR & [= <-]).
      assert (RI : requiresDockerSocketRequestInspection (dm_Operation meta) = true) by (by rewrite OP).
      rewrite RI in RB. exists b, body. cbn [dd_Body dd_ContentLength daemon_request]. by rewrite RI.
    - rewrite bool_decide_eq_false_2 in BR by done. injection BR as <-.
      cbn [dd_Body dd_ContentLength daemon_request]. subst meta. by rewrite (not_build_plain _ _ OP). }
  destruct (stripHopByHop_spec (cl_Header req)) as [HS HA]. done.
Qed.

(** A build rule without a build section also allows what the documentation
    says is denied: if the first rule allows the operation "build" and says
    nothing else, every build that passes inspection is allowed, remote contexts
    and exports included. *)
Theorem docker_plain_build_rule_allows_remote pol c rest req :
  compileDockerSocketPolicy pol = Ok c ->
  dp_Rules pol = {| dr_Action := "allow"; dr_Operations := ["build"]; dr_HTTP := None; dr_Build := None |} :: rest ->
  dq_Operation req = "build" -> evaluateDocker c req = DockerRuleActionAllow.
Proof.
  intros C R O. unfold compileDockerSocketPolicy in C.
  apply result_bind_ok in C as (d & C1 & C). apply result_bind_ok in C as (rules & C2 & [= <-]).
  apply action_normal in C1 as [_ N]. apply compile_docker_rules_ok in C2. rewrite R in C2.
  unfold evaluateDocker. cbn [cd_rules cd_defaultAction]. rewrite (bool_decide_eq_false_2 (d = "")) by done.
  apply (first_match_iff _ _ _ _ C2). left. eexists [], _, rest. split; [done|]. split; [done|]. split; [|done].
  split; [right; exists "build"; split; [by apply list_elem_of_singleton|by rewrite O]|done].
Qed.

(** Any path below /images/ that ends in /json counts as an image inspection,
    dot-dot segments included. *)
Lemma docker_inspect_accepts_dotdot :
  dm_Operation (mapDockerRequest "GET" "/v1.41/images/../containers/json") = "image_inspect".
Proof. vm_compute. reflexivity. Qed.
End proxy.

(** * Witnesses *)

Section witnesses.
#[local] Existing Instance sampleLib.
#[local] Existing Instance sampleNet.

(** A daemon that answers 200, a query string read as key=value, and archives
    given by their comma-separated names. *)
Definition sample_query (q : string) : gmap string (list string) :=
  match IndexByte q "=" with
  | Some i => {[string_take i q := [string_drop (S i) q]]}
  | None => ∅
  end.
Definition sampleDocker : DockerEnv := {|
  url_Query := sample_query;
  tar_Names body := (SplitByte body ",", None);
  json_objects _ := Ok 1%nat;
  daemon_request_error _ := None;
  daemon_Do out n := (Ok {| rs_StatusCode := 200; rs_Header := []; rs_Body := None |},
                      NDns (dd_Method out) (dd_Path out) (dd_RawQuery out) :: n);
  client_write_error _ := None;
|}.
#[local] Existing Instance sampleDocker.

Definition local_build_rule : DockerSocketRule := {|
  dr_Action := "Allow"; dr_Operations := ["build"]; dr_HTTP := None;
  dr_Build := Some {| db_Context := "local_only"; db_DockerfilePaths := ["^docker/"] |} |}.
Definition pull_rule : DockerSocketRule := {|
  dr_Action := "allow"; dr_Operations := [" Image_Pull "];
  dr_HTTP := Some {| dh_Methods := ["post"]; dh_PathPatterns := ["^/images/"] |}; dr_Build := None |}.
Definition plain_build_rule : DockerSocketRule :=
  {| dr_Action := "allow"; dr_Operations := ["build"]; dr_HTTP := None; dr_Build := None |}.
Definition docker_demo : DockerSocketPolicy := {| dp_DefaultAction := ""; dp_Rules := [local_build_rule; pull_rule] |}.
Definition docker_plain : DockerSocketPolicy := {| dp_DefaultAction := "deny"; dp_Rules := [plain_build_rule] |}.
Definition docker_compiled (pol : DockerSocketPolicy) : compiledDockerSocketPolicy :=
  the {| cd_defaultAction := ""; cd_rules := [] |} (compileDockerSocketPolicy pol).

Definition pull_request : dockerSocketRequest :=
  {| dq_Method' := "POST"; dq_Path' := "/images/create"; dq_Operation := "image_pull"; dq_Build := None |}.
Lemma docker_policy_refines_witness : docker_policy_allows docker_demo pull_request.
Proof. apply (docker_policy_refines docker_demo (docker_compiled docker_demo)); eval_ok. Defined.

Definition build_call : ClientRequest := {|
  cl_Method := "POST"; cl_Path := "/v1.41/build"; cl_RawPath := ""; cl_RawQuery := "dockerfile=docker/app";
  cl_Host := "docker"; cl_Header := [("Content-Type", ["application/x-tar"]); ("Connection", ["close, X-Hop"])];
  cl_Body := Some {| st_data := "a,docker/./app"; st_err := None |}; cl_ContentLength := 14 |}.
Definition build_inspected : dockerBuildRequest :=
  {| br_Dockerfile := "docker/app"; br_Remote := ""; br_Tags := []; br_BodyKind := "tar" |}.
Lemma docker_local_only_build_is_local_witness :
  exists names name, tar_Names "a,docker/./app" = (names, None) /\ name ∈ names /\
    normalizeDockerBuildPath name = "docker/app".
Proof.
  apply (docker_local_only_build_is_local build_call "a,docker/./app" build_inspected
    {| cb_context := "local_only"; cb_dockerfilePatterns := [] |}); vm_compute; reflexivity.
Defined.

Lemma docker_socket_enforced_witness :
  isPhase1DockerOperationSupported (dm_Operation (mapDockerRequest "POST" "/v1.41/build")) = true.
Proof.
  apply (docker_socket_enforced "box" (docker_compiled docker_demo) build_call demo_host
    (serveDockerSocketProxy "box" (docker_compiled docker_demo) build_call demo_host).1
    (serveDockerSocketProxy "box" (docker_compiled docker_demo) build_call demo_host).2).
  - apply surjective_pairing.
  - vm_compute. discriminate.
Defined.

(** A build from a remote context. *)
Definition remote_build : dockerSocketRequest := {|
  dq_Method' := "POST"; dq_Path' := "/build"; dq_Operation := "build";
  dq_Build := Some {| br_Dockerfile := "Dockerfile"; br_Remote := "https://example.com/ctx.git"; br_Tags := [];
                      br_BodyKind := "remote" |} |}.
Lemma docker_plain_build_rule_allows_remote_witness :
  evaluateDocker (docker_compiled docker_plain) remote_build = DockerRuleActionAllow.
Proof.
  apply (docker_plain_build_rule_allows_remote docker_plain _ []); [eval_ok|reflexivity|reflexivity].
Defined.
End witnesses.
