(* ===== verification/TransparentNet.v ===== *)
(** The helper's memory of the transparent network: which name an address was
    resolved from ([dns_cache.go]) and where a redirected connection was headed
    ([transparent_net.go]).

    Times are nanoseconds; 0 is the zero [time.Time], every instant of the clock
    is positive. Both tables are guarded by a mutex, so an operation is one step;
    the clock is read by the caller and passed in. The DNS message library is the
    class [DNSMessages]. *)
From S2P Require Import Prelude GoStrings GoNet.

(** * The DNS message library *)

Inductive dns_body := AResource (a : IP) | AAAAResource (aaaa : IP) | OtherResource.
(** [Resource]: the TTL is a [uint32]; an address has 4 or 16 bytes. *)
Record dns_answer := { an_TTL : Z; an_Body : dns_body }.

Class DNSMessages := {
  (** [Message.Unpack]: the names asked for, and the answers. *)
  msg_Questions : string -> option (list string);
  msg_Answers : string -> option (list dns_answer);
}.

(** * The resolution cache *)

Record dnsResolutionEntry := { de_host : string; de_expires : Z }.
Abbreviation dnsCache := (gmap string dnsResolutionEntry).
Definition newDNSCache : dnsCache := ∅.

Definition Second : Z := 10 ^ 9.
Definition Millisecond : Z := 10 ^ 6.

Section cache.
Context `{GoLib} `{DNSMessages}.

Definition normalizeDNSName (name : string) : string := ToLower (TrimSpace (TrimSuffix name ".")).

Definition answer_ip (a : dns_answer) : option string :=
  match an_Body a with
  | AResource ip | AAAAResource ip => Some (IP_String ip)
  | OtherResource => None
  end.
(** The loop over the answers: addresses so far and the smallest TTL so far. *)
Fixpoint answers_loop (answers : list dns_answer) (ips : list string) (ttlSeconds : Z) : list string * Z :=
  match answers with
  | [] => (ips, ttlSeconds)
  | a :: answers =>
      match answer_ip a with
      | None => answers_loop answers ips ttlSeconds
      | Some ip =>
          answers_loop answers (ips ++ [ip])
            (if (0 <? an_TTL a) && ((ttlSeconds =? 0) || (an_TTL a <? ttlSeconds)) then an_TTL a else ttlSeconds)
      end
  end.
Definition parseDNSResolution (query response : string) : option (string * list string * Z) :=
  match msg_Questions query with
  | None | Some [] => None
  | Some (question :: _) =>
      let host := normalizeDNSName question in
      if bool_decide (host = "") then None
      else match msg_Answers response with
           | None => None
           | Some answers =>
               let '(ips, ttlSeconds) := answers_loop answers [] 0 in
               if bool_decide (ips = []) then None else Some (host, ips, ttlSeconds * Second)
           end
  end.

(** [remember] at the instant [clock]. *)
Definition remember (clock : Z) (query response : string) (c : dnsCache) : dnsCache :=
  match parseDNSResolution query response with
  | None => c
  | Some (host, ips, ttl) =>
      if bool_decide (ips = []) then c
      else
        let ttl := if ttl <=? 0 then 30 * Second else ttl in
        let entry := {| de_host := host; de_expires := clock + ttl |} in
        foldl (fun c ip => if bool_decide (ip = "") then c else <[ip := entry]> c) c ips
  end.

(** [lookupResolvedHost(ip, now)] when the clock shows [clock]. *)
Definition cache_lookupResolvedHost (clock : Z) (ip : string) (now : Z) (c : dnsCache) : option string * dnsCache :=
  if bool_decide (ip = "") then (None, c)
  else
    let now := if now =? 0 then clock else now in
    match c !! ip with
    | None => (None, c)
    | Some entry =>
        if negb (de_expires entry =? 0) && (de_expires entry <? now) then (None, delete ip c)
        else if bool_decide (TrimSpace (de_host entry) = "") then (None, c)
        else (Some (de_host entry), c)
    end.
End cache.

(** * The origins of redirected connections *)

Record rawTCPDestination := { rd_host : string; rd_port : Z }.
Record transparentNet := { tn_origins : gmap string rawTCPDestination; tn_dns : dnsCache }.
Definition newTransparentNet : transparentNet := {| tn_origins := ∅; tn_dns := newDNSCache |}.

Definition canonicalTCPOriginKey (addr : string) : string :=
  match SplitHostPort addr with
  | Err _ => addr
  | Ok (host, port) =>
      let host := match ParseIP host with Some ip => IP_String ip | None => host end in
      match Atoi port with
      | None => addr
      | Some _ => JoinHostPort host port
      end
  end.

Section origins.
Context `{GoLib} `{DNSMessages}.

Definition lookupResolvedHost (clock : Z) (ip : string) (now : Z) (n : transparentNet) : option string * transparentNet :=
  let '(host, dns) := cache_lookupResolvedHost clock ip now (tn_dns n) in
  (host, {| tn_origins := tn_origins n; tn_dns := dns |}).
Definition rememberDNSResolution (clock : Z) (query response : string) (n : transparentNet) : transparentNet :=
  {| tn_origins := tn_origins n; tn_dns := remember clock query response (tn_dns n) |}.

Definition recordRawTCPOrigin (clock : Z) (localAddr host : string) (port : Z) (n : transparentNet) : transparentNet :=
  if bool_decide (localAddr = "") || bool_decide (host = "") || (port <? 1) || (65535 <? port) then n
  else
    let '(host, n) :=
      match ParseIP host with
      | None => (host, n)
      | Some ip =>
          let '(resolved, n) := lookupResolvedHost clock (IP_String ip) clock n in
          (default host resolved, n)
      end in
    {| tn_origins := <[canonicalTCPOriginKey localAddr := {| rd_host := host; rd_port := port |}]> (tn_origins n);
       tn_dns := tn_dns n |}.

Definition takeRawTCPOrigin (localAddr : string) (n : transparentNet) : option rawTCPDestination * transparentNet :=
  if bool_decide (localAddr = "") then (None, n)
  else
    let localAddr := canonicalTCPOriginKey localAddr in
    match tn_origins n !! localAddr with
    | None => (None, n)
    | Some dest => (Some dest, {| tn_origins := delete localAddr (tn_origins n); tn_dns := tn_dns n |})
    end.

(** [waitRawTCPOrigin] polls. Between two polls the clock has moved and other
    goroutines have changed the tables: [polls] lists, for each poll, the clock
    read after it and what the others do before the next. [None] is a loop that
    is still polling when the list ends. *)
Fixpoint wait_loop (deadline : Z) (localAddr : string) (polls : list (Z * (transparentNet -> transparentNet)))
    (n : transparentNet) : option (option rawTCPDestination * transparentNet) :=
  match polls with
  | [] => None
  | (clock, others) :: polls =>
      match takeRawTCPOrigin localAddr n with
      | (Some dest, n) => Some (Some dest, n)
      | (None, n) => if deadline <? clock then Some (None, n) else wait_loop deadline localAddr polls (others n)
      end
  end.
Definition waitRawTCPOrigin (clock : Z) (localAddr : string) (timeout : Z)
    (polls : list (Z * (transparentNet -> transparentNet))) (n : transparentNet)
    : option (option rawTCPDestination * transparentNet) :=
  if timeout <=? 0 then Some (takeRawTCPOrigin localAddr n)
  else wait_loop (clock + timeout) localAddr polls n.
Definition rawTCPOriginLookupTimeout : Z := 1 * Second.

(** * What the tables mean *)

(** A run: resolutions are remembered and asked for, in the order of the clock. *)
Inductive cache_op := OpRemember (clock : Z) (query response : string) | OpLookup (clock : Z) (ip : string).
Definition op_clock (o : cache_op) : Z := match o with OpRemember t _ _ | OpLookup t _ => t end.
Fixpoint run_cache (ops : list cache_op) (c : dnsCache) : list (option string) * dnsCache :=
  match ops with
  | [] => ([], c)
  | OpRemember t q r :: ops => run_cache ops (remember t q r c)
  | OpLookup t ip :: ops =>
      let '(host, c) := cache_lookupResolvedHost t ip t c in
      let '(hosts, c) := run_cache ops c in (host :: hosts, c)
  end.

(** The name and the expiry an operation gives to an address. *)
Definition resolves (o : cache_op) (ip : string) : option (string * Z) :=
  match o with
  | OpLookup _ _ => None
  | OpRemember t q r =>
      match parseDNSResolution q r with
      | Some (host, ips, ttl) =>
          if bool_decide (ip ∈ ips) && negb (bool_decide (ip = ""))
          then Some (host, t + (if ttl <=? 0 then 30 * Second else ttl)) else None
      | None => None
      end
  end.
(** The newest answer about an address; [past] has the newest operation first. *)
Fixpoint last_resolution (past : list cache_op) (ip : string) : option (string * Z) :=
  match past with
  | [] => None
  | o :: past => match resolves o ip with Some r => Some r | None => last_resolution past ip end
  end.
(** The abstract cache: no table, no deletion, the history alone. *)
Definition resolved_name (past : list cache_op) (ip : string) (now : Z) : option string :=
  match last_resolution past ip with
  | Some (host, expires) =>
      if (now <=? expires) && negb (bool_decide (TrimSpace host = "")) then Some host else None
  | None => None
  end.
Fixpoint spec_run (past ops : list cache_op) : list (option string) :=
  match ops with
  | [] => []
  | OpRemember t q r :: ops => spec_run (OpRemember t q r :: past) ops
  | OpLookup t ip :: ops => resolved_name past ip t :: spec_run (OpLookup t ip :: past) ops
  end.

(** The table agrees with the history from [since] on: an address without an
    entry was never resolved or its newest answer has expired. *)
Definition cache_agrees (c : dnsCache) (past : list cache_op) (since : Z) : Prop :=
  forall ip, match c !! ip with
             | Some e => last_resolution past ip = Some (de_host e, de_expires e) /\ 0 < de_expires e
             | None => match last_resolution past ip with Some (_, expires) => expires < since | None => True end
             end.

Lemma resolution_ttl q r host ips ttl :
  (forall m answers, msg_Answers m = Some answers -> Forall (fun a => 0 <= an_TTL a) answers) ->
  parseDNSResolution q r = Some (host, ips, ttl) -> 0 <= ttl.
Proof.
  intros TTL E. unfold parseDNSResolution in E. destruct (msg_Questions q) as [[|question ?]|]; try done.
  case_bool_decide; [done|]. destruct (msg_Answers r) as [answers|] eqn:A; [|done].
  apply TTL in A. assert (B : forall ips0 t, 0 <= t -> 0 <= (answers_loop answers ips0 t).2).
  { clear E. induction A as [|a rest Ha A IH]; simpl; [done|]. intros ips0 t Ht. destruct (answer_ip a); [|by apply IH].
    apply IH. case_match; lia. }
  specialize (B [] 0 ltac:(lia)). destruct (answers_loop answers [] 0) as [ips' t]. case_bool_decide; [done|].
  injection E as <- <- <-. unfold Second. simpl in B. lia.
Qed.

Lemma foldl_entry (e : dnsResolutionEntry) ips (c : dnsCache) ip :
  foldl (fun c ip => if bool_decide (ip = "") then c else <[ip := e]> c) c ips !! ip =
  if bool_decide (ip ∈ ips) && negb (bool_decide (ip = "")) then Some e else c !! ip.
Proof.
  revert c. induction ips as [|x ips IH]; intros c; [done|]. simpl. rewrite IH.
  destruct (decide (ip = "")) as [->|E].
  - rewrite (bool_decide_eq_true_2 ("" = "")) by done. cbn [negb]. rewrite !andb_false_r.
    destruct (decide (x = "")) as [->|N]; [done|]. rewrite bool_decide_eq_false_2 by done. by rewrite lookup_insert_ne.
  - rewrite (bool_decide_eq_false_2 (ip = "")) by done. cbn [negb]. rewrite !andb_true_r. case_bool_decide as I.
    + by rewrite bool_decide_eq_true_2 by (by right).
    + destruct (decide (ip = x)) as [->|N].
      * rewrite (bool_decide_eq_false_2 (x = "")) by done.
        rewrite lookup_insert_eq. by rewrite bool_decide_eq_true_2 by left.
      * rewrite (bool_decide_eq_false_2 (ip ∈ x :: ips)) by (by rewrite elem_of_cons; intros [|]).
        destruct (decide (x = "")) as [->|Nx]; [done|]. rewrite (bool_decide_eq_false_2 (x = "")) by done.
        by rewrite lookup_insert_ne.
Qed.

Lemma remember_lookup t q r c ip :
  remember t q r c !! ip =
  match resolves (OpRemember t q r) ip with
  | Some (host, expires) => Some {| de_host := host; de_expires := expires |}
  | None => c !! ip
  end.
Proof.
  unfold remember, resolves. destruct (parseDNSResolution q r) as [[[host ips] ttl]|]; [|done].
  case_bool_decide as N.
  - subst. by rewrite bool_decide_eq_false_2 by (by apply not_elem_of_nil).
  - rewrite foldl_entry. by case_match.
Qed.

Section refinement.
(** A TTL is unsigned. *)
Hypothesis TTL_unsigned : forall m answers, msg_Answers m = Some answers -> Forall (fun a => 0 <= an_TTL a) answers.

Lemma remember_agrees t q r c past since :
  0 < t -> cache_agrees c past since -> cache_agrees (remember t q r c) (OpRemember t q r :: past) since.
Proof.
  intros Ht A ip. specialize (A ip). rewrite remember_lookup. cbn [last_resolution].
  destruct (resolves (OpRemember t q r) ip) as [[host expires]|] eqn:E; [|done]. split; [done|]. simpl.
  unfold resolves in E. destruct (parseDNSResolution q r) as [[[h ips] ttl]|] eqn:P; [|done].
  apply resolution_ttl in P; [|done]. destruct (_ && _); [|done]. injection E as <- <-. unfold Second.
  destruct (ttl <=? 0) eqn:L; lia.
Qed.

Lemma agrees_later c past since since' : since <= since' -> cache_agrees c past since -> cache_agrees c past since'.
Proof. intros L A ip. specialize (A ip). repeat case_match; try done. lia. Qed.

Lemma lookup_agrees t ip c past :
  0 < t -> cache_agrees c past t ->
  (cache_lookupResolvedHost t ip t c).1 = (if bool_decide (ip = "") then None else resolved_name past ip t) /\
  cache_agrees (cache_lookupResolvedHost t ip t c).2 (OpLookup t ip :: past) t.
Proof.
  intros Ht A. unfold cache_lookupResolvedHost, resolved_name. case_bool_decide; [done|].
  pose proof (A ip) as Aip. replace (t =? 0) with false by lia. destruct (c !! ip) as [e|] eqn:E.
  - destruct Aip as [-> P]. replace (de_expires e =? 0) with false by lia. cbn [negb andb].
    destruct (de_expires e <? t) eqn:L; [|].
    + replace (t <=? de_expires e) with false by lia. split; [done|]. intros ip'. cbn [snd last_resolution resolves].
      destruct (decide (ip' = ip)) as [->|N]; [|by rewrite lookup_delete_ne; [apply A|]].
      rewrite lookup_delete_eq. pose proof (A ip) as A'. rewrite E in A'. destruct A' as [-> _]. lia.
    + replace (t <=? de_expires e) with true by lia. case_bool_decide; split; try done; by rewrite E.
  - split; [|done]. destruct (last_resolution past ip) as [[h x]|]; [|done]. by replace (t <=? x) with false by lia.
Qed.

(** The answers of a run from a table that agrees with its history. *)
Lemma run_cache_refines ops past c since :
  0 < since -> StronglySorted Z.le (since :: (op_clock <$> ops)) -> cache_agrees c past since ->
  Forall (fun o => match o with OpLookup _ ip => ip <> "" | _ => True end) ops ->
  (run_cache ops c).1 = spec_run past ops.
Proof.
  revert past c since. induction ops as [|o ops IH]; intros past c since Hs S A NE; [done|].
  inversion S as [|? ? S' F]; subst. simpl in S', F. inversion F as [|? ? L F']; subst.
  apply Forall_cons in NE as [No NE]. destruct o as [t q r|t ip]; cbn [op_clock] in *.
  - simpl. apply (IH _ _ t); [lia|done|apply remember_agrees; [lia|by eapply agrees_later]|done].
  - simpl. destruct (lookup_agrees t ip c past) as [R A']; [lia|by eapply agrees_later|].
    destruct (cache_lookupResolvedHost t ip t c) as [h c']. simpl in R, A'.
    assert (IHl := IH (OpLookup t ip :: past) c' t ltac:(lia) S' A' NE).
    destruct (run_cache ops c') as [hs c'']. simpl in *. rewrite bool_decide_eq_false_2 in R by done. by subst.
Qed.
End refinement.
End origins.
