(* ===== verification/TransparentTheorems.v ===== *)
(** The claims about the helper's memory of the transparent network, with their
    witnesses. *)
From S2P Require Import Prelude GoStrings GoNet Sample TransparentNet.

Section origins.
Context `{GoLib} `{DNSMessages}.

(** What other goroutines do with the tables. *)
Inductive origin_op :=
| ORecord (clock : Z) (localAddr host : string) (port : Z)
| OTake (localAddr : string)
| ORemember (clock : Z) (query response : string).
Definition run_origin (n : transparentNet) (o : origin_op) : transparentNet :=
  match o with
  | ORecord clock a host port => recordRawTCPOrigin clock a host port n
  | OTake a => (takeRawTCPOrigin a n).2
  | ORemember clock q r => rememberDNSResolution clock q r n
  end.
Definition run_origins (ops : list origin_op) (n : transparentNet) : transparentNet := foldl run_origin n ops.
Definition origin_key (o : origin_op) : option string :=
  match o with
  | ORecord _ a _ _ | OTake a => Some (canonicalTCPOriginKey a)
  | ORemember _ _ _ => None
  end.

(** The name a destination is recorded under. *)
Definition attributed_host (clock : Z) (host : string) (n : transparentNet) : string :=
  match ParseIP host with
  | Some ip => default host (lookupResolvedHost clock (IP_String ip) clock n).1
  | None => host
  end.

Lemma lookup_keeps_origins clock ip t n : tn_origins (lookupResolvedHost clock ip t n).2 = tn_origins n.
Proof. unfold lookupResolvedHost. by destruct (cache_lookupResolvedHost _ _ _ _). Qed.

Lemma record_origins clock a host port n :
  a <> "" -> host <> "" -> 1 <= port <= 65535 ->
  tn_origins (recordRawTCPOrigin clock a host port n) =
  <[canonicalTCPOriginKey a := {| rd_host := attributed_host clock host n; rd_port := port |}]> (tn_origins n).
Proof.
  intros Ha Hh Hp. unfold recordRawTCPOrigin, attributed_host. rewrite !bool_decide_eq_false_2 by done.
  replace (port <? 1) with false by lia. replace (65535 <? port) with false by lia. cbn [orb].
  destruct (ParseIP host) as [ip|]; [|done].
  pose proof (lookup_keeps_origins clock (IP_String ip) clock n) as K.
  destruct (lookupResolvedHost clock (IP_String ip) clock n) as [r n']. simpl in *. by rewrite K.
Qed.

(** A table operation leaves the origins of other keys alone. *)
Lemma run_origin_other o n k : origin_key o <> Some k -> tn_origins (run_origin n o) !! k = tn_origins n !! k.
Proof.
  destruct o as [clock a host port|a|clock q r]; simpl; intros NK; [| |done].
  - destruct (decide (a <> "" /\ host <> "" /\ 1 <= port <= 65535)) as [(Ha & Hh & Hp)|N].
    + rewrite record_origins by done. rewrite lookup_insert_ne by congruence. done.
    + unfold recordRawTCPOrigin. destruct (_ || _) eqn:E; [done|]. exfalso. apply N. to_prop. naive_solver lia.
  - unfold takeRawTCPOrigin. case_bool_decide; [done|]. destruct (tn_origins n !! canonicalTCPOriginKey a); [|done].
    simpl. rewrite lookup_delete_ne by congruence. done.
Qed.
Lemma run_origins_other ops n k :
  Forall (fun o => origin_key o <> Some k) ops -> tn_origins (run_origins ops n) !! k = tn_origins n !! k.
Proof.
  unfold run_origins. revert n. induction ops as [|o ops IH]; intros n F; [done|].
  apply Forall_cons in F as [Ho F]. simpl. rewrite IH by done. by apply run_origin_other.
Qed.

Lemma take_present a n d :
  a <> "" -> tn_origins n !! canonicalTCPOriginKey a = Some d ->
  takeRawTCPOrigin a n = (Some d, {| tn_origins := delete (canonicalTCPOriginKey a) (tn_origins n); tn_dns := tn_dns n |}).
Proof. intros Ha E. unfold takeRawTCPOrigin. rewrite bool_decide_eq_false_2 by done. by rewrite E. Qed.
Lemma take_absent a n : tn_origins n !! canonicalTCPOriginKey a = None -> takeRawTCPOrigin a n = (None, n).
Proof. intros E. unfold takeRawTCPOrigin. case_bool_decide; [done|]. by rewrite E. Qed.

(** Round trip of a redirected connection: what [recordRawTCPOrigin] stores
    for a local address is found by [takeRawTCPOrigin] under every spelling of
    that address with the same canonical key, whatever other goroutines do with
    other addresses in between; it is the name the destination address was last
    resolved from, if that is still known, with the original port, and it is
    handed out once. *)
Theorem origin_roundtrip clock a a' host port ops n :
  a <> "" -> a' <> "" -> host <> "" -> 1 <= port <= 65535 ->
  canonicalTCPOriginKey a' = canonicalTCPOriginKey a ->
  Forall (fun o => origin_key o <> Some (canonicalTCPOriginKey a)) ops ->
  let n1 := run_origins ops (recordRawTCPOrigin clock a host port n) in
  (takeRawTCPOrigin a' n1).1 = Some {| rd_host := attributed_host clock host n; rd_port := port |} /\
  (takeRawTCPOrigin a' (takeRawTCPOrigin a' n1).2).1 = None.
Proof.
  intros Ha Ha' Hh Hp K F n1.
  assert (E : tn_origins n1 !! canonicalTCPOriginKey a' = Some {| rd_host := attributed_host clock host n; rd_port := port |}).
  { rewrite K. unfold n1. rewrite run_origins_other by done. by rewrite record_origins, lookup_insert_eq. }
  rewrite (take_present a' n1 _ Ha' E). split; [done|]. cbn [snd]. by rewrite take_absent by (simpl; apply lookup_delete_eq).
Qed.

(** ** Polling *)

(** The state before poll [i] when no poll found anything. *)
Fixpoint polled (i : nat) (polls : list (Z * (transparentNet -> transparentNet))) (n : transparentNet) : transparentNet :=
  match i, polls with
  | S i, (_, others) :: polls => polled i polls (others n)
  | _, _ => n
  end.

(** The wait for an origin: it ends no later than the first poll after the
    deadline, and it comes back empty-handed only if the origin was missing at
    every poll it made; otherwise it takes the origin at the first poll that
    finds it. *)
Theorem wait_loop_result deadline a polls n i clock others :
  a <> "" -> polls !! i = Some (clock, others) -> deadline < clock ->
  exists j, (j <= i)%nat /\
    (forall k, (k < j)%nat -> tn_origins (polled k polls n) !! canonicalTCPOriginKey a = None) /\
    wait_loop deadline a polls n = Some (takeRawTCPOrigin a (polled j polls n)).
Proof.
  intros Ha. revert polls n. induction i as [|i IH]; intros [|[t f] polls] n E L; try done; simpl in E.
  - exists 0%nat. injection E as -> ->. split; [done|]. split; [intros; lia|]. simpl.
    destruct (takeRawTCPOrigin a n) as [[d|] n']; [done|]. by replace (deadline <? clock) with true by lia.
  - destruct (tn_origins n !! canonicalTCPOriginKey a) as [d|] eqn:O.
    + exists 0%nat. split; [lia|]. split; [intros; lia|]. simpl. by rewrite (take_present a n d Ha O).
    + simpl. rewrite (take_absent a n O). destruct (deadline <? t) eqn:LT.
      * exists 0%nat. split; [lia|]. split; [intros; lia|]. simpl. by rewrite (take_absent a n O).
      * destruct (IH polls (f n) E L) as (j & Hj & B & R). exists (S j). split; [lia|]. split; [|done].
        intros [|k] Hk; [done|]. apply B. lia.
Qed.

(** C21. The cache refines its history: from an empty cache, whatever is
    remembered and asked for in the order of the clock, each lookup answers with
    the name of the newest remembered resolution that lists the address, provided
    it has not expired, and with nothing otherwise; dropping expired entries is
    invisible. *)
Theorem resolution_cache_refines ops :
  (forall m answers, msg_Answers m = Some answers -> Forall (fun a => 0 <= an_TTL a) answers) ->
  StronglySorted Z.le (1 :: (op_clock <$> ops)) ->
  Forall (fun o => match o with OpLookup _ ip => ip <> "" | _ => True end) ops ->
  (run_cache ops newDNSCache).1 = spec_run [] ops.
Proof.
  intros TTL S NE. apply (run_cache_refines TTL ops [] newDNSCache 1); [lia|done| |done].
  intros ip. unfold newDNSCache. by rewrite lookup_empty.
Qed.
End origins.

(** * Witnesses *)

(** A toy message format: the query is the name; the answer is a letter for the
    TTL ("5" for 5 seconds, anything else 0) and the last octet of 10.0.0.x. *)
Definition sampleDNS : DNSMessages := {|
  msg_Questions q := Some [q];
  msg_Answers r :=
    match r with
    | String t (String d "") =>
        Some [{| an_TTL := if bool_decide (t = "5"%char) then 5 else 0; an_Body := AResource [10; 0; 0; byte_of d - 48] |}]
    | _ => None
    end;
|}.
Lemma sampleDNS_ttl m answers : @msg_Answers sampleDNS m = Some answers -> Forall (fun a => 0 <= an_TTL a) answers.
Proof.
  simpl. destruct m as [|t [|d [|? ?]]]; try done. intros [= <-]. constructor; [|done]. simpl. by case_bool_decide.
Qed.

#[local] Existing Instance sampleLib.
#[local] Existing Instance sampleDNS.

Lemma origin_roundtrip_witness :
  let n := rememberDNSResolution 100 "api.example.com." "57" newTransparentNet in
  let n1 := run_origins [OTake "127.0.0.1:9"; ORemember 120 "other." "51"]
              (recordRawTCPOrigin 110 "127.0.0.1:4000" "10.0.0.7" 443 n) in
  (takeRawTCPOrigin "[::ffff:127.0.0.1]:4000" n1).1 = Some {| rd_host := "api.example.com"; rd_port := 443 |}.
Proof.
  intros n n1.
  destruct (origin_roundtrip 110 "127.0.0.1:4000" "[::ffff:127.0.0.1]:4000" "10.0.0.7" 443
           [OTake "127.0.0.1:9"; ORemember 120 "other." "51"] n) as [R _];
    [discriminate|discriminate|discriminate|lia|vm_compute; reflexivity| |].
  - repeat constructor; vm_compute; discriminate.
  - etransitivity; [exact R|vm_compute; reflexivity].
Defined.

Lemma wait_loop_result_witness :
  exists j, (j <= 1)%nat /\
    wait_loop 50 "127.0.0.1:4000" [(10, fun n => n); (60, fun n => n)] newTransparentNet =
    Some (takeRawTCPOrigin "127.0.0.1:4000" (polled j [(10, fun n => n); (60, fun n => n)] newTransparentNet)).
Proof.
  destruct (wait_loop_result 50 "127.0.0.1:4000" [(10, fun n => n); (60, fun n => n)] newTransparentNet 1 60 (fun n => n))
    as (j & L & _ & R); [discriminate|reflexivity|lia|]. exists j. split; [exact L|exact R].
Defined.

Lemma resolution_cache_refines_witness :
  (run_cache
     [OpRemember 100 "a.example." "57"; OpLookup 200 "10.0.0.7"; OpLookup (200 + 5 * Second) "10.0.0.7"] newDNSCache).1 =
  [Some "a.example"; None].
Proof.
  rewrite (resolution_cache_refines);
    [vm_compute; reflexivity|exact sampleDNS_ttl| |].
  - repeat constructor; vm_compute; discriminate.
  - repeat constructor; discriminate.
Defined.
