(* ===== verification/Messages.v ===== *)
(** The messages between the helper and the host ([helperproto/messages.go]).

    An envelope is a Go struct of pointers, of which the senders set one: a
    record of options, with [message] for the one that is set. The request and
    response records of the proxy services are those of [Manager]. *)
From S2P Require Import Prelude GoStrings Policy Manager.

Definition ProtocolVersion : Z := 9.

Record Hello := { he_ProtocolVersion : Z; he_SandboxID : string }.
Record Ready := { rd_ProtocolVersion : Z; rd_ProxyAddr : string; rd_DNSAddr : string; rd_TCPAddr : string }.
Abbreviation MITMResponse := ProxyResponse.
Record LeafCertRequest := { lq_Host : string }.
Record LeafCertResponse := { lc_CertPEM : string; lc_KeyPEM : string; lc_Error : string }.
Record TunnelFrame := { tf_Data : string }.
Record TunnelClose := { tc_Write : bool; tc_Error : string }.
Record TerminalSize := { ts_Rows : Z; ts_Cols : Z }.
Record ExecRequest := {
  xq_Argv : list string; xq_Env : list string; xq_WorkDir : string; xq_Interactive : bool; xq_Terminal : bool;
  xq_InitialSize : option TerminalSize;
}.
Record ExecInput := { xi_Data : string; xi_EOF : bool; xi_Resize : option TerminalSize; xi_Cancel : bool }.
Definition StreamStdout : string := "stdout".
Definition StreamStderr : string := "stderr".
Record StreamFrame := { sf_Stream : string; sf_Data : string }.
Record ExecResult := { xr_ExitCode : Z; xr_Stderr : string; xr_Error : string }.

Record Envelope := {
  e_ID : Z;
  e_Hello : option Hello;
  e_Ready : option Ready;
  e_ProxyRequest : option ProxyRequest;
  e_ProxyResponse : option ProxyResponse;
  e_ConnectRequest : option ConnectRequest;
  e_ConnectResponse : option ConnectResponse;
  e_DNSRequest : option DNSRequest;
  e_DNSResponse : option DNSResponse;
  e_LeafCertRequest : option LeafCertRequest;
  e_LeafCertResponse : option LeafCertResponse;
  e_MITMRequest : option MITMRequest;
  e_MITMResponse : option MITMResponse;
  e_TunnelFrame : option TunnelFrame;
  e_TunnelClose : option TunnelClose;
  e_ExecRequest : option ExecRequest;
  e_ExecInput : option ExecInput;
  e_StreamFrame : option StreamFrame;
  e_ExecResult : option ExecResult;
}.

Definition present {A} (x : option A) : bool := match x with Some _ => true | None => false end.

Definition Kind (e : Envelope) : string :=
  if present (e_Hello e) then "hello"
  else if present (e_Ready e) then "ready"
  else if present (e_ProxyRequest e) then "proxy_request"
  else if present (e_ProxyResponse e) then "proxy_response"
  else if present (e_ConnectRequest e) then "connect_request"
  else if present (e_ConnectResponse e) then "connect_response"
  else if present (e_DNSRequest e) then "dns_request"
  else if present (e_DNSResponse e) then "dns_response"
  else if present (e_LeafCertRequest e) then "leaf_cert_request"
  else if present (e_LeafCertResponse e) then "leaf_cert_response"
  else if present (e_MITMRequest e) then "mitm_request"
  else if present (e_MITMResponse e) then "mitm_response"
  else if present (e_TunnelFrame e) then "tunnel_frame"
  else if present (e_TunnelClose e) then "tunnel_close"
  else if present (e_ExecRequest e) then "exec_request"
  else if present (e_ExecInput e) then "exec_input"
  else if present (e_StreamFrame e) then "stream_frame"
  else if present (e_ExecResult e) then "exec_result"
  else "unknown".

(** The struct literals [Envelope{ID: id, Field: &m}] of the senders. *)
Inductive message :=
| MHello (m : Hello) | MReady (m : Ready)
| MProxyRequest (m : ProxyRequest) | MProxyResponse (m : ProxyResponse)
| MConnectRequest (m : ConnectRequest) | MConnectResponse (m : ConnectResponse)
| MDNSRequest (m : DNSRequest) | MDNSResponse (m : DNSResponse)
| MLeafCertRequest (m : LeafCertRequest) | MLeafCertResponse (m : LeafCertResponse)
| MMITMRequest (m : MITMRequest) | MMITMResponse (m : MITMResponse)
| MTunnelFrame (m : TunnelFrame) | MTunnelClose (m : TunnelClose)
| MExecRequest (m : ExecRequest) | MExecInput (m : ExecInput)
| MStreamFrame (m : StreamFrame) | MExecResult (m : ExecResult).

Definition envelope (id : Z) (x : message) : Envelope := {|
  e_ID := id;
  e_Hello := match x with MHello m => Some m | _ => None end;
  e_Ready := match x with MReady m => Some m | _ => None end;
  e_ProxyRequest := match x with MProxyRequest m => Some m | _ => None end;
  e_ProxyResponse := match x with MProxyResponse m => Some m | _ => None end;
  e_ConnectRequest := match x with MConnectRequest m => Some m | _ => None end;
  e_ConnectResponse := match x with MConnectResponse m => Some m | _ => None end;
  e_DNSRequest := match x with MDNSRequest m => Some m | _ => None end;
  e_DNSResponse := match x with MDNSResponse m => Some m | _ => None end;
  e_LeafCertRequest := match x with MLeafCertRequest m => Some m | _ => None end;
  e_LeafCertResponse := match x with MLeafCertResponse m => Some m | _ => None end;
  e_MITMRequest := match x with MMITMRequest m => Some m | _ => None end;
  e_MITMResponse := match x with MMITMResponse m => Some m | _ => None end;
  e_TunnelFrame := match x with MTunnelFrame m => Some m | _ => None end;
  e_TunnelClose := match x with MTunnelClose m => Some m | _ => None end;
  e_ExecRequest := match x with MExecRequest m => Some m | _ => None end;
  e_ExecInput := match x with MExecInput m => Some m | _ => None end;
  e_StreamFrame := match x with MStreamFrame m => Some m | _ => None end;
  e_ExecResult := match x with MExecResult m => Some m | _ => None end;
|}.

(** A struct literal determines the message: no two of them are the same envelope. *)
Lemma envelope_inj id x id' x' : envelope id x = envelope id' x' -> id = id' /\ x = x'.
Proof. destruct x, x'; intros [=]; subst; done. Qed.

(** [atomic.Uint64.Add(1)]. *)
Definition next_id (n : Z) : Z := (n + 1) mod 2 ^ 64.

(** The errors of a connection the code tells apart ([errors.Is] and
    [net.Error.Timeout]); the text is what is logged and sent. *)
Inductive connError := ErrEOF | ErrClosed | ErrTimeout (text : string) | ErrOther (text : string).
#[global] Instance connError_eq_dec : EqDecision connError.
Proof. solve_decision. Defined.
Definition error_text (e : connError) : string :=
  match e with
  | ErrEOF => "EOF"
  | ErrClosed => "use of closed network connection"
  | ErrTimeout t | ErrOther t => t
  end.
Definition ErrShortWrite : connError := ErrOther "short write".

(** The text of an error in a close message: closing is no error. *)
Definition close_text (e : option connError) : string :=
  match e with
  | None | Some ErrEOF | Some ErrClosed => ""
  | Some e => error_text e
  end.

(** ** Writing to a connection *)

Section writes.
(** [Write]: how many bytes were taken, and an error. *)
Context {C : Type} (write : string -> C -> (nat * option connError) * C).

(** The loop of [writeAll]; a round takes at least one byte or ends the loop, so
    as many rounds as bytes are enough. *)
Fixpoint write_loop (fuel : nat) (data : string) (c : C) : option (option connError * C) :=
  match data with
  | "" => Some (None, c)
  | _ =>
      match fuel with
      | O => None
      | S fuel =>
          match write data c with
          | ((_, Some e), c) => Some (Some e, c)
          | ((O, None), c) => Some (Some ErrShortWrite, c)
          | ((n, None), c) => write_loop fuel (string_drop n data) c
          end
      end
  end.
Definition writeAll (data : string) (c : C) : option (option connError * C) := write_loop (String.length data) data c.

Lemma string_drop_length n s : String.length (string_drop n s) = (String.length s - n)%nat.
Proof. revert n. induction s as [|a s IH]; intros [|n]; simpl; auto. Qed.

Lemma write_loop_total fuel data c : (String.length data <= fuel)%nat -> exists r, write_loop fuel data c = Some r.
Proof.
  revert data c. induction fuel as [|fuel IH]; intros [|a data] c L; simpl in *; [eauto|lia|eauto|].
  destruct (write _ c) as [[[|n] [e|]] c']; eauto. apply IH. simpl. rewrite string_drop_length. lia.
Qed.
Lemma writeAll_total data c : exists r, writeAll data c = Some r.
Proof. by apply write_loop_total. Qed.
End writes.
