(* ===== verification/Bridge.v ===== *)
(** The helper's end of the control channel ([bridge/bridge.go]).

    Requests are numbered; each waits on a channel of its own for the response
    with its number. A call goes through the steps register, send, wait, done,
    and other goroutines run in between: the operations below are the steps, and
    [bridge_step] their interleavings. A call's channel has one place ([c_chan]);
    a tunnel's has 32. Calls are numbered in the order they start, deliveries in
    the order they are registered; those numbers stand for the channels. *)
From S2P Require Import Prelude GoStrings Policy Manager Messages.

(** * State *)

Inductive call_kind :=
| CProxy (req : ProxyRequest)
| CDNS (req : DNSRequest)
| CConnect (host : string) (port : Z)
| CAuthorize (host : string) (port : Z) (transparent : bool) (metadata : string * string * string)
| CLeafCert (host : string)
| CMITM (req : MITMRequest).

Inductive call_result :=
| RErr (e : string)
| RProxy (r : ProxyResponse)
| RDNS (payload : string)
| RConnect (r : ConnectResponse)
| RLeafCert (r : LeafCertResponse)
| RMITM (r : MITMResponse).

Inductive call_phase := CRegistered | CWaiting | CDone (r : call_result).

(** [c_since] counts the envelopes that were decoded before the call began. *)
Record call := {
  c_kind : call_kind; c_id : Z; c_tunnel : option nat; c_chan : option Envelope; c_since : nat; c_phase : call_phase;
}.
Definition set_chan (e : Envelope) (c : call) : call :=
  {| c_kind := c_kind c; c_id := c_id c; c_tunnel := c_tunnel c; c_chan := Some e; c_since := c_since c; c_phase := c_phase c |}.
Definition set_call_phase (p : call_phase) (c : call) : call :=
  {| c_kind := c_kind c; c_id := c_id c; c_tunnel := c_tunnel c; c_chan := c_chan c; c_since := c_since c; c_phase := p |}.

Record tunnelDelivery := { td_ch : list Envelope; td_closed : bool }.
Definition tunnel_capacity : nat := 32.

(** The read loop is about to decode, holds an envelope for a tunnel, or has ended. *)
Inductive loop_state := LReading | LDelivering (d : nat) (env : Envelope) | LStopped (err : string).

Record RuntimeBridge := {
  b_proxyAddr : string; b_dnsAddr : string; b_tcpAddr : string;
  b_nextID : Z;
  b_pending : gmap Z nat;
  b_tunnels : gmap Z nat;
  b_deliveries : list tunnelDelivery;
  b_calls : list call;
  b_loop : loop_state;
  b_in : list Envelope;       (* decoded so far *)
  b_out : list Envelope;      (* encoded so far *)
  b_execHandlers : bool;
  b_execs : list (Z * ExecRequest);
  b_inputs : list (Z * ExecInput);
}.
Definition new_bridge (proxyAddr : string) : RuntimeBridge := {|
  b_proxyAddr := proxyAddr; b_dnsAddr := ""; b_tcpAddr := ""; b_nextID := 0; b_pending := ∅; b_tunnels := ∅;
  b_deliveries := []; b_calls := []; b_loop := LReading; b_in := []; b_out := [];
  b_execHandlers := false; b_execs := []; b_inputs := [] |}.
Definition SetReadyAddrs (dnsAddr tcpAddr : string) (b : RuntimeBridge) : RuntimeBridge := {|
  b_proxyAddr := b_proxyAddr b; b_dnsAddr := dnsAddr; b_tcpAddr := tcpAddr; b_nextID := b_nextID b;
  b_pending := b_pending b; b_tunnels := b_tunnels b; b_deliveries := b_deliveries b; b_calls := b_calls b;
  b_loop := b_loop b; b_in := b_in b; b_out := b_out b;
  b_execHandlers := b_execHandlers b; b_execs := b_execs b; b_inputs := b_inputs b |}.
Definition SetExecHandlers (b : RuntimeBridge) : RuntimeBridge := {|
  b_proxyAddr := b_proxyAddr b; b_dnsAddr := b_dnsAddr b; b_tcpAddr := b_tcpAddr b; b_nextID := b_nextID b;
  b_pending := b_pending b; b_tunnels := b_tunnels b; b_deliveries := b_deliveries b; b_calls := b_calls b;
  b_loop := b_loop b; b_in := b_in b; b_out := b_out b;
  b_execHandlers := true; b_execs := b_execs b; b_inputs := b_inputs b |}.

(** Field updates. *)
Definition upd_calls (pending : gmap Z nat) (calls : list call) (b : RuntimeBridge) : RuntimeBridge := {|
  b_proxyAddr := b_proxyAddr b; b_dnsAddr := b_dnsAddr b; b_tcpAddr := b_tcpAddr b; b_nextID := b_nextID b;
  b_pending := pending; b_tunnels := b_tunnels b; b_deliveries := b_deliveries b; b_calls := calls;
  b_loop := b_loop b; b_in := b_in b; b_out := b_out b;
  b_execHandlers := b_execHandlers b; b_execs := b_execs b; b_inputs := b_inputs b |}.
Definition upd_tunnels (tunnels : gmap Z nat) (deliveries : list tunnelDelivery) (b : RuntimeBridge) : RuntimeBridge := {|
  b_proxyAddr := b_proxyAddr b; b_dnsAddr := b_dnsAddr b; b_tcpAddr := b_tcpAddr b; b_nextID := b_nextID b;
  b_pending := b_pending b; b_tunnels := tunnels; b_deliveries := deliveries; b_calls := b_calls b;
  b_loop := b_loop b; b_in := b_in b; b_out := b_out b;
  b_execHandlers := b_execHandlers b; b_execs := b_execs b; b_inputs := b_inputs b |}.
Definition upd_id (id : Z) (b : RuntimeBridge) : RuntimeBridge := {|
  b_proxyAddr := b_proxyAddr b; b_dnsAddr := b_dnsAddr b; b_tcpAddr := b_tcpAddr b; b_nextID := id;
  b_pending := b_pending b; b_tunnels := b_tunnels b; b_deliveries := b_deliveries b; b_calls := b_calls b;
  b_loop := b_loop b; b_in := b_in b; b_out := b_out b;
  b_execHandlers := b_execHandlers b; b_execs := b_execs b; b_inputs := b_inputs b |}.
Definition upd_io (loop : loop_state) (i o : list Envelope) (b : RuntimeBridge) : RuntimeBridge := {|
  b_proxyAddr := b_proxyAddr b; b_dnsAddr := b_dnsAddr b; b_tcpAddr := b_tcpAddr b; b_nextID := b_nextID b;
  b_pending := b_pending b; b_tunnels := b_tunnels b; b_deliveries := b_deliveries b; b_calls := b_calls b;
  b_loop := loop; b_in := i; b_out := o;
  b_execHandlers := b_execHandlers b; b_execs := b_execs b; b_inputs := b_inputs b |}.
Definition upd_exec (execs : list (Z * ExecRequest)) (inputs : list (Z * ExecInput)) (b : RuntimeBridge) : RuntimeBridge := {|
  b_proxyAddr := b_proxyAddr b; b_dnsAddr := b_dnsAddr b; b_tcpAddr := b_tcpAddr b; b_nextID := b_nextID b;
  b_pending := b_pending b; b_tunnels := b_tunnels b; b_deliveries := b_deliveries b; b_calls := b_calls b;
  b_loop := b_loop b; b_in := b_in b; b_out := b_out b;
  b_execHandlers := b_execHandlers b; b_execs := execs; b_inputs := inputs |}.

(** [Send] when the encoder succeeds. *)
Definition Send (env : Envelope) (b : RuntimeBridge) : RuntimeBridge := upd_io (b_loop b) (b_in b) (b_out b ++ [env]) b.

(** * Tunnels *)

Definition RegisterTunnel (id : Z) (b : RuntimeBridge) : RuntimeBridge * nat :=
  let d := length (b_deliveries b) in
  (upd_tunnels (<[id := d]> (b_tunnels b)) (b_deliveries b ++ [{| td_ch := []; td_closed := false |}]) b, d).
(** The second [close] of a channel would panic: a delivery leaves the map once. *)
Definition UnregisterTunnel (id : Z) (b : RuntimeBridge) : RuntimeBridge :=
  match b_tunnels b !! id with
  | None => b
  | Some d =>
      upd_tunnels (delete id (b_tunnels b))
        (alter (fun t => {| td_ch := td_ch t; td_closed := true |}) d (b_deliveries b)) b
  end.
Definition TunnelCount (b : RuntimeBridge) : nat := size (b_tunnels b).

(** [DeliverTunnel] up to its [select]: the read loop then holds the envelope. *)
Definition DeliverTunnel (env : Envelope) (b : RuntimeBridge) : RuntimeBridge :=
  match b_tunnels b !! e_ID env with
  | None => b
  | Some d => upd_io (LDelivering d env) (b_in b) (b_out b) b
  end.
(** The two cases of the [select]. *)
Definition deliver_push (d : nat) (env : Envelope) (b : RuntimeBridge) : RuntimeBridge :=
  upd_io LReading (b_in b) (b_out b)
    (upd_tunnels (b_tunnels b)
       (alter (fun t => {| td_ch := td_ch t ++ [env]; td_closed := td_closed t |}) d (b_deliveries b)) b).
Definition deliver_drop (b : RuntimeBridge) : RuntimeBridge := upd_io LReading (b_in b) (b_out b) b.
(** A receive from a tunnel's channel. *)
Definition tunnel_pop (d : nat) (b : RuntimeBridge) : RuntimeBridge :=
  upd_tunnels (b_tunnels b)
    (alter (fun t => {| td_ch := tail (td_ch t); td_closed := td_closed t |}) d (b_deliveries b)) b.

(** * Calls *)

Section calls.
Context `{GoLib}.

Definition request_message (k : call_kind) : message :=
  match k with
  | CProxy req => MProxyRequest req
  | CDNS req => MDNSRequest req
  | CConnect host port =>
      MConnectRequest {| cr_Host := host; cr_Port := port; cr_Transparent := false; cr_ProtocolMetadata := ("", "", "") |}
  | CAuthorize host port transparent metadata =>
      MConnectRequest {| cr_Host := host; cr_Port := port; cr_Transparent := transparent; cr_ProtocolMetadata := metadata |}
  | CLeafCert host => MLeafCertRequest {| lq_Host := host |}
  | CMITM req => MMITMRequest req
  end.

(** What the call returns for the envelope it received. *)
Definition missing (id : Z) (what : string) : call_result :=
  RErr ("bridge response " +:+ Itoa id +:+ " did not contain a " +:+ what +:+ " response").
Definition receive_result (k : call_kind) (id : Z) (env : Envelope) : call_result :=
  match k with
  | CProxy _ =>
      match e_ProxyResponse env with
      | None => missing id "proxy"
      | Some r => if bool_decide (ps_Error r = "") then RProxy r else RErr (ps_Error r)
      end
  | CDNS _ =>
      match e_DNSResponse env with
      | None => missing id "dns"
      | Some r => if bool_decide (ds_Error r = "") then RDNS (ds_Payload r) else RErr (ds_Error r)
      end
  | CConnect _ _ | CAuthorize _ _ _ _ =>
      match e_ConnectResponse env with None => missing id "connect" | Some r => RConnect r end
  | CLeafCert _ =>
      match e_LeafCertResponse env with
      | None => missing id "leaf cert"
      | Some r => if bool_decide (lc_Error r = "") then RLeafCert r else RErr (lc_Error r)
      end
  | CMITM _ =>
      match e_MITMResponse env with
      | None => missing id "MITM"
      | Some r => if negb (bool_decide (ps_Error r = "")) && (ps_StatusCode r =? 0) then RErr (ps_Error r) else RMITM r
      end
  end.

Definition is_connect (k : call_kind) : bool := match k with CConnect _ _ => true | _ => false end.

(** The start of a call: a new number, [RegisterTunnel] for [Connect], the entry
    of the pending table. *)
Definition begin_call (k : call_kind) (b : RuntimeBridge) : RuntimeBridge :=
  let id := next_id (b_nextID b) in
  let b := upd_id id b in
  let '(b, tunnel) := if is_connect k then let '(b, d) := RegisterTunnel id b in (b, Some d) else (b, None) in
  let i := length (b_calls b) in
  upd_calls (<[id := i]> (b_pending b))
    (b_calls b ++ [{| c_kind := k; c_id := id; c_tunnel := tunnel; c_chan := None; c_since := length (b_in b);
                      c_phase := CRegistered |}]) b.

(** Sending the request. *)
Definition send_call (i : nat) (c : call) (b : RuntimeBridge) : RuntimeBridge :=
  Send (envelope (c_id c) (request_message (c_kind c)))
    (upd_calls (b_pending b) (<[i := set_call_phase CWaiting c]> (b_calls b)) b).

(** The end of a call: [UnregisterTunnel] when [Connect] fails, and the deferred
    removal from the pending table. *)
Definition end_call (i : nat) (c : call) (r : call_result) (b : RuntimeBridge) : RuntimeBridge :=
  let b := if is_connect (c_kind c) then match r with RErr _ => UnregisterTunnel (c_id c) b | _ => b end else b in
  upd_calls (delete (c_id c) (b_pending b)) (<[i := set_call_phase (CDone r) c]> (b_calls b)) b.

(** * The read loop *)

Definition handleHello (env : Envelope) (hello : Hello) (b : RuntimeBridge) : result RuntimeBridge :=
  if negb (he_ProtocolVersion hello =? ProtocolVersion)
  then Err ("unsupported protocol version " +:+ Itoa (he_ProtocolVersion hello))
  else Ok (Send (envelope (e_ID env)
             (MReady {| rd_ProtocolVersion := ProtocolVersion; rd_ProxyAddr := b_proxyAddr b;
                        rd_DNSAddr := b_dnsAddr b; rd_TCPAddr := b_tcpAddr b |})) b).

(** A response goes to the channel of its call unless that is unknown or full. *)
Definition deliver (env : Envelope) (b : RuntimeBridge) : RuntimeBridge :=
  match b_pending b !! e_ID env with
  | None => b
  | Some i =>
      match b_calls b !! i with
      | Some c => match c_chan c with
                  | None => upd_calls (b_pending b) (<[i := set_chan env c]> (b_calls b)) b
                  | Some _ => b
                  end
      | None => b
      end
  end.

Definition is_response (env : Envelope) : bool :=
  present (e_ProxyResponse env) || present (e_MITMResponse env) || present (e_LeafCertResponse env) ||
  present (e_DNSResponse env) || present (e_ConnectResponse env).

(** One round of [ReadLoop] on a decoded envelope; an error ends the loop. *)
Definition ReadLoop_round (env : Envelope) (b : RuntimeBridge) : RuntimeBridge :=
  let b := upd_io (b_loop b) (b_in b ++ [env]) (b_out b) b in
  match e_Hello env with
  | Some hello =>
      match handleHello env hello b with
      | Ok b => b
      | Err e => upd_io (LStopped e) (b_in b) (b_out b) b
      end
  | None =>
      if is_response env then deliver env b
      else if present (e_TunnelFrame env) || present (e_TunnelClose env) then DeliverTunnel env b
      else match e_ExecRequest env with
           | Some req => if b_execHandlers b then upd_exec (b_execs b ++ [(e_ID env, req)]) (b_inputs b) b else b
           | None =>
               match e_ExecInput env with
               | Some input => if b_execHandlers b then upd_exec (b_execs b) (b_inputs b ++ [(e_ID env, input)]) b else b
               | None => b
               end
           end
  end.

(** * All interleavings *)

(** What the helper sends besides requests and [Ready]: the output and result of
    commands, and the traffic of the tunnels that [Connect] opened. *)
Definition traffic_allowed (b : RuntimeBridge) (id : Z) (m : message) : Prop :=
  match m with
  | MStreamFrame _ | MExecResult _ => True
  | MTunnelFrame _ | MTunnelClose _ => exists i c, b_calls b !! i = Some c /\ c_id c = id /\ is_connect (c_kind c) = true
  | _ => False
  end.

(** Steps other than decoding an envelope. *)
Inductive bridge_move : RuntimeBridge -> RuntimeBridge -> Prop :=
| bs_begin k b : bridge_move b (begin_call k b)
| bs_send i c b : b_calls b !! i = Some c -> c_phase c = CRegistered -> bridge_move b (send_call i c b)
| bs_send_error i c e b : b_calls b !! i = Some c -> c_phase c = CRegistered ->
    bridge_move b (end_call i c (RErr e) b)
| bs_cancel i c e b : b_calls b !! i = Some c -> c_phase c = CWaiting -> bridge_move b (end_call i c (RErr e) b)
| bs_receive i c env b : b_calls b !! i = Some c -> c_phase c = CWaiting -> c_chan c = Some env ->
    bridge_move b (end_call i c (receive_result (c_kind c) (c_id c) env) b)
| bs_read_error e b : b_loop b = LReading -> bridge_move b (upd_io (LStopped e) (b_in b) (b_out b) b)
| bs_push d env t b : b_loop b = LDelivering d env -> b_deliveries b !! d = Some t ->
    (length (td_ch t) < tunnel_capacity)%nat -> bridge_move b (deliver_push d env b)
| bs_drop d env t b : b_loop b = LDelivering d env -> b_deliveries b !! d = Some t -> td_closed t = true ->
    bridge_move b (deliver_drop b)
| bs_pop d b : bridge_move b (tunnel_pop d b)
| bs_traffic id m b : traffic_allowed b id m -> bridge_move b (Send (envelope id m) b)
| bs_unregister i c b : b_calls b !! i = Some c -> is_connect (c_kind c) = true ->
    bridge_move b (UnregisterTunnel (c_id c) b).
(** Any peer: every envelope can be the next one. *)
Inductive bridge_step : RuntimeBridge -> RuntimeBridge -> Prop :=
| bs_move b b' : bridge_move b b' -> bridge_step b b'
| bs_read env b : b_loop b = LReading -> bridge_step b (ReadLoop_round env b).
End calls.
