(* ===== verification/BridgeProofs.v ===== *)
(** The invariant of the helper's end of the control channel: numbers are
    unique, the pending table holds exactly the calls under way, a call's channel
    holds the first response with its number, and no tunnel is closed twice. *)
From S2P Require Import Prelude GoStrings Policy Manager Messages Bridge.

(** ** Responses in the log of decoded envelopes *)

Definition answers (id : Z) (env : Envelope) : bool :=
  negb (present (e_Hello env)) && is_response env && (e_ID env =? id).
Definition first_response (log : list Envelope) (since : nat) (id : Z) : option Envelope :=
  snd <$> list_find (fun env => answers id env = true) (drop since log).

Lemma first_response_snoc log since id env :
  (since <= length log)%nat ->
  first_response (log ++ [env]) since id =
  match first_response log since id with
  | Some e => Some e
  | None => if answers id env then Some env else None
  end.
Proof.
  intros L. unfold first_response. rewrite drop_app_le by done.
  destruct (list_find _ (drop since log)) as [[n e]|] eqn:E.
  - by erewrite list_find_app_l.
  - rewrite list_find_app_r by done. simpl. case_decide as D; simpl.
    + by rewrite D.
    + by destruct (answers id env).
Qed.
Lemma first_response_start log id : first_response log (length log) id = None.
Proof. unfold first_response. by rewrite drop_all. Qed.
Lemma first_response_app log log' since id e :
  first_response log since id = Some e -> (since <= length log)%nat -> first_response (log ++ log') since id = Some e.
Proof.
  intros E L. unfold first_response in *. rewrite drop_app_le by done.
  destruct (list_find _ (drop since log)) as [[n x]|] eqn:F; [|done]. by erewrite list_find_app_l.
Qed.
Lemma first_response_answers log since id e : first_response log since id = Some e -> answers id e = true /\ e ∈ log.
Proof.
  unfold first_response. destruct (list_find _ _) as [[n x]|] eqn:F; [|done]. intros [= <-].
  apply list_find_Some in F as (E & A & _). split; [done|]. rewrite lookup_drop in E. by eapply list_elem_of_lookup_2.
Qed.

Section calls.
Context `{GoLib}.

(** ** Calls *)

Definition under_way (c : call) : Prop := match c_phase c with CDone _ => False | _ => True end.
#[global] Instance under_way_dec c : Decision (under_way c).
Proof. unfold under_way. destruct (c_phase c); apply _. Defined.

Definition max_calls : Z := 2 ^ 64.

(** What a finished call returned: an error of its own, or what it makes of the
    first response with its number decoded since it began. *)
Definition answered (log : list Envelope) (c : call) (r : call_result) : Prop :=
  (exists e, r = RErr e) \/
  exists env, first_response log (c_since c) (c_id c) = Some env /\ r = receive_result (c_kind c) (c_id c) env.

Record calls_inv (next : Z) (pending : gmap Z nat) (calls : list call) (log : list Envelope) : Prop := {
  ci_next : next = Z.of_nat (length calls);
  ci_ids i c : calls !! i = Some c -> c_id c = Z.of_nat i + 1;
  ci_since i c : calls !! i = Some c -> (c_since c <= length log)%nat;
  ci_pending id i : pending !! id = Some i <-> exists c, calls !! i = Some c /\ c_id c = id /\ under_way c;
  ci_chan i c : calls !! i = Some c -> under_way c -> c_chan c = first_response log (c_since c) (c_id c);
  ci_done i c r : calls !! i = Some c -> c_phase c = CDone r -> answered log c r;
}.

Lemma calls_inv_empty : calls_inv 0 ∅ [] [].
Proof.
  split; try done. intros id i. rewrite lookup_empty. split; [done|]. by intros (c & ? & _).
Qed.

Lemma lookup_snoc_inv {A} (l : list A) x i y :
  (l ++ [x]) !! i = Some y -> l !! i = Some y /\ (i < length l)%nat \/ i = length l /\ y = x.
Proof.
  intros E. apply lookup_app_Some in E as [E|[L E]].
  - left. split; [done|]. by apply lookup_lt_Some in E.
  - right. destruct (i - length l)%nat eqn:D; [|done]. simpl in E. split; [lia|congruence].
Qed.

Lemma calls_inv_ids next pending calls log i j c c' :
  calls_inv next pending calls log -> calls !! i = Some c -> calls !! j = Some c' -> c_id c = c_id c' -> i = j.
Proof. intros I Ei Ej E. apply (ci_ids _ _ _ _ I) in Ei, Ej. lia. Qed.

Lemma begin_calls_inv next pending calls log k tunnel :
  calls_inv next pending calls log -> Z.of_nat (length calls) + 1 < max_calls ->
  next_id next = Z.of_nat (length calls) + 1 /\
  calls_inv (next_id next) (<[next_id next := length calls]> pending)
    (calls ++ [{| c_kind := k; c_id := next_id next; c_tunnel := tunnel; c_chan := None; c_since := length log;
                  c_phase := CRegistered |}]) log.
Proof.
  intros I L. assert (N : next_id next = Z.of_nat (length calls) + 1).
  { unfold next_id. rewrite (ci_next _ _ _ _ I). apply Z.mod_small. unfold max_calls in L. lia. }
  split; [done|]. rewrite N. split.
  - rewrite length_app. simpl. lia.
  - intros i c [[E _]|[-> ->]]%lookup_snoc_inv; [by eapply ci_ids|done].
  - intros i c [[E _]|[-> ->]]%lookup_snoc_inv; [by eapply ci_since|done].
  - intros id i. destruct (decide (id = Z.of_nat (length calls) + 1)) as [->|Nid].
    + rewrite lookup_insert_eq. split.
      * intros [= <-]. eexists. split; [by apply list_lookup_middle|done].
      * intros (c & [[E B]|[-> ->]]%lookup_snoc_inv & Hid & _); [|done]. apply (ci_ids _ _ _ _ I) in E. lia.
    + rewrite lookup_insert_ne by done. rewrite (ci_pending _ _ _ _ I). split.
      * intros (c & E & Hid & U). exists c. split; [by apply lookup_app_l_Some|done].
      * intros (c & [[E B]|[-> ->]]%lookup_snoc_inv & Hid & U); [by exists c|]. by destruct Nid.
  - intros i c [[E _]|[-> ->]]%lookup_snoc_inv U; [by eapply ci_chan|]. simpl. by rewrite first_response_start.
  - intros i c r [[E _]|[-> ->]]%lookup_snoc_inv P; [by eapply ci_done|done].
Qed.

(** A change of one call that keeps its number, its start and its channel. *)
Lemma phase_calls_inv next pending calls log i c p :
  calls_inv next pending calls log -> calls !! i = Some c -> under_way c ->
  match p with CDone r => answered log c r | _ => True end ->
  calls_inv next (match p with CDone _ => delete (c_id c) pending | _ => pending end)
    (<[i := set_call_phase p c]> calls) log.
Proof.
  intros I E U A. assert (Li := lookup_lt_Some _ _ _ E).
  assert (Look : forall j x, <[i := set_call_phase p c]> calls !! j = Some x ->
            j = i /\ x = set_call_phase p c \/ j <> i /\ calls !! j = Some x).
  { intros j x. destruct (decide (i = j)) as [<-|N].
    - rewrite list_lookup_insert_eq by done. intros [= <-]. by left.
    - rewrite list_lookup_insert_ne by done. by right. }
  split.
  - rewrite length_insert. apply (ci_next _ _ _ _ I).
  - intros j x [[-> ->]|[_ Ex]]%Look; [by apply (ci_ids _ _ _ _ I i c)|by eapply ci_ids].
  - intros j x [[-> ->]|[_ Ex]]%Look; [by apply (ci_since _ _ _ _ I i c)|by eapply ci_since].
  - intros id j. assert (P := ci_pending _ _ _ _ I id j).
    assert (K : (forall r, p <> CDone r) -> pending !! id = Some j <->
              exists x, <[i := set_call_phase p c]> calls !! j = Some x /\ c_id x = id /\ under_way x).
    { intros ND. rewrite P. split.
      - intros (x & Ex & Hid & Ux). destruct (decide (i = j)) as [<-|N].
        + exists (set_call_phase p c). rewrite list_lookup_insert_eq by done. assert (x = c) as -> by congruence.
          split; [done|]. split; [done|]. unfold under_way. simpl. destruct p as [| |r]; [done..|]. by destruct (ND r).
        + exists x. by rewrite list_lookup_insert_ne.
      - intros (x & [[-> ->]|[_ Ex]]%Look & Hid & Ux); [by exists c|by exists x]. }
    destruct p as [| |r]; [by apply K..|].
    destruct (decide (id = c_id c)) as [->|N].
    + rewrite lookup_delete_eq. split; [done|]. intros (x & [[-> ->]|[Nj Ex]]%Look & Hid & Ux); [done|].
      destruct Nj. by eapply calls_inv_ids.
    + rewrite lookup_delete_ne by done. rewrite P. split.
      * intros (x & Ex & Hid & Ux). exists x. rewrite list_lookup_insert_ne; [done|]. intros <-. congruence.
      * intros (x & [[-> ->]|[Nj Ex]]%Look & Hid & Ux); [done|by exists x].
  - intros j x [[-> ->]|[_ Ex]]%Look Ux; [by apply (ci_chan _ _ _ _ I i c)|by eapply ci_chan].
  - intros j x r [[-> ->]|[_ Ex]]%Look Px; [simpl in Px; subst p; exact A|by eapply ci_done].
Qed.

(** Decoding an envelope that answers no call, or none that waits. *)
Lemma answered_snoc log c r env :
  (c_since c <= length log)%nat -> answered log c r -> answered (log ++ [env]) c r.
Proof. intros L [?|(e & F & ->)]; [by left|]. right. exists e. split; [|done]. by apply first_response_app. Qed.

Lemma read_calls_inv next pending calls log env :
  calls_inv next pending calls log -> negb (present (e_Hello env)) && is_response env = false ->
  calls_inv next pending calls (log ++ [env]).
Proof.
  intros I NR. assert (A : forall id, answers id env = false) by (intros id; unfold answers; by rewrite NR).
  split; try (by eapply I).
  - intros i c E. rewrite length_app. pose proof (ci_since _ _ _ _ I i c E). lia.
  - intros i c E U. rewrite first_response_snoc by (by eapply ci_since). rewrite A, (ci_chan _ _ _ _ I i c E U).
    by destruct (first_response log _ _).
  - intros i c r E P. apply answered_snoc; [by eapply ci_since|by eapply ci_done].
Qed.

Lemma deliver_calls_inv next pending calls log env :
  calls_inv next pending calls log -> e_Hello env = None -> is_response env = true ->
  calls_inv next pending
    match pending !! e_ID env with
    | None => calls
    | Some i => match calls !! i with
                | Some c => match c_chan c with None => <[i := set_chan env c]> calls | Some _ => calls end
                | None => calls
                end
    end (log ++ [env]).
Proof.
  intros I NH R. assert (A : forall id, answers id env = (e_ID env =? id)) by (intros id; unfold answers; by rewrite NH, R).
  set (calls' := match pending !! e_ID env with None => calls | _ => _ end).
  (** A call of the new list is a call of the old one, up to its channel. *)
  assert (Look : forall i x, calls' !! i = Some x -> exists c, calls !! i = Some c /\
            (x = c /\ (under_way c -> c_id c = e_ID env -> is_Some (c_chan c)) \/
             x = set_chan env c /\ c_id c = e_ID env /\ c_chan c = None /\ under_way c)).
  { intros i x. unfold calls'. destruct (pending !! e_ID env) as [k|] eqn:P.
    - pose proof (proj1 (ci_pending _ _ _ _ I _ _) P) as (c & E & Hid & U). rewrite E. destruct (c_chan c) eqn:Ch.
      + intros Ex. exists x. split; [done|]. left. split; [done|]. intros Ux Hx.
        assert (i = k) as -> by (eapply calls_inv_ids; [done|done|done|congruence]).
        assert (x = c) as -> by congruence. by rewrite Ch.
      + destruct (decide (k = i)) as [<-|N].
        * rewrite list_lookup_insert_eq by (by eapply lookup_lt_Some). intros [= <-]. exists c. split; [done|]. by right.
        * rewrite list_lookup_insert_ne by done. intros Ex. exists x. split; [done|]. left. split; [done|]. intros Ux Hx.
          destruct N. eapply calls_inv_ids; [done|done|done|congruence].
    - intros Ex. exists x. split; [done|]. left. split; [done|]. intros Ux Hx.
      assert (pending !! e_ID env = Some i) by (apply (ci_pending _ _ _ _ I); eauto). congruence. }
  assert (Len : length calls' = length calls) by (unfold calls'; repeat case_match; by rewrite ?length_insert).
  assert (Back : forall i c, calls !! i = Some c -> exists x, calls' !! i = Some x /\ c_id x = c_id c /\ (under_way c -> under_way x)).
  { intros i c E. destruct (lookup_lt_is_Some_2 calls' i) as [x Ex]; [rewrite Len; by eapply lookup_lt_Some|].
    exists x. split; [done|]. apply Look in Ex as (c0 & E0 & [[-> _]|(-> & _)]); assert (c0 = c) as -> by congruence; done. }
  clearbody calls'. split.
  - rewrite Len. apply (ci_next _ _ _ _ I).
  - intros i x (c & E & [[-> _]|[-> _]])%Look; by apply (ci_ids _ _ _ _ I i c).
  - intros i x (c & E & [[-> _]|[-> _]])%Look; pose proof (ci_since _ _ _ _ I i c E); rewrite length_app; simpl; lia.
  - intros id i. rewrite (ci_pending _ _ _ _ I). split.
    + intros (c & E & Hid & U). destruct (Back i c E) as (x & Ex & Hx & Ux). exists x. split; [done|]. split; [congruence|auto].
    + intros (x & (c & E & [[-> _]|(-> & _)])%Look & Hid & U); exists c; done.
  - intros i x (c & E & [[-> Full]|(-> & Hid & Ch & _)])%Look U;
      pose proof (ci_chan _ _ _ _ I i c E U) as C; pose proof (ci_since _ _ _ _ I i c E) as S;
      cbn [set_chan c_chan c_since c_id]; rewrite first_response_snoc by done; rewrite <- C, A.
    + destruct (c_chan c) eqn:Ch; [done|]. destruct (e_ID env =? c_id c) eqn:Q; [|done]. apply Z.eqb_eq in Q.
      destruct (Full U ltac:(lia)) as [? ?]. congruence.
    + by rewrite Ch, Hid, Z.eqb_refl.
  - intros i x r (c & E & [[-> _]|(-> & _ & _ & U)])%Look P.
    + apply answered_snoc; [by eapply ci_since|by eapply ci_done].
    + unfold under_way in U. simpl in P. by rewrite P in U.
Qed.
End calls.

(** ** Tunnels *)

Definition failed (c : call) : Prop := exists e, c_phase c = CDone (RErr e).

(** The [Connect] call a registered tunnel belongs to. *)
Definition owner (calls : list call) (id : Z) (d : nat) : Prop :=
  exists i c, calls !! i = Some c /\ c_id c = id /\ c_tunnel c = Some d /\ is_connect (c_kind c) = true /\ ~ failed c.

Record tunnels_inv (tunnels : gmap Z nat) (deliveries : list tunnelDelivery) (calls : list call) : Prop := {
  tv_open id d : tunnels !! id = Some d -> exists t, deliveries !! d = Some t /\ td_closed t = false;
  tv_inj id id' d : tunnels !! id = Some d -> tunnels !! id' = Some d -> id = id';
  tv_cap d t : deliveries !! d = Some t -> (length (td_ch t) <= tunnel_capacity)%nat;
  tv_owner id d : tunnels !! id = Some d -> owner calls id d;
}.

Lemma owner_snoc calls c id d : owner calls id d -> owner (calls ++ [c]) id d.
Proof. intros (i & x & E & ?). exists i, x. split; [by apply lookup_app_l_Some|done]. Qed.

Lemma owner_insert calls i c c' id d :
  owner calls id d -> calls !! i = Some c -> c_id c' = c_id c -> c_tunnel c' = c_tunnel c -> c_kind c' = c_kind c ->
  (c_id c = id -> is_connect (c_kind c) = true -> ~ failed c') -> owner (<[i := c']> calls) id d.
Proof.
  intros (j & x & E & Hid & T & K & F) Ei H1 H2 H3 H4. destruct (decide (i = j)) as [<-|N].
  - assert (x = c) as -> by congruence. exists i, c'. rewrite list_lookup_insert_eq by (by eapply lookup_lt_Some).
    split; [done|]. split; [congruence|]. split; [congruence|]. split; [congruence|]. by apply H4.
  - exists j, x. by rewrite list_lookup_insert_ne.
Qed.

Lemma tunnels_owner_mono tunnels deliveries calls calls' :
  tunnels_inv tunnels deliveries calls -> (forall id d, tunnels !! id = Some d -> owner calls id d -> owner calls' id d) ->
  tunnels_inv tunnels deliveries calls'.
Proof. intros T M. split; [apply T..|]. intros id d E. apply M; [done|]. by apply T. Qed.

(** A change of a channel that keeps it open or closed and within its capacity. *)
Lemma tunnels_channel tunnels deliveries calls d f :
  tunnels_inv tunnels deliveries calls ->
  (forall t, td_closed (f t) = td_closed t) ->
  (forall t, deliveries !! d = Some t -> (length (td_ch (f t)) <= tunnel_capacity)%nat) ->
  tunnels_inv tunnels (alter f d deliveries) calls.
Proof.
  intros T C L. split; [|apply T| |apply T].
  - intros id k E. destruct (tv_open _ _ _ T id k E) as (t & Et & Ct). destruct (decide (d = k)) as [<-|N].
    + exists (f t). rewrite list_lookup_alter_eq, Et. simpl. by rewrite C.
    + exists t. by rewrite list_lookup_alter_ne.
  - intros k t. destruct (decide (d = k)) as [<-|N].
    + rewrite list_lookup_alter_eq. destruct (deliveries !! d) as [t0|] eqn:E; [|done]. intros [= <-]. by apply L.
    + rewrite list_lookup_alter_ne by done. by eapply tv_cap.
Qed.

Lemma tunnels_register tunnels deliveries calls id c :
  tunnels_inv tunnels deliveries calls -> c_id c = id -> c_tunnel c = Some (length deliveries) ->
  is_connect (c_kind c) = true -> ~ failed c ->
  tunnels_inv (<[id := length deliveries]> tunnels) (deliveries ++ [{| td_ch := []; td_closed := false |}]) (calls ++ [c]).
Proof.
  intros T H1 H2 H3 H4.
  assert (Old : forall i d, tunnels !! i = Some d -> (d < length deliveries)%nat).
  { intros i d E. destruct (tv_open _ _ _ T i d E) as (t & Et & _). by eapply lookup_lt_Some. }
  split.
  - intros i d. destruct (decide (i = id)) as [->|N].
    + rewrite lookup_insert_eq. intros [= <-]. eexists. split; [by apply list_lookup_middle|done].
    + rewrite lookup_insert_ne by done. intros E. destruct (tv_open _ _ _ T i d E) as (t & Et & Ct).
      exists t. split; [by apply lookup_app_l_Some|done].
  - intros i j d Ei Ej. apply lookup_insert_Some in Ei as [[<- <-]|[Ni Ei]], Ej as [[<- Hd]|[Nj Ej]]; [done| | |by eapply tv_inj].
    + apply Old in Ej. lia.
    + subst. apply Old in Ei. lia.
  - intros d t [[E _]|[-> ->]]%lookup_snoc_inv; [by eapply tv_cap|]. simpl. unfold tunnel_capacity. lia.
  - intros i d [[<- <-]|[N E]]%lookup_insert_Some.
    + exists (length calls), c. split; [by apply list_lookup_middle|done].
    + apply owner_snoc. by apply T.
Qed.

Lemma tunnels_unregister tunnels deliveries calls id d :
  tunnels_inv tunnels deliveries calls -> tunnels !! id = Some d ->
  tunnels_inv (delete id tunnels) (alter (fun t => {| td_ch := td_ch t; td_closed := true |}) d deliveries) calls.
Proof.
  intros T E. split.
  - intros i k [N Ei]%lookup_delete_Some. destruct (tv_open _ _ _ T i k Ei) as (t & Et & Ct). exists t.
    rewrite list_lookup_alter_ne; [done|]. intros <-. destruct N. by eapply tv_inj.
  - intros i j k [_ Ei]%lookup_delete_Some [_ Ej]%lookup_delete_Some. by eapply tv_inj.
  - intros k t. destruct (decide (d = k)) as [<-|N].
    + rewrite list_lookup_alter_eq. destruct (deliveries !! d) as [t0|] eqn:E0; [|done]. intros [= <-]. by apply (tv_cap _ _ _ T d t0).
    + rewrite list_lookup_alter_ne by done. by eapply tv_cap.
  - intros i k [_ Ei]%lookup_delete_Some. by apply T.
Qed.

(** ** The bridge *)

Section bridge.
Context `{GoLib}.

Definition bridge_inv (b : RuntimeBridge) : Prop :=
  calls_inv (b_nextID b) (b_pending b) (b_calls b) (b_in b) /\ tunnels_inv (b_tunnels b) (b_deliveries b) (b_calls b).

Lemma new_bridge_inv proxyAddr : bridge_inv (new_bridge proxyAddr).
Proof. split; [apply calls_inv_empty|]. split; intros *; rewrite ?lookup_empty, ?lookup_nil; done. Qed.

Lemma begin_call_inv k b :
  bridge_inv b -> Z.of_nat (length (b_calls (begin_call k b))) < max_calls -> bridge_inv (begin_call k b).
Proof.
  intros [C T] L. unfold begin_call in *. destruct (is_connect k) eqn:K.
  - cbn [RegisterTunnel upd_tunnels upd_id upd_calls b_calls b_pending b_in b_nextID b_deliveries b_tunnels] in *.
    rewrite length_app in L. simpl in L. split.
    + by apply begin_calls_inv; [|lia].
    + apply tunnels_register; try done. by intros [e ?].
  - cbn [upd_id upd_calls b_calls b_pending b_in b_nextID b_deliveries b_tunnels] in *.
    rewrite length_app in L. simpl in L. split.
    + by apply begin_calls_inv; [|lia].
    + eapply tunnels_owner_mono; [done|]. intros id d _. apply owner_snoc.
Qed.

Lemma unregister_inv id b : bridge_inv b -> bridge_inv (UnregisterTunnel id b).
Proof.
  intros [C T]. unfold UnregisterTunnel. destruct (b_tunnels b !! id) as [d|] eqn:E; [|by split].
  split; [done|]. by apply tunnels_unregister.
Qed.
Lemma unregister_gone id b : b_tunnels (UnregisterTunnel id b) !! id = None.
Proof. unfold UnregisterTunnel. destruct (b_tunnels b !! id) eqn:E; [apply lookup_delete_eq|done]. Qed.
Lemma unregister_same id b :
  b_calls (UnregisterTunnel id b) = b_calls b /\ b_pending (UnregisterTunnel id b) = b_pending b /\
  b_in (UnregisterTunnel id b) = b_in b /\ b_nextID (UnregisterTunnel id b) = b_nextID b /\
  b_out (UnregisterTunnel id b) = b_out b /\ b_loop (UnregisterTunnel id b) = b_loop b.
Proof. unfold UnregisterTunnel. by destruct (b_tunnels b !! id). Qed.

Lemma end_call_inv i c r b :
  bridge_inv b -> b_calls b !! i = Some c -> under_way c -> answered (b_in b) c r -> bridge_inv (end_call i c r b).
Proof.
  intros I E U A. unfold end_call.
  set (b' := if is_connect (c_kind c) then _ else b).
  assert (S : bridge_inv b' /\ b_calls b' = b_calls b /\ b_in b' = b_in b /\
              (is_connect (c_kind c) = true -> (exists e, r = RErr e) -> b_tunnels b' !! c_id c = None)).
  { unfold b'. destruct (is_connect (c_kind c)); [destruct r|]; try (split; [done|]; split; [done|]; split; [done|]; by intros ? [? ?]).
    destruct (unregister_same (c_id c) b) as (H1 & _ & H2 & _).
    split; [by apply unregister_inv|]. split; [done|]. split; [done|]. intros _ _. apply unregister_gone. }
  clearbody b'. destruct S as ([C T] & Hc & Hi & Hn). rewrite <- Hc in E. rewrite <- Hi in A. split; cbn.
  - exact (phase_calls_inv _ _ _ _ i c (CDone r) C E U A).
  - eapply tunnels_owner_mono; [done|]. intros id d Eid O. eapply owner_insert; [done|done|done..|].
    intros <- K [e He]. simpl in He. injection He as ->. rewrite (Hn K) in Eid by eauto. done.
Qed.

Lemma send_call_inv i c b :
  bridge_inv b -> b_calls b !! i = Some c -> c_phase c = CRegistered -> bridge_inv (send_call i c b).
Proof.
  intros [C T] E P. assert (U : under_way c) by (unfold under_way; by rewrite P). split; cbn.
  - exact (phase_calls_inv _ _ _ _ i c CWaiting C E U Logic.I).
  - eapply tunnels_owner_mono; [done|]. intros id d Eid O. eapply owner_insert; [done|done|done..|]. by intros _ _ [e ?].
Qed.

Lemma read_inv env b : bridge_inv b -> bridge_inv (ReadLoop_round env b).
Proof.
  intros [C T]. unfold ReadLoop_round.
  assert (Skip : negb (present (e_Hello env)) && is_response env = false ->
            calls_inv (b_nextID b) (b_pending b) (b_calls b) (b_in b ++ [env])) by (by apply read_calls_inv).
  destruct (e_Hello env) as [hello|] eqn:Hh.
  - specialize (Skip eq_refl). unfold handleHello. by destruct (negb _).
  - cbn [present negb andb] in Skip. destruct (is_response env) eqn:R.
    + unfold deliver. cbn [upd_io b_pending b_calls]. pose proof (deliver_calls_inv _ _ _ _ env C Hh R) as D.
      destruct (b_pending b !! e_ID env) as [i|] eqn:P; [|by split].
      pose proof (proj1 (ci_pending _ _ _ _ C _ _) P) as (c & E & Hid & U). rewrite E in *.
      destruct (c_chan c) eqn:Ch; [by split|]. split; [done|]. cbn.
      eapply tunnels_owner_mono; [done|]. intros id d _ O. eapply owner_insert; [done|done|done..|].
      intros _ _ [e He]. simpl in He. unfold under_way in U. by rewrite He in U.
    + specialize (Skip eq_refl). destruct (_ || _).
      * unfold DeliverTunnel. cbn [upd_io b_tunnels]. by destruct (b_tunnels b !! e_ID env).
      * destruct (e_ExecRequest env); [by destruct (b_execHandlers _)|].
        destruct (e_ExecInput env); [by destruct (b_execHandlers _)|done].
Qed.

Lemma bridge_step_inv b b' :
  bridge_step b b' -> Z.of_nat (length (b_calls b')) < max_calls -> bridge_inv b -> bridge_inv b'.
Proof.
  intros S L I. destruct S as [b b' S|env b R]; [|by apply read_inv].
  destruct S as [k b|i c b E P|i c e b E P|i c e b E P|i c env b E P Ch|e b R
    |d env t b R E B|d env t b R E Cl|d b|id m b M|i c b E K].
  - by apply begin_call_inv.
  - by apply send_call_inv.
  - apply end_call_inv; [done|done|unfold under_way; by rewrite P|left; eauto].
  - apply end_call_inv; [done|done|unfold under_way; by rewrite P|left; eauto].
  - assert (U : under_way c) by (unfold under_way; by rewrite P). apply end_call_inv; [done|done|done|].
    right. exists env. split; [|done]. rewrite <- Ch. symmetry. destruct I as [C _]. by eapply ci_chan.
  - done.
  - destruct I as [C T]. split; [done|]. cbn. apply tunnels_channel; [done|done|].
    intros t' Et. assert (t' = t) as -> by congruence. simpl. rewrite length_app. simpl. lia.
  - done.
  - destruct I as [C T]. split; [done|]. cbn. apply tunnels_channel; [done|done|].
    intros t Et. simpl. pose proof (tv_cap _ _ _ T d t Et). destruct (td_ch t); simpl in *; lia.
  - done.
  - by apply unregister_inv.
Qed.

(** Calls are never forgotten and keep their number and kind. *)
Definition calls_extend (b b' : RuntimeBridge) : Prop :=
  forall i c, b_calls b !! i = Some c -> exists c', b_calls b' !! i = Some c' /\ c_id c' = c_id c /\ c_kind c' = c_kind c.

Lemma insert_extend (l : list call) i c c' j x :
  l !! i = Some c -> c_id c' = c_id c -> c_kind c' = c_kind c -> l !! j = Some x ->
  exists y, <[i := c']> l !! j = Some y /\ c_id y = c_id x /\ c_kind y = c_kind x.
Proof.
  intros E H1 H2 Ej. destruct (decide (i = j)) as [<-|N].
  - exists c'. rewrite list_lookup_insert_eq by (by eapply lookup_lt_Some). split; [done|]. split; congruence.
  - exists x. by rewrite list_lookup_insert_ne.
Qed.
Lemma end_call_extend i c r b : b_calls b !! i = Some c -> calls_extend b (end_call i c r b).
Proof.
  intros E j x Ej. unfold end_call. cbn [upd_calls b_calls].
  assert (S : b_calls (if is_connect (c_kind c) then match r with RErr _ => UnregisterTunnel (c_id c) b | _ => b end else b) = b_calls b).
  { destruct (is_connect (c_kind c)), r; try done. by rewrite (proj1 (unregister_same _ _)). }
  rewrite S. by eapply insert_extend.
Qed.
Lemma read_extend env b : calls_extend b (ReadLoop_round env b).
Proof.
  intros i c E. unfold ReadLoop_round, handleHello, deliver, DeliverTunnel.
  repeat case_match; cbn [upd_io upd_calls upd_exec Send b_calls] in *; simplify_eq; try (by exists c).
  by eapply insert_extend.
Qed.
Lemma bridge_step_extend b b' : bridge_step b b' -> calls_extend b b'.
Proof.
  intros S. destruct S as [b b' S|env b R]; [|apply read_extend].
  destruct S as [k b|i c b E P|i c e b E P|i c e b E P|i c env b E P Ch|e b R
    |d env t b R E B|d env t b R E Cl|d b|id m b M|i c b E K]; try (by intros j x Ej; exists x);
    try (by apply end_call_extend).
  - intros j x Ej. exists x. unfold begin_call. split; [|done].
    destruct (is_connect k); cbn; by apply lookup_app_l_Some.
  - intros j x Ej. cbn. by eapply insert_extend.
  - intros j x Ej. rewrite (proj1 (unregister_same _ _)). by exists x.
Qed.
Lemma bridge_step_length b b' : bridge_step b b' -> (length (b_calls b) <= length (b_calls b'))%nat.
Proof.
  intros S%bridge_step_extend. destruct (length (b_calls b)) as [|n] eqn:L; [lia|].
  destruct (lookup_lt_is_Some_2 (b_calls b) n) as [c E]; [lia|]. destruct (S n c E) as (c' & E' & _).
  apply lookup_lt_Some in E'. lia.
Qed.

Definition bridge_reachable (proxyAddr : string) : RuntimeBridge -> Prop := rtc bridge_step (new_bridge proxyAddr).

Lemma bridge_reachable_inv proxyAddr b :
  bridge_reachable proxyAddr b -> Z.of_nat (length (b_calls b)) < max_calls -> bridge_inv b.
Proof.
  assert (P : forall b0, rtc bridge_step b0 b -> bridge_inv b0 -> Z.of_nat (length (b_calls b)) < max_calls ->
                bridge_inv b /\ (length (b_calls b0) <= length (b_calls b))%nat).
  { intros b0 R. induction R as [b|b0 b1 b2 S R IH]; [done|]. intros I L.
    assert (M : forall x y, rtc bridge_step x y -> (length (b_calls x) <= length (b_calls y))%nat).
    { intros x y Rxy. induction Rxy as [|x y z Sxy _ IHxy]; [done|]. apply bridge_step_length in Sxy. lia. }
    pose proof (M _ _ R). pose proof (bridge_step_length _ _ S).
    destruct IH as [I2 _]; [eapply bridge_step_inv; [done|lia|done]|done|]. split; [done|lia]. }
  intros R L. apply (P _ R (new_bridge_inv proxyAddr) L).
Qed.
End bridge.
