(* ===== verification/BridgeTheorems.v ===== *)
(** Claims about the helper's end of the control channel alone, against any peer. *)
From S2P Require Import Prelude GoStrings Policy Manager Messages Bridge BridgeProofs Sample.

Section bridge.
Context `{GoLib}.

(** Correlation of requests and responses. Against any peer, and for every
    interleaving of the goroutines: no two calls share a number; the pending table
    holds exactly the calls under way; and a finished call returned an error of its
    own, or what it makes of the FIRST response with its number that was decoded
    after it began. Later duplicates, responses to unknown numbers and responses to
    finished calls change nothing. (Numbers are 64-bit: fewer than 2^64 calls.) *)
Theorem bridge_calls_correlated proxyAddr b :
  bridge_reachable proxyAddr b -> Z.of_nat (length (b_calls b)) < max_calls ->
  (forall i j c c', b_calls b !! i = Some c -> b_calls b !! j = Some c' -> c_id c = c_id c' -> i = j) /\
  (forall id i, b_pending b !! id = Some i <-> exists c, b_calls b !! i = Some c /\ c_id c = id /\ under_way c) /\
  (forall i c r, b_calls b !! i = Some c -> c_phase c = CDone r ->
     (exists e, r = RErr e) \/
     exists env, first_response (b_in b) (c_since c) (c_id c) = Some env /\ r = receive_result (c_kind c) (c_id c) env).
Proof.
  intros R L. destruct (bridge_reachable_inv proxyAddr b R L) as [I _]. split; [|split].
  - intros i j c c'. by apply (calls_inv_ids _ _ _ _ i j c c' I).
  - apply I.
  - apply I.
Qed.

(** Tunnels. Every registered tunnel has an open channel of its own (so
    [UnregisterTunnel] never closes a channel twice), of at most 32 messages, and
    belongs to a [Connect] call with its number that has not failed: a failed
    [Connect] leaves no tunnel behind. *)
Theorem bridge_tunnels_sound proxyAddr b :
  bridge_reachable proxyAddr b -> Z.of_nat (length (b_calls b)) < max_calls ->
  forall id d, b_tunnels b !! id = Some d ->
    (exists t, b_deliveries b !! d = Some t /\ td_closed t = false /\ (length (td_ch t) <= 32)%nat) /\
    (forall id', b_tunnels b !! id' = Some d -> id' = id) /\
    exists i c, b_calls b !! i = Some c /\ c_id c = id /\ c_tunnel c = Some d /\ is_connect (c_kind c) = true /\
      forall e, c_phase c <> CDone (RErr e).
Proof.
  intros R L id d E. destruct (bridge_reachable_inv proxyAddr b R L) as [_ I]. split; [|split].
  - destruct (tv_open _ _ _ I id d E) as (t & Et & C). exists t. split; [done|]. split; [done|]. by apply (tv_cap _ _ _ I d t).
  - intros id' E'. by eapply tv_inj.
  - destruct (tv_owner _ _ _ I id d E) as (i & c & E1 & E2 & E3 & E4 & F). exists i, c. repeat (split; [done|]).
    intros e Ph. apply F. by exists e.
Qed.

(** ** A full tunnel *)

(** Steps that neither take from the channel nor close it. *)
Definition step_beside (d : nat) (t : tunnelDelivery) (b b' : RuntimeBridge) : Prop :=
  bridge_step b b' /\ b_deliveries b' !! d = Some t.
Definition stuck (d : nat) (env : Envelope) (t : tunnelDelivery) (b : RuntimeBridge) : Prop :=
  b_loop b = LDelivering d env /\ b_deliveries b !! d = Some t.

Lemma end_call_loop_in i x r b : b_loop (end_call i x r b) = b_loop b /\ b_in (end_call i x r b) = b_in b.
Proof.
  unfold end_call. cbn. destruct (is_connect _), r; try done. destruct (unregister_same (c_id x) b) as (_ & _ & ? & _ & _ & ?). done.
Qed.
Lemma stuck_step d env t b b' :
  length (td_ch t) = tunnel_capacity -> td_closed t = false -> stuck d env t b -> step_beside d t b b' ->
  stuck d env t b' /\ b_in b' = b_in b.
Proof.
  intros F O [L D] [S D']. destruct S as [b b' S|env' b R]; [|congruence].
  destruct S as [k b|i c b E P|i c e b E P|i c e b E P|i c env' b E P Ch|e b R
    |d' env' t' b R E B|d' env' t' b R E Cl|d' b|id m b M|i c b E K]; unfold stuck.
  - unfold begin_call in *. by destruct (is_connect k).
  - done.
  - destruct (end_call_loop_in i c (RErr e) b) as [-> ->]. done.
  - destruct (end_call_loop_in i c (RErr e) b) as [-> ->]. done.
  - destruct (end_call_loop_in i c (receive_result (c_kind c) (c_id c) env') b) as [-> ->]. done.
  - congruence.
  - rewrite L in R. injection R as <- <-. rewrite D in E. injection E as <-. unfold tunnel_capacity in *. lia.
  - rewrite L in R. injection R as <- <-. rewrite D in E. injection E as <-. congruence.
  - done.
  - done.
  - destruct (unregister_same (c_id c) b) as (_ & _ & -> & _ & _ & ->). done.
Qed.

(** A call whose response has not come, and that has no value. *)
Definition unanswered (b : RuntimeBridge) (i : nat) : Prop :=
  exists c, b_calls b !! i = Some c /\ c_chan c = None /\ forall r, c_phase c = CDone r -> exists e, r = RErr e.
Lemma unanswered_insert b i j c c' :
  unanswered b i -> b_calls b !! j = Some c -> c_chan c' = c_chan c ->
  (forall r, c_chan c = None -> c_phase c' = CDone r -> exists e, r = RErr e) ->
  exists x, <[j := c']> (b_calls b) !! i = Some x /\ c_chan x = None /\ forall r, c_phase x = CDone r -> exists e, r = RErr e.
Proof.
  intros (x & E & Ch & Ph) Ej Hc Hp. destruct (decide (j = i)) as [->|N].
  - assert (x = c) as -> by congruence. exists c'. rewrite list_lookup_insert_eq by (by eapply lookup_lt_Some).
    split; [done|]. split; [congruence|]. intros r. by apply Hp.
  - exists x. by rewrite list_lookup_insert_ne.
Qed.
Lemma end_call_calls i x r b : b_calls (end_call i x r b) = <[i := set_call_phase (CDone r) x]> (b_calls b).
Proof. unfold end_call. cbn. destruct (is_connect _), r; try done. by rewrite (proj1 (unregister_same _ _)). Qed.
Lemma move_unanswered b b' i : bridge_move b b' -> unanswered b i -> unanswered b' i.
Proof.
  intros S U. destruct S as [k b|j c b E P|j c e b E P|j c e b E P|j c env' b E P Ch|e b R
    |d' env' t' b R E B|d' env' t' b R E Cl|d' b|id m b M|j c b E K]; try done; unfold unanswered in *;
    rewrite ?end_call_calls.
  - destruct U as (x & E & ?). exists x. split; [|done]. unfold begin_call. destruct (is_connect k); cbn; by apply lookup_app_l_Some.
  - by eapply unanswered_insert.
  - eapply unanswered_insert; [done..|]. cbn. intros r _ [= <-]. by eexists.
  - eapply unanswered_insert; [done..|]. cbn. intros r _ [= <-]. by eexists.
  - eapply unanswered_insert; [done..|]. congruence.
  - by rewrite (proj1 (unregister_same _ _)).
Qed.

(** Back pressure: when the peer sends for a tunnel whose channel is full,
    the read loop waits for that tunnel's consumer. Until the consumer takes a
    message or the tunnel is unregistered, and whatever else happens, no further
    envelope is decoded: a call whose response had not come by then still waits,
    or ended with an error. *)
Theorem full_tunnel_holds_loop d env t b b' :
  b_loop b = LDelivering d env -> b_deliveries b !! d = Some t -> length (td_ch t) = 32%nat -> td_closed t = false ->
  rtc (step_beside d t) b b' ->
  b_in b' = b_in b /\ b_loop b' = LDelivering d env /\ forall i, unanswered b i -> unanswered b' i.
Proof.
  intros L D F O R. assert (K : stuck d env t b) by done. clear L D.
  induction R as [b|b b1 b2 S R IH]; [by destruct K|]. destruct (stuck_step d env t b b1 F O K S) as [K1 I1].
  destruct (IH K1) as (J1 & J2 & J3). split; [congruence|]. split; [done|]. intros i U. apply J3.
  destruct S as [S _]. destruct S as [b b1 S|env' b Rd]; [by eapply move_unanswered|]. destruct K as [K _]. congruence.
Qed.
End bridge.

(** * Witnesses *)

#[local] Existing Instance sampleLib.

(** A call of each kind of outcome: number 1 answered (twice), number 2 cancelled, a tunnel 3. *)
Definition leaf_answer (pem : string) : Envelope :=
  envelope 1 (MLeafCertResponse {| lc_CertPEM := pem; lc_KeyPEM := ""; lc_Error := "" |}).
Definition nth_call (i : nat) (b : RuntimeBridge) : call :=
  default {| c_kind := CLeafCert ""; c_id := 0; c_tunnel := None; c_chan := None; c_since := 0; c_phase := CRegistered |} (b_calls b !! i).
Definition some_query : DNSRequest := {| dq_Network := "udp"; dq_Host := ""; dq_Port := 53; dq_Payload := "x" |}.
Definition w0 : RuntimeBridge :=
  begin_call (CConnect "db" 5432) (begin_call (CDNS some_query) (begin_call (CLeafCert "a") (new_bridge "p"))).
Definition w1' : RuntimeBridge := send_call 0 (nth_call 0 w0) w0.
Definition w1 : RuntimeBridge := send_call 1 (nth_call 1 w1') w1'.
Definition w2' : RuntimeBridge := ReadLoop_round (leaf_answer "first") w1.
Definition w2 : RuntimeBridge := ReadLoop_round (leaf_answer "second") w2'.
Definition w3 : RuntimeBridge :=
  end_call 0 (nth_call 0 w2) (receive_result (c_kind (nth_call 0 w2)) (c_id (nth_call 0 w2)) (leaf_answer "first")) w2.
Definition w4 : RuntimeBridge := end_call 1 (nth_call 1 w3) (RErr "context canceled") w3.

Lemma w4_reachable : bridge_reachable "p" w4.
Proof.
  eapply rtc_l; [apply bs_move, (bs_begin (CLeafCert "a"))|]. eapply rtc_l; [apply bs_move, (bs_begin (CDNS some_query))|].
  eapply rtc_l; [apply bs_move, (bs_begin (CConnect "db" 5432))|]. fold w0.
  apply (rtc_l _ _ w1'); [apply bs_move, bs_send; vm_compute; reflexivity|].
  apply (rtc_l _ _ w1); [apply bs_move, bs_send; vm_compute; reflexivity|].
  apply (rtc_l _ _ w2'); [apply bs_read; vm_compute; reflexivity|].
  apply (rtc_l _ _ w2); [apply bs_read; vm_compute; reflexivity|].
  apply (rtc_l _ _ w3); [apply bs_move, bs_receive; vm_compute; reflexivity|].
  apply rtc_once, bs_move, bs_cancel; vm_compute; reflexivity.
Qed.

Lemma bridge_calls_correlated_witness :
  c_phase (nth_call 0 w4) = CDone (RLeafCert {| lc_CertPEM := "first"; lc_KeyPEM := ""; lc_Error := "" |}) /\
  (b_pending w4 !! 3 = Some 2%nat) /\
  exists env, first_response (b_in w4) 0 1 = Some env /\
    RLeafCert {| lc_CertPEM := "first"; lc_KeyPEM := ""; lc_Error := "" |} = receive_result (CLeafCert "a") 1 env.
Proof.
  split; [vm_compute; reflexivity|]. destruct (bridge_calls_correlated "p" w4 w4_reachable) as (_ & P & D).
  - vm_compute. reflexivity.
  - split.
    + apply P. exists (nth_call 2 w4). split; [vm_compute; reflexivity|]. split; vm_compute; done.
    + destruct (D 0%nat (nth_call 0 w4) (RLeafCert {| lc_CertPEM := "first"; lc_KeyPEM := ""; lc_Error := "" |})) as [[e Q]|Q];
        [vm_compute; reflexivity..|discriminate Q|exact Q].
Defined.

Lemma bridge_tunnels_sound_witness :
  b_tunnels w4 !! 3 = Some 0%nat /\ exists t, b_deliveries w4 !! 0%nat = Some t /\ td_closed t = false /\ (length (td_ch t) <= 32)%nat.
Proof.
  split; [vm_compute; reflexivity|].
  destruct (bridge_tunnels_sound "p" w4 w4_reachable ltac:(vm_compute; reflexivity) 3 0%nat) as (T & _).
  - vm_compute. reflexivity.
  - exact T.
Defined.

(** The tunnel 3 is sent 33 frames; call 2 waits. *)
Definition frame3 : Envelope := envelope 3 (MTunnelFrame {| tf_Data := "x" |}).
Definition w5 : RuntimeBridge :=
  ReadLoop_round frame3 (Nat.iter 32 (fun b => deliver_push 0 frame3 (ReadLoop_round frame3 b)) w1).
Definition full3 : tunnelDelivery := {| td_ch := replicate 32 frame3; td_closed := false |}.
Definition w6 : RuntimeBridge := begin_call (CLeafCert "b") w5.
Lemma full_tunnel_holds_loop_witness : b_in w6 = b_in w5 /\ unanswered w6 1.
Proof.
  destruct (full_tunnel_holds_loop 0 frame3 full3 w5 w6) as (A & _ & B).
  - vm_compute. reflexivity.
  - vm_compute. reflexivity.
  - reflexivity.
  - reflexivity.
  - apply rtc_once. split; [apply bs_move, bs_begin|vm_compute; reflexivity].
  - split; [exact A|]. apply B. exists (nth_call 1 w5). split; [vm_compute; reflexivity|].
    split; [vm_compute; reflexivity|]. intros r Q. vm_compute in Q. discriminate Q.
Defined.
