(* ===== verification/MitmCA.v ===== *)
(** The certificate authority for intercepted TLS ([mitm.go]): leaf certificates
    by host name, made once and cached. Key generation, certificate creation and
    encoding are the class [CertLib]. *)
From S2P Require Import Prelude GoStrings GoNet Messages.

(** The fields of the [x509.Certificate] template that vary. *)
Record LeafTemplate := {
  lt_SerialNumber : Z; lt_CommonName : string; lt_NotBefore : Z; lt_NotAfter : Z;
  lt_DNSNames : list string; lt_IPAddresses : list IP;
}.

Class CertLib := {
  rng : Type;
  private_key : Type;
  lib_GenerateKey : rng -> result private_key * rng;
  lib_Serial : rng -> result Z * rng;
  (** [x509.CreateCertificate] for a template and the subject's key, signed by the authority. *)
  lib_CreateCertificate : LeafTemplate -> private_key -> rng -> result string * rng;
  lib_ParseCertificate_error : string -> option string;
  lib_MarshalPKCS8 : private_key -> result string;
  pem_Encode : string -> string -> string;
}.

Section authority.
Context `{GoLib} `{CertLib}.

Record leafCertificate := { lf_DER : string; lf_key : private_key }.
Record mitmCA := { ca_leafCache : gmap string leafCertificate; ca_rng : rng }.

Definition Hour : Z := 3600 * 10 ^ 9.
Definition leaf_host (host : string) : string := ToLower (TrimSpace host).
Definition leaf_template (host : string) (serial now : Z) : LeafTemplate := {|
  lt_SerialNumber := serial; lt_CommonName := host; lt_NotBefore := now - 1 * Hour; lt_NotAfter := now + 24 * Hour;
  lt_DNSNames := match ParseIP host with Some _ => [] | None => [host] end;
  lt_IPAddresses := match ParseIP host with Some ip => [ip] | None => [] end |}.

Definition LeafForHost (host : string) (now : Z) (c : mitmCA) : result leafCertificate * mitmCA :=
  let host := leaf_host host in
  let fail what e r := (Err (what +:+ " for " +:+ Quote host +:+ ": " +:+ e), {| ca_leafCache := ca_leafCache c; ca_rng := r |}) in
  if bool_decide (host = "") then (Err "leaf host is required", c)
  else match ca_leafCache c !! host with
  | Some cert => (Ok cert, c)
  | None =>
      match lib_GenerateKey (ca_rng c) with
      | (Err e, r) => fail "generate leaf key" e r
      | (Ok key, r) =>
          match lib_Serial r with
          | (Err e, r) => fail "generate leaf serial" e r
          | (Ok serial, r) =>
              match lib_CreateCertificate (leaf_template host serial now) key r with
              | (Err e, r) => fail "create leaf certificate" e r
              | (Ok der, r) =>
                  match lib_ParseCertificate_error der with
                  | Some e => fail "parse leaf certificate" e r
                  | None =>
                      let cert := {| lf_DER := der; lf_key := key |} in
                      (Ok cert, {| ca_leafCache := <[host := cert]> (ca_leafCache c); ca_rng := r |})
                  end
              end
          end
      end
  end.

Definition LeafPEMForHost (host : string) (now : Z) (c : mitmCA) : result (string * string) * mitmCA :=
  match LeafForHost host now c with
  | (Err e, c) => (Err e, c)
  | (Ok cert, c) =>
      match lib_MarshalPKCS8 (lf_key cert) with
      | Err e => (Err ("marshal leaf private key for " +:+ Quote host +:+ ": " +:+ e), c)
      | Ok keyDER => (Ok (pem_Encode "CERTIFICATE" (lf_DER cert), pem_Encode "PRIVATE KEY" keyDER), c)
      end
  end.

(** [ProxyManager.handleLeafCertRequest]. *)
Definition handleLeafCertRequest (host : string) (now : Z) (ca : option mitmCA) : LeafCertResponse * option mitmCA :=
  let fail e := {| lc_CertPEM := ""; lc_KeyPEM := ""; lc_Error := e |} in
  match ca with
  | None => (fail "MITM CA is not configured", None)
  | Some c =>
      match LeafPEMForHost host now c with
      | (Err e, c) => (fail e, Some c)
      | (Ok (certPEM, keyPEM), c) => ({| lc_CertPEM := certPEM; lc_KeyPEM := keyPEM; lc_Error := "" |}, Some c)
      end
  end.

(** A certificate made for exactly this name, and valid at [now]. *)
Definition issued_for (host : string) (cert : leafCertificate) : Prop :=
  exists serial now r r',
    lib_CreateCertificate (leaf_template host serial now) (lf_key cert) r = (Ok (lf_DER cert), r') /\
    lib_ParseCertificate_error (lf_DER cert) = None.
Definition ca_inv (c : mitmCA) : Prop := map_Forall (fun host cert => host <> "" /\ issued_for host cert) (ca_leafCache c).

Lemma LeafForHost_inv host now c : ca_inv c -> ca_inv (LeafForHost host now c).2.
Proof.
  intros I. unfold LeafForHost. case_bool_decide as NE; [done|].
  destruct (ca_leafCache c !! leaf_host host); [done|].
  destruct (lib_GenerateKey _) as [[key|] r]; [|done]. destruct (lib_Serial r) as [[serial|] r1]; [|done].
  destruct (lib_CreateCertificate _ _ r1) as [[der|] r2] eqn:C; [|done].
  destruct (lib_ParseCertificate_error der) eqn:P; [done|]. apply map_Forall_insert_2; [|done].
  split; [done|]. by exists serial, now, r1, r2.
Qed.

Lemma LeafForHost_ok host now c cert c' :
  ca_inv c -> LeafForHost host now c = (Ok cert, c') ->
  leaf_host host <> "" /\ issued_for (leaf_host host) cert /\ ca_leafCache c' !! leaf_host host = Some cert.
Proof.
  intros I. unfold LeafForHost. case_bool_decide as NE; [done|].
  destruct (ca_leafCache c !! leaf_host host) as [x|] eqn:E.
  - intros [= <- <-]. split; [done|]. split; [|done]. by apply (I _ _ E).
  - destruct (lib_GenerateKey _) as [[key|] r]; [|done]. destruct (lib_Serial r) as [[serial|] r1]; [|done].
    destruct (lib_CreateCertificate _ _ r1) as [[der|] r2] eqn:C; [|done].
    destruct (lib_ParseCertificate_error der) eqn:P; [done|]. intros [= <- <-]. split; [done|].
    split; [by exists serial, now, r1, r2|]. apply lookup_insert_eq.
Qed.

Lemma LeafForHost_keeps host now c h cert : ca_leafCache c !! h = Some cert -> ca_leafCache (LeafForHost host now c).2 !! h = Some cert.
Proof.
  intros E. unfold LeafForHost. case_bool_decide; [done|]. destruct (ca_leafCache c !! leaf_host host) eqn:E2; [done|].
  repeat (case_match; try done). simplify_eq/=. rewrite lookup_insert_ne; [done|]. congruence.
Qed.
End authority.
