(* ===== verification/SampleCerts.v ===== *)
(** A concrete [CertLib], used only to evaluate certificates in witnesses. *)
From S2P Require Import Prelude GoStrings GoNet MitmCA.

(** Certificates that spell out their template. *)
Definition sampleCerts : CertLib := {|
  rng := Z; private_key := Z;
  lib_GenerateKey r := (Ok r, r + 1);
  lib_Serial r := (Ok r, r + 1);
  lib_CreateCertificate t k r := (Ok (lt_CommonName t +:+ "/" +:+ Itoa (lt_NotAfter t)), r);
  lib_ParseCertificate_error _ := None;
  lib_MarshalPKCS8 k := Ok (Itoa k);
  pem_Encode kind s := kind +:+ s |}.
