(* ===== verification/HostClient.v ===== *)
(** The host's end of the control channel ([helperclient/client.go], [tunnel.go],
    [run_session.go] and the adapter [helper_client.go]).

    The read loop starts a goroutine ([task]) per request; it asks the manager,
    then sends the response. Tunnels and run sessions are shared objects: lists
    of records whose indices stand for the pointers. [client_step] lists the
    steps of the goroutines. The manager is [cl_host]; it is [None] for the nil
    manager of the adapter. *)
From S2P Require Import Prelude GoStrings GoNet Policy Access Manager Messages MitmCA.

(** * State *)

(** [ht_recv] is the channel of 64 places; [ht_out] and [ht_in] say which of the
    two relay goroutines run; [ht_written] is what the connection was given. *)
Record hostTunnel := {
  ht_id : Z; ht_recv : list Envelope; ht_closed : bool; ht_sentWriteClose : bool; ht_sentTerminalClose : bool;
  ht_out : bool; ht_in : bool; ht_written : string; ht_writeClosed : bool;
}.
Definition recv_capacity : nat := 64.
Definition newHostTunnel (id : Z) : hostTunnel := {|
  ht_id := id; ht_recv := []; ht_closed := false; ht_sentWriteClose := false; ht_sentTerminalClose := false;
  ht_out := false; ht_in := false; ht_written := ""; ht_writeClosed := false |}.
Definition tunnel_start (t : hostTunnel) : hostTunnel := {|
  ht_id := ht_id t; ht_recv := ht_recv t; ht_closed := ht_closed t; ht_sentWriteClose := ht_sentWriteClose t;
  ht_sentTerminalClose := ht_sentTerminalClose t; ht_out := true; ht_in := true; ht_written := ht_written t;
  ht_writeClosed := ht_writeClosed t |}.
(** [shutdown], guarded by its [sync.Once]. *)
Definition tunnel_shutdown (t : hostTunnel) : hostTunnel := {|
  ht_id := ht_id t; ht_recv := ht_recv t; ht_closed := true; ht_sentWriteClose := ht_sentWriteClose t;
  ht_sentTerminalClose := ht_sentTerminalClose t; ht_out := ht_out t; ht_in := ht_in t; ht_written := ht_written t;
  ht_writeClosed := ht_writeClosed t |}.
Definition set_recv (l : list Envelope) (t : hostTunnel) : hostTunnel := {|
  ht_id := ht_id t; ht_recv := l; ht_closed := ht_closed t; ht_sentWriteClose := ht_sentWriteClose t;
  ht_sentTerminalClose := ht_sentTerminalClose t; ht_out := ht_out t; ht_in := ht_in t; ht_written := ht_written t;
  ht_writeClosed := ht_writeClosed t |}.
Definition set_sent (write terminal : bool) (t : hostTunnel) : hostTunnel := {|
  ht_id := ht_id t; ht_recv := ht_recv t; ht_closed := ht_closed t; ht_sentWriteClose := write;
  ht_sentTerminalClose := terminal; ht_out := ht_out t; ht_in := ht_in t; ht_written := ht_written t;
  ht_writeClosed := ht_writeClosed t |}.
Definition set_relays (out inb : bool) (t : hostTunnel) : hostTunnel := {|
  ht_id := ht_id t; ht_recv := ht_recv t; ht_closed := ht_closed t; ht_sentWriteClose := ht_sentWriteClose t;
  ht_sentTerminalClose := ht_sentTerminalClose t; ht_out := out; ht_in := inb; ht_written := ht_written t;
  ht_writeClosed := ht_writeClosed t |}.
Definition set_written (data : string) (closed : bool) (t : hostTunnel) : hostTunnel := {|
  ht_id := ht_id t; ht_recv := ht_recv t; ht_closed := ht_closed t; ht_sentWriteClose := ht_sentWriteClose t;
  ht_sentTerminalClose := ht_sentTerminalClose t; ht_out := ht_out t; ht_in := ht_in t; ht_written := data;
  ht_writeClosed := closed |}.

Record RunResult := { rr_ExitCode : Z; rr_Stdout : string; rr_Stderr : string }.
Record runOutcome := { ro_result : option RunResult; ro_err : option string }.
(** The buffers, what the caller's writers were given, the one-place result
    channel and the [finished] flag. *)
Record runSession := {
  rn_stdout : string; rn_stderr : string; rn_stdoutWriter : option string; rn_stderrWriter : option string;
  rn_result : option runOutcome; rn_finished : bool;
}.
Definition newRunSession (stdout stderr : bool) : runSession := {|
  rn_stdout := ""; rn_stderr := ""; rn_stdoutWriter := if stdout then Some "" else None;
  rn_stderrWriter := if stderr then Some "" else None; rn_result := None; rn_finished := false |}.

(** The text received on a stream is kept and copied to the caller's writer. *)
Definition writer_add (w : option string) (data : string) : option string := (fun s => s +:+ data) <$> w.
Definition session_HandleStream (frame : StreamFrame) (s : runSession) : runSession :=
  if bool_decide (sf_Stream frame = StreamStdout) then
    {| rn_stdout := rn_stdout s +:+ sf_Data frame; rn_stderr := rn_stderr s;
       rn_stdoutWriter := writer_add (rn_stdoutWriter s) (sf_Data frame); rn_stderrWriter := rn_stderrWriter s;
       rn_result := rn_result s; rn_finished := rn_finished s |}
  else if bool_decide (sf_Stream frame = StreamStderr) then
    {| rn_stdout := rn_stdout s; rn_stderr := rn_stderr s +:+ sf_Data frame;
       rn_stdoutWriter := rn_stdoutWriter s; rn_stderrWriter := writer_add (rn_stderrWriter s) (sf_Data frame);
       rn_result := rn_result s; rn_finished := rn_finished s |}
  else s.
(** [Finish]: the first outcome wins. *)
Definition session_Finish (o : runOutcome) (s : runSession) : runSession * bool :=
  if rn_finished s then (s, false)
  else ({| rn_stdout := rn_stdout s; rn_stderr := rn_stderr s; rn_stdoutWriter := rn_stdoutWriter s;
           rn_stderrWriter := rn_stderrWriter s; rn_result := Some o; rn_finished := true |}, true).
Definition execResultError (r : ExecResult) : option string := if bool_decide (xr_Error r = "") then None else Some (xr_Error r).
Definition session_HandleExecResult (r : ExecResult) (s : runSession) : runSession * bool :=
  let stderr := rn_stderr s +:+ xr_Stderr r in
  let s := if bool_decide (xr_Stderr r = "") then s
           else {| rn_stdout := rn_stdout s; rn_stderr := rn_stderr s; rn_stdoutWriter := rn_stdoutWriter s;
                   rn_stderrWriter := writer_add (rn_stderrWriter s) (xr_Stderr r);
                   rn_result := rn_result s; rn_finished := rn_finished s |} in
  session_Finish {| ro_result := Some {| rr_ExitCode := xr_ExitCode r; rr_Stdout := rn_stdout s; rr_Stderr := stderr |};
                    ro_err := execResultError r |} s.

Record helperReady := { hr_proxyAddr : string; hr_dnsAddr : string; hr_tcpAddr : string; hr_err : option string }.
Definition hasTransparentListeners (r : helperReady) : bool := negb (bool_decide (hr_tcpAddr r = "")).

(** A goroutine: a request to handle, a response to send, a tunnel to activate,
    a tunnel's terminal close to send. *)
Inductive task :=
| TRequest (id : Z) (m : message)
| TSend (id : Z) (m : message) (tunnel : option nat)
| TActivate (id : Z) (tunnel : nat)
| TClose (tunnel : nat) (e : connError).

Section client.
Context `{GoLib} `{Net} `{CertLib}.

(** [net.Dialer.DialContext]: the address dialled and the outcome. *)
Context (dial : string -> nstate -> option string * nstate).

Record Client := {
  cl_sandboxID : string;
  cl_host : option host;
  cl_ca : option mitmCA;
  cl_nextID : Z;
  cl_ready : option helperReady;       (* the once-only ready channel *)
  cl_current : option nat;
  cl_sessions : list runSession;
  cl_tunnels : gmap Z nat;
  cl_pendingTunnels : gmap Z nat;
  cl_heap : list hostTunnel;
  cl_tasks : list task;
  cl_in : list Envelope;
  cl_out : list Envelope;
  cl_loop : option string;             (* the error the read loop ended with *)
}.
Definition newClient (sandboxID : string) (h : option host) (ca : option mitmCA) : Client := {|
  cl_sandboxID := sandboxID; cl_host := h; cl_ca := ca; cl_nextID := 0; cl_ready := None; cl_current := None;
  cl_sessions := []; cl_tunnels := ∅; cl_pendingTunnels := ∅; cl_heap := []; cl_tasks := []; cl_in := []; cl_out := [];
  cl_loop := None |}.

Definition with_host (h : option host) (ca : option mitmCA) (c : Client) : Client := {|
  cl_sandboxID := cl_sandboxID c; cl_host := h; cl_ca := ca; cl_nextID := cl_nextID c; cl_ready := cl_ready c;
  cl_current := cl_current c; cl_sessions := cl_sessions c; cl_tunnels := cl_tunnels c;
  cl_pendingTunnels := cl_pendingTunnels c; cl_heap := cl_heap c; cl_tasks := cl_tasks c; cl_in := cl_in c;
  cl_out := cl_out c; cl_loop := cl_loop c |}.
Definition with_runs (current : option nat) (sessions : list runSession) (c : Client) : Client := {|
  cl_sandboxID := cl_sandboxID c; cl_host := cl_host c; cl_ca := cl_ca c; cl_nextID := cl_nextID c; cl_ready := cl_ready c;
  cl_current := current; cl_sessions := sessions; cl_tunnels := cl_tunnels c;
  cl_pendingTunnels := cl_pendingTunnels c; cl_heap := cl_heap c; cl_tasks := cl_tasks c; cl_in := cl_in c;
  cl_out := cl_out c; cl_loop := cl_loop c |}.
Definition with_tunnels (tunnels pending : gmap Z nat) (heap : list hostTunnel) (c : Client) : Client := {|
  cl_sandboxID := cl_sandboxID c; cl_host := cl_host c; cl_ca := cl_ca c; cl_nextID := cl_nextID c; cl_ready := cl_ready c;
  cl_current := cl_current c; cl_sessions := cl_sessions c; cl_tunnels := tunnels;
  cl_pendingTunnels := pending; cl_heap := heap; cl_tasks := cl_tasks c; cl_in := cl_in c;
  cl_out := cl_out c; cl_loop := cl_loop c |}.
Definition with_io (tasks : list task) (i o : list Envelope) (c : Client) : Client := {|
  cl_sandboxID := cl_sandboxID c; cl_host := cl_host c; cl_ca := cl_ca c; cl_nextID := cl_nextID c; cl_ready := cl_ready c;
  cl_current := cl_current c; cl_sessions := cl_sessions c; cl_tunnels := cl_tunnels c;
  cl_pendingTunnels := cl_pendingTunnels c; cl_heap := cl_heap c; cl_tasks := tasks; cl_in := i;
  cl_out := o; cl_loop := cl_loop c |}.
Definition with_control (id : Z) (ready : option helperReady) (loop : option string) (c : Client) : Client := {|
  cl_sandboxID := cl_sandboxID c; cl_host := cl_host c; cl_ca := cl_ca c; cl_nextID := id; cl_ready := ready;
  cl_current := cl_current c; cl_sessions := cl_sessions c; cl_tunnels := cl_tunnels c;
  cl_pendingTunnels := cl_pendingTunnels c; cl_heap := cl_heap c; cl_tasks := cl_tasks c; cl_in := cl_in c;
  cl_out := cl_out c; cl_loop := loop |}.

(** [send] when the encoder succeeds. *)
Definition send (env : Envelope) (c : Client) : Client := with_io (cl_tasks c) (cl_in c) (cl_out c ++ [env]) c.

(** * Run sessions *)

Definition installRunSession (s : runSession) (c : Client) : result Client :=
  match cl_current c with
  | Some _ => Err "another command is already running"
  | None => Ok (with_runs (Some (length (cl_sessions c))) (cl_sessions c ++ [s]) c)
  end.
Definition on_session (f : runSession -> runSession) (s : nat) (c : Client) : Client :=
  with_runs (cl_current c) (alter f s (cl_sessions c)) c.
Definition clear_current (c : Client) : Client := with_runs None (cl_sessions c) c.
Definition handleStream (frame : StreamFrame) (c : Client) : Client :=
  match cl_current c with Some s => on_session (session_HandleStream frame) s c | None => c end.
Definition handleExecResult (r : ExecResult) (c : Client) : Client :=
  match cl_current c with
  | Some s => on_session (fun x => (session_HandleExecResult r x).1) s (clear_current c)
  | None => c
  end.
Definition failCurrentRun (e : string) (c : Client) : Client :=
  match cl_current c with
  | Some s => on_session (fun x => (session_Finish {| ro_result := None; ro_err := Some e |} x).1) s (clear_current c)
  | None => c
  end.

(** * Tunnels *)

Definition registerPendingTunnel (id : Z) (t : nat) (c : Client) : Client :=
  with_tunnels (cl_tunnels c) (<[id := t]> (cl_pendingTunnels c)) (cl_heap c) c.
Definition activateTunnel (id : Z) (c : Client) : Client * bool :=
  match cl_pendingTunnels c !! id with
  | None => (c, false)
  | Some t => (with_tunnels (<[id := t]> (cl_tunnels c)) (delete id (cl_pendingTunnels c)) (cl_heap c) c, true)
  end.
Definition unregisterTunnel (id : Z) (c : Client) : Client :=
  with_tunnels (delete id (cl_tunnels c)) (delete id (cl_pendingTunnels c)) (cl_heap c) c.
Definition lookup_tunnel (id : Z) (c : Client) : option nat :=
  match cl_tunnels c !! id with Some t => Some t | None => cl_pendingTunnels c !! id end.
Definition on_tunnel (f : hostTunnel -> hostTunnel) (t : nat) (c : Client) : Client :=
  with_tunnels (cl_tunnels c) (cl_pendingTunnels c) (alter f t (cl_heap c)) c.

Definition closeTerminal (t : nat) (tn : hostTunnel) (c : Client) : Client :=
  on_tunnel tunnel_shutdown t (unregisterTunnel (ht_id tn) c).
Definition SendWriteClose (e : option connError) (t : nat) (tn : hostTunnel) (c : Client) : Client :=
  if ht_sentWriteClose tn then c
  else send (envelope (ht_id tn) (MTunnelClose {| tc_Write := true; tc_Error := close_text e |}))
         (on_tunnel (fun x => set_sent true (ht_sentTerminalClose x) x) t c).
Definition sendTerminalClose (e : option connError) (t : nat) (tn : hostTunnel) (c : Client) : Client :=
  if ht_sentTerminalClose tn then c
  else send (envelope (ht_id tn) (MTunnelClose {| tc_Write := false; tc_Error := close_text e |}))
         (on_tunnel (fun x => set_sent (ht_sentWriteClose x) true x) t c).

(** [deliver]: the receive buffer never blocks the read loop; when it is full the
    tunnel is closed, and a goroutine tells the helper. *)
Definition sendTerminalCloseAsync (e : connError) (t : nat) (c : Client) : Client :=
  with_io (cl_tasks c ++ [TClose t e]) (cl_in c) (cl_out c) c.
Definition tunnel_deliver (env : Envelope) (t : nat) (c : Client) : Client :=
  match cl_heap c !! t with
  | None => c
  | Some tn =>
      if ht_closed tn then c
      else if bool_decide (length (ht_recv tn) < recv_capacity)%nat
      then on_tunnel (fun x => set_recv (ht_recv x ++ [env]) x) t c
      else closeTerminal t tn (sendTerminalCloseAsync (ErrOther "tunnel receive buffer overflow") t c)
  end.
Definition HandleTunnelFrame (id : Z) (frame : TunnelFrame) (c : Client) : Client :=
  match lookup_tunnel id c with None => c | Some t => tunnel_deliver (envelope id (MTunnelFrame frame)) t c end.
Definition HandleTunnelClose (id : Z) (msg : TunnelClose) (c : Client) : Client :=
  match lookup_tunnel id c with None => c | Some t => tunnel_deliver (envelope id (MTunnelClose msg)) t c end.

(** All registered tunnels, active and pending. *)
Definition ShutdownTunnels (c : Client) : Client :=
  let registered := (map_to_list (cl_tunnels c)).*2 ++ (map_to_list (cl_pendingTunnels c)).*2 in
  with_tunnels ∅ ∅ (foldl (fun heap t => alter tunnel_shutdown t heap) (cl_heap c) registered) c.

(** * Requests *)

Definition fix_status (r : ProxyResponse) : ProxyResponse :=
  if ps_StatusCode r =? 0
  then {| ps_StatusCode := StatusBadGateway; ps_Header := ps_Header r; ps_Body := ps_Body r; ps_Error := ps_Error r |} else r.
Definition bad_gateway (e : string) : ConnectResponse := {| cs_StatusCode := StatusBadGateway; cs_Message := ""; cs_Error := e |}.
Definition tunnel_address (host : string) (port : Z) : string := JoinHostPort host (Itoa port).

(** The first part of the handlers: the manager's answer. *)
Definition HandleProxyRequest_answer (req : ProxyRequest) (c : Client) : ProxyResponse * Client :=
  match cl_host c with
  | None => (response_error StatusBadGateway "proxy request rejected: empty response", c)
  | Some h => let '(r, h) := handleProxyRequest (cl_sandboxID c) req h in (fix_status r, with_host (Some h) (cl_ca c) c)
  end.
Definition HandleMITMRequest_answer (req : MITMRequest) (c : Client) : MITMResponse * Client :=
  match cl_host c with
  | None => (response_error StatusBadGateway "MITM request rejected: empty response", c)
  | Some h => let '(r, h) := handleMITMRequest (cl_sandboxID c) req h in (fix_status r, with_host (Some h) (cl_ca c) c)
  end.
Definition HandleDNSRequest_answer (req : DNSRequest) (c : Client) : DNSResponse * Client :=
  match cl_host c with
  | None => ({| ds_Payload := ""; ds_Error := "dns request rejected: empty response" |}, c)
  | Some h => let '(r, h) := handleDNSRequest (cl_sandboxID c) req h in (r, with_host (Some h) (cl_ca c) c)
  end.
Definition HandleLeafCertRequest_answer (req : LeafCertRequest) (c : Client) : LeafCertResponse * Client :=
  match cl_host c with
  | None => ({| lc_CertPEM := ""; lc_KeyPEM := ""; lc_Error := "leaf cert request rejected: empty response" |}, c)
  | Some h =>
      let '(r, ca) := handleLeafCertRequest (lq_Host req) (now (h_net h)) (cl_ca c) in (r, with_host (Some h) ca c)
  end.
(** A tunnel request that was let through is dialled; the tunnel is pending until
    the response is out. *)
Definition HandleConnectRequest_answer (id : Z) (req : ConnectRequest) (c : Client) : ConnectResponse * option nat * Client :=
  match cl_host c with
  | None => (bad_gateway "connect request rejected: empty response", None, c)
  | Some h =>
      let '(r, h) := handleConnectRequest (cl_sandboxID c) req h in
      let r := if cs_StatusCode r =? 0
               then {| cs_StatusCode := StatusBadGateway; cs_Message := cs_Message r; cs_Error := cs_Error r |} else r in
      if (cs_StatusCode r <? 200) || (300 <=? cs_StatusCode r) then (r, None, with_host (Some h) (cl_ca c) c)
      else
        let '(e, n) := dial (tunnel_address (cr_Host req) (cr_Port req)) (h_net h) in
        let c := with_host (Some (set_host_net n h)) (cl_ca c) c in
        match e with
        | Some e => (bad_gateway e, None, c)
        | None =>
            let t := length (cl_heap c) in
            (r, Some t, registerPendingTunnel id t (with_tunnels (cl_tunnels c) (cl_pendingTunnels c) (cl_heap c ++ [newHostTunnel id]) c))
        end
  end.

(** What a request's goroutine computes: the response and the tunnel, if any. *)
Definition answer (id : Z) (m : message) (c : Client) : message * option nat * Client :=
  match m with
  | MProxyRequest req => let '(r, c) := HandleProxyRequest_answer req c in (MProxyResponse r, None, c)
  | MMITMRequest req => let '(r, c) := HandleMITMRequest_answer req c in (MMITMResponse r, None, c)
  | MDNSRequest req => let '(r, c) := HandleDNSRequest_answer req c in (MDNSResponse r, None, c)
  | MLeafCertRequest req => let '(r, c) := HandleLeafCertRequest_answer req c in (MLeafCertResponse r, None, c)
  | MConnectRequest req => let '(r, t, c) := HandleConnectRequest_answer id req c in (MConnectResponse r, t, c)
  | _ => (m, None, c)
  end.

(** The second part: sending it; a tunnel is then activated. *)
Definition send_answer (id : Z) (m : message) (tunnel : option nat) (tasks : list task) (c : Client) : Client :=
  send (envelope id m) (with_io (match tunnel with Some t => tasks ++ [TActivate id t] | None => tasks end) (cl_in c) (cl_out c) c).
(** When sending fails: a tunnel is given up; a failed connect response is
    ignored; the other failures end the command that runs. *)
Definition send_answer_error (id : Z) (m : message) (tunnel : option nat) (e : string) (tasks : list task) (c : Client) : Client :=
  let c := with_io tasks (cl_in c) (cl_out c) c in
  match tunnel with
  | Some t => on_tunnel tunnel_shutdown t (unregisterTunnel id c)
  | None => match m with MConnectResponse _ => c | _ => failCurrentRun e c end
  end.
Definition activate (id : Z) (t : nat) (tasks : list task) (c : Client) : Client :=
  let c := with_io tasks (cl_in c) (cl_out c) c in
  match activateTunnel id c with
  | (c, true) => on_tunnel tunnel_start t c
  | (c, false) => on_tunnel tunnel_shutdown t c
  end.

(** * The read loop *)

Definition notifyReady (r : helperReady) (c : Client) : Client :=
  match cl_ready c with Some _ => c | None => with_control (cl_nextID c) (Some r) (cl_loop c) c end.
Definition ready_error (e : string) : helperReady :=
  {| hr_proxyAddr := ""; hr_dnsAddr := ""; hr_tcpAddr := ""; hr_err := Some e |}.
Definition loop_ended (e : string) (c : Client) : Client := with_control (cl_nextID c) (cl_ready c) (Some e) c.
Definition ReadLoop_error (e : string) (c : Client) : Client :=
  loop_ended e (ShutdownTunnels (failCurrentRun e (notifyReady (ready_error e) c))).

(** The request of an envelope a goroutine is started for, first field first. *)
Definition requested (env : Envelope) : option message :=
  match e_ProxyRequest env with Some m => Some (MProxyRequest m) | None =>
  match e_ConnectRequest env with Some m => Some (MConnectRequest m) | None =>
  match e_DNSRequest env with Some m => Some (MDNSRequest m) | None =>
  match e_LeafCertRequest env with Some m => Some (MLeafCertRequest m) | None =>
  match e_MITMRequest env with Some m => Some (MMITMRequest m) | None => None end end end end end.

Definition ReadLoop_dispatch (env : Envelope) (c : Client) : Client :=
  let c := with_io (cl_tasks c) (cl_in c ++ [env]) (cl_out c) c in
  match e_Ready env with
  | Some ready =>
      if negb (rd_ProtocolVersion ready =? ProtocolVersion) then
        let e := "unexpected helper protocol version " +:+ Itoa (rd_ProtocolVersion ready) in
        loop_ended e (failCurrentRun e (notifyReady (ready_error e) c))
      else notifyReady {| hr_proxyAddr := rd_ProxyAddr ready; hr_dnsAddr := rd_DNSAddr ready; hr_tcpAddr := rd_TCPAddr ready;
                          hr_err := None |} c
  | None =>
      match requested env with
      | Some m => with_io (cl_tasks c ++ [TRequest (e_ID env) m]) (cl_in c) (cl_out c) c
      | None =>
          match e_TunnelFrame env with
          | Some frame => HandleTunnelFrame (e_ID env) frame c
          | None =>
              match e_TunnelClose env with
              | Some msg => HandleTunnelClose (e_ID env) msg c
              | None =>
                  match e_StreamFrame env with
                  | Some frame => handleStream frame c
                  | None => match e_ExecResult env with Some r => handleExecResult r c | None => c end
                  end
              end
          end
      end
  end.

(** * Start and Run *)

(** [Start]: the hello message, then what the first ready notification means. *)
Definition Start_send (c : Client) : Client :=
  let id := next_id (cl_nextID c) in
  send (envelope id (MHello {| he_ProtocolVersion := ProtocolVersion; he_SandboxID := cl_sandboxID c |}))
    (with_control id (cl_ready c) (cl_loop c) c).
Definition Start_result (ready : helperReady) : result string :=
  match hr_err ready with
  | Some e => Err e
  | None =>
      if negb (bool_decide (hr_proxyAddr ready = "")) then Ok (hr_proxyAddr ready)
      else if hasTransparentListeners ready then Ok ""
      else Err "helper did not report proxy or transparent listener readiness"
  end.

Record RunOptions := {
  op_Env : list string; op_WorkDir : string; op_Interactive : bool; op_Stdin : bool; op_Stdout : bool; op_Stderr : bool;
  op_Terminal : bool; op_TerminalSize : TerminalSize; op_Resize : bool;
}.
Definition exec_request (argv : list string) (o : RunOptions) : ExecRequest := {|
  xq_Argv := argv; xq_Env := op_Env o; xq_WorkDir := op_WorkDir o;
  xq_Interactive := op_Interactive o || op_Terminal o || op_Resize o; xq_Terminal := op_Terminal o;
  xq_InitialSize := if (0 <? ts_Rows (op_TerminalSize o)) || (0 <? ts_Cols (op_TerminalSize o))
                    then Some (op_TerminalSize o) else None |}.
(** [Run] up to its [select]: the session's index, or the error. *)
Definition Run_start (argv : list string) (o : RunOptions) (c : Client) : result (nat * Client) :=
  let s := length (cl_sessions c) in
  c <-! installRunSession (newRunSession (op_Stdout o) (op_Stderr o)) c;
  let id := next_id (cl_nextID c) in
  Ok (s, send (envelope id (MExecRequest (exec_request argv o))) (with_control id (cl_ready c) (cl_loop c) c)).
(** The send of the request fails. *)
Definition Run_send_error (argv : list string) (o : RunOptions) (e : string) (c : Client) : result string * Client :=
  match installRunSession (newRunSession (op_Stdout o) (op_Stderr o)) c with
  | Err x => (Err x, c)
  | Ok c =>
      let e := "send exec request: " +:+ e in
      (Err e, failCurrentRun e (with_control (next_id (cl_nextID c)) (cl_ready c) (cl_loop c) c))
  end.
(** The cases of the [select]: the outcome is there; the read loop has ended; the
    context is done, which returns without touching the session. *)
Definition Run_outcome (s : nat) (c : Client) : option runOutcome := cl_sessions c !! s ≫= rn_result.
Definition Run_loop_done (s : nat) (e : option string) (c : Client) : string * Client :=
  let e := default "helper bridge closed" e in
  (e, on_session (fun x => (session_Finish {| ro_result := None; ro_err := Some e |} x).1) s c).

(** * The relays of a tunnel *)

(** One round of [relayOutboundToTunnel]: what [Read] returned, with sends that succeed. *)
Definition relayOutbound_round (data : string) (err : option connError) (t : nat) (tn : hostTunnel) (c : Client) : Client :=
  let c := if bool_decide (data = "") then c else send (envelope (ht_id tn) (MTunnelFrame {| tf_Data := data |})) c in
  let stop := on_tunnel (fun x => set_relays false (ht_in x) x) t in
  match err with
  | None | Some (ErrTimeout _) => c
  | Some ErrEOF => stop (SendWriteClose None t tn c)
  | Some ErrClosed => stop c
  | Some e => stop (closeTerminal t tn (sendTerminalClose (Some e) t tn c))
  end.
(** The frame cannot be sent; whether the close message can is [ok]. *)
Definition relayOutbound_send_error (ok : bool) (e : string) (t : nat) (tn : hostTunnel) (c : Client) : Client :=
  let c := if ok then sendTerminalClose (Some (ErrOther e)) t tn c
           else on_tunnel (fun x => set_sent (ht_sentWriteClose x) true x) t c in
  on_tunnel (fun x => set_relays false (ht_in x) x) t (closeTerminal t tn c).

(** One round of [relayTunnelToOutbound]: it found the tunnel closed, or took an
    envelope from the channel; [err] is the error of the write or of closing the
    write side, if any. *)
Definition relayInbound_closed (t : nat) (tn : hostTunnel) (c : Client) : Client :=
  on_tunnel (fun x => set_relays (ht_out x) false x) t (closeTerminal t tn c).
Definition relayInbound_round (env : Envelope) (err : option connError) (t : nat) (tn : hostTunnel) (c : Client) : Client :=
  let c := on_tunnel (fun x => set_recv (tail (ht_recv x)) x) t c in
  let fail e := relayInbound_closed t tn (sendTerminalClose (Some e) t tn c) in
  match e_TunnelFrame env with
  | Some frame =>
      if bool_decide (tf_Data frame = "") then c
      else match err with
           | Some e => fail e
           | None => on_tunnel (fun x => set_written (ht_written x +:+ tf_Data frame) (ht_writeClosed x) x) t c
           end
  | None =>
      match e_TunnelClose env with
      | Some close =>
          if tc_Write close then
            match err with
            | Some e => fail e
            | None => on_tunnel (fun x => set_written (ht_written x) true x) t c
            end
          else relayInbound_closed t tn c
      | None => c
      end
  end.

(** [Close]: the context, the tunnels, the connection. *)
Definition Close (c : Client) : Client := ShutdownTunnels c.

(** * All interleavings *)

(** [others] is what the rest of the program does to the manager. *)
Context (others : host -> host -> Prop).

Inductive client_step : Client -> Client -> Prop :=
| cs_answer l1 l2 id m r t c0 c : cl_tasks c = l1 ++ TRequest id m :: l2 -> answer id m c = (r, t, c0) ->
    client_step c (with_io (l1 ++ TSend id r t :: l2) (cl_in c0) (cl_out c0) c0)
| cs_send l1 l2 id m t c : cl_tasks c = l1 ++ TSend id m t :: l2 -> client_step c (send_answer id m t (l1 ++ l2) c)
| cs_send_error l1 l2 id m t e c : cl_tasks c = l1 ++ TSend id m t :: l2 ->
    client_step c (send_answer_error id m t e (l1 ++ l2) c)
| cs_activate l1 l2 id t c : cl_tasks c = l1 ++ TActivate id t :: l2 -> client_step c (activate id t (l1 ++ l2) c)
| cs_terminal l1 l2 t tn e c : cl_tasks c = l1 ++ TClose t e :: l2 -> cl_heap c !! t = Some tn ->
    client_step c (sendTerminalClose (Some e) t tn (with_io (l1 ++ l2) (cl_in c) (cl_out c) c))
| cs_read_error e c : cl_loop c = None -> client_step c (ReadLoop_error e c)
| cs_start c : client_step c (Start_send c)
| cs_run argv o s c c' : Run_start argv o c = Ok (s, c') -> client_step c c'
| cs_run_send_error argv o e c : client_step c (Run_send_error argv o e c).2
| cs_run_loop_done s e c : client_step c (Run_loop_done s e c).2
| cs_input id input c : client_step c (send (envelope id (MExecInput input)) c)
| cs_out data err t tn c : cl_heap c !! t = Some tn -> ht_out tn = true -> client_step c (relayOutbound_round data err t tn c)
| cs_out_error ok e t tn c : cl_heap c !! t = Some tn -> ht_out tn = true ->
    client_step c (relayOutbound_send_error ok e t tn c)
| cs_in env l err t tn c : cl_heap c !! t = Some tn -> ht_in tn = true -> ht_recv tn = env :: l ->
    client_step c (relayInbound_round env err t tn c)
| cs_in_closed t tn c : cl_heap c !! t = Some tn -> ht_in tn = true -> ht_closed tn = true ->
    client_step c (relayInbound_closed t tn c)
| cs_close c : client_step c (Close c)
| cs_others h h' c : cl_host c = Some h -> others h h' -> client_step c (with_host (Some h') (cl_ca c) c).
End client.
