(* ===== verification/RunTheorems.v ===== *)
(** What [Client.Run] returns: the output of the command, exactly, under every
    interleaving with the other goroutines of the client. *)
From S2P Require Import Prelude GoStrings GoNet Policy Access Manager Messages MitmCA HostClient Sample SampleNet SampleCerts.

Section run.
Context `{GoLib} `{Net} `{CertLib}.
Context (dial : string -> nstate -> option string * nstate) (others : host -> host -> Prop).

(** The client's goroutines, with any peer. *)
Inductive client_run : Client -> Client -> Prop :=
| cr_step c c' : client_step dial others c c' -> client_run c c'
| cr_read env c : cl_loop c = None -> client_run c (ReadLoop_dispatch env c).

(** What the read loop takes an envelope for, when it is output or a result. *)
Definition plain (env : Envelope) : bool :=
  negb (present (e_Ready env)) && negb (present (requested env)) && negb (present (e_TunnelFrame env)) &&
  negb (present (e_TunnelClose env)).
Definition stream_of (env : Envelope) : option StreamFrame := if plain env then e_StreamFrame env else None.
Definition result_of (env : Envelope) : option ExecResult :=
  if plain env then match e_StreamFrame env with Some _ => None | None => e_ExecResult env end else None.
(** The text of one stream in a sequence of envelopes. *)
Definition text (stream : string) (log : list Envelope) : string :=
  foldl (fun s env => match stream_of env with
                      | Some frame => if bool_decide (sf_Stream frame = stream) then s +:+ sf_Data frame else s
                      | None => s
                      end) "" log.
Lemma text_snoc stream log env :
  text stream (log ++ [env]) =
  match stream_of env with
  | Some frame => if bool_decide (sf_Stream frame = stream) then text stream log +:+ sf_Data frame else text stream log
  | None => text stream log
  end.
Proof. unfold text. by rewrite foldl_app. Qed.

(** The run that a dispatch of a result ends. *)
Definition run_result (log : list Envelope) (r : ExecResult) : runOutcome := {|
  ro_result := Some {| rr_ExitCode := xr_ExitCode r; rr_Stdout := text StreamStdout log; rr_Stderr := text StreamStderr log +:+ xr_Stderr r |};
  ro_err := execResultError r |}.

(** A session started when [n] envelopes were decoded: still open, with the output
    so far; or finished by a result, or by an error. *)
Definition open_session (x : runSession) (log : list Envelope) : Prop :=
  rn_finished x = false /\ rn_result x = None /\ rn_stdout x = text StreamStdout log /\ rn_stderr x = text StreamStderr log /\
  Forall (fun env => result_of env = None) log.
Definition outcome_ok (o : runOutcome) (log : list Envelope) : Prop :=
  ro_result o = None /\ is_Some (ro_err o) \/
  exists before env after r, log = before ++ env :: after /\ Forall (fun env => result_of env = None) before /\
    result_of env = Some r /\ o = run_result before r.
Definition session_ok (current : bool) (x : runSession) (log : list Envelope) : Prop :=
  current = true /\ open_session x log \/
  rn_finished x = true /\ exists o, rn_result x = Some o /\ outcome_ok o log.

Lemma outcome_ok_app o log l : outcome_ok o log -> outcome_ok o (log ++ l).
Proof.
  intros [?|(b & env & a & r & -> & F & E & ->)]; [by left|]. right. exists b, env, (a ++ l), r. by rewrite <- app_assoc.
Qed.
(** A finished session keeps its outcome. *)
Lemma stream_finished frame x o :
  rn_finished x = true -> rn_result x = Some o ->
  rn_finished (session_HandleStream frame x) = true /\ rn_result (session_HandleStream frame x) = Some o.
Proof. intros. unfold session_HandleStream. by repeat case_bool_decide. Qed.
Lemma finish_finished out x o :
  rn_finished x = true -> rn_result x = Some o ->
  rn_finished (session_Finish out x).1 = true /\ rn_result (session_Finish out x).1 = Some o.
Proof. intros F R. unfold session_Finish. by rewrite F. Qed.
Lemma result_finished r x o :
  rn_finished x = true -> rn_result x = Some o ->
  rn_finished (session_HandleExecResult r x).1 = true /\ rn_result (session_HandleExecResult r x).1 = Some o.
Proof. intros F R. unfold session_HandleExecResult. apply finish_finished; by case_bool_decide. Qed.
Lemma finish_open e x log :
  open_session x log ->
  rn_finished (session_Finish {| ro_result := None; ro_err := Some e |} x).1 = true /\
  rn_result (session_Finish {| ro_result := None; ro_err := Some e |} x).1 = Some {| ro_result := None; ro_err := Some e |}.
Proof. intros (F & _). unfold session_Finish. by rewrite F. Qed.
Lemma result_open r x log :
  open_session x log ->
  rn_finished (session_HandleExecResult r x).1 = true /\ rn_result (session_HandleExecResult r x).1 = Some (run_result log r).
Proof.
  intros (F & R & O & E & _). unfold session_HandleExecResult, session_Finish, run_result. rewrite <- O, <- E.
  case_bool_decide; cbn; by rewrite F.
Qed.

(** ** The client *)

(** [n] is the input when the session started. *)
Definition run_inv (s : nat) (n : list Envelope) (c : Client) : Prop :=
  n `prefix_of` cl_in c /\
  exists x, cl_sessions c !! s = Some x /\ session_ok (bool_decide (cl_current c = Some s)) x (drop (length n) (cl_in c)).

(** Steps that touch neither the sessions nor the input. *)
Definition same_runs (c c' : Client) : Prop :=
  cl_current c' = cl_current c /\ cl_sessions c' = cl_sessions c /\ cl_in c' = cl_in c.
Lemma same_runs_inv s n c c' : same_runs c c' -> run_inv s n c -> run_inv s n c'.
Proof. intros (E1 & E2 & E3). unfold run_inv. by rewrite E1, E2, E3. Qed.
Lemma same_runs_refl c : same_runs c c.
Proof. done. Qed.
Lemma same_runs_trans c1 c2 c3 : same_runs c1 c2 -> same_runs c2 c3 -> same_runs c1 c3.
Proof. intros (A1 & A2 & A3) (B1 & B2 & B3). split; [congruence|]. split; congruence. Qed.

Lemma same_answer id m c : same_runs c (answer dial id m c).2.
Proof.
  unfold answer, HandleProxyRequest_answer, HandleMITMRequest_answer, HandleDNSRequest_answer, HandleLeafCertRequest_answer,
    HandleConnectRequest_answer. repeat case_match; by simplify_eq/=.
Qed.
Lemma same_terminal e t tn c : same_runs c (sendTerminalClose e t tn c).
Proof. unfold sendTerminalClose. by destruct (ht_sentTerminalClose tn). Qed.
Lemma same_writeclose e t tn c : same_runs c (SendWriteClose e t tn c).
Proof. unfold SendWriteClose. by destruct (ht_sentWriteClose tn). Qed.
Lemma same_ready r c : same_runs c (notifyReady r c).
Proof. unfold notifyReady. by destruct (cl_ready c). Qed.
Lemma same_tunnel f t c : same_runs c (on_tunnel f t c).
Proof. done. Qed.
Lemma same_close t tn c : same_runs c (closeTerminal t tn c).
Proof. done. Qed.
Lemma same_inbound_closed t tn c : same_runs c (relayInbound_closed t tn c).
Proof. done. Qed.
Lemma same_send env c : same_runs c (send env c).
Proof. done. Qed.
Lemma same_deliver env t c : same_runs c (tunnel_deliver env t c).
Proof. unfold tunnel_deliver. by repeat case_match. Qed.

Create HintDb runs.
Hint Resolve same_terminal same_writeclose same_ready same_tunnel same_close same_inbound_closed same_send same_deliver : runs.
Ltac same_runs := repeat first [apply same_runs_refl|eapply same_runs_trans; [|solve [eauto 1 with runs nocore]]].

Lemma same_outbound data err t tn c : same_runs c (relayOutbound_round data err t tn c).
Proof.
  unfold relayOutbound_round. cbv zeta. set (c1 := if bool_decide (data = "") then c else _).
  assert (Q : same_runs c c1) by (unfold c1; by case_bool_decide). clearbody c1.
  eapply same_runs_trans; [exact Q|]. clear Q. destruct err as [[]|]; same_runs.
Qed.
Lemma same_outbound_error ok e t tn c : same_runs c (relayOutbound_send_error ok e t tn c).
Proof. unfold relayOutbound_send_error. destruct ok; same_runs. Qed.
Lemma same_inbound env err t tn c : same_runs c (relayInbound_round env err t tn c).
Proof. unfold relayInbound_round. cbv zeta. repeat case_match; same_runs. Qed.

(** A change of one session, and of the input. *)
Lemma session_change s n c c' f s' l :
  cl_sessions c' = alter f s' (cl_sessions c) -> cl_in c' = cl_in c ++ l ->
  (forall x o, rn_finished x = true -> rn_result x = Some o -> rn_finished (f x) = true /\ rn_result (f x) = Some o) ->
  (forall x, s' = s -> cl_current c = Some s -> open_session x (drop (length n) (cl_in c)) ->
     cl_current c' = Some s /\ open_session (f x) (drop (length n) (cl_in c) ++ l) \/
     rn_finished (f x) = true /\ exists o, rn_result (f x) = Some o /\ outcome_ok o (drop (length n) (cl_in c) ++ l)) ->
  (s' <> s -> cl_current c = Some s -> cl_current c' = Some s /\ l = []) ->
  run_inv s n c -> run_inv s n c'.
Proof.
  intros Es Ei Fin Open Other (L & x & E & K). unfold run_inv. rewrite Es, Ei. split; [by apply prefix_app_r|].
  rewrite drop_app_le by (by apply prefix_length). destruct (decide (s' = s)) as [->|N].
  - exists (f x). rewrite list_lookup_alter_eq, E. split; [done|].
    destruct K as [[C K]|(F & o & R & K)].
    + apply bool_decide_eq_true in C. destruct (Open x eq_refl C K) as [[-> O]|?]; [left; by rewrite bool_decide_eq_true_2|by right].
    + right. destruct (Fin x o F R). split; [done|]. exists o. split; [done|]. by apply outcome_ok_app.
  - exists x. rewrite list_lookup_alter_ne by done. split; [done|]. destruct K as [[C K]|(F & o & R & K)].
    + left. apply bool_decide_eq_true in C. destruct (Other N C) as [-> ->]. by rewrite bool_decide_eq_true_2, app_nil_r.
    + right. split; [done|]. exists o. split; [done|]. by apply outcome_ok_app.
Qed.

Lemma fail_inv s n e c : run_inv s n c -> run_inv s n (failCurrentRun e c).
Proof.
  unfold failCurrentRun. destruct (cl_current c) as [s'|] eqn:C; [|done].
  eapply (session_change s n c _ _ s' []); [done|by rewrite app_nil_r|intros; by apply finish_finished| |].
  - intros x -> _ O. right. destruct (finish_open e x _ O) as [F R]. split; [done|]. eexists. split; [done|]. by left.
  - intros N C'. congruence.
Qed.
Lemma loop_done_inv s n s' e c : run_inv s n c -> run_inv s n (Run_loop_done s' e c).2.
Proof.
  eapply (session_change s n c _ _ s' []); [done|by rewrite app_nil_r|intros; by apply finish_finished| |done].
  intros x -> _ O. right. destruct (finish_open (default "helper bridge closed" e) x _ O) as [F R]. split; [done|].
  eexists. split; [done|]. by left.
Qed.
Lemma install_inv s n y c c' : installRunSession y c = Ok c' -> run_inv s n c -> run_inv s n c'.
Proof.
  unfold installRunSession. destruct (cl_current c) eqn:C; [done|]. intros [= <-] (L & x & E & K). split; [done|].
  exists x. cbn. split; [by apply lookup_app_l_Some|]. rewrite C in K. destruct K as [[? _]|K]; [done|by right].
Qed.
Lemma run_start_inv s n argv o s' c c' : Run_start argv o c = Ok (s', c') -> run_inv s n c -> run_inv s n c'.
Proof.
  unfold Run_start. destruct (installRunSession _ c) as [c1|] eqn:E; [|done]. cbn [result_bind]. intros [= <- <-] I.
  apply (same_runs_inv s n c1); [done|]. by eapply install_inv.
Qed.
Lemma run_send_error_inv s n argv o e c : run_inv s n c -> run_inv s n (Run_send_error argv o e c).2.
Proof.
  intros I. unfold Run_send_error. destruct (installRunSession _ c) as [c1|] eqn:E; [|done]. cbn [snd]. apply fail_inv.
  apply (same_runs_inv s n c1); [done|]. by eapply install_inv.
Qed.

(** ** The read loop *)

Lemma stream_open frame env x log :
  stream_of env = Some frame -> open_session x log -> open_session (session_HandleStream frame x) (log ++ [env]).
Proof.
  intros S (F & R & O & E & N). unfold open_session. rewrite !text_snoc, S.
  assert (N' : Forall (fun env => result_of env = None) (log ++ [env])).
  { apply Forall_app. split; [done|]. constructor; [|done]. unfold stream_of, result_of in *. destruct (plain env); [|done]. by rewrite S. }
  assert (D : StreamStdout <> StreamStderr) by done.
  unfold session_HandleStream. repeat case_bool_decide; cbn; try congruence; repeat (split; [congruence|]); done.
Qed.
Lemma skip_inv s n c c' env :
  cl_current c' = cl_current c -> cl_sessions c' = cl_sessions c -> cl_in c' = cl_in c ++ [env] ->
  stream_of env = None -> result_of env = None -> run_inv s n c -> run_inv s n c'.
Proof.
  intros E1 E2 E3 S R (L & x & E & K). unfold run_inv. rewrite E1, E2, E3. split; [by apply prefix_app_r|]. exists x. split; [done|].
  rewrite drop_app_le by (by apply prefix_length). destruct K as [[C (F & Q & O & Er & N)]|(F & o & Q & K)].
  - left. split; [done|]. unfold open_session. rewrite !text_snoc, S. repeat (split; [done|]). apply Forall_app. by split; [|constructor].
  - right. split; [done|]. exists o. split; [done|]. by apply outcome_ok_app.
Qed.

Lemma dispatch_inv s n env c : run_inv s n c -> run_inv s n (ReadLoop_dispatch env c).
Proof.
  intros I. set (c1 := with_io (cl_tasks c) (cl_in c ++ [env]) (cl_out c) c).
  assert (Skip : stream_of env = None -> result_of env = None -> run_inv s n c1) by (intros; by eapply (skip_inv s n c c1)).
  unfold ReadLoop_dispatch. fold c1. unfold stream_of, result_of, plain in Skip.
  destruct (e_Ready env) as [ready|] eqn:E1.
  { cbn in Skip. specialize (Skip eq_refl eq_refl). destruct (negb _); [|by eapply same_runs_inv; [apply same_ready|]].
    apply (same_runs_inv s n (failCurrentRun ("unexpected helper protocol version " +:+ Itoa (rd_ProtocolVersion ready))
      (notifyReady (ready_error ("unexpected helper protocol version " +:+ Itoa (rd_ProtocolVersion ready))) c1))); [done|].
    apply fail_inv. by eapply same_runs_inv; [apply same_ready|]. }
  destruct (requested env) as [m|] eqn:E2.
  { cbn in Skip. specialize (Skip eq_refl eq_refl). by eapply same_runs_inv; [|exact Skip]. }
  destruct (e_TunnelFrame env) as [frame|] eqn:E3.
  { cbn in Skip. specialize (Skip eq_refl eq_refl). unfold HandleTunnelFrame. destruct (lookup_tunnel _ _); [|done].
    by eapply same_runs_inv; [apply same_deliver|]. }
  destruct (e_TunnelClose env) as [msg|] eqn:E4.
  { cbn in Skip. specialize (Skip eq_refl eq_refl). unfold HandleTunnelClose. destruct (lookup_tunnel _ _); [|done].
    by eapply same_runs_inv; [apply same_deliver|]. }
  assert (P : plain env = true) by (unfold plain; by rewrite E1, E2, E3, E4).
  destruct (e_StreamFrame env) as [frame|] eqn:E5.
  - assert (S : stream_of env = Some frame) by (unfold stream_of; by rewrite P).
    unfold handleStream. destruct (cl_current c1) as [s'|] eqn:C; [|].
    + revert I. eapply (session_change s n c _ (session_HandleStream frame) s' [env]); [done|done|intros; by apply stream_finished| |].
      * intros x -> Cs O. left. split; [done|]. by apply stream_open.
      * intros N Cs. cbn in C. congruence.
    + revert I. eapply (session_change s n c _ (fun x => x) s [env]); [by rewrite list_alter_id|done|done| |done].
      intros x _ Cs O. cbn in C. congruence.
  - destruct (e_ExecResult env) as [r|] eqn:E6; [|by apply Skip].
    assert (S : result_of env = Some r) by (unfold result_of; by rewrite P, E5).
    unfold handleExecResult. destruct (cl_current c1) as [s'|] eqn:C; [|].
    + revert I. eapply (session_change s n c _ (fun x => (session_HandleExecResult r x).1) s' [env]);
        [done|done|intros; by apply result_finished| |].
      * intros x -> Cs O. right. destruct (result_open r x _ O) as [F R]. split; [done|]. eexists. split; [done|]. right.
        exists (drop (length n) (cl_in c)), env, [], r. split; [done|]. split; [apply O|]. done.
      * intros N Cs. cbn in C. congruence.
    + revert I. eapply (session_change s n c _ (fun x => x) s [env]); [by rewrite list_alter_id|done|done| |done].
      intros x _ Cs O. cbn in C. congruence.
Qed.

Lemma client_step_inv s n c c' : client_step dial others c c' -> run_inv s n c -> run_inv s n c'.
Proof.
  intros S I. destruct S as [l1 l2 id m r t c0 c T A|l1 l2 id m t c T|l1 l2 id m t e c T|l1 l2 id t c T|l1 l2 t tn e c T E|e c L|c|argv o s' c c' R
    |argv o e c|s' e c|id i c|data err t tn c E O|ok e t tn c E O|env l err t tn c E O R|t tn c E O Cl|c|h h' c E O];
    try (by eapply same_runs_inv; [|exact I]; eauto using same_outbound, same_outbound_error, same_inbound, same_inbound_closed).
  - pose proof (same_answer id m c) as Q. rewrite A in Q. eapply same_runs_inv; [|exact I]. exact Q.
  - unfold send_answer_error. repeat case_match; try (by eapply same_runs_inv; [|exact I]);
      apply fail_inv; by eapply same_runs_inv; [|exact I].
  - eapply same_runs_inv; [|exact I]. unfold activate, activateTunnel. by destruct (cl_pendingTunnels _ !! id).
  - eapply same_runs_inv; [|exact I]. eapply same_runs_trans; [|apply same_terminal]. done.
  - apply (same_runs_inv s n (failCurrentRun e (notifyReady (ready_error e) c))); [done|]. apply fail_inv.
    by eapply same_runs_inv; [apply same_ready|].
  - by eapply run_start_inv.
  - by apply run_send_error_inv.
  - by apply loop_done_inv.
Qed.

(** C11. The output of a command. From the moment a [Run] has sent its request,
    and under every interleaving with the read loop, the relays, other calls and
    failures: an outcome the run is given is an error without a result, or it is
    made from the first result message that came, with the exit code of that
    message and exactly the concatenation of the frames of each stream that were
    read before it, in order, nothing lost, repeated or mixed up (the error output
    is followed by what the result itself carries). *)
Theorem run_output_exact argv o c0 s c1 c out :
  Run_start argv o c0 = Ok (s, c1) -> rtc client_run c1 c -> Run_outcome s c = Some out ->
  ro_result out = None /\ is_Some (ro_err out) \/
  exists before env after r, cl_in c = cl_in c0 ++ before ++ env :: after /\
    Forall (fun env => result_of env = None) before /\ result_of env = Some r /\ out = run_result before r.
Proof.
  intros R S O. assert (I : run_inv s (cl_in c0) c1).
  { revert R. unfold Run_start, installRunSession. destruct (cl_current c0); [done|]. cbn [result_bind]. intros [= <- <-].
    split; [done|]. exists (newRunSession (op_Stdout o) (op_Stderr o)). cbn. split; [by apply list_lookup_middle|].
    left. rewrite bool_decide_eq_true_2 by done. split; [done|]. rewrite drop_all. repeat split. constructor. }
  clear R. induction S as [c1|c1 c2 c3 S _ IH].
  - destruct I as ([log Hl] & x & E & K). unfold Run_outcome in O. rewrite E in O. cbn in O.
    rewrite Hl, drop_app_length in K. destruct K as [[_ (_ & Rn & _)]|(_ & o' & Ro & K)]; [congruence|].
    assert (o' = out) as -> by congruence. destruct K as [?|(b & env & a & r & -> & ?)]; [by left|]. right. exists b, env, a, r. done.
  - apply IH; [done|]. destruct S as [c1 c2 S|env c1 N]; [by eapply client_step_inv|by apply dispatch_inv].
Qed.
End run.

(** * Witness *)

#[local] Existing Instance sampleLib.
#[local] Existing Instance sampleNet.
#[local] Existing Instance sampleCerts.

(** A run whose output arrives in three frames with a DNS request between them. *)
Definition demo_options : RunOptions := {|
  op_Env := []; op_WorkDir := "/"; op_Interactive := false; op_Stdin := false; op_Stdout := true; op_Stderr := false;
  op_Terminal := false; op_TerminalSize := {| ts_Rows := 0; ts_Cols := 0 |}; op_Resize := false |}.
Definition run0 : Client := newClient "box" None None.
Definition run1 : Client := match Run_start ["ls"] demo_options run0 with Ok (_, c) => c | Err _ => run0 end.
Definition out_frame (stream data : string) : Envelope := envelope 1 (MStreamFrame {| sf_Stream := stream; sf_Data := data |}).
Definition exit_3 : ExecResult := {| xr_ExitCode := 3; xr_Stderr := "!"; xr_Error := "" |}.
Definition run_frames : list Envelope :=
  [out_frame StreamStdout "a"; envelope 9 (MDNSRequest {| dq_Network := "udp"; dq_Host := ""; dq_Port := 53; dq_Payload := "q" |});
   out_frame StreamStderr "e"; out_frame StreamStdout "b"].
Definition run2 : Client := foldl (fun c env => ReadLoop_dispatch env c) run1 (run_frames ++ [envelope 1 (MExecResult exit_3)]).
Definition nobody (h h' : host) : Prop := False.
Definition run_dial (address : string) (n : nstate) : option string * nstate := (None, n).

(** Reads in sequence while the loop runs. *)
Fixpoint readable (l : list Envelope) (c : Client) : bool :=
  match l with [] => true | env :: l => negb (present (cl_loop c)) && readable l (ReadLoop_dispatch env c) end.
Lemma readable_run l c : readable l c = true -> rtc (client_run run_dial nobody) c (foldl (fun c env => ReadLoop_dispatch env c) c l).
Proof.
  revert c. induction l as [|env l IH]; intros c; [done|]. simpl. rewrite andb_true_iff. intros [N R].
  eapply rtc_l; [apply cr_read; by destruct (cl_loop c)|]. by apply IH.
Qed.
Lemma run_output_exact_witness :
  Run_outcome 0 run2 = Some {| ro_result := Some {| rr_ExitCode := 3; rr_Stdout := "ab"; rr_Stderr := "e!" |}; ro_err := None |} /\
  exists before env after r, cl_in run2 = before ++ env :: after /\ result_of env = Some r /\
    run_result before r = {| ro_result := Some {| rr_ExitCode := 3; rr_Stdout := "ab"; rr_Stderr := "e!" |}; ro_err := None |}.
Proof.
  split; [vm_compute; reflexivity|].
  destruct (run_output_exact run_dial nobody ["ls"] demo_options run0 0 run1 run2
    {| ro_result := Some {| rr_ExitCode := 3; rr_Stdout := "ab"; rr_Stderr := "e!" |}; ro_err := None |})
    as [[Q _]|(before & env & after & r & E & _ & Hr & O)].
  - reflexivity.
  - apply readable_run. vm_compute. reflexivity.
  - vm_compute. reflexivity.
  - discriminate Q.
  - exists before, env, after, r. split; [exact E|]. split; [exact Hr|]. symmetry. exact O.
Defined.
