(* ===== verification/StringLemmas.v ===== *)
(** Lemmas on byte strings the ingress proofs share: cutting appended strings,
    searching for a byte, host and port text. *)
From S2P Require Import Prelude GoStrings GoNet.

Lemma string_app_assoc a b c : (a +:+ b) +:+ c = a +:+ (b +:+ c).
Proof. induction a as [|x a IH]; [done|]. rewrite ?string_app_cons. congruence. Qed.
Lemma string_app_length a b : String.length (a +:+ b) = (String.length a + String.length b)%nat.
Proof. induction a as [|x a IH]; [done|]. rewrite ?string_app_cons. simpl. congruence. Qed.
Lemma slen_app a b : slen (a +:+ b) = slen a + slen b.
Proof. unfold slen. rewrite string_app_length. lia. Qed.
Lemma slen_nonneg a : 0 <= slen a.
Proof. unfold slen. lia. Qed.
Lemma slen_zero a : slen a = 0 -> a = "".
Proof. destruct a; [done|]. unfold slen. simpl. lia. Qed.

Lemma string_take_all n s : (String.length s <= n)%nat -> string_take n s = s.
Proof. revert n. induction s as [|c s IH]; intros [|n] L; simpl in *; try done; try lia. by rewrite IH by lia. Qed.
Lemma string_take_app n a b : (n <= String.length a)%nat -> string_take n (a +:+ b) = string_take n a.
Proof.
  revert n. induction a as [|c a IH]; intros [|n] L; simpl in *; try done; try lia.
  rewrite ?string_app_cons. simpl. by rewrite IH by lia.
Qed.
Lemma string_take_app_length a b : string_take (String.length a) (a +:+ b) = a.
Proof. rewrite string_take_app by done. by apply string_take_all. Qed.
Lemma string_drop_app_length a b : string_drop (String.length a) (a +:+ b) = b.
Proof. induction a as [|c a IH]; [done|]. rewrite ?string_app_cons. done. Qed.
Lemma string_take_length n s : String.length (string_take n s) = Nat.min n (String.length s).
Proof. revert n. induction s as [|c s IH]; intros [|n]; simpl; try done. by rewrite IH. Qed.
Lemma string_take_drop n s : string_take n s +:+ string_drop n s = s.
Proof. revert n. induction s as [|c s IH]; intros [|n]; simpl; try done. rewrite ?string_app_cons. by rewrite IH. Qed.
Lemma string_take_take n m s : (n <= m)%nat -> string_take n (string_take m s) = string_take n s.
Proof.
  revert n m. induction s as [|c s IH]; intros [|n] [|m] L; simpl; try done; try lia. by rewrite IH by lia.
Qed.

(** ** Prefixes *)

Lemma prefix_app p s t : String.prefix p s = true -> String.prefix p (s +:+ t) = true.
Proof.
  revert s. induction p as [|c p IH]; intros [|d s]; simpl; try done; [by destruct t|].
  rewrite ?string_app_cons. destruct (Ascii.ascii_dec c d); [|done]. apply IH.
Qed.
Lemma prefix_take p s n : (String.length p <= n)%nat -> String.prefix p (string_take n s) = String.prefix p s.
Proof.
  revert s n. induction p as [|c p IH]; intros [|d s] [|n] L; simpl in *; try done; try lia.
  destruct (Ascii.ascii_dec c d); [|done]. apply IH. lia.
Qed.
Lemma HasPrefix_take p s n : (String.length p <= n)%nat -> HasPrefix (string_take n s) p = HasPrefix s p.
Proof. apply prefix_take. Qed.
Lemma prefix_exact p s : String.prefix p s = true <-> string_take (String.length p) s = p.
Proof.
  revert s. induction p as [|c p IH]; intros s; simpl; [by destruct s|]. destruct s as [|d s]; [done|]. simpl.
  destruct (Ascii.ascii_dec c d) as [->|N].
  - split; [intros E; f_equal; by apply IH|]. intros [=]. by apply IH.
  - split; [done|]. intros [=]. congruence.
Qed.

(** ** Searching *)

Definition free_of (c : Ascii.ascii) (s : string) : Prop := string_all (fun d => negb (bool_decide (d = c))) s = true.
Lemma free_of_cons c d s : free_of c (String d s) <-> d <> c /\ free_of c s.
Proof. unfold free_of. simpl. rewrite andb_true_iff, negb_true_iff, bool_decide_eq_false. done. Qed.
Lemma free_of_app c s t : free_of c (s +:+ t) <-> free_of c s /\ free_of c t.
Proof. unfold free_of. rewrite string_all_app, andb_true_iff. done. Qed.
Lemma free_of_impl (p : Ascii.ascii -> bool) c s : (forall d, p d = true -> d <> c) -> string_all p s = true -> free_of c s.
Proof. intros I. apply string_all_impl. intros d Pd. apply negb_true_iff, bool_decide_eq_false. by apply I. Qed.

Lemma IndexByte_free c s : free_of c s -> IndexByte s c = None.
Proof.
  induction s as [|d s IH]; [done|]. rewrite free_of_cons. intros [N F]. simpl. rewrite bool_decide_eq_false_2 by done.
  by rewrite IH.
Qed.
Lemma IndexByte_app c s t : free_of c s -> IndexByte (s +:+ String c t) c = Some (String.length s).
Proof.
  induction s as [|d s IH]; [intros _; simpl; by rewrite bool_decide_eq_true_2|]. rewrite free_of_cons. intros [N F].
  rewrite ?string_app_cons. simpl. rewrite bool_decide_eq_false_2 by done. by rewrite IH.
Qed.
Lemma LastIndexByte_free c s : free_of c s -> LastIndexByte s c = None.
Proof.
  induction s as [|d s IH]; [done|]. rewrite free_of_cons. intros [N F]. simpl. rewrite IH by done.
  by rewrite bool_decide_eq_false_2.
Qed.
Lemma LastIndexByte_app c s t : free_of c t -> LastIndexByte (s +:+ String c t) c = Some (String.length s).
Proof.
  intros F. induction s as [|d s IH]; [simpl; rewrite LastIndexByte_free by done; by rewrite bool_decide_eq_true_2|].
  rewrite ?string_app_cons. simpl. by rewrite IH.
Qed.
Lemma digits_free c s : is_digit c = false -> string_all is_digit s = true -> free_of c s.
Proof. intros D. apply free_of_impl. intros d Hd ->. congruence. Qed.

(** ** [SplitHostPort] undoes [JoinHostPort] *)

Lemma SplitHostPort_Join host port :
  free_of "[" host -> free_of "]" host -> string_all is_digit port = true ->
  SplitHostPort (JoinHostPort host port) = Ok (host, port).
Proof.
  intros F1 F2 D.
  assert (P1 : free_of ":" port) by (by apply digits_free). assert (P2 : free_of "[" port) by (by apply digits_free).
  assert (P3 : free_of "]" port) by (by apply digits_free).
  unfold JoinHostPort. case_bool_decide as C.
  - change ("[" +:+ host +:+ "]:" +:+ port) with (String "[" (host +:+ String "]" (String ":" port))).
    set (hp := String "[" (host +:+ String "]" (String ":" port))).
    assert (H1 : hp = (String "[" (host +:+ "]")) +:+ String ":" port).
    { unfold hp. rewrite string_app_cons, string_app_assoc. done. }
    assert (L : LastIndexByte hp ":" = Some (S (String.length host + 1))).
    { rewrite H1, LastIndexByte_app by done. simpl. by rewrite string_app_length. }
    assert (R : IndexByte hp "]" = Some (S (String.length host))).
    { unfold hp. change (IndexByte (String "[" ?s) "]") with (S <$> IndexByte s "]"). by rewrite IndexByte_app. }
    unfold SplitHostPort. rewrite L. change (HasPrefix hp "[") with (String.prefix "" (host +:+ String "]" (String ":" port))).
    replace (String.prefix "" _) with true by (by destruct (host +:+ String "]" (String ":" port))). rewrite R.
    rewrite bool_decide_eq_false_2.
    2:{ unfold hp. simpl. rewrite string_app_length. simpl. lia. }
    rewrite bool_decide_eq_true_2 by lia.
    assert (T : string_drop 1 (string_take (S (String.length host)) hp) = host).
    { unfold hp. simpl. rewrite string_take_app by done. by apply string_take_all. }
    assert (Dp : string_drop (S (S (String.length host + 1))) hp = port).
    { change (string_drop (S (String.length host + 1)) (host +:+ String "]" (String ":" port)) = port).
      replace (S (String.length host + 1)) with (String.length (host +:+ "]:")) by (rewrite string_app_length; simpl; lia).
      replace (host +:+ String "]" (String ":" port)) with ((host +:+ "]:") +:+ port) by (by rewrite string_app_assoc).
      apply string_drop_app_length. }
    assert (D1 : string_drop 1 hp = host +:+ String "]" (String ":" port)) by (unfold hp; simpl; by destruct (host +:+ _)).
    assert (D2 : string_drop (S (S (String.length host))) hp = String ":" port).
    { change (string_drop (S (String.length host)) (host +:+ String "]" (String ":" port)) = String ":" port).
      replace (S (String.length host)) with (String.length (host +:+ "]")) by (rewrite string_app_length; simpl; lia).
      replace (host +:+ String "]" (String ":" port)) with ((host +:+ "]") +:+ String ":" port) by (by rewrite string_app_assoc).
      apply string_drop_app_length. }
    rewrite D1, D2, T, Dp. rewrite bool_decide_eq_false_2.
    2:{ rewrite IndexByte_free; [by intros [? ?]|]. apply free_of_app. split; [done|]. by rewrite !free_of_cons. }
    rewrite bool_decide_eq_false_2; [done|]. rewrite IndexByte_free; [by intros [? ?]|]. by rewrite free_of_cons.
  - assert (F3 : free_of ":" host).
    { destruct (IndexByte host ":") eqn:E; [destruct C; eauto|]. apply IndexByte_None in E. unfold free_of.
      clear -E. induction host as [|d s IH]; [done|]. simpl in *. destruct (bool_decide (d = ":"%char)) eqn:B; [lia|]. simpl.
      apply IH. lia. }
    set (hp := host +:+ ":" +:+ port). change hp with (host +:+ String ":" port).
    unfold SplitHostPort. rewrite LastIndexByte_app by done.
    replace (HasPrefix (host +:+ String ":" port) "[") with false.
    2:{ symmetry. unfold HasPrefix. destruct host as [|d s]; [done|]. apply free_of_cons in F1 as [N _].
        rewrite ?string_app_cons. cbn [String.prefix]. destruct (Ascii.ascii_dec "[" d); [congruence|done]. }
    rewrite string_take_app_length. rewrite bool_decide_eq_false_2 by (rewrite IndexByte_free by done; by intros [? ?]).
    assert (Dp : string_drop (S (String.length host)) (host +:+ String ":" port) = port).
    { replace (S (String.length host)) with (String.length (host +:+ ":")) by (rewrite string_app_length; simpl; lia).
      replace (host +:+ String ":" port) with ((host +:+ ":") +:+ port) by (by rewrite string_app_assoc). apply string_drop_app_length. }
    change (string_drop 0 (host +:+ String ":" port)) with (host +:+ String ":" port).
    assert (F : forall c, free_of c host -> free_of c port -> c <> ":"%char -> ~ is_Some (IndexByte (host +:+ String ":" port) c)).
    { intros c A B N. rewrite IndexByte_free; [by intros [? ?]|]. apply free_of_app. split; [done|]. by rewrite free_of_cons. }
    rewrite !bool_decide_eq_false_2 by (by apply F). by rewrite Dp.
Qed.

(** ** Reversal *)

Lemma string_rev_app_eq s t : String.rev_app s t = String.rev s +:+ t.
Proof.
  unfold String.rev. revert t. induction s as [|c s IH]; intros t; simpl; [by rewrite string_app_nil|].
  rewrite (IH (String c t)), (IH (String c "")), string_app_assoc. by rewrite string_app_cons, string_app_nil.
Qed.
Lemma string_rev_append a b : String.rev (a +:+ b) = String.rev b +:+ String.rev a.
Proof.
  induction a as [|c a IH]; [by rewrite string_app_nil, string_app_nil_r|]. rewrite string_app_cons.
  change (String.rev_app (a +:+ b) (String c "") = String.rev b +:+ String.rev_app a (String c "")).
  rewrite (string_rev_app_eq (a +:+ b)), (string_rev_app_eq a), IH. by rewrite string_app_assoc.
Qed.
Lemma string_rev_cons c s : String.rev (String c s) = String.rev s +:+ String c "".
Proof. change (String c s) with (String c "" +:+ s). apply string_rev_append. Qed.
Lemma string_rev_snoc c s : String.rev (s +:+ String c "") = String c (String.rev s).
Proof. apply string_rev_append. Qed.

(** ** Trimming removes no colon *)

Lemma string_all_rev p s : string_all p (String.rev s) = string_all p s.
Proof. unfold String.rev. rewrite string_rev_app_all. by rewrite andb_true_r. Qed.

Definition high (c : Ascii.ascii) : bool := 128 <=? byte_of c.
Lemma utf8_space2_high a b : utf8_space2 a b = true -> high a = true /\ high b = true.
Proof. unfold utf8_space2, high. rewrite andb_true_iff, orb_true_iff, !Z.eqb_eq, !Z.leb_le. lia. Qed.
Lemma utf8_space3_high a b c : utf8_space3 a b c = true -> high a = true /\ high b = true /\ high c = true.
Proof.
  unfold utf8_space3, high. cbv zeta.
  rewrite !orb_true_iff, !andb_true_iff, !orb_true_iff, !andb_true_iff, !Z.eqb_eq, !Z.leb_le. lia.
Qed.
Lemma high_not_colon c : high c = true -> c <> ":"%char.
Proof. by intros E ->. Qed.

Lemma trim_go_colon sp2 sp3 s :
  (forall a b, sp2 a b = true -> high a = true /\ high b = true) ->
  (forall a b c, sp3 a b c = true -> high a = true /\ high b = true /\ high c = true) ->
  free_of ":" (trim_go sp2 sp3 s) -> free_of ":" s.
Proof.
  intros S2 S3.
  assert (G : forall n s, (String.length s <= n)%nat -> free_of ":" (trim_go sp2 sp3 s) -> free_of ":" s).
  { clear s. intros n. induction n as [|n IH]; intros s L A; [by destruct s; simpl in L; [|lia]|].
    destruct s as [|a s]; [done|]. simpl in L, A. destruct (ascii_space a) eqn:Sa.
    { apply free_of_cons. split; [by intros ->|]. apply IH; [lia|done]. }
    destruct s as [|b s]; [done|]. simpl in L. destruct (sp2 a b) eqn:E2.
    { apply S2 in E2 as [?%high_not_colon ?%high_not_colon]. rewrite !free_of_cons.
      split; [done|]. split; [done|]. apply IH; [lia|done]. }
    destruct s as [|c s]; [done|]. simpl in L. destruct (sp3 a b c) eqn:E3; [|done].
    apply S3 in E3 as (?%high_not_colon & ?%high_not_colon & ?%high_not_colon). rewrite !free_of_cons.
    split; [done|]. split; [done|]. split; [done|]. apply IH; [lia|done]. }
  by apply (G (String.length s)).
Qed.
Lemma TrimSpace_colon s : TrimSpace s = "" -> free_of ":" s.
Proof.
  intros E. apply (trim_go_colon utf8_space2 utf8_space3); [apply utf8_space2_high|apply utf8_space3_high|].
  unfold free_of. rewrite <- string_all_rev.
  apply (trim_go_colon (fun a b => utf8_space2 b a) (fun a b c => utf8_space3 c b a)).
  - by intros a b [? ?]%utf8_space2_high.
  - by intros a b c (? & ? & ?)%utf8_space3_high.
  - unfold free_of. rewrite <- string_all_rev. change (string_all (fun d => negb (bool_decide (d = ":"%char))) (TrimSpace s) = true).
    by rewrite E.
Qed.
Lemma JoinHostPort_visible host port : TrimSpace (JoinHostPort host port) <> "".
Proof.
  intros F%TrimSpace_colon. unfold JoinHostPort in F.
  case_bool_decide; rewrite !free_of_app in F; [destruct F as (_ & _ & F & _)|destruct F as (_ & F & _)]; by vm_compute in F.
Qed.
