(* ===== verification/Ingress.v ===== *)
(** The helper's listeners ([helperruntime/ingress]): the HTTP proxy, CONNECT with
    and without interception, and transparent TCP with its protocol detection.

    The bridge to the host is the class [IngressBridge], as in the code, where it
    is an interface: its calls are synchronous and change a state. The theorems
    about the handlers are proved against it. What the client connection does
    (hijacking, failing writes, the TLS handshake) is an argument. *)
From S2P Require Import Prelude GoStrings GoNet Sys Policy Access Manager Messages.

(** * Protocol detection ([protocol_detect.go]) *)

Section detect.
Context `{GoLib}.

(** Bytes of a prefix, big and little endian words of four of them. *)
Definition byte_at (s : string) (i : nat) : Z := match string_drop i s with String c _ => byte_of c | "" => 0 end.
Definition be32 (s : string) (i : nat) : Z :=
  byte_at s i * 2 ^ 24 + byte_at s (i + 1) * 2 ^ 16 + byte_at s (i + 2) * 2 ^ 8 + byte_at s (i + 3).
Definition le32 (s : string) (i : nat) : Z :=
  byte_at s (i + 3) * 2 ^ 24 + byte_at s (i + 2) * 2 ^ 16 + byte_at s (i + 1) * 2 ^ 8 + byte_at s i.
Fixpoint bytes (l : list Z) : string := match l with [] => "" | b :: l => String (char_of b) (bytes l) end.
Definition crlf : string := bytes [13; 10].

Definition isAMQPProtocolHeader (prefix : string) : bool :=
  if slen prefix <? 8 then false else HasPrefix prefix ("AMQP" +:+ bytes [0; 0; 9; 1]).
Definition isMongoDBWireMessage (prefix : string) : bool :=
  if slen prefix <? 16 then false
  else
    let messageLength := le32 prefix 0 in
    if (messageLength <? 16) || (2 ^ 26 <? messageLength) then false
    else bool_decide (le32 prefix 12 ∈ [2004; 2010; 2012; 2013]).
Definition isMySQLGreeting (prefix : string) : bool :=
  if slen prefix <? 5 then false
  else
    let payloadLen := Z.lor (Z.lor (byte_at prefix 0) (Z.shiftl (byte_at prefix 1) 8)) (Z.shiftl (byte_at prefix 2) 16) in
    if payloadLen <? 1 then false else (byte_at prefix 3 =? 0) && (byte_at prefix 4 =? 10).
Definition isPostgresSSLRequest (prefix : string) : bool :=
  if slen prefix <? 8 then false else (be32 prefix 0 =? 8) && (be32 prefix 4 =? 80877103).
Definition isPostgresStartup (prefix : string) : bool :=
  if slen prefix <? 8 then false
  else if (be32 prefix 0 <? 8) || negb (be32 prefix 4 =? 196608) then false
  else Contains (string_drop 8 prefix) (bytes [0]).
Definition isRedisPrefix (prefix : string) : bool :=
  match prefix with
  | "" => false
  | String c _ => bool_decide (c ∈ ["*"; "+"; "-"; ":"; "$"]%char)
  end.
Definition isNATSClientPrefix (prefix : string) : bool :=
  existsb (HasPrefix prefix)
    ["CONNECT "; "PUB "; "HPUB "; "SUB "; "UNSUB "; "PING" +:+ crlf; "PONG" +:+ crlf].
Definition isMemcachedPrefix (prefix : string) : bool :=
  match prefix with
  | "" => false
  | String c _ =>
      if (byte_of c =? 128) || (byte_of c =? 129) then true
      else existsb (HasPrefix (ToLower prefix))
             ["set "; "add "; "replace "; "append "; "prepend "; "cas "; "get "; "gets "; "delete "; "incr "; "decr ";
              "touch "; "stats"; "version"; "flush_all"; "quit"]
  end.
Definition looksLikeTLSClientHelloBytes (prefix : string) : bool :=
  if slen prefix <? 3 then false
  else (byte_at prefix 0 =? 22) && (byte_at prefix 1 =? 3) && (1 <=? byte_at prefix 2) && (byte_at prefix 2 <=? 4).

(** Protocol, source, confidence: the metadata of a connect request. *)
Definition detectOpaqueTCPProtocol (prefix : string) : string * string * string :=
  if bool_decide (prefix = "") then ("", "", "")
  else if isAMQPProtocolHeader prefix then ("amqp", "first_bytes", "definite")
  else if isMongoDBWireMessage prefix then ("mongodb", "first_bytes", "definite")
  else if isNATSClientPrefix prefix then ("nats", "first_bytes", "probable")
  else if isMemcachedPrefix prefix then ("memcached", "first_bytes", "probable")
  else if isMySQLGreeting prefix then ("mysql", "first_bytes", "definite")
  else if isPostgresSSLRequest prefix then ("postgres", "first_bytes", "definite")
  else if isPostgresStartup prefix then ("postgres", "first_bytes", "probable")
  else if isRedisPrefix prefix then ("redis", "first_bytes", "probable")
  else if HasPrefix prefix "SSH-" then ("ssh", "first_bytes", "definite")
  else if looksLikeTLSClientHelloBytes prefix then ("tls_non_http", "tls_client_hello", "probable")
  else ("unknown", "first_bytes", "unknown").

(** ** The buffered reader *)

(** [bufio.Reader] over a connection: what is buffered, what the reads to come
    return (each at least a byte), and then an error (the end of the stream or the
    deadline), which later reads report again. *)
Record reader := { rd_buf : string; rd_chunks : list string }.
Definition buffer_size : Z := 4096.
Definition Buffered (r : reader) : Z := slen (rd_buf r).

Fixpoint fill (n : Z) (buf : string) (chunks : list string) : reader :=
  if (n <=? slen buf) || (buffer_size <=? slen buf) then {| rd_buf := buf; rd_chunks := chunks |}
  else match chunks with
       | [] => {| rd_buf := buf; rd_chunks := [] |}
       | c :: chunks =>
           let room := buffer_size - slen buf in
           if slen c <=? room then fill n (buf +:+ c) chunks
           else {| rd_buf := buf +:+ string_take (Z.to_nat room) c; rd_chunks := string_drop (Z.to_nat room) c :: chunks |}
       end.
(** [Peek]: the bytes (fewer with an error), whether there was an error. *)
Definition Peek (n : Z) (r : reader) : string * bool * reader :=
  let r := fill n (rd_buf r) (rd_chunks r) in
  if Buffered r <? n then (rd_buf r, true, r) else (string_take (Z.to_nat n) (rd_buf r), false, r).

Definition looksLikeTLSClientHello (r : reader) : bool * reader :=
  let '(header, err, r) := Peek 3 r in
  (if err || (slen header <? 3) then false else looksLikeTLSClientHelloBytes header, r).
Definition http2ClientPreface : string := "PRI * HTTP/2.0" +:+ crlf +:+ crlf +:+ "SM" +:+ crlf +:+ crlf.
Definition looksLikeHTTP2ClientPreface (r : reader) : bool * reader :=
  let '(prefix, err, r) := Peek (slen http2ClientPreface) r in
  (if err || (slen prefix <? slen http2ClientPreface) then false else bool_decide (prefix = http2ClientPreface), r).
Definition http_methods : list string := ["GET "; "HEAD "; "POST "; "PUT "; "PATCH "; "DELETE "; "OPTIONS "; "TRACE "].
Definition looksLikeHTTP1Request (r : reader) : bool * reader :=
  let peekLen := if 16 <? Buffered r then Buffered r else 16 in
  let '(prefix, err, r) := Peek peekLen r in
  (if err && bool_decide (prefix = "") then false else existsb (HasPrefix (ToUpper prefix)) http_methods, r).

Inductive transparentTCPProtocol := ProtocolUnknown | ProtocolHTTP | ProtocolTLS.
Definition detectTransparentTCPProtocol (r : reader) : transparentTCPProtocol * reader :=
  let '(prefix, err, r) := Peek 1 r in
  if err then (ProtocolUnknown, r)
  else if (0 <? slen prefix) && (byte_at prefix 0 =? 22) then
    let '(tls, r) := looksLikeTLSClientHello r in (if tls then ProtocolTLS else ProtocolUnknown, r)
  else
    let '(h2, r) := looksLikeHTTP2ClientPreface r in
    if h2 then (ProtocolHTTP, r)
    else let '(h1, r) := looksLikeHTTP1Request r in (if h1 then ProtocolHTTP else ProtocolUnknown, r).

Definition opaqueProtocolMetadata (r : reader) : string * string * string := detectOpaqueTCPProtocol (rd_buf r).
End detect.

(** * Answers to the client *)

Record Answer := { an_Status : Z; an_Header : Header; an_Body : string }.
(** [http.Error]. *)
Definition http_Error (text : string) (code : Z) : Answer :=
  {| an_Status := code; an_Header := text_plain ++ [("X-Content-Type-Options", ["nosniff"])]; an_Body := text +:+ newline |}.
(** [Header.Add] and the loop of [copyHeader] into an empty header. *)
Definition header_Add (h : Header) (kv : string * string) : Header :=
  let key := CanonicalMIMEHeaderKey kv.1 in
  match list_find (fun x => x.1 = key) h with
  | Some (i, (_, vs)) => <[i := (key, vs ++ [kv.2])]> h
  | None => h ++ [(key, [kv.2])]
  end.
Definition copyHeader (src : Header) : Header :=
  foldl (fun h kvs => foldl (fun h v => header_Add h (kvs.1, v)) h kvs.2) [] src.
(** [WriteHeader] panics on a status outside 100..999, which ends the connection. *)
Definition write_response (status : Z) (header : Header) (body : string) : option Answer :=
  if (status <? 100) || (999 <? status) then None
  else Some {| an_Status := status; an_Header := copyHeader header; an_Body := body |}.

(** A request as the server parsed it. *)
Record InRequest := {
  ir_Method : string; ir_URL : option URL; ir_Host : string; ir_Header : Header; ir_Body : option stream; ir_Proto : string;
}.
Definition header_del (name : string) (h : Header) : Header := filter (fun kv => kv.1 <> name) h.

Inductive callError := DeadlineExceeded | CallError (text : string).
Definition call_error_text (e : callError) : string :=
  match e with DeadlineExceeded => "context deadline exceeded" | CallError t => t end.

(** The interface to the host. *)
Class IngressBridge (St : Type) := {
  MITMEnabled : bool;
  MaxRequestBodyBytes : Z;
  leaf_cert : Type;
  rt_ProxyRoundTrip : ProxyRequest -> St -> (callError + ProxyResponse) * St;
  rt_MITMRoundTrip : MITMRequest -> St -> (callError + MITMResponse) * St;
  rt_Connect : string -> Z -> St -> Z * (callError + ConnectResponse) * St;
  rt_AuthorizeConnect : string -> Z -> St -> (callError + ConnectResponse) * St;
  rt_AuthorizeTransparentConnect : string -> Z -> string * string * string -> St -> (callError + ConnectResponse) * St;
  rt_RequestLeafCert : string -> St -> (callError + leaf_cert) * St;
  rt_UnregisterTunnel : Z -> St -> St;
  rt_SendTunnelClose : Z -> bool -> option connError -> St -> St;
  (** [url.URL.String]. *)
  inurl_String : URL -> string;
}.

(** * Forwarded requests ([proxy.go], [transparent.go]) *)

Definition RewriteProxyRequest (req : InRequest) : result InRequest :=
  match ir_URL req with
  | None => Err "proxy request must use an absolute URL"
  | Some u =>
      if bool_decide (u_Scheme u = "") || bool_decide (u_Host u = "")
      then Err "proxy request must use an absolute URL"
      else Ok {| ir_Method := ir_Method req; ir_URL := Some u; ir_Host := u_Host u;
                 ir_Header := header_del "Proxy-Connection" (ir_Header req); ir_Body := ir_Body req; ir_Proto := ir_Proto req |}
  end.

Definition transparentAuthority (host : string) (port : Z) : string :=
  let host := TrimSpace host in
  if bool_decide (host = "") then ""
  else if (port <=? 0) || (port =? 80) then host
  else JoinHostPort host (Itoa port).

Definition RewriteTransparentHTTPRequestWithTarget (req : InRequest) (connectHost : string) (connectPort : Z) : result InRequest :=
  match ir_URL req with
  | None => Err "transparent HTTP request URL is required"
  | Some u =>
      let host := TrimSpace (ir_Host req) in
      let host := if bool_decide (host = "") then transparentAuthority connectHost connectPort else host in
      if bool_decide (host = "") then Err "transparent HTTP request host is required"
      else
        let path := if bool_decide (u_Path u = "") then "/" else u_Path u in
        Ok {| ir_Method := ir_Method req;
              ir_URL := Some (url_of "http" host path (u_RawPath u) (u_RawQuery u));
              ir_Host := host; ir_Header := header_del "Proxy-Connection" (ir_Header req); ir_Body := ir_Body req;
              ir_Proto := ir_Proto req |}
  end.

Section handlers.
Context `{GoLib} {St : Type} `{IngressBridge St}.

(** [ReadBoundedBody] is [readBoundedResponse] of the host, line by line. *)
Definition ReadBoundedBody : option stream -> Z -> result (string * bool) := readBoundedResponse.

Definition proxy_request (out : InRequest) (u : URL) (body : string) : ProxyRequest :=
  {| pr_Method := ir_Method out; pr_URL := inurl_String u; pr_Header := ir_Header out; pr_Body := body |}.

(** [None] is a handler that panicked; the URL of a rewritten request is there. *)
Definition serveHTTPForward (rewrite : InRequest -> result InRequest) (req : InRequest) (st : St) : option Answer * St :=
  match rewrite req with
  | Err e => (Some (http_Error e StatusBadRequest), st)
  | Ok out =>
      match ReadBoundedBody (ir_Body out) MaxRequestBodyBytes with
      | Err e => (Some (http_Error e StatusBadGateway), st)
      | Ok (_, true) => (Some (http_Error "request body exceeds inspection limit" StatusRequestEntityTooLarge), st)
      | Ok (body, false) =>
          match ir_URL out with
          | None => (None, st)
          | Some u =>
              match rt_ProxyRoundTrip (proxy_request out u body) st with
              | (inl e, st) => (Some (http_Error (call_error_text e) StatusBadGateway), st)
              | (inr r, st) => (write_response (ps_StatusCode r) (ps_Header r) (ps_Body r), st)
              end
          end
      end
  end.

Definition transparentHTTPHandlerForDestination (connectHost : string) (connectPort : Z) (req : InRequest) (st : St) : option Answer * St :=
  if bool_decide (ir_Method req = MethodConnect)
  then (Some (http_Error "transparent HTTP listener does not accept CONNECT" 405), st)
  else serveHTTPForward (fun req => RewriteTransparentHTTPRequestWithTarget req connectHost connectPort) req st.

(** * Intercepted requests ([mitm.go]) *)

Definition mitmAuthority (requestHost connectHost : string) (connectPort : Z) : string :=
  let connectHost := TrimSpace connectHost in
  if negb (bool_decide (connectHost = "")) then
    JoinHostPort connectHost (Itoa (if connectPort <=? 0 then 443 else connectPort))
  else
    let requestHost := TrimSpace requestHost in
    if negb (bool_decide (requestHost = "")) then
      if is_ok (SplitHostPort requestHost) then requestHost
      else if connectPort <=? 0 then requestHost
      else JoinHostPort requestHost (Itoa connectPort)
    else "".

Definition mitm_request (connectHost : string) (connectPort : Z) (req : InRequest) (u : URL) (body : string) (tooLarge : bool) : MITMRequest :=
  let host := if bool_decide (ir_Host req = "") then connectHost else ir_Host req in
  {| mr_Scheme := "https"; mr_Authority := mitmAuthority host connectHost connectPort; mr_Host := host;
     mr_Method := ir_Method req; mr_Path := u_Path u; mr_RawQuery := u_RawQuery u;
     mr_Header := ir_Header req; mr_Body := body; mr_Proto := ir_Proto req; mr_BodyTooLarge := tooLarge |}.
Definition mitmHandler (connectHost : string) (connectPort : Z) (req : InRequest) (st : St) : option Answer * St :=
  match ReadBoundedBody (ir_Body req) MaxRequestBodyBytes with
  | Err e => (Some (http_Error e StatusBadGateway), st)
  | Ok (body, tooLarge) =>
      match ir_URL req with
      | None => (None, st)
      | Some u =>
          match rt_MITMRoundTrip (mitm_request connectHost connectPort req u body tooLarge) st with
          | (inl e, st) => (Some (http_Error (call_error_text e) StatusBadGateway), st)
          | (inr r, st) =>
              (write_response (if ps_StatusCode r =? 0 then StatusBadGateway else ps_StatusCode r) (ps_Header r) (ps_Body r), st)
          end
      end
  end.
End handlers.

(** * CONNECT ([connect.go]) *)

(** [http.StatusText]. *)
Definition status_texts : list (Z * string) :=
  [(100, "Continue"); (101, "Switching Protocols"); (102, "Processing"); (103, "Early Hints"); (200, "OK");
   (201, "Created"); (202, "Accepted"); (203, "Non-Authoritative Information"); (204, "No Content");
   (205, "Reset Content"); (206, "Partial Content"); (207, "Multi-Status"); (208, "Already Reported");
   (226, "IM Used"); (300, "Multiple Choices"); (301, "Moved Permanently"); (302, "Found"); (303, "See Other");
   (304, "Not Modified"); (305, "Use Proxy"); (307, "Temporary Redirect"); (308, "Permanent Redirect");
   (400, "Bad Request"); (401, "Unauthorized"); (402, "Payment Required"); (403, "Forbidden"); (404, "Not Found");
   (405, "Method Not Allowed"); (406, "Not Acceptable"); (407, "Proxy Authentication Required");
   (408, "Request Timeout"); (409, "Conflict"); (410, "Gone"); (411, "Length Required");
   (412, "Precondition Failed"); (413, "Request Entity Too Large"); (414, "Request URI Too Long");
   (415, "Unsupported Media Type"); (416, "Requested Range Not Satisfiable"); (417, "Expectation Failed");
   (418, "I'm a teapot"); (421, "Misdirected Request"); (422, "Unprocessable Entity"); (423, "Locked");
   (424, "Failed Dependency"); (425, "Too Early"); (426, "Upgrade Required"); (428, "Precondition Required");
   (429, "Too Many Requests"); (431, "Request Header Fields Too Large"); (451, "Unavailable For Legal Reasons");
   (500, "Internal Server Error"); (501, "Not Implemented"); (502, "Bad Gateway"); (503, "Service Unavailable");
   (504, "Gateway Timeout"); (505, "HTTP Version Not Supported"); (506, "Variant Also Negotiates");
   (507, "Insufficient Storage"); (508, "Loop Detected"); (510, "Not Extended");
   (511, "Network Authentication Required")].
Definition StatusText (code : Z) : string :=
  match list_find (fun kv => kv.1 = code) status_texts with Some (_, (_, t)) => t | None => "" end.

Definition one_line (s : string) : string := ReplaceByte (ReplaceByte s (char_of 13) " ") (char_of 10) " ".
(** The text [writeConnectError] sends before it closes the connection. *)
Definition connect_error_header (statusCode : Z) (statusText : string) (length : Z) : string :=
  "HTTP/1.1 " +:+ Itoa statusCode +:+ " " +:+ statusText +:+ crlf +:+ "Connection: close" +:+ crlf +:+
  "Content-Type: text/plain; charset=utf-8" +:+ crlf +:+ "Content-Length: " +:+ Itoa length +:+ crlf +:+ crlf.
Definition writeConnectError (statusCode : Z) (message : string) : string :=
  let statusCode := if (statusCode <? 400) || (599 <? statusCode) then StatusBadGateway else statusCode in
  let message := TrimSpace (one_line message) in
  let message := if bool_decide (message = "") then StatusText statusCode else message in
  let statusText := if bool_decide (StatusText statusCode = "") then "Error" else StatusText statusCode in
  let body := message +:+ newline in
  connect_error_header statusCode statusText (slen body) +:+ body.

Definition connectErrorStatus (e : callError) : Z := match e with DeadlineExceeded => 504 | CallError _ => StatusBadGateway end.

Section connect.
Context `{GoLib}.
Definition malformed (target : string) : string := "malformed CONNECT target " +:+ Quote target.
Definition parseConnectTarget (target : string) : result (string * Z) :=
  let target := TrimSpace target in
  if bool_decide (target = "") then Err "malformed CONNECT target: host is required"
  else match SplitHostPort target with
       | Err _ => Err (malformed target)
       | Ok (host, portText) =>
           if bool_decide (host = "") then Err "malformed CONNECT target: host is required"
           else match Atoi portText with
                | Some port => if (port <? 1) || (65535 <? port) then Err (malformed target) else Ok (host, port)
                | None => Err (malformed target)
                end
       end.
End connect.

(** What the client connection did: taking it over can fail; afterwards there may
    be bytes the server had read already; writing the confirmation can fail. *)
Inductive hijack := NoHijacker | HijackError (e : string) | Hijacked (buffered : option string).
(** [io.ReadFull] of what is buffered does not fail. *)
Definition drainHijackBufferedBytes (rw : option string) : string := default "" rw.

(** How a CONNECT ends: an HTTP answer, an error text on the raw connection, a
    silent close, relays for a tunnel, or an intercepted TLS connection. *)
Inductive connect_result {cert : Type} :=
| KAnswer (a : Answer)
| KRefused (text : string)
| KClosed
| KTunnel (id : Z) (buffered : string)
| KIntercept (leaf : cert) (host : string) (port : Z) (buffered : string).
Arguments connect_result : clear implicits.

Definition accepted (r : ConnectResponse) : bool :=
  let status := if cs_StatusCode r =? 0 then StatusBadGateway else cs_StatusCode r in
  bool_decide (cs_Error r = "") && (200 <=? status) && (status <? 300).
Definition refusal (r : ConnectResponse) : string :=
  writeConnectError (if cs_StatusCode r =? 0 then StatusBadGateway else cs_StatusCode r)
    (if bool_decide (cs_Message r = "") then cs_Error r else cs_Message r).

Section connects.
Context `{GoLib} {St : Type} `{IngressBridge St}.

Definition HandleConnect (req : InRequest) (hj : hijack) (write_error : option connError) (st : St) : connect_result leaf_cert * St :=
  match parseConnectTarget (ir_Host req) with
  | Err e => (KAnswer (http_Error e StatusBadRequest), st)
  | Ok (host, port) =>
      match hj with
      | NoHijacker => (KAnswer (http_Error "proxy does not support connection hijacking" 500), st)
      | HijackError e => (KAnswer (http_Error ("hijack proxy connection: " +:+ e) StatusBadGateway), st)
      | Hijacked rw =>
          match rt_Connect host port st with
          | (id, inl e, st) => (KRefused (writeConnectError (connectErrorStatus e) (call_error_text e)), rt_UnregisterTunnel id st)
          | (id, inr response, st) =>
              if negb (accepted response) then (KRefused (refusal response), rt_UnregisterTunnel id st)
              else match write_error with
                   | Some e => (KClosed, rt_UnregisterTunnel id (rt_SendTunnelClose id false (Some e) st))
                   | None => (KTunnel id (drainHijackBufferedBytes rw), st)
                   end
          end
      end
  end.

(** [handshake]: whether the TLS handshake with the client succeeds. *)
Definition HandleMITMConnect (req : InRequest) (hj : hijack) (write_error : option connError) (handshake : bool) (st : St)
    : connect_result leaf_cert * St :=
  match parseConnectTarget (ir_Host req) with
  | Err e => (KAnswer (http_Error e StatusBadRequest), st)
  | Ok (host, port) =>
      match hj with
      | NoHijacker => (KAnswer (http_Error "proxy does not support connection hijacking" 500), st)
      | HijackError e => (KAnswer (http_Error ("hijack proxy connection: " +:+ e) StatusBadGateway), st)
      | Hijacked rw =>
          match rt_AuthorizeConnect host port st with
          | (inl e, st) => (KRefused (writeConnectError (connectErrorStatus e) (call_error_text e)), st)
          | (inr response, st) =>
              if negb (accepted response) then (KRefused (refusal response), st)
              else match write_error with
                   | Some _ => (KClosed, st)
                   | None =>
                       match rt_RequestLeafCert host st with
                       | (inl _, st) => (KClosed, st)
                       | (inr leaf, st) =>
                           if handshake then (KIntercept leaf host port (drainHijackBufferedBytes rw), st) else (KClosed, st)
                       end
                   end
          end
      end
  end.

(** [ProxyHandler]. *)
Definition ProxyHandler (req : InRequest) (hj : hijack) (write_error : option connError) (handshake : bool) (st : St)
    : (connect_result leaf_cert + option Answer) * St :=
  if bool_decide (ir_Method req = MethodConnect) then
    let '(r, st) := if MITMEnabled then HandleMITMConnect req hj write_error handshake st else HandleConnect req hj write_error st in
    (inl r, st)
  else let '(a, st) := serveHTTPForward RewriteProxyRequest req st in (inr a, st).

(** * Transparent connections ([transparent_tcp.go], [transparent.go]) *)

Inductive served :=
| SReset                                         (* closed with RST *)
| SClosed
| SHTTP (connectHost : string) (connectPort : Z)  (* requests go to the transparent handler *)
| SMITM (serverName : string) (port : Z).         (* decrypted requests go to [mitmHandler] *)

Definition authorizeTransparentTCPConn (connectHost : string) (connectPort defaultPort : Z) (metadata : string * string * string) (st : St)
    : bool * St :=
  let connectHost := TrimSpace connectHost in
  if bool_decide (connectHost = "") then (false, st)
  else
    let connectPort := if connectPort <=? 0 then defaultPort else connectPort in
    match rt_AuthorizeTransparentConnect connectHost connectPort metadata st with
    | (inl _, st) => (false, st)
    | (inr response, st) => (accepted response, st)
    end.

(** [hello] is the server name the client asks for, [None] when there is no
    handshake at all; [handshake] whether it succeeds after the certificate. *)
Definition ServeTransparentHTTPSConn (connectHost : string) (connectPort : Z) (hello : option string) (handshake : bool) (st : St) : served * St :=
  if negb MITMEnabled then (SClosed, st)
  else match hello with
       | None => (SClosed, st)
       | Some name =>
           let serverName := ToLower (TrimSpace name) in
           let serverName := if bool_decide (serverName = "") then ToLower (TrimSpace connectHost) else serverName in
           if bool_decide (serverName = "") then (SClosed, st)
           else match rt_RequestLeafCert serverName st with
                | (inl _, st) => (SClosed, st)
                | (inr _, st) =>
                    if handshake then (SMITM serverName (if connectPort =? 0 then 443 else connectPort), st) else (SClosed, st)
                end
       end.

Definition ServeTransparentTCPConn (r : reader) (connectHost : string) (connectPort : Z) (hello : option string) (handshake : bool) (st : St)
    : served * St :=
  let '(protocol, r) := detectTransparentTCPProtocol r in
  match protocol with
  | ProtocolTLS =>
      match authorizeTransparentTCPConn connectHost connectPort 443 ("https", "tls_client_hello", "probable") st with
      | (false, st) => (SReset, st)
      | (true, st) => ServeTransparentHTTPSConn connectHost connectPort hello handshake st
      end
  | ProtocolHTTP =>
      match authorizeTransparentTCPConn connectHost connectPort 80 ("http", "first_bytes", "probable") st with
      | (false, st) => (SReset, st)
      | (true, st) => (SHTTP connectHost connectPort, st)
      end
  | ProtocolUnknown =>
      let '(_, st) := authorizeTransparentTCPConn connectHost connectPort 0 (opaqueProtocolMetadata r) st in (SReset, st)
  end.
End connects.
