(* ===== verification/IngressTheorems.v ===== *)
(** The claims about the helper's listeners that concern them alone, with their
    witnesses. *)
From S2P Require Import Prelude GoStrings GoNet Sys Policy Access Manager Messages Sample StringLemmas Ingress.

(** * CONNECT targets *)

Section targets.
Context `{GoLib}.

Lemma visible_join host port :
  string_all visible host = true -> string_all visible port = true -> string_all visible (JoinHostPort host port) = true.
Proof.
  intros A B. unfold JoinHostPort. case_bool_decide; rewrite !string_all_app, A, B; done.
Qed.

(** CONNECT targets round-trip: for a host of visible characters without
    brackets (a name, an IPv4 or an IPv6 address) and a port from 1 to 65535, the
    target text the host and port are joined to is parsed back to them; and
    whatever is parsed has a host and a port in that range. *)
Theorem connect_target_roundtrip host port target :
  (host <> "" -> string_all visible host = true -> free_of "[" host -> free_of "]" host -> 1 <= port <= 65535 ->
   parseConnectTarget (JoinHostPort host (Itoa port)) = Ok (host, port)) /\
  (parseConnectTarget target = Ok (host, port) -> host <> "" /\ 1 <= port <= 65535).
Proof.
  split.
  - intros NE V F1 F2 R. destruct (Itoa_digits port ltac:(lia)) as [D _]. unfold parseConnectTarget.
    rewrite TrimSpace_visible by (apply visible_join; [done|by apply digit_visible]).
    rewrite bool_decide_eq_false_2.
    2:{ unfold JoinHostPort. case_bool_decide; [done|]. by destruct host. }
    rewrite SplitHostPort_Join by done. rewrite bool_decide_eq_false_2 by done.
    rewrite Atoi_Itoa by (unfold max_int; lia). replace (port <? 1) with false by lia. by replace (65535 <? port) with false by lia.
  - unfold parseConnectTarget. case_bool_decide; [done|]. destruct (SplitHostPort _) as [[h t]|]; [|done].
    case_bool_decide; [done|]. destruct (Atoi t) as [p|]; [|done]. destruct (_ || _) eqn:B; [done|].
    intros [= <- <-]. to_prop. split; [done|lia].
Qed.
End targets.

Lemma connect_target_roundtrip_witness :
  @parseConnectTarget sampleLib (JoinHostPort "2001:db8::1" (Itoa 443)) = Ok ("2001:db8::1", 443).
Proof.
  apply (@connect_target_roundtrip sampleLib "2001:db8::1" 443 ""); [discriminate|reflexivity|reflexivity|reflexivity|lia].
Defined.

(** * Error texts on a raw connection *)

Lemma trim_go_all p sp2 sp3 s : string_all p s = true -> string_all p (trim_go sp2 sp3 s) = true.
Proof.
  assert (G : forall n s, (String.length s <= n)%nat -> string_all p s = true -> string_all p (trim_go sp2 sp3 s) = true).
  { clear s. intros n. induction n as [|n IH]; intros s L A; [by destruct s; simpl in L; [|lia]|].
    destruct s as [|a s]; [done|]. simpl in L, A. pose proof A as A0. apply andb_true_iff in A as [Aa As].
    simpl. destruct (ascii_space a); [by apply IH; [lia|]|].
    destruct s as [|b s]; [simpl; by rewrite Aa|]. simpl in As. apply andb_true_iff in As as [Ab As]. simpl in L.
    destruct (sp2 a b); [by apply IH; [lia|]|].
    destruct s as [|c s]; [simpl; by rewrite Aa, Ab|]. simpl in As. apply andb_true_iff in As as [Ac As]. simpl in L.
    destruct (sp3 a b c); [by apply IH; [lia|]|]. done. }
  by eapply G.
Qed.
Lemma TrimSpace_all p s : string_all p s = true -> string_all p (TrimSpace s) = true.
Proof.
  intros A. unfold TrimSpace, TrimRightSpace, TrimLeftSpace. rewrite string_all_rev. apply trim_go_all.
  rewrite string_all_rev. by apply trim_go_all.
Qed.

(** Neither CR nor LF. *)
Definition no_breaks (c : Ascii.ascii) : bool := negb (bool_decide (c = char_of 13)) && negb (bool_decide (c = char_of 10)).
Lemma one_line_no_breaks s : string_all no_breaks (one_line s) = true.
Proof.
  unfold one_line, ReplaceByte. induction s as [|c s IH]; [done|]. simpl. rewrite IH, andb_true_r. unfold no_breaks.
  repeat case_bool_decide; subst; try done.
Qed.
Lemma status_text_no_breaks code : string_all no_breaks (StatusText code) = true.
Proof.
  unfold StatusText. destruct (list_find _ status_texts) as [[i [k t]]|] eqn:E; [|done].
  apply list_find_Some in E as (E & _ & _). apply list_elem_of_lookup_2 in E.
  assert (F : Forall (fun kv => string_all no_breaks kv.2 = true) status_texts) by (repeat constructor).
  rewrite Forall_forall in F. by apply (F (k, t)).
Qed.

(** Error texts cannot be split: whatever status and message come from the
    host, what is written to a refused CONNECT is one status line with a status
    from 400 to 599 and a text without line breaks, the fixed headers, a content
    length that is the length of the body, and a body that is one line. *)
Theorem connect_error_framing status message :
  exists code text msg,
    writeConnectError status message = connect_error_header code text (slen (msg +:+ newline)) +:+ (msg +:+ newline) /\
    400 <= code <= 599 /\ text <> "" /\ string_all no_breaks text = true /\ string_all no_breaks msg = true.
Proof.
  unfold writeConnectError. set (code := if (status <? 400) || (599 <? status) then StatusBadGateway else status).
  set (line := TrimSpace (one_line message)).
  exists code, (if bool_decide (StatusText code = "") then "Error" else StatusText code),
    (if bool_decide (line = "") then StatusText code else line).
  split; [done|]. split; [|split; [|split]].
  - unfold code. destruct (_ || _) eqn:B; [unfold StatusBadGateway; lia|]. to_prop. lia.
  - by case_bool_decide.
  - case_bool_decide; [done|]. apply status_text_no_breaks.
  - case_bool_decide; [apply status_text_no_breaks|]. apply TrimSpace_all, one_line_no_breaks.
Qed.

(** * Forwarded requests *)

Section forward.
Context `{GoLib} {St : Type} `{IngressBridge St}.

Lemma bounded_body body limit data :
  limit < 2 ^ 63 - 1 -> ReadBoundedBody body limit = Ok (data, false) ->
  (0 < limit -> slen data <= limit) /\
  match body with None => data = "" | Some s => data = st_data s /\ st_err s = None end.
Proof.
  intros L. unfold ReadBoundedBody, readBoundedResponse. destruct body as [s|]; [|intros [= <-]; split; [unfold slen; simpl; lia|done]].
  assert (W : match st_err s with Some e => Err e | None => Ok (st_data s, false) end = Ok (data, false) ->
              data = st_data s /\ st_err s = None) by (destruct (st_err s); [done|by intros [= <-]]).
  destruct (limit <=? 0) eqn:Z; [intros E; split; [lia|by apply W]|].
  rewrite to_int_small by lia. replace (limit + 1 <=? 0) with false by lia.
  destruct (limit + 1 <=? slen (st_data s)) eqn:B; [done|]. intros [-> E]%W. split; [lia|done].
Qed.

(** Transparent HTTP requests: the handler either answers by itself without
    contacting the host (405 for CONNECT, 400 without a host, 413 over the
    limit, 502 when the body cannot be read), or it makes exactly one round trip
    with the client's method, an http URL for the client's Host header (or, when
    that is blank, for the original destination), the client's path and query,
    its headers without Proxy-Connection, and its whole body, within the limit. *)
Theorem transparent_http_forward connectHost connectPort req st a st' :
  MaxRequestBodyBytes < 2 ^ 63 - 1 ->
  transparentHTTPHandlerForDestination connectHost connectPort req st = (a, st') ->
  (st' = st /\ exists x, a = Some x /\ an_Status x ∈ [400; 405; 413; 502]) \/
  exists u url body,
    ir_URL req = Some u /\ ir_Method req <> MethodConnect /\
    url = url_of "http" (if bool_decide (TrimSpace (ir_Host req) = "") then transparentAuthority connectHost connectPort
                         else TrimSpace (ir_Host req))
            (if bool_decide (u_Path u = "") then "/" else u_Path u) (u_RawPath u) (u_RawQuery u) /\
    u_Host url <> "" /\
    (0 < MaxRequestBodyBytes -> slen body <= MaxRequestBodyBytes) /\
    match ir_Body req with None => body = "" | Some s => body = st_data s /\ st_err s = None end /\
    st' = (rt_ProxyRoundTrip {| pr_Method := ir_Method req; pr_URL := inurl_String url;
                                pr_Header := header_del "Proxy-Connection" (ir_Header req); pr_Body := body |} st).2.
Proof.
  intros L E. unfold transparentHTTPHandlerForDestination in E. case_bool_decide as C.
  { injection E as <- <-. left. split; [done|]. eexists. split; [done|]. simpl. set_solver. }
  unfold serveHTTPForward in E. destruct (RewriteTransparentHTTPRequestWithTarget req connectHost connectPort) as [out|e] eqn:R.
  2:{ injection E as <- <-. left. split; [done|]. eexists. split; [done|]. simpl. set_solver. }
  unfold RewriteTransparentHTTPRequestWithTarget in R. destruct (ir_URL req) as [u|] eqn:U; [|done].
  set (host := if bool_decide (TrimSpace (ir_Host req) = "") then _ else _) in R.
  destruct (bool_decide (host = "")) eqn:NE; [done|]. injection R as <-. cbn [ir_Body ir_URL ir_Header ir_Method] in E.
  destruct (ReadBoundedBody (ir_Body req) MaxRequestBodyBytes) as [[body []]|e] eqn:B.
  1,3: injection E as <- <-; left; split; [done|]; eexists; split; [done|]; simpl; set_solver.
  apply bounded_body in B as [B1 B2]; [|done]. right.
  match type of E with context [proxy_request _ ?url _] => exists u, url, body end.
  split; [done|]. split; [done|]. split; [reflexivity|]. split; [by apply bool_decide_eq_false in NE|].
  split; [done|]. split; [done|]. unfold proxy_request in E. cbn [ir_Body ir_URL ir_Header ir_Method] in E.
  destruct (rt_ProxyRoundTrip _ st) as [[e|r] st1]; injection E as <- <-; done.
Qed.
End forward.

(** A bridge that answers everything with 200 and counts the round trips. *)
Definition sampleBridge : IngressBridge nat := {|
  MITMEnabled := true; MaxRequestBodyBytes := 100; leaf_cert := unit;
  rt_ProxyRoundTrip _ st := (inr {| ps_StatusCode := 200; ps_Header := []; ps_Body := "ok"; ps_Error := "" |}, S st);
  rt_MITMRoundTrip _ st := (inr {| ps_StatusCode := 200; ps_Header := []; ps_Body := "ok"; ps_Error := "" |}, S st);
  rt_Connect _ _ st := (1, inr {| cs_StatusCode := 200; cs_Message := ""; cs_Error := "" |}, S st);
  rt_AuthorizeConnect _ _ st := (inr {| cs_StatusCode := 200; cs_Message := ""; cs_Error := "" |}, S st);
  rt_AuthorizeTransparentConnect _ _ _ st := (inr {| cs_StatusCode := 200; cs_Message := ""; cs_Error := "" |}, S st);
  rt_RequestLeafCert _ st := (inr tt, S st);
  rt_UnregisterTunnel _ st := st;
  rt_SendTunnelClose _ _ _ st := st;
  inurl_String u := u_Scheme u +:+ "://" +:+ u_Host u +:+ u_Path u;
|}.
Definition sample_get : InRequest := {|
  ir_Method := "GET";
  ir_URL := Some (url_of "" "" "/x" "" "");
  ir_Host := ""; ir_Header := [("Proxy-Connection", ["close"])]; ir_Body := None; ir_Proto := "HTTP/1.1" |}.
#[local] Existing Instance sampleBridge.

Lemma transparent_http_forward_witness :
  exists body, 1%nat =
    (rt_ProxyRoundTrip {| pr_Method := "GET"; pr_URL := "http://api.example.com:8080/x"; pr_Header := []; pr_Body := body |} 0%nat).2.
Proof.
  destruct (transparent_http_forward "api.example.com" 8080 sample_get 0%nat
              (Some {| an_Status := 200; an_Header := []; an_Body := "ok" |}) 1%nat) as [[E _]|(u & url & body & _)];
    [vm_compute; reflexivity|vm_compute; reflexivity|discriminate E|]. exists body. reflexivity.
Defined.

(** * Protocol detection *)

Section detection.
Context `{GoLib}.

Fixpoint all_bytes (chunks : list string) : string := match chunks with [] => "" | c :: chunks => c +:+ all_bytes chunks end.
(** Everything the connection yields before its error. *)
Definition whole (r : reader) : string := rd_buf r +:+ all_bytes (rd_chunks r).
Definition reader_ok (r : reader) : Prop := slen (rd_buf r) <= buffer_size.

Lemma fill_spec n buf chunks :
  n <= buffer_size -> slen buf <= buffer_size ->
  let r := fill n buf chunks in
  whole r = buf +:+ all_bytes chunks /\ reader_ok r /\ (n <= slen (rd_buf r) \/ rd_chunks r = []).
Proof.
  intros N. revert buf. induction chunks as [|c chunks IH]; intros buf L; cbn [fill].
  - destruct (_ || _) eqn:B; cbn [rd_buf rd_chunks whole all_bytes]; (split; [done|]; split; [done|]); to_prop; [|by right].
    destruct B; [by left|]. left. lia.
  - destruct (_ || _) eqn:B.
    + split; [done|]. split; [done|]. left. cbn. to_prop. lia.
    + destruct (slen c <=? buffer_size - slen buf) eqn:R.
      * destruct (IH (buf +:+ c)) as (W & O & D); [rewrite slen_app; lia|]. rewrite W. split; [|done].
        cbn [all_bytes]. by rewrite string_app_assoc.
      * assert (T : slen (string_take (Z.to_nat (buffer_size - slen buf)) c) = buffer_size - slen buf).
        { unfold slen in *. rewrite string_take_length. lia. }
        split; [|split; [|left]].
        -- unfold whole. cbn [rd_buf rd_chunks all_bytes]. rewrite string_app_assoc, <- (string_app_assoc (string_take _ _)).
           by rewrite string_take_drop.
        -- unfold reader_ok. cbn [rd_buf]. rewrite slen_app, T. lia.
        -- cbn [rd_buf]. rewrite slen_app, T. lia.
Qed.

Lemma app_take a b : a = string_take (String.length a) (a +:+ b).
Proof. by rewrite string_take_app_length. Qed.

(** [Peek] shows the beginning of the whole; fewer bytes only when there are no more. *)
Lemma Peek_spec n r :
  0 <= n <= buffer_size -> reader_ok r ->
  exists p err r', Peek n r = (p, err, r') /\ whole r' = whole r /\ reader_ok r' /\
    err = (slen (whole r) <? n) /\ p = (if err then whole r else string_take (Z.to_nat n) (whole r)).
Proof.
  intros N O. unfold Peek. destruct (fill_spec n (rd_buf r) (rd_chunks r)) as (W & O' & D); [lia|done|].
  set (r' := fill n (rd_buf r) (rd_chunks r)) in *. fold (whole r) in W.
  unfold Buffered. destruct (slen (rd_buf r') <? n) eqn:B; eexists _, _, r'; (split; [reflexivity|]; split; [done|]; split; [done|]).
  - destruct D as [D|D]; [lia|]. rewrite <- W. unfold whole. rewrite D. cbn [all_bytes]. rewrite string_app_nil_r. by rewrite B.
  - rewrite <- W. unfold whole. rewrite slen_app. pose proof (slen_nonneg (all_bytes (rd_chunks r'))).
    split; [symmetry; lia|]. symmetry. apply string_take_app. unfold slen in *. lia.
Qed.

(** The decision as a function of the bytes alone. *)
Definition detect_bytes (s : string) : transparentTCPProtocol :=
  match s with
  | "" => ProtocolUnknown
  | String c _ =>
      if byte_of c =? 22 then if looksLikeTLSClientHelloBytes (string_take 3 s) then ProtocolTLS else ProtocolUnknown
      else if HasPrefix s http2ClientPreface || existsb (HasPrefix (string_map upper_char (string_take 8 s))) http_methods
      then ProtocolHTTP else ProtocolUnknown
  end.

(** [strings.ToUpper] maps a string code point by code point. *)
Hypothesis ToUpper_ascii : forall c s, is_ascii c = true -> ToUpper (String c s) = String (upper_char c) (ToUpper s).

Lemma ToUpper_take n s : string_all is_ascii (string_take n s) = true -> string_take n (ToUpper s) = string_map upper_char (string_take n s).
Proof.
  revert s. induction n as [|n IH]; intros [|c s]; try done. simpl. rewrite andb_true_iff. intros [A B].
  rewrite ToUpper_ascii by done. simpl. by rewrite IH.
Qed.

Lemma methods_short s : string_all is_ascii (string_take 8 s) = true ->
  existsb (HasPrefix (ToUpper s)) http_methods = existsb (HasPrefix (string_map upper_char (string_take 8 s))) http_methods.
Proof.
  intros A. rewrite <- ToUpper_take by done.
  assert (E : forall m, (String.length m <= 8)%nat -> HasPrefix (ToUpper s) m = HasPrefix (string_take 8 (ToUpper s)) m)
    by (intros m L; symmetry; by apply HasPrefix_take).
  cbn [existsb http_methods]. by rewrite !E by (vm_compute; lia).
Qed.

Lemma detect_whole r :
  reader_ok r -> string_all is_ascii (string_take 8 (whole r)) = true -> (detectTransparentTCPProtocol r).1 = detect_bytes (whole r).
Proof.
  intros O A. unfold detectTransparentTCPProtocol.
  destruct (Peek_spec 1 r) as (p & err & r1 & -> & W1 & O1 & Herr & Hp); [unfold buffer_size; lia|done|].
  destruct (whole r) as [|c s] eqn:Ws.
  { subst err. done. }
  assert (err = false) as -> by (subst err; apply Z.ltb_ge; unfold slen; cbn [String.length]; lia).
  change (p = String c "") in Hp. subst p. change (0 <? slen (String c "")) with true. cbn [andb].
  change (byte_at (String c "") 0) with (byte_of c). unfold detect_bytes. destruct (byte_of c =? 22).
  - unfold looksLikeTLSClientHello. destruct (Peek_spec 3 r1) as (p & err & r2 & -> & _ & _ & He & Hp); [unfold buffer_size; lia|done|].
    rewrite W1, <- ?Ws in *. subst err. destruct (slen (whole r) <? 3) eqn:B.
    + cbn [orb fst snd]. unfold looksLikeTLSClientHelloBytes. rewrite string_take_all by (unfold slen in B; lia). by rewrite B.
    + cbn [orb]. subst p. replace (slen (string_take (Z.to_nat 3) (whole r)) <? 3) with false.
      2:{ symmetry. apply Z.ltb_ge. apply Z.ltb_ge in B. unfold slen in *. rewrite string_take_length. lia. }
      by destruct (looksLikeTLSClientHelloBytes _).
  - unfold looksLikeHTTP2ClientPreface.
    destruct (Peek_spec (slen http2ClientPreface) r1) as (p & err & r2 & -> & W2 & O2 & He & Hp);
      [vm_compute; by split|done|]. rewrite W1, <- ?Ws in *.
    assert (H2 : (if err || (slen p <? slen http2ClientPreface) then false else bool_decide (p = http2ClientPreface)) =
                 HasPrefix (whole r) http2ClientPreface).
    { apply eq_iff_eq_true. unfold HasPrefix. rewrite prefix_exact. subst err.
      change (String.length http2ClientPreface) with 24%nat in *. change (slen http2ClientPreface) with 24 in *.
      destruct (slen (whole r) <? 24) eqn:B.
      - cbn [orb]. split; [done|]. intros E. exfalso. assert (String.length (string_take 24 (whole r)) = 24%nat) by (by rewrite E).
        rewrite string_take_length in *. unfold slen in B. lia.
      - subst p. replace (slen (string_take (Z.to_nat 24) (whole r)) <? 24) with false.
        2:{ symmetry. apply Z.ltb_ge. apply Z.ltb_ge in B. unfold slen in *. rewrite string_take_length. lia. }
        cbn [orb]. rewrite bool_decide_eq_true. done. }
    rewrite H2. destruct (HasPrefix (whole r) http2ClientPreface); [done|]. cbn [orb].
    unfold looksLikeHTTP1Request. set (n := if 16 <? Buffered r2 then Buffered r2 else 16).
    assert (Nn : 16 <= n <= buffer_size).
    { unfold n, Buffered, reader_ok, buffer_size in *. destruct (16 <? _) eqn:B; lia. }
    destruct (Peek_spec n r2) as (p2 & err2 & r3 & -> & _ & _ & He2 & Hp2); [lia|done|]. rewrite W2 in He2, Hp2.
    assert (T : string_take 8 p2 = string_take 8 (whole r) /\ p2 <> "").
    { destruct err2; subst p2; [by rewrite Ws|]. split; [apply string_take_take; lia|]. rewrite Ws.
      destruct (Z.to_nat n) eqn:Zn; [lia|done]. }
    destruct T as [T NE]. rewrite (bool_decide_eq_false_2 (p2 = "")) by done. rewrite andb_false_r.
    rewrite methods_short by (by rewrite T). rewrite T. by destruct (existsb _ http_methods).
Qed.
End detection.

(** Protocol detection does not depend on how the bytes arrive: for a fresh
    reader, whatever segments the connection delivers before the deadline, the
    decision is that of the bytes alone (a TLS client hello by its first three
    bytes, the HTTP/2 preface, an HTTP/1 method in any case), provided the first
    eight bytes are ASCII and upper-casing works character by character. *)
Theorem detection_chunk_independent `{GoLib} chunks :
  (forall c s, is_ascii c = true -> ToUpper (String c s) = String (upper_char c) (ToUpper s)) ->
  string_all is_ascii (string_take 8 (all_bytes chunks)) = true ->
  (detectTransparentTCPProtocol {| rd_buf := ""; rd_chunks := chunks |}).1 = detect_bytes (all_bytes chunks).
Proof.
  intros U A. apply (detect_whole U {| rd_buf := ""; rd_chunks := chunks |}); [|done].
  unfold reader_ok, buffer_size. simpl. unfold slen. simpl. lia.
Qed.

Lemma sample_upper c s : @ToUpper sampleLib (String c s) = String (upper_char c) (@ToUpper sampleLib s).
Proof. unfold ToUpper. simpl. by destruct (is_ascii c), (string_all is_ascii s). Qed.
Lemma detection_chunk_independent_witness :
  (@detectTransparentTCPProtocol sampleLib {| rd_buf := ""; rd_chunks := ["g"; "et /ind"; "ex HTTP/1.1"] |}).1 = ProtocolHTTP.
Proof.
  rewrite (@detection_chunk_independent sampleLib ["g"; "et /ind"; "ex HTTP/1.1"]);
    [vm_compute; reflexivity|intros c s _; apply sample_upper|vm_compute; reflexivity].
Defined.
