(* ===== verification/Relays.v ===== *)
(** The helper's relays of a tunnel ([bridge.go], the end of [HandleConnect]).

    Each relay is a loop over what happens to it, in order: the results of
    [conn.Read], or the envelopes of the tunnel's channel. [None] as a result is a
    relay that still waits. The outcomes of the sends and writes are arguments. *)
From S2P Require Import Prelude GoStrings Policy Messages Bridge StringLemmas.

Record TunnelRelayResult := { tr_SendClose : bool; tr_Write : bool; tr_Err : option connError; tr_Terminal : bool }.
Definition relay_quiet : TunnelRelayResult := {| tr_SendClose := false; tr_Write := false; tr_Err := None; tr_Terminal := false |}.
Definition relay_failed (e : connError) : TunnelRelayResult :=
  {| tr_SendClose := true; tr_Write := false; tr_Err := Some e; tr_Terminal := true |}.
Definition relay_ended : TunnelRelayResult := {| tr_SendClose := false; tr_Write := false; tr_Err := None; tr_Terminal := true |}.
Definition relay_half_closed : TunnelRelayResult := {| tr_SendClose := true; tr_Write := true; tr_Err := None; tr_Terminal := false |}.

(** The envelope of [SendTunnelClose]. *)
Definition SendTunnelClose (id : Z) (write : bool) (e : option connError) : Envelope :=
  envelope id (MTunnelClose {| tc_Write := write; tc_Error := close_text e |}).

Section relays.
Context (id : Z).

(** ** From the client to the tunnel *)

(** [send_error k] is the error of the [k]-th send. *)
Context (send_error : nat -> option connError).
Definition frame (data : string) : Envelope := envelope id (MTunnelFrame {| tf_Data := data |}).

Fixpoint relay_reads (k : nat) (reads : list (string * option connError)) : list Envelope * option TunnelRelayResult :=
  match reads with
  | [] => ([], None)
  | (data, err) :: reads =>
      let sends := negb (bool_decide (data = "")) in
      match (if sends then send_error k else None) with
      | Some e => ([], Some (relay_failed e))
      | None =>
          let sent := if sends then [frame data] else [] in
          match err with
          | None => let '(l, r) := relay_reads (if sends then S k else k) reads in (sent ++ l, r)
          | Some ErrEOF => (sent, Some relay_half_closed)
          | Some ErrClosed => (sent, Some relay_quiet)
          | Some e => (sent, Some (relay_failed e))
          end
      end
  end.
Definition RelayPayloadToTunnel (buffered : string) (reads : list (string * option connError)) : list Envelope * option TunnelRelayResult :=
  if bool_decide (buffered = "") then relay_reads 0 reads
  else match send_error 0 with
       | Some e => ([], Some (relay_failed e))
       | None => let '(l, r) := relay_reads 1 reads in (frame buffered :: l, r)
       end.

(** ** From the tunnel to the client *)

Inductive tunnel_event := TCanceled | TChannelClosed | TEnvelope (env : Envelope).
(** [write_error k] is the error of the [k]-th [writeAll], [close_error] that of
    [closePayloadWrite]. *)
Context (write_error : nat -> option connError) (close_error : option connError).
(** What the client was given, whether its write side was closed, the result. *)
Fixpoint relay_events (k : nat) (events : list tunnel_event) : string * bool * option TunnelRelayResult :=
  match events with
  | [] => ("", false, None)
  | TCanceled :: _ => ("", false, Some relay_quiet)
  | TChannelClosed :: _ => ("", false, Some relay_ended)
  | TEnvelope env :: events =>
      match e_TunnelFrame env with
      | Some f =>
          if bool_decide (tf_Data f = "") then relay_events k events
          else match write_error k with
               | Some e => ("", false, Some (relay_failed e))
               | None => let '(data, closed, r) := relay_events (S k) events in (tf_Data f +:+ data, closed, r)
               end
      | None =>
          match e_TunnelClose env with
          | Some c =>
              if tc_Write c then
                match close_error with
                | Some e => ("", false, Some (relay_failed e))
                | None => ("", true, Some relay_quiet)
                end
              else ("", false, Some relay_ended)
          | None => relay_events k events
          end
      end
  end.
Definition RelayTunnelToPayload (events : list tunnel_event) : string * bool * option TunnelRelayResult := relay_events 0 events.

(** ** After a relay *)

(** [cleanup] in [HandleConnect]: the close message, if any, and whether the
    connection is shut down. *)
Definition cleanup (r : TunnelRelayResult) : list Envelope * bool :=
  (if tr_SendClose r then [SendTunnelClose id (tr_Write r) (tr_Err r)] else [], tr_Terminal r).
End relays.

(** ** What the relays carry *)

(** The bytes in the frames of a sequence of envelopes, up to the first close. *)
Fixpoint tunnel_bytes (l : list Envelope) : string :=
  match l with
  | [] => ""
  | env :: l =>
      match e_TunnelFrame env with
      | Some f => tf_Data f +:+ tunnel_bytes l
      | None => if present (e_TunnelClose env) then "" else tunnel_bytes l
      end
  end.
Fixpoint read_bytes (reads : list (string * option connError)) : string :=
  match reads with
  | [] => ""
  | (data, None) :: reads => data +:+ read_bytes reads
  | (data, Some _) :: _ => data
  end.
Lemma relay_reads_bytes id k reads :
  tunnel_bytes (relay_reads id (fun _ => None) k reads).1 = read_bytes reads.
Proof.
  revert k. induction reads as [|[data err] reads IH]; intros k; [done|]. simpl. case_bool_decide as E; simpl.
  - subst. destruct err as [[]|]; try done. specialize (IH k). by destruct (relay_reads _ _ k reads).
  - destruct err as [[]|]; simpl; rewrite ?string_app_nil_r; try done. specialize (IH (S k)).
    destruct (relay_reads _ _ (S k) reads). simpl in *. by rewrite IH.
Qed.
Lemma relay_events_bytes k (l : list Envelope) :
  (relay_events (fun _ => None) None k (TEnvelope <$> l)).1.1 = tunnel_bytes l.
Proof.
  revert k. induction l as [|env l IH]; intros k; [done|]. simpl. destruct (e_TunnelFrame env) as [f|].
  - case_bool_decide as E; [rewrite E; apply IH|]. specialize (IH (S k)). destruct (relay_events _ _ (S k) _) as [[data c] r]. simpl in *.
    by rewrite IH.
  - destruct (e_TunnelClose env) as [c|]; [by destruct (tc_Write c)|apply IH].
Qed.
