(* ===== verification/Exec.v ===== *)
(** Running commands in the sandbox ([exec_manager.go], [exec/session.go]).

    The manager runs one command at a time ([execMu]); the goroutines of a
    command are the one that waits for the process, one [StreamOutput] per output
    stream, and the bridge's read loop, which delivers input. [exec_step] lists
    their steps and those of the process; reading a stream and sending what was
    read are separate steps. A stream is a pipe of bounded capacity or a terminal:
    what nobody read yet, what is read and not sent, whether a writer is left,
    whether our end was closed. As [exec.Cmd.Wait] documents, it closes the pipes of
    [StdoutPipe] and [StderrPipe] once the process has exited. *)
From S2P Require Import Prelude GoStrings GoPath Policy Messages.

(** * Finding the command *)

(** The last entry of that name. *)
Fixpoint env_first (entries : list string) (key : string) : option string :=
  match entries with
  | [] => None
  | e :: entries =>
      match CutByte e "=" with
      | Some (k, value) => if bool_decide (k = key) then Some value else env_first entries key
      | None => env_first entries key
      end
  end.
Definition envValue (env : list string) (key : string) : option string := env_first (rev env) key.

Section resolve.
Context `{GoLib}.
(** [os.Getwd]; [os.Stat]: whether the file is regular, and its permissions. *)
Context (os_Getwd : result string) (os_Stat : string -> option (bool * Z)).

Definition executable (candidate : string) : bool :=
  match os_Stat candidate with
  | Some (regular, perm) => regular && negb (Z.land perm 73 =? 0)
  | None => false
  end.
Definition path_candidate (cwd name dir : string) : string :=
  let candidate := if bool_decide (dir = "") then "." else dir in
  let candidate := if filepath_IsAbs candidate then candidate else filepath_Join [cwd; candidate] in
  filepath_Join [candidate; name].
Definition resolveExecCommandPath (name : string) (env : list string) (workDir : string) : result string :=
  if bool_decide (TrimSpace name = "") then Err "argv[0] is required"
  else if Contains name "/" then Ok name
  else match envValue env "PATH" with
       | None => Ok name
       | Some pathValue =>
           let cwd := if bool_decide (TrimSpace workDir = "") then
                        match os_Getwd with
                        | Ok cwd => Ok cwd
                        | Err e => Err ("resolve working directory for " +:+ Quote name +:+ ": " +:+ e)
                        end
                      else Ok workDir in
           cwd <-! cwd;
           match list_find (fun candidate => executable candidate = true) (path_candidate cwd name <$> SplitByte pathValue ":") with
           | Some (_, candidate) => Ok candidate
           | None => Err ("exec: " +:+ Quote name +:+ ": executable file not found in $PATH")
           end
       end.
End resolve.

(** * Sessions *)

(** What the process was given: its input, the terminal's size. *)
Record Session := {
  ss_terminal : bool; ss_stdin : bool; ss_written : string; ss_stdinClosed : bool; ss_size : Z * Z; ss_ptyClosed : bool;
}.
Definition maxUint16 (value fallback : Z) : Z := if value =? 0 then fallback else value.

(** [StartSession] when nothing fails: the session (none without input) and the
    names of the output streams. *)
Definition initial_size (req : ExecRequest) : Z * Z :=
  match xq_InitialSize req with
  | Some size => (if 0 <? ts_Rows size then ts_Rows size else 24, if 0 <? ts_Cols size then ts_Cols size else 80)
  | None => (24, 80)
  end.
Definition StartSession (req : ExecRequest) : option Session * list string :=
  if xq_Interactive req && xq_Terminal req then
    (Some {| ss_terminal := true; ss_stdin := true; ss_written := ""; ss_stdinClosed := false; ss_size := initial_size req;
             ss_ptyClosed := false |}, [StreamStdout])
  else
    (if xq_Interactive req then Some {| ss_terminal := false; ss_stdin := true; ss_written := ""; ss_stdinClosed := false;
                                        ss_size := (0, 0); ss_ptyClosed := false |} else None,
     [StreamStdout; StreamStderr]).

(** [HandleInput]; [write_error] tells that the write of the data fails. *)
Definition HandleInput (write_error : bool) (input : ExecInput) (session : option Session) : option Session :=
  match session with
  | None => None
  | Some s =>
      let size := match xi_Resize input with
                  | Some r => if ss_terminal s && ((0 <? ts_Rows r) || (0 <? ts_Cols r))
                              then (maxUint16 (ts_Rows r) 24, maxUint16 (ts_Cols r) 80) else ss_size s
                  | None => ss_size s
                  end in
      let writes := negb (bool_decide (xi_Data input = "")) && ss_stdin s in
      let failed := writes && (write_error || ss_stdinClosed s || ss_ptyClosed s) in
      Some {| ss_terminal := ss_terminal s; ss_stdin := ss_stdin s;
              ss_written := if writes && negb failed then ss_written s +:+ xi_Data input else ss_written s;
              ss_stdinClosed := if failed then ss_stdinClosed s
                                else ss_stdinClosed s || (xi_EOF input && ss_stdin s && negb (ss_terminal s));
              ss_size := size; ss_ptyClosed := ss_ptyClosed s |}
  end.
Definition Session_Close (session : option Session) : option Session :=
  (fun s => {| ss_terminal := ss_terminal s; ss_stdin := ss_stdin s; ss_written := ss_written s; ss_stdinClosed := true;
               ss_size := ss_size s; ss_ptyClosed := ss_terminal s |}) <$> session.

(** * The manager *)

(** A stream at our end. [pp_written]: all the process wrote to it. [pp_out]:
    all that came out at our end, the same for a pipe; of a terminal ([pp_tty])
    what the line discipline makes of the writes and of the input it echoes.
    [pp_data] is the part of it nobody read yet, [pp_held] what [StreamOutput] has
    read and not sent yet. *)
Record pipe := {
  pp_stream : string; pp_tty : bool; pp_written : string; pp_out : string; pp_data : string; pp_held : option string;
  pp_writers : bool; pp_closed : bool; pp_done : bool;
}.
Definition new_pipe (tty : bool) (stream : string) : pipe :=
  {| pp_stream := stream; pp_tty := tty; pp_written := ""; pp_out := ""; pp_data := ""; pp_held := None;
     pp_writers := true; pp_closed := false; pp_done := false |}.
Definition pipe_write (data shown : string) (p : pipe) : pipe :=
  {| pp_stream := pp_stream p; pp_tty := pp_tty p; pp_written := pp_written p +:+ data; pp_out := pp_out p +:+ shown;
     pp_data := pp_data p +:+ shown; pp_held := pp_held p;
     pp_writers := pp_writers p; pp_closed := pp_closed p; pp_done := pp_done p |}.
Definition pipe_hangup (p : pipe) : pipe :=
  {| pp_stream := pp_stream p; pp_tty := pp_tty p; pp_written := pp_written p; pp_out := pp_out p; pp_data := pp_data p;
     pp_held := pp_held p; pp_writers := false; pp_closed := pp_closed p; pp_done := pp_done p |}.
Definition pipe_read (n : nat) (p : pipe) : pipe :=
  {| pp_stream := pp_stream p; pp_tty := pp_tty p; pp_written := pp_written p; pp_out := pp_out p;
     pp_data := string_drop n (pp_data p); pp_held := Some (string_take n (pp_data p));
     pp_writers := pp_writers p; pp_closed := pp_closed p; pp_done := pp_done p |}.
Definition pipe_sent (p : pipe) : pipe :=
  {| pp_stream := pp_stream p; pp_tty := pp_tty p; pp_written := pp_written p; pp_out := pp_out p; pp_data := pp_data p;
     pp_held := None; pp_writers := pp_writers p; pp_closed := pp_closed p; pp_done := pp_done p |}.
Definition pipe_done (p : pipe) : pipe :=
  {| pp_stream := pp_stream p; pp_tty := pp_tty p; pp_written := pp_written p; pp_out := pp_out p; pp_data := pp_data p;
     pp_held := pp_held p; pp_writers := pp_writers p; pp_closed := pp_closed p; pp_done := true |}.
Definition pipe_close (p : pipe) : pipe :=
  {| pp_stream := pp_stream p; pp_tty := pp_tty p; pp_written := pp_written p; pp_out := pp_out p; pp_data := pp_data p;
     pp_held := pp_held p; pp_writers := pp_writers p; pp_closed := true; pp_done := pp_done p |}.

(** What [cmd.Wait] reports. *)
Inductive waitError := WaitOk | WaitExit (code : Z) | WaitError (e : string).
Definition wait_result (w : waitError) : ExecResult :=
  match w with
  | WaitOk => {| xr_ExitCode := 0; xr_Stderr := ""; xr_Error := "" |}
  | WaitExit code => {| xr_ExitCode := code; xr_Stderr := ""; xr_Error := "" |}
  | WaitError e => {| xr_ExitCode := -1; xr_Stderr := e; xr_Error := e |}
  end.
Definition exec_error (e : string) : ExecResult := {| xr_ExitCode := -1; xr_Stderr := e; xr_Error := e |}.

(** The command that runs: whether it is the current one for input ([setCurrentExec]
    was reached), what its process has come to, and how much was sent before it. *)
Record execState := {
  xs_id : Z; xs_session : option Session; xs_pipes : list pipe; xs_current : bool; xs_cancelled : bool;
  xs_exited : option waitError; xs_waited : bool; xs_base : nat;
}.
Definition with_pipes (pipes : list pipe) (waited : bool) (x : execState) : execState := {|
  xs_id := xs_id x; xs_session := xs_session x; xs_pipes := pipes; xs_current := xs_current x;
  xs_cancelled := xs_cancelled x; xs_exited := xs_exited x; xs_waited := waited; xs_base := xs_base x |}.
Definition with_session (session : option Session) (current cancelled : bool) (x : execState) : execState := {|
  xs_id := xs_id x; xs_session := session; xs_pipes := xs_pipes x; xs_current := current;
  xs_cancelled := cancelled; xs_exited := xs_exited x; xs_waited := xs_waited x; xs_base := xs_base x |}.
Definition with_exit (w : waitError) (x : execState) : execState := {|
  xs_id := xs_id x; xs_session := xs_session x; xs_pipes := xs_pipes x; xs_current := xs_current x;
  xs_cancelled := xs_cancelled x; xs_exited := Some w; xs_waited := xs_waited x; xs_base := xs_base x |}.

(** [em_queue]: the [handleExec] goroutines that wait for [execMu]. *)
Record execManager := {
  em_queue : list (Z * ExecRequest); em_running : option execState; em_sent : list Envelope;
}.
Definition newExecManager : execManager := {| em_queue := []; em_running := None; em_sent := [] |}.
Definition em_send (env : Envelope) (m : execManager) : execManager :=
  {| em_queue := em_queue m; em_running := em_running m; em_sent := em_sent m ++ [env] |}.
Definition em_set (x : option execState) (m : execManager) : execManager :=
  {| em_queue := em_queue m; em_running := x; em_sent := em_sent m |}.
Definition sendExecError (id : Z) (e : string) (m : execManager) : execManager := em_send (envelope id (MExecResult (exec_error e))) m.

Section manager.
Context `{GoLib} (os_Getwd : result string) (os_Stat : string -> option (bool * Z)).
(** What a pipe of this kernel holds (64 KiB by default on Linux). *)
Context (capacity : Z).

(** Whether the streams of a session are a terminal's. *)
Definition on_terminal (session : option Session) : bool :=
  match session with Some s => ss_terminal s | None => false end.

(** [handleExec] up to [setCurrentExec]. [started]: what preparing and starting
    the process gave (the supervisor, the seccomp launcher, the pipes, the fork). *)
Definition handleExec_start (id : Z) (req : ExecRequest) (started : result unit) (m : execManager) : execManager :=
  match xq_Argv req with
  | [] => sendExecError id "argv is required" m
  | name :: _ =>
      match resolveExecCommandPath os_Getwd os_Stat name (xq_Env req) (xq_WorkDir req) with
      | Err e => sendExecError id e m
      | Ok _ =>
          match started with
          | Err e => sendExecError id e m
          | Ok _ =>
              let '(session, streams) := StartSession req in
              em_set (Some {| xs_id := id; xs_session := session; xs_pipes := new_pipe (on_terminal session) <$> streams; xs_current := false;
                              xs_cancelled := false; xs_exited := None; xs_waited := false; xs_base := length (em_sent m) |}) m
          end
      end
  end.
Definition setCurrentExec (x : execState) : execState := with_session (xs_session x) true (xs_cancelled x) x.

(** [handleExecInput], called by the read loop. *)
Definition handleExecInput (write_error : bool) (id : Z) (input : ExecInput) (m : execManager) : execManager :=
  match em_running m with
  | None => m
  | Some x =>
      if negb (xs_current x) || negb (xs_id x =? id) then m
      else if xi_Cancel input then
        let session := Session_Close (xs_session x) in
        let x := with_session session true true x in
        (* closing the terminal ends its stream *)
        let terminal := match session with Some s => ss_terminal s | None => false end in
        em_set (Some (if terminal then with_pipes (pipe_close <$> xs_pipes x) (xs_waited x) x else x)) m
      else em_set (Some (with_session (HandleInput write_error input (xs_session x)) true (xs_cancelled x) x)) m
  end.

(** [StreamOutput] reads [n] bytes into its buffer. *)
Definition StreamOutput_read (i n : nat) (p : pipe) (x : execState) (m : execManager) : execManager :=
  em_set (Some (with_pipes (<[i := pipe_read n p]> (xs_pipes x)) (xs_waited x) x)) m.
(** It has sent a copy of them as one frame. *)
Definition StreamOutput_send (i : nat) (data : string) (p : pipe) (x : execState) (m : execManager) : execManager :=
  em_send (envelope (xs_id x) (MStreamFrame {| sf_Stream := pp_stream p; sf_Data := data |}))
    (em_set (Some (with_pipes (<[i := pipe_sent p]> (xs_pipes x)) (xs_waited x) x)) m).
(** It returns: the end of the stream, a read error, or a failed send. *)
Definition StreamOutput_end (i : nat) (p : pipe) (x : execState) (m : execManager) : execManager :=
  em_set (Some (with_pipes (<[i := pipe_done p]> (xs_pipes x)) (xs_waited x) x)) m.

(** [cmd.Wait] returns: it closes the pipes, that of the input too; a terminal
    stays open. *)
Definition Wait (x : execState) : execState :=
  match xs_session x with
  | Some s => if ss_terminal s then with_pipes (xs_pipes x) true x
              else with_pipes (pipe_close <$> xs_pipes x) true (with_session (Session_Close (Some s)) (xs_current x) (xs_cancelled x) x)
  | None => with_pipes (pipe_close <$> xs_pipes x) true x
  end.

(** The rest of [handleExec]: the result is sent, then the deferred calls. *)
Definition handleExec_finish (x : execState) (w : waitError) (m : execManager) : execManager :=
  em_set None (em_send (envelope (xs_id x) (MExecResult (wait_result w))) m).

Inductive exec_step : execManager -> execManager -> Prop :=
(** The read loop starts a goroutine for a request, and handles input itself. *)
| es_request id req m : exec_step m {| em_queue := em_queue m ++ [(id, req)]; em_running := em_running m; em_sent := em_sent m |}
| es_input write_error id input m : exec_step m (handleExecInput write_error id input m)
| es_start l1 id req l2 started m : em_running m = None -> em_queue m = l1 ++ (id, req) :: l2 ->
    exec_step m (handleExec_start id req started {| em_queue := l1 ++ l2; em_running := em_running m; em_sent := em_sent m |})
| es_current x m : em_running m = Some x -> xs_current x = false -> exec_step m (em_set (Some (setCurrentExec x)) m)
(** The process. A write to a pipe that has not the room blocks; what a terminal
    shows, and when, is up to its line discipline (with no data written: the echo
    of input). *)
| es_write i p data shown x m : em_running m = Some x -> xs_pipes x !! i = Some p -> pp_writers p = true -> pp_closed p = false ->
    (pp_tty p = false -> shown = data /\ slen (pp_data p) + slen data <= capacity) ->
    exec_step m (em_set (Some (with_pipes (<[i := pipe_write data shown p]> (xs_pipes x)) (xs_waited x) x)) m)
| es_hangup i p x m : em_running m = Some x -> xs_pipes x !! i = Some p ->
    exec_step m (em_set (Some (with_pipes (<[i := pipe_hangup p]> (xs_pipes x)) (xs_waited x) x)) m)
| es_exit w x m : em_running m = Some x -> xs_exited x = None -> exec_step m (em_set (Some (with_exit w x)) m)
(** The streams, started after [setCurrentExec]. *)
| es_read i n p x m : em_running m = Some x -> xs_current x = true -> xs_pipes x !! i = Some p -> pp_done p = false ->
    pp_held p = None -> pp_closed p = false -> 0 < Z.of_nat n <= 32 * 1024 -> (n <= String.length (pp_data p))%nat ->
    exec_step m (StreamOutput_read i n p x m)
| es_send i data p x m : em_running m = Some x -> xs_current x = true -> xs_pipes x !! i = Some p -> pp_done p = false ->
    pp_held p = Some data -> exec_step m (StreamOutput_send i data p x m)
| es_send_error i data p x m : em_running m = Some x -> xs_current x = true -> xs_pipes x !! i = Some p -> pp_done p = false ->
    pp_held p = Some data -> exec_step m (StreamOutput_end i p x m)
| es_eof i p x m : em_running m = Some x -> xs_current x = true -> xs_pipes x !! i = Some p -> pp_done p = false ->
    pp_held p = None -> pp_data p = "" -> pp_writers p = false -> exec_step m (StreamOutput_end i p x m)
| es_read_error i p x m : em_running m = Some x -> xs_current x = true -> xs_pipes x !! i = Some p -> pp_done p = false ->
    pp_held p = None -> pp_closed p = true -> exec_step m (StreamOutput_end i p x m)
(** The goroutine of the command. *)
| es_wait w x m : em_running m = Some x -> xs_current x = true -> xs_exited x = Some w -> exec_step m (em_set (Some (Wait x)) m)
| es_finish w x m : em_running m = Some x -> xs_waited x = true -> xs_exited x = Some w ->
    Forall (fun p => pp_done p = true) (xs_pipes x) -> exec_step m (handleExec_finish x w m).
End manager.
