(* ===== verification/ExecTheorems.v ===== *)
(** Claims about running commands: what is sent of their output, and what can be lost. *)
From S2P Require Import Prelude GoStrings GoPath Policy Messages HostClient RunTheorems Exec StringLemmas Sample.

Section exec.
Context `{GoLib} (os_Getwd : result string) (os_Stat : string -> option (bool * Z)).
Context (capacity : Z).
Notation step := (exec_step os_Getwd os_Stat capacity).

(** ** What is sent of a stream *)

Definition sent_of (p : pipe) (base : nat) (sent : list Envelope) : string := text (pp_stream p) (drop base sent).
(** What [StreamOutput] has read and not sent. *)
Definition held (p : pipe) : string := default "" (pp_held p).
(** While [StreamOutput] runs, what was sent, what it holds and what is left in
    the stream make up what came out; afterwards what was sent is a prefix of it.
    Out of a pipe comes what was written. *)
Definition pipe_ok (sent : string) (p : pipe) : Prop :=
  (pp_done p = false -> pp_out p = sent +:+ held p +:+ pp_data p) /\ (exists rest, pp_out p = sent +:+ rest) /\
  (pp_tty p = false -> pp_out p = pp_written p).
Definition exec_inv (m : execManager) : Prop :=
  match em_running m with
  | None => True
  | Some x => (xs_base x <= length (em_sent m))%nat /\ NoDup (pp_stream <$> xs_pipes x) /\
      forall i p, xs_pipes x !! i = Some p -> pipe_ok (sent_of p (xs_base x) (em_sent m)) p
  end.

Lemma streams_insert (pipes : list pipe) i p p' :
  pipes !! i = Some p -> pp_stream p' = pp_stream p -> pp_stream <$> <[i := p']> pipes = pp_stream <$> pipes.
Proof. intros E S. rewrite list_fmap_insert, S. apply list_insert_id. by rewrite list_lookup_fmap, E. Qed.

(** A change of one pipe, nothing sent. *)
Lemma pipe_change x m x' i p p' :
  em_running m = Some x -> xs_pipes x !! i = Some p -> pp_stream p' = pp_stream p -> xs_base x' = xs_base x ->
  xs_pipes x' = <[i := p']> (xs_pipes x) -> (forall sent, pipe_ok sent p -> pipe_ok sent p') ->
  exec_inv m -> exec_inv (em_set (Some x') m).
Proof.
  intros R E S B P K. unfold exec_inv. rewrite R. cbn. rewrite B, P. intros (L & N & I). split; [done|].
  split; [by erewrite streams_insert|]. intros j q [(-> & <- & _)|[_ Eq]]%list_lookup_insert_Some; [|by apply (I j)].
  unfold sent_of. rewrite S. apply K. by apply (I j).
Qed.
(** A change that leaves what the pipes hold. *)
Lemma pipes_same x m x' f :
  em_running m = Some x -> xs_base x' = xs_base x -> xs_pipes x' = f <$> xs_pipes x ->
  (forall p, pp_stream (f p) = pp_stream p /\ pp_written (f p) = pp_written p /\ pp_out (f p) = pp_out p /\ pp_data (f p) = pp_data p /\
     pp_held (f p) = pp_held p /\ pp_tty (f p) = pp_tty p /\ pp_done (f p) = pp_done p) ->
  exec_inv m -> exec_inv (em_set (Some x') m).
Proof.
  intros R B P F. unfold exec_inv. rewrite R. cbn. rewrite B, P. intros (L & N & I). split; [done|].
  assert (S : pp_stream <$> (f <$> xs_pipes x) = pp_stream <$> xs_pipes x).
  { rewrite <- list_fmap_compose. apply list_fmap_ext. intros _ p _. apply F. }
  split; [by rewrite S|]. intros i q Q. rewrite list_lookup_fmap in Q. destruct (xs_pipes x !! i) as [p|] eqn:E; [|done].
  injection Q as <-. destruct (F p) as (F1 & F2 & F3 & F4 & F5 & F6 & F7). unfold sent_of, pipe_ok, held. rewrite F1, F2, F3, F4, F5, F6, F7. by apply (I i).
Qed.
Lemma fmap_id_pipes (l : list pipe) : (fun p => p) <$> l = l.
Proof. apply list_fmap_id. Qed.

Lemma string_app_cancel_take n s : string_take n s +:+ string_drop n s = s.
Proof. apply string_take_drop. Qed.
Lemma stream_frame_of id stream data :
  stream_of (envelope id (MStreamFrame {| sf_Stream := stream; sf_Data := data |})) = Some {| sf_Stream := stream; sf_Data := data |}.
Proof. done. Qed.

Lemma send_inv i data p x m :
  em_running m = Some x -> xs_pipes x !! i = Some p -> pp_done p = false -> pp_held p = Some data ->
  exec_inv m -> exec_inv (StreamOutput_send i data p x m).
Proof.
  intros R E D Hd. unfold exec_inv. rewrite R. intros (L & N & I). unfold StreamOutput_send.
  cbn [em_send em_set em_running em_sent with_pipes xs_base xs_pipes xs_id]. split; [rewrite length_app; simpl; lia|].
  split; [by erewrite streams_insert|]. intros j q Q. unfold sent_of. rewrite drop_app_le by done. rewrite text_snoc, stream_frame_of. cbn [sf_Stream sf_Data].
  apply list_lookup_insert_Some in Q as [(-> & <- & _)|[Nj Q]].
  - cbn [pipe_sent pp_stream]. rewrite bool_decide_eq_true_2 by done. destruct (I j p E) as (K & _ & T). specialize (K D). fold (sent_of p (xs_base x) (em_sent m)).
    unfold held in K. rewrite Hd in K. cbn [default] in K.
    split; [|split; [exists (pp_data p)|exact T]]; cbn; [intros _|]; by rewrite K, string_app_assoc.
  - rewrite bool_decide_eq_false_2; [by apply (I j)|]. intros S. destruct Nj.
    apply (NoDup_lookup (pp_stream <$> xs_pipes x) i j (pp_stream p)); [done| |]; rewrite list_lookup_fmap; [by rewrite E|by rewrite Q, S].
Qed.

Lemma handleExec_start_inv id req started m : em_running m = None -> exec_inv (handleExec_start os_Getwd os_Stat id req started m).
Proof.
  intros R. unfold handleExec_start, exec_inv. destruct (xq_Argv req); [by cbn; rewrite R|].
  destruct (resolveExecCommandPath _ _ _ _ _); [|by cbn; rewrite R]. destruct started; [|by cbn; rewrite R].
  unfold StartSession.
  assert (Fresh : forall tty (streams : list string) (i : nat) p, (new_pipe tty <$> streams) !! i = Some p ->
            pipe_ok (sent_of p (length (em_sent m)) (em_sent m)) p).
  { intros tty streams i p Q. unfold sent_of. rewrite drop_all, list_lookup_fmap in *. destruct (streams !! i); [|done].
    injection Q as <-. split; [done|]. split; [by exists ""|done]. }
  destruct (xq_Interactive req && xq_Terminal req); cbn [em_set em_running xs_base em_sent xs_pipes];
    (split; [done|]; split; [|apply Fresh]); cbn; repeat constructor; set_solver.
Qed.
Lemma input_inv write_error id input m : exec_inv m -> exec_inv (handleExecInput write_error id input m).
Proof.
  intros I. unfold handleExecInput. destruct (em_running m) as [x|] eqn:R; [|done]. destruct (_ || _); [done|].
  destruct (xi_Cancel input).
  - destruct (match Session_Close _ with Some s => _ | None => _ end).
    + by eapply (pipes_same x _ _ pipe_close).
    + eapply (pipes_same x _ _ (fun p => p)); [done|done|by rewrite fmap_id_pipes|done|done].
  - eapply (pipes_same x _ _ (fun p => p)); [done|done|by rewrite fmap_id_pipes|done|done].
Qed.
Lemma wait_inv x m : em_running m = Some x -> exec_inv m -> exec_inv (em_set (Some (Wait x)) m).
Proof.
  intros R I. unfold Wait. destruct (xs_session x) as [s|]; [destruct (ss_terminal s)|].
  - eapply (pipes_same x _ _ (fun p => p)); [done|done|by cbn; rewrite fmap_id_pipes|done|done].
  - by eapply (pipes_same x _ _ pipe_close).
  - by eapply (pipes_same x _ _ pipe_close).
Qed.
Lemma pipe_ok_end sent p : pipe_ok sent p -> pipe_ok sent (pipe_done p).
Proof. intros (_ & K). by split. Qed.
Lemma pipe_ok_read n sent p : pp_held p = None -> pipe_ok sent p -> pipe_ok sent (pipe_read n p).
Proof.
  intros Hd (K & T). split; [|exact T]. unfold held in *. rewrite Hd in K. cbn in *. intros D. by rewrite string_take_drop, (K D).
Qed.
Lemma pipe_ok_write data shown sent p :
  (pp_tty p = false -> shown = data /\ slen (pp_data p) + slen data <= capacity) ->
  pipe_ok sent p -> pipe_ok sent (pipe_write data shown p).
Proof.
  intros G (K & [rest K'] & T). split; [|split]; cbn.
  - intros D. rewrite (K D). unfold held. cbn. by rewrite !string_app_assoc.
  - exists (rest +:+ shown). by rewrite K', string_app_assoc.
  - intros Ty. rewrite (T Ty). by destruct (G Ty) as [-> _].
Qed.

Lemma exec_step_inv m m' : step m m' -> exec_inv m -> exec_inv m'.
Proof.
  intros S I. destruct S as [id req m|we id input m|l1 id req l2 started m R Q|x m R C|i p data shown x m R E W Cl G|i p x m R E|w x m R Ex
    |i n p x m R C E D Hd Cl B L|i data p x m R C E D Hd|i data p x m R C E D Hd|i p x m R C E D Hd Em W|i p x m R C E D Hd Cl
    |w x m R C Ex|w x m R W Ex F].
  - exact I.
  - by apply input_inv.
  - by apply handleExec_start_inv.
  - eapply (pipes_same x _ _ (fun p => p)); [done|done|by cbn; rewrite fmap_id_pipes|done|done].
  - eapply (pipe_change x m _ i p); [done|done| |done|done| |done]; [done|]. intros sent. by apply pipe_ok_write.
  - by apply (pipe_change x m _ i p (pipe_hangup p)).
  - eapply (pipes_same x _ _ (fun p => p)); [done|done|by cbn; rewrite fmap_id_pipes|done|done].
  - eapply (pipe_change x m _ i p); [done|done| |done|done| |done]; [done|]. intros sent. by apply pipe_ok_read.
  - by apply send_inv.
  - eapply (pipe_change x m _ i p); [done|done| |done|done| |done]; [done|]. intros sent. apply pipe_ok_end.
  - eapply (pipe_change x m _ i p); [done|done| |done|done| |done]; [done|]. intros sent. apply pipe_ok_end.
  - eapply (pipe_change x m _ i p); [done|done| |done|done| |done]; [done|]. intros sent. apply pipe_ok_end.
  - by apply wait_inv.
  - done.
Qed.

Lemma exec_reachable_inv m m' : rtc step m m' -> exec_inv m -> exec_inv m'.
Proof. intros S. induction S as [|m0 m1 m2 S _ IH]; [done|]. intros I. apply IH. by eapply exec_step_inv. Qed.

(** C12. What is sent of a command's output. At every moment of every
    interleaving of the process, the stream goroutines, input, cancellation and
    further requests, the frames sent for a stream of the running command are, in
    order and without repetition, a prefix of what came out of the stream; and
    while the stream's goroutine runs, exactly the rest is in its buffer and, after
    that, still in the stream. What comes out of a pipe, so for every command
    without a terminal, is what the command wrote to it; a terminal's line
    discipline may show anything. *)
Theorem exec_output_in_order m x i p :
  rtc step newExecManager m -> em_running m = Some x -> xs_pipes x !! i = Some p ->
  let sent := text (pp_stream p) (drop (xs_base x) (em_sent m)) in
  (exists rest, pp_out p = sent +:+ rest) /\ (pp_done p = false -> pp_out p = sent +:+ default "" (pp_held p) +:+ pp_data p) /\
  (pp_tty p = false -> pp_out p = pp_written p).
Proof.
  intros S R E sent. assert (I := exec_reachable_inv _ _ S Logic.I).
  unfold exec_inv in I. rewrite R in I. destruct I as (_ & _ & I). destruct (I i p E) as (K1 & K2 & K3). done.
Qed.

(** ** What can be lost *)

(** A request that starts a process with pipes. *)
Definition runnable (req : ExecRequest) : Prop :=
  exists name args path, xq_Argv req = name :: args /\
    resolveExecCommandPath os_Getwd os_Stat name (xq_Env req) (xq_WorkDir req) = Ok path.
Definition started_state (id : Z) (req : ExecRequest) (base : nat) (current : bool) : execState := {|
  xs_id := id; xs_session := (StartSession req).1; xs_pipes := new_pipe (on_terminal (StartSession req).1) <$> (StartSession req).2; xs_current := current;
  xs_cancelled := false; xs_exited := None; xs_waited := false; xs_base := base |}.
Lemma start_runs id req sent :
  runnable req ->
  rtc step {| em_queue := [(id, req)]; em_running := None; em_sent := sent |}
    {| em_queue := []; em_running := Some (started_state id req (length sent) true); em_sent := sent |}.
Proof.
  intros (name & args & path & A & P). eapply rtc_l; [apply (es_start _ _ _ [] id req [] (Ok tt)); done|].
  unfold handleExec_start. rewrite A, P. destruct (StartSession req) as [session streams] eqn:S.
  eapply rtc_l; [apply es_current; done|]. unfold started_state. rewrite S. apply rtc_refl.
Qed.

(** C22. Output can be lost. A command writes [data], which its pipe can hold, exits with status 0 and its
    pipes are at their end; [handleExec] calls [cmd.Wait] before the stream
    goroutines have read everything, [Wait] closes the pipes, and the run ends with
    exit code 0 and not a single byte of the output sent. *)
Theorem exec_output_can_be_lost id req data :
  runnable req -> xq_Terminal req = false -> slen data <= capacity ->
  exists m x p, rtc step newExecManager m /\ em_running m = Some x /\ xs_exited x = Some WaitOk /\
    xs_pipes x !! 0%nat = Some p /\ pp_stream p = StreamStdout /\ pp_written p = data /\ em_sent m = [] /\
    exists m', rtc step m m' /\ em_running m' = None /\
      em_sent m' = [envelope id (MExecResult {| xr_ExitCode := 0; xr_Stderr := ""; xr_Error := "" |})].
Proof.
  intros R T Fits. assert (St : (StartSession req).2 = [StreamStdout; StreamStderr] /\
    on_terminal (StartSession req).1 = false).
  { unfold StartSession. rewrite T, andb_false_r. by destruct (xq_Interactive req). }
  destruct St as [St Se]. set (x0 := started_state id req 0 true).
  set (p0 := pipe_write data data (new_pipe false StreamStdout)). set (q0 := new_pipe false StreamStderr).
  assert (X0 : xs_pipes x0 = [new_pipe false StreamStdout; q0]) by (unfold x0, started_state; cbn; by rewrite St, Se).
  set (x1 := with_pipes [p0; q0] false x0). set (x2 := with_exit WaitOk x1).
  set (m := {| em_queue := []; em_running := Some x2; em_sent := [] |}).
  exists m, x2, p0. split; [|do 6 (split; [done|])].
  - eapply rtc_l; [apply (es_request _ _ _ id req)|]. cbn. etrans; [by apply (start_runs id req [])|].
    eapply rtc_l; [apply (es_write _ _ _ 0 (new_pipe false StreamStdout) data data x0); [done|by rewrite X0|done|done|by split]|].
    rewrite X0. cbn. apply rtc_once. apply (es_exit _ _ _ WaitOk x1); done.
  - assert (W : xs_pipes (Wait x2) = [pipe_close p0; pipe_close q0] /\ xs_current (Wait x2) = true /\ xs_id (Wait x2) = id /\
                xs_waited (Wait x2) = true /\ xs_exited (Wait x2) = Some WaitOk).
    { unfold Wait. change (xs_session x2) with ((StartSession req).1). destruct ((StartSession req).1) as [s|]; cbn in Se; [by rewrite Se|done]. }
    destruct W as (W1 & W2 & W3 & W4 & W5). set (y := Wait x2) in *.
    set (y1 := with_pipes [pipe_done (pipe_close p0); pipe_close q0] (xs_waited y) y).
    set (y2 := with_pipes [pipe_done (pipe_close p0); pipe_done (pipe_close q0)] (xs_waited y1) y1).
    eexists. split; [|split].
    + eapply rtc_l; [apply (es_wait _ _ _ WaitOk x2); done|]. fold y.
      eapply rtc_l; [apply (es_read_error _ _ _ 0 (pipe_close p0) y); [done|done|by rewrite W1|done|done|done]|].
      unfold StreamOutput_end. rewrite W1. cbn [insert list_insert]. fold y1.
      eapply rtc_l; [apply (es_read_error _ _ _ 1 (pipe_close q0) y1); done|]. unfold StreamOutput_end. cbn [insert list_insert]. 
      eapply rtc_once. apply (es_finish _ _ _ WaitOk y2); [done|done|done|by repeat constructor].
    + done.
    + cbn. by rewrite W3.
Qed.

(** Input can be lost. The read loop hands a request to a goroutine and
    handles the input that follows itself; when that is before the command has been
    started and made current, the input (data, the end of the input, a new size or
    a cancellation) is dropped: the command then runs with a session that never saw
    it. *)
Theorem early_input_dropped id req write_error input sent :
  runnable req ->
  let m := {| em_queue := [(id, req)]; em_running := None; em_sent := sent |} in
  step {| em_queue := []; em_running := None; em_sent := sent |} m /\
  step m (handleExecInput write_error id input m) /\
  exists m' x, rtc step (handleExecInput write_error id input m) m' /\ em_running m' = Some x /\ xs_id x = id /\
    xs_current x = true /\ xs_cancelled x = false /\ xs_session x = (StartSession req).1.
Proof.
  intros R m. split; [apply (es_request _ _ _ id req)|]. split; [apply es_input|].
  exists {| em_queue := []; em_running := Some (started_state id req (length sent) true); em_sent := sent |}, (started_state id req (length sent) true).
  split; [by apply start_runs|done].
Qed.
End exec.

(** * Witnesses *)

#[local] Existing Instance sampleLib.

Definition demo_cwd : result string := Ok "/work".
Definition demo_stat (path : string) : option (bool * Z) := if bool_decide (path = "/usr/bin/ls") then Some (true, 0x1ed) else None.
Definition demo_ls : ExecRequest := {|
  xq_Argv := ["ls"]; xq_Env := ["PATH=/bin:/usr/bin"]; xq_WorkDir := ""; xq_Interactive := true; xq_Terminal := false; xq_InitialSize := None |}.
Lemma demo_runnable : runnable demo_cwd demo_stat demo_ls.
Proof. exists "ls", [], "/usr/bin/ls". split; vm_compute; reflexivity. Qed.

Lemma exec_output_can_be_lost_witness :
  exists m, rtc (exec_step demo_cwd demo_stat 65536) newExecManager m /\
    exists m', rtc (exec_step demo_cwd demo_stat 65536) m m' /\
      em_sent m' = [envelope 4 (MExecResult {| xr_ExitCode := 0; xr_Stderr := ""; xr_Error := "" |})].
Proof.
  destruct (exec_output_can_be_lost demo_cwd demo_stat 65536 4 demo_ls "total 0" demo_runnable eq_refl ltac:(vm_compute; discriminate))
    as (m & x & p & A & _ & _ & _ & _ & _ & _ & m' & B & _ & C).
  exists m. split; [exact A|]. exists m'. split; [exact B|exact C].
Defined.

Definition end_of_input : ExecInput := {| xi_Data := "y"; xi_EOF := true; xi_Resize := None; xi_Cancel := false |}.
Lemma early_input_dropped_witness :
  exists m' x, rtc (exec_step demo_cwd demo_stat 65536) {| em_queue := [(4, demo_ls)]; em_running := None; em_sent := [] |} m' /\
    em_running m' = Some x /\ xs_session x = Some {| ss_terminal := false; ss_stdin := true; ss_written := ""; ss_stdinClosed := false;
                                                     ss_size := (0, 0); ss_ptyClosed := false |}.
Proof.
  destruct (early_input_dropped demo_cwd demo_stat 65536 4 demo_ls false end_of_input [] demo_runnable)
    as (_ & _ & m' & x & A & B & _ & _ & _ & C).
  exists m', x. split; [exact A|]. split; [exact B|exact C].
Defined.

(** The command wrote "abc" of which "a" was sent and "b" is in the buffer. *)
Definition demo_pipe : pipe := pipe_write "abc" "abc" (new_pipe false StreamStdout).
Definition demo_pipe_held : pipe := pipe_read 1 (pipe_sent (pipe_read 1 demo_pipe)).
Definition demo_state (p : pipe) : execState :=
  with_pipes [p; new_pipe false StreamStderr] false (started_state 4 demo_ls 0 true).
Definition demo_manager (p : pipe) (sent : list Envelope) : execManager :=
  {| em_queue := []; em_running := Some (demo_state p); em_sent := sent |}.
Definition demo_frame : Envelope := envelope 4 (MStreamFrame {| sf_Stream := StreamStdout; sf_Data := "a" |}).
Lemma demo_sent_run : rtc (exec_step demo_cwd demo_stat 65536) newExecManager (demo_manager demo_pipe_held [demo_frame]).
Proof.
  eapply rtc_l; [apply (es_request _ _ _ 4 demo_ls)|]. etrans; [apply (start_runs demo_cwd demo_stat 65536 4 demo_ls []), demo_runnable|].
  apply (rtc_l _ _ (demo_manager demo_pipe [])).
  { apply (es_write _ _ _ 0 (new_pipe false StreamStdout) "abc" "abc" (started_state 4 demo_ls 0 true)); try reflexivity. vm_compute. intuition discriminate. }
  apply (rtc_l _ _ (demo_manager (pipe_read 1 demo_pipe) [])).
  { apply (es_read _ _ _ 0 1 demo_pipe (demo_state demo_pipe)); try reflexivity; simpl; lia. }
  apply (rtc_l _ _ (demo_manager (pipe_sent (pipe_read 1 demo_pipe)) [demo_frame])).
  { apply (es_send _ _ _ 0 "a" (pipe_read 1 demo_pipe) (demo_state (pipe_read 1 demo_pipe))); reflexivity. }
  apply rtc_once. apply (es_read _ _ _ 0 1 (pipe_sent (pipe_read 1 demo_pipe)) (demo_state (pipe_sent (pipe_read 1 demo_pipe)))); try reflexivity; simpl; lia.
Qed.
Lemma exec_output_in_order_witness :
  pp_written demo_pipe_held = text StreamStdout [demo_frame] +:+ "b" +:+ "c".
Proof.
  destruct (exec_output_in_order demo_cwd demo_stat 65536 (demo_manager demo_pipe_held [demo_frame]) (demo_state demo_pipe_held)
    0 demo_pipe_held demo_sent_run) as (_ & K & T); [reflexivity|reflexivity|].
  rewrite <- T by reflexivity. apply K. reflexivity.
Defined.
