(* ===== verification/System.v ===== *)
(** The helper and the host connected by the control channel: each end reads
    what the other wrote, in order, and everything interleaves.

    The main result: whatever a call in the helper returns is what the manager
    answered to exactly that request, at some moment of the run. *)
From S2P Require Import Prelude GoStrings GoNet Policy Access Manager Messages MitmCA Bridge BridgeProofs HostClient.

Section system.
Context `{GoLib} `{Net} `{CertLib}.
Context (dial : string -> nstate -> option string * nstate) (others : host -> host -> Prop).

Record system := { sy_bridge : RuntimeBridge; sy_client : Client }.

Inductive system_step : system -> system -> Prop :=
| ss_helper b b' c : bridge_move b b' -> system_step {| sy_bridge := b; sy_client := c |} {| sy_bridge := b'; sy_client := c |}
| ss_host b c c' : client_step dial others c c' ->
    system_step {| sy_bridge := b; sy_client := c |} {| sy_bridge := b; sy_client := c' |}
| ss_up b c env l : cl_loop c = None -> b_out b = cl_in c ++ env :: l ->
    system_step {| sy_bridge := b; sy_client := c |} {| sy_bridge := b; sy_client := ReadLoop_dispatch env c |}
| ss_down b c env l : b_loop b = LReading -> cl_out c = b_in b ++ env :: l ->
    system_step {| sy_bridge := b; sy_client := c |} {| sy_bridge := ReadLoop_round env b; sy_client := c |}.

Definition initial_system (proxyAddr sandboxID : string) (h : host) (ca : option mitmCA) : system :=
  {| sy_bridge := new_bridge proxyAddr; sy_client := newClient sandboxID (Some h) ca |}.

(** ** Steps of the host that answer nothing *)

Definition is_close (t : task) : Prop := match t with TClose _ _ => True | _ => False end.
(** The manager and the input are untouched, the goroutines that start send a
    terminal close; what is sent is no response. *)
Definition quiet (c c' : Client) : Prop :=
  cl_sandboxID c' = cl_sandboxID c /\ cl_host c' = cl_host c /\
  (exists k, cl_tasks c' = cl_tasks c ++ k /\ Forall is_close k) /\ cl_in c' = cl_in c /\
  exists l, cl_out c' = cl_out c ++ l /\ Forall (fun env => is_response env = false) l.

Lemma quiet_refl c : quiet c c.
Proof. repeat split; exists []; by rewrite app_nil_r. Qed.
Lemma quiet_trans c1 c2 c3 : quiet c1 c2 -> quiet c2 c3 -> quiet c1 c3.
Proof.
  intros (A1 & A2 & (k1 & A3 & G1) & A4 & l1 & A5 & F1) (B1 & B2 & (k2 & B3 & G2) & B4 & l2 & B5 & F2).
  split; [congruence|]. split; [congruence|]. split; [|split; [congruence|]].
  - exists (k1 ++ k2). split; [|by apply Forall_app]. by rewrite B3, A3, app_assoc.
  - exists (l1 ++ l2). split; [|by apply Forall_app]. by rewrite B5, A5, app_assoc.
Qed.
(** A change of fields the definition does not mention. *)
Ltac quiet_eq := repeat split; exists []; (split; [by rewrite app_nil_r|done]).
Lemma quiet_send env c : is_response env = false -> quiet c (send env c).
Proof.
  intros R. repeat split; [exists []; by rewrite app_nil_r|]. exists [env]. split; [done|]. by constructor.
Qed.
Lemma quiet_async e t c : quiet c (sendTerminalCloseAsync e t c).
Proof.
  repeat split; [exists [TClose t e]; split; [done|by constructor]|]. exists []. by rewrite app_nil_r.
Qed.
Lemma quiet_tunnels a b l c : quiet c (with_tunnels a b l c).
Proof. quiet_eq. Qed.
Lemma quiet_runs a l c : quiet c (with_runs a l c).
Proof. quiet_eq. Qed.
Lemma quiet_control a b l c : quiet c (with_control a b l c).
Proof. quiet_eq. Qed.
Lemma quiet_session f s c : quiet c (on_session f s c).
Proof. quiet_eq. Qed.
Lemma quiet_clear c : quiet c (clear_current c).
Proof. quiet_eq. Qed.
Lemma quiet_on_tunnel f t c : quiet c (on_tunnel f t c).
Proof. quiet_eq. Qed.
Lemma quiet_closeTerminal t tn c : quiet c (closeTerminal t tn c).
Proof. quiet_eq. Qed.
Lemma quiet_terminal e t tn c : quiet c (sendTerminalClose e t tn c).
Proof.
  unfold sendTerminalClose. destruct (ht_sentTerminalClose tn); [apply quiet_refl|].
  eapply quiet_trans; [apply quiet_on_tunnel|by apply quiet_send].
Qed.
Lemma quiet_writeclose e t tn c : quiet c (SendWriteClose e t tn c).
Proof.
  unfold SendWriteClose. destruct (ht_sentWriteClose tn); [apply quiet_refl|].
  eapply quiet_trans; [apply quiet_on_tunnel|by apply quiet_send].
Qed.
Lemma quiet_fail e c : quiet c (failCurrentRun e c).
Proof. unfold failCurrentRun. destruct (cl_current c); quiet_eq. Qed.
Lemma quiet_ready r c : quiet c (notifyReady r c).
Proof. unfold notifyReady. destruct (cl_ready c); quiet_eq. Qed.
Lemma quiet_shutdown c : quiet c (ShutdownTunnels c).
Proof. quiet_eq. Qed.
Lemma quiet_deliver env t c : quiet c (tunnel_deliver env t c).
Proof.
  unfold tunnel_deliver. destruct (cl_heap c !! t) as [tn|]; [|apply quiet_refl]. destruct (ht_closed tn); [apply quiet_refl|].
  case_bool_decide; [apply quiet_on_tunnel|]. eapply quiet_trans; [apply quiet_async|apply quiet_closeTerminal].
Qed.
Lemma quiet_inbound_closed t tn c : quiet c (relayInbound_closed t tn c).
Proof. quiet_eq. Qed.

Create HintDb quiet.
Hint Resolve quiet_on_tunnel quiet_closeTerminal quiet_terminal quiet_writeclose quiet_fail quiet_ready quiet_shutdown
  quiet_deliver quiet_inbound_closed quiet_runs quiet_tunnels quiet_control
  quiet_session quiet_clear : quiet.
(** From the last change back to the first. *)
Ltac quiet := repeat first [apply quiet_refl|eapply quiet_trans; [|solve [eauto 1 with quiet nocore]]].

Lemma quiet_outbound data err t tn c : quiet c (relayOutbound_round data err t tn c).
Proof.
  unfold relayOutbound_round. cbv zeta. set (c1 := if bool_decide (data = "") then c else _).
  assert (Q : quiet c c1) by (unfold c1; case_bool_decide; [apply quiet_refl|by apply quiet_send]). clearbody c1.
  eapply quiet_trans; [exact Q|]. clear Q.
  destruct err as [[]|]; quiet.
Qed.
Lemma quiet_outbound_error ok e t tn c : quiet c (relayOutbound_send_error ok e t tn c).
Proof.
  unfold relayOutbound_send_error. eapply quiet_trans; [|apply quiet_on_tunnel]. eapply quiet_trans; [|apply quiet_closeTerminal].
  destruct ok; quiet.
Qed.
Lemma quiet_inbound env err t tn c : quiet c (relayInbound_round env err t tn c).
Proof.
  unfold relayInbound_round. cbv zeta. set (c1 := on_tunnel _ t c). assert (Q : quiet c c1) by apply quiet_on_tunnel. clearbody c1.
  eapply quiet_trans; [exact Q|]. clear Q. repeat case_match; quiet.
Qed.
Lemma quiet_read_error e c : quiet c (ReadLoop_error e c).
Proof. unfold ReadLoop_error, loop_ended. quiet. Qed.
Lemma quiet_run argv o s c c' : Run_start argv o c = Ok (s, c') -> quiet c c'.
Proof.
  unfold Run_start, installRunSession. destruct (cl_current c); [done|]. cbn [result_bind]. intros [= <- <-].
  eapply quiet_trans; [|by apply quiet_send]. quiet_eq.
Qed.
Lemma quiet_run_error argv o e c : quiet c (Run_send_error argv o e c).2.
Proof.
  unfold Run_send_error, installRunSession. destruct (cl_current c); [apply quiet_refl|]. cbn [snd].
  eapply quiet_trans; [|apply quiet_fail]. quiet_eq.
Qed.

(** A dispatch that starts no goroutine. *)
Lemma dispatch_quiet env c :
  e_Ready env <> None \/ requested env = None ->
  quiet (with_io (cl_tasks c) (cl_in c ++ [env]) (cl_out c) c) (ReadLoop_dispatch env c).
Proof.
  intros E. unfold ReadLoop_dispatch. set (c1 := with_io _ (cl_in c ++ [env]) _ c). clearbody c1.
  destruct (e_Ready env) as [ready|].
  - destruct (negb _); [unfold loop_ended|]; quiet.
  - destruct E as [E|E]; [done|]. rewrite E. unfold HandleTunnelFrame, HandleTunnelClose, handleStream, handleExecResult.
    repeat case_match; quiet.
Qed.

(** ** What the answers are *)

Context (sandboxID : string) (P : host -> Prop).
Definition governed (c : Client) : Prop :=
  cl_sandboxID c = sandboxID /\ match cl_host c with Some h => P h | None => True end.

(** Call [i] of the helper made this request. *)
Definition requested_by (b : RuntimeBridge) (id : Z) (m : message) : Prop :=
  exists i c, b_calls b !! i = Some c /\ c_id c = id /\ request_message (c_kind c) = m.
(** [m] is the manager's answer to the request with that number. *)
Definition authentic (b : RuntimeBridge) (id : Z) (m : message) : Prop :=
  exists req c0, requested_by b id req /\ governed c0 /\ (answer dial id req c0).1.1 = m.

Lemma requested_mono b b' id m : calls_extend b b' -> requested_by b id m -> requested_by b' id m.
Proof.
  intros X (i & c & E & Hid & M). destruct (X i c E) as (c' & E' & K1 & K2). exists i, c'.
  split; [done|]. split; congruence.
Qed.
Lemma authentic_mono b b' id m : calls_extend b b' -> authentic b id m -> authentic b' id m.
Proof. intros X (req & c0 & R & ?). exists req, c0. split; [by eapply requested_mono|done]. Qed.

Definition task_ok (b : RuntimeBridge) (t : task) : Prop :=
  match t with
  | TRequest id m => requested_by b id m
  | TSend id m _ => authentic b id m
  | TActivate _ _ | TClose _ _ => True
  end.
(** An envelope of the helper: a request of one of its calls, or one without a request. *)
Definition up_ok (b : RuntimeBridge) (env : Envelope) : Prop :=
  e_Ready env <> None \/ requested env = None \/ exists m, requested env = Some m /\ requested_by b (e_ID env) m.
Definition down_ok (b : RuntimeBridge) (env : Envelope) : Prop :=
  is_response env = true -> exists m, env = envelope (e_ID env) m /\ authentic b (e_ID env) m.

Record system_inv (s : system) : Prop := {
  si_bridge : bridge_inv (sy_bridge s);
  si_up : cl_in (sy_client s) `prefix_of` b_out (sy_bridge s);
  si_down : b_in (sy_bridge s) `prefix_of` cl_out (sy_client s);
  si_requests : Forall (up_ok (sy_bridge s)) (b_out (sy_bridge s));
  si_responses : Forall (down_ok (sy_bridge s)) (cl_out (sy_client s));
  si_tasks : Forall (task_ok (sy_bridge s)) (cl_tasks (sy_client s));
  si_governed : governed (sy_client s);
}.

Lemma quiet_inv b c c' :
  system_inv {| sy_bridge := b; sy_client := c |} -> quiet c c' -> system_inv {| sy_bridge := b; sy_client := c' |}.
Proof.
  intros I (Q1 & Q2 & (k & Q3 & G) & Q4 & l & Q5 & F). destruct I as [I1 I2 I3 I4 I5 I6 I7]. cbn in *. split; cbn; try done.
  - by rewrite Q4.
  - rewrite Q5. by apply prefix_app_r.
  - rewrite Q5. apply Forall_app. split; [done|]. eapply Forall_impl; [done|]. intros env R R'. congruence.
  - rewrite Q3. apply Forall_app. split; [done|]. eapply Forall_impl; [done|]. by intros [].
  - unfold governed in *. by rewrite Q1, Q2.
Qed.

Lemma up_ok_mono b b' env : calls_extend b b' -> up_ok b env -> up_ok b' env.
Proof. intros X [?|[?|(m & E & R)]]; [by left|by right; left|]. right; right. exists m. split; [done|by eapply requested_mono]. Qed.
Lemma down_ok_mono b b' env : calls_extend b b' -> down_ok b env -> down_ok b' env.
Proof. intros X D R. destruct (D R) as (m & E & A). exists m. split; [done|by eapply authentic_mono]. Qed.
Lemma task_ok_mono b b' t : calls_extend b b' -> task_ok b t -> task_ok b' t.
Proof. destruct t; simpl; eauto using requested_mono, authentic_mono. Qed.

(** A step of the helper that decodes nothing or one envelope of the host. *)
Lemma helper_inv b b' c l :
  system_inv {| sy_bridge := b; sy_client := c |} -> calls_extend b b' -> bridge_inv b' ->
  b_out b' = b_out b ++ l -> Forall (up_ok b') l -> b_in b' `prefix_of` cl_out c ->
  system_inv {| sy_bridge := b'; sy_client := c |}.
Proof.
  intros [I1 I2 I3 I4 I5 I6 I7] X B O U D. cbn in *. split; cbn; try done.
  - rewrite O. by apply prefix_app_r.
  - rewrite O. apply Forall_app. split; [|done]. eapply Forall_impl; [done|]. intros env. by apply up_ok_mono.
  - eapply Forall_impl; [done|]. intros env. by apply down_ok_mono.
  - eapply Forall_impl; [done|]. intros t. by apply task_ok_mono.
Qed.

(** What a helper step sends. *)
Lemma end_call_io i c r b : b_out (end_call i c r b) = b_out b /\ b_in (end_call i c r b) = b_in b.
Proof.
  unfold end_call. cbn. destruct (is_connect (c_kind c)), r; try done.
  destruct (unregister_same (c_id c) b) as (_ & _ & K1 & _ & K2 & _). by rewrite K1, K2.
Qed.
Lemma move_sends b b' : bridge_move b b' -> b_in b' = b_in b /\ exists l, b_out b' = b_out b ++ l /\ Forall (up_ok b') l.
Proof.
  intros S. destruct S as [k b|i c b E Ph|i c e b E Ph|i c e b E Ph|i c env b E Ph Ch|e b R
    |d env t b R E B|d env t b R E Cl|d b|id m b M|i c b E K];
    try (split; [done|]; exists []; by rewrite app_nil_r);
    try (destruct (end_call_io i c (RErr e) b) as [-> ->]; split; [done|]; exists []; by rewrite app_nil_r).
  - unfold begin_call. destruct (is_connect k); cbn; split; try done; exists []; by rewrite app_nil_r.
  - split; [done|]. exists [envelope (c_id c) (request_message (c_kind c))]. split; [done|]. constructor; [|done].
    right; right. exists (request_message (c_kind c)). split; [by destruct (c_kind c)|].
    exists i, (set_call_phase CWaiting c). cbn. rewrite list_lookup_insert_eq by (by eapply lookup_lt_Some). done.
  - destruct (end_call_io i c (receive_result (c_kind c) (c_id c) env) b) as [-> ->]. split; [done|]. exists [].
    by rewrite app_nil_r.
  - split; [done|]. exists [envelope id m]. split; [done|]. constructor; [|done]. right; left. by destruct m.
  - destruct (unregister_same (c_id c) b) as (_ & _ & -> & _ & -> & _). split; [done|]. exists []. by rewrite app_nil_r.
Qed.
Lemma read_sends env b : b_in (ReadLoop_round env b) = b_in b ++ [env] /\
  exists l, b_out (ReadLoop_round env b) = b_out b ++ l /\ Forall (up_ok (ReadLoop_round env b)) l.
Proof.
  assert (N : b_out b = b_out b ++ []) by (by rewrite app_nil_r).
  unfold ReadLoop_round, handleHello, deliver, DeliverTunnel.
  repeat case_match; simplify_eq/=; split; try done; try (exists []; split; [exact N|done]).
  eexists. split; [reflexivity|]. constructor; [|done]. by left.
Qed.

Lemma answer_io id m c :
  let c' := (answer dial id m c).2 in cl_in c' = cl_in c /\ cl_out c' = cl_out c /\ cl_sandboxID c' = cl_sandboxID c.
Proof.
  unfold answer, HandleProxyRequest_answer, HandleMITMRequest_answer, HandleDNSRequest_answer, HandleLeafCertRequest_answer,
    HandleConnectRequest_answer. cbv zeta. repeat case_match; by simplify_eq/=.
Qed.

(** What the theorems below rest on: the property of the manager is kept by its
    own handlers and by everything else. *)
Hypothesis answer_keeps : forall id m c, governed c -> governed (answer dial id m c).2.
Hypothesis others_keep : forall h h', P h -> others h h' -> P h'.

Lemma drop_task_inv b c l1 x l2 :
  cl_tasks c = l1 ++ x :: l2 -> system_inv {| sy_bridge := b; sy_client := c |} ->
  system_inv {| sy_bridge := b; sy_client := with_io (l1 ++ l2) (cl_in c) (cl_out c) c |}.
Proof.
  intros T [I1 I2 I3 I4 I5 I6 I7]. cbn in *. rewrite T in I6. apply Forall_app in I6 as [F1 F2].
  apply Forall_cons in F2 as [_ F2]. split; cbn; try done. by apply Forall_app.
Qed.

Lemma host_step_inv b c c' :
  client_step dial others c c' -> system_inv {| sy_bridge := b; sy_client := c |} ->
  system_inv {| sy_bridge := b; sy_client := c' |}.
Proof.
  intros S I. destruct S as [l1 l2 id m r t c0 c T A|l1 l2 id m t c T|l1 l2 id m t e c T|l1 l2 id t c T|l1 l2 t tn e c T E|e c L|c|argv o s c c' R
    |argv o e c|s e c|id i c|data err t tn c E O|ok e t tn c E O|env l err t tn c E O R|t tn c E O Cl|c|h h' c E O];
    try (by eapply quiet_inv; [exact I|eauto using quiet_read_error, quiet_run, quiet_run_error, quiet_outbound,
           quiet_outbound_error, quiet_inbound, quiet_inbound_closed, quiet_shutdown, quiet_session]).
  - destruct I as [I1 I2 I3 I4 I5 I6 I7]. cbn in *. rewrite T in I6. apply Forall_app in I6 as [F1 F2].
    apply Forall_cons in F2 as [R F2]. pose proof (answer_io id m c) as (A1 & A2 & A3).
    pose proof (answer_keeps id m c I7) as G. rewrite A in A1, A2, A3, G. cbn in *.
    split; cbn; rewrite ?A1, ?A2; try done. apply Forall_app. split; [done|]. constructor; [|done].
    exists m, c. split; [done|]. split; [done|]. by rewrite A.
  - destruct I as [I1 I2 I3 I4 I5 I6 I7]. cbn in *. rewrite T in I6. apply Forall_app in I6 as [F1 F2].
    apply Forall_cons in F2 as [R F2]. split; cbn; try done.
    + by apply prefix_app_r.
    + apply Forall_app. split; [done|]. constructor; [|done]. intros _. by exists m.
    + assert (F : Forall (task_ok b) (l1 ++ l2)) by (by apply Forall_app). destruct t; [|done].
      apply Forall_app. split; [done|]. by constructor.
  - apply (drop_task_inv _ _ _ _ _ T) in I. eapply quiet_inv; [exact I|]. unfold send_answer_error. repeat case_match; quiet; quiet_eq.
  - apply (drop_task_inv _ _ _ _ _ T) in I. eapply quiet_inv; [exact I|]. unfold activate, activateTunnel.
    destruct (cl_pendingTunnels _ !! id); eapply quiet_trans; [|apply quiet_on_tunnel|apply quiet_refl|apply quiet_on_tunnel].
    apply quiet_tunnels.
  - apply (drop_task_inv _ _ _ _ _ T) in I. eapply quiet_inv; [exact I|]. apply quiet_terminal.
  - eapply quiet_inv; [exact I|]. eapply quiet_trans; [apply quiet_control|]. by apply quiet_send.
  - eapply quiet_inv; [exact I|]. quiet_eq.
  - eapply quiet_inv; [exact I|]. by apply quiet_send.
  - destruct I as [I1 I2 I3 I4 I5 I6 [I7 I8]]. cbn in *. rewrite E in I8. split; cbn; try done. split; [done|]. cbn. by eapply others_keep.
Qed.

Lemma prefix_next {A} (l k : list A) x rest : l = k ++ x :: rest -> k ++ [x] `prefix_of` l.
Proof. intros ->. exists rest. by rewrite <- app_assoc. Qed.

Lemma system_step_inv s s' :
  system_step s s' -> Z.of_nat (length (b_calls (sy_bridge s'))) < max_calls -> system_inv s -> system_inv s'.
Proof.
  intros S L I. destruct S as [b b' c M|b c c' M|b c env l N E|b c env l R E]; cbn in L.
  - assert (B := bs_move _ _ M). destruct (move_sends _ _ M) as [Hin (l & O & U)].
    eapply helper_inv; [exact I|by apply bridge_step_extend|eapply bridge_step_inv; [done|done|apply I]|exact O|exact U|].
    rewrite Hin. apply I.
  - by eapply host_step_inv.
  - assert (I' : system_inv {| sy_bridge := b; sy_client := with_io (cl_tasks c) (cl_in c ++ [env]) (cl_out c) c |}).
    { destruct I as [I1 I2 I3 I4 I5 I6 I7]. cbn in *. split; cbn; try done. by eapply prefix_next. }
    assert (U : up_ok b env).
    { pose proof (si_requests _ I) as F. cbn in F. rewrite E in F. apply Forall_app in F as [_ F]. by apply Forall_cons in F as [F _]. }
    destruct (e_Ready env) as [ready|] eqn:Rd; [eapply quiet_inv; [exact I'|]; apply dispatch_quiet; left; congruence|].
    destruct U as [?|[?|(m & Rm & By)]]; [congruence|eapply quiet_inv; [exact I'|]; apply dispatch_quiet; by right|].
    unfold ReadLoop_dispatch. rewrite Rd, Rm. destruct I' as [I1 I2 I3 I4 I5 I6 I7]. cbn in *. split; cbn; try done.
    apply Forall_app. split; [done|]. by constructor.
  - destruct (read_sends env b) as [Hin (l' & O & U)].
    eapply helper_inv; [exact I|apply read_extend|apply read_inv, I|exact O|exact U|].
    rewrite Hin. by eapply prefix_next.
Qed.

Lemma system_step_length s s' : system_step s s' -> (length (b_calls (sy_bridge s)) <= length (b_calls (sy_bridge s')))%nat.
Proof.
  intros []; cbn; try done; [by apply bridge_step_length, bs_move|by apply bridge_step_length, bs_read].
Qed.

Lemma system_reachable_inv s0 s :
  rtc system_step s0 s -> system_inv s0 -> Z.of_nat (length (b_calls (sy_bridge s))) < max_calls -> system_inv s.
Proof.
  intros R. induction R as [|s0 s1 s2 S R IH]; [done|]. intros I L. apply IH; [|done].
  assert (M : forall x y, rtc system_step x y -> (length (b_calls (sy_bridge x)) <= length (b_calls (sy_bridge y)))%nat).
  { intros x y Rxy. induction Rxy as [|x y z Sxy _ IHxy]; [done|]. apply system_step_length in Sxy. lia. }
  pose proof (M _ _ R). eapply system_step_inv; [done|lia|done].
Qed.

Lemma initial_system_inv proxyAddr h ca : P h -> system_inv (initial_system proxyAddr sandboxID h ca).
Proof. intros Ph. split; cbn; try done. apply new_bridge_inv. Qed.

(** What a finished call returned. *)
Lemma call_authentic s i c r :
  system_inv s -> b_calls (sy_bridge s) !! i = Some c -> c_phase c = CDone r ->
  (exists e, r = RErr e) \/
  exists c0, governed c0 /\
    r = receive_result (c_kind c) (c_id c) (envelope (c_id c) (answer dial (c_id c) (request_message (c_kind c)) c0).1.1).
Proof.
  intros I E Ph. pose proof (si_bridge _ I) as [C _]. destruct (ci_done _ _ _ _ C i c r E Ph) as [?|(env & F & ->)]; [by left|].
  right. apply first_response_answers in F as [A In]. unfold answers in A. to_prop. destruct A as [[_ R] Hid].
  pose proof (si_responses _ I) as D. rewrite Forall_forall in D.
  destruct (D env) as (m & Em & req & c0 & (j & cj & Ej & Hj & Mj) & G & An); [|done|].
  { destruct (si_down _ I) as [rest ->]. apply elem_of_app. by left. }
  assert (j = i) as -> by (eapply calls_inv_ids; [done|done|done|congruence]).
  assert (cj = c) as -> by congruence. exists c0. split; [done|]. f_equal. rewrite Em, <- An, <- Mj, Hid. done.
Qed.
End system.
