(* ===== verification/Composed.v ===== *)
(** The calls of the helper as the ingress handlers see them.

    [Bridged] states what an implementation of the interface [IngressBridge]
    promises: a value it returns was returned by a completed call of the bridge.
    [sync_call] runs one call to its end over an idle channel, and
    [syncBridge], built on it, meets the promise. *)
From S2P Require Import Prelude GoStrings GoNet Sys Policy Access Manager Messages MitmCA.
From S2P Require Import Bridge BridgeProofs HostClient System Ingress.

Section composed.
Context `{GoLib} `{Net} `{CertLib}.
Context (dial : string -> nstate -> option string * nstate) (others : host -> host -> Prop).

Definition completed (s : system) (k : call_kind) (r : call_result) : Prop :=
  exists i c, b_calls (sy_bridge s) !! i = Some c /\ c_kind c = k /\ c_phase c = CDone r.

Notation run := (rtc (system_step dial others)).
Lemma run_length s s' : run s s' -> (length (b_calls (sy_bridge s)) <= length (b_calls (sy_bridge s')))%nat.
Proof. intros R. induction R as [|x y z S _ IH]; [done|]. apply system_step_length in S. lia. Qed.

(** ** The promise *)

Section promise.
Context {St : Type} `{!IngressBridge St} (R : St -> Prop) (view : St -> system).

(** The operation is a run of the system; a value is what a call of that kind returned. *)
Definition implements {A} (op : St -> (callError + A) * St) (result : A -> call_kind * call_result -> Prop) : Prop :=
  forall st, R st -> R (op st).2 /\ run (view st) (view (op st).2) /\
    forall a, (op st).1 = inr a -> exists k r, result a (k, r) /\ completed (view (op st).2) k r.
Definition returns {A} (k : call_kind) (wrap : A -> call_result) (a : A) (kr : call_kind * call_result) : Prop :=
  kr = (k, wrap a).

Class Bridged : Prop := {
  br_proxy req : implements (rt_ProxyRoundTrip req) (returns (CProxy req) RProxy);
  br_mitm req : implements (rt_MITMRoundTrip req) (returns (CMITM req) RMITM);
  br_connect host port :
    implements (fun st => let '(_, r, st) := rt_Connect host port st in (r, st)) (returns (CConnect host port) RConnect);
  br_authorize host port :
    implements (rt_AuthorizeConnect host port) (returns (CAuthorize host port false ("", "", "")) RConnect);
  br_authorize_transparent host port metadata :
    implements (rt_AuthorizeTransparentConnect host port metadata) (returns (CAuthorize host port true metadata) RConnect);
  br_leaf host : implements (rt_RequestLeafCert host) (fun _ kr => exists r, kr = (CLeafCert host, RLeafCert r));
}.
End promise.

(** ** One call at a time *)

(** Everything sent was read and no goroutine is left. *)
Definition idle (s : system) : Prop :=
  b_loop (sy_bridge s) = LReading /\ cl_loop (sy_client s) = None /\ cl_in (sy_client s) = b_out (sy_bridge s) /\
  b_in (sy_bridge s) = cl_out (sy_client s) /\ cl_tasks (sy_client s) = [].

(** A call's steps in their order: begin, send, dispatch, answer, respond (and
    activate), deliver, receive. *)
Definition finish (id : Z) (m : message) (t : option nat) (c : Client) : Client :=
  let c := send_answer id m t [] c in
  match t with Some t => activate id t [] c | None => c end.
Definition new_call (k : call_kind) (b : RuntimeBridge) : call := {|
  c_kind := k; c_id := next_id (b_nextID b); c_tunnel := if is_connect k then Some (length (b_deliveries b)) else None;
  c_chan := None; c_since := length (b_in b); c_phase := CRegistered |}.
Definition sync_call (k : call_kind) (s : system) : call_result * system :=
  let b := sy_bridge s in
  let i := length (b_calls b) in
  let x := new_call k b in
  let id := c_id x in
  let b := send_call i x (begin_call k b) in
  let c := ReadLoop_dispatch (envelope id (request_message k)) (sy_client s) in
  let '(m, t, c) := answer dial id (request_message k) c in
  let b := ReadLoop_round (envelope id m) b in
  let r := receive_result k id (envelope id m) in
  (r, {| sy_bridge := end_call i (set_chan (envelope id m) (set_call_phase CWaiting x)) r b; sy_client := finish id m t c |}).

Lemma begin_call_fields k b :
  let b' := begin_call k b in
  b_calls b' = b_calls b ++ [new_call k b] /\ b_pending b' = <[next_id (b_nextID b) := length (b_calls b)]> (b_pending b) /\
  b_loop b' = b_loop b /\ b_in b' = b_in b /\ b_out b' = b_out b.
Proof. unfold begin_call, new_call. by destruct (is_connect k). Qed.

Lemma dispatch_request id k c :
  ReadLoop_dispatch (envelope id (request_message k)) c =
  with_io (cl_tasks c ++ [TRequest id (request_message k)]) (cl_in c ++ [envelope id (request_message k)]) (cl_out c) c.
Proof. by destruct k. Qed.

Lemma answer_response id k c :
  let m := (answer dial id (request_message k) c).1.1 in
  e_Hello (envelope id m) = None /\ is_response (envelope id m) = true /\ e_ID (envelope id m) = id.
Proof. destruct k; cbn; repeat case_match; by simplify_eq/=. Qed.
Lemma answer_loop id m c : cl_loop (answer dial id m c).2 = cl_loop c.
Proof.
  unfold answer, HandleProxyRequest_answer, HandleMITMRequest_answer, HandleDNSRequest_answer, HandleLeafCertRequest_answer,
    HandleConnectRequest_answer. repeat case_match; by simplify_eq/=.
Qed.

Lemma finish_fields id m t c :
  let c' := finish id m t c in
  cl_tasks c' = [] /\ cl_in c' = cl_in c /\ cl_out c' = cl_out c ++ [envelope id m] /\ cl_loop c' = cl_loop c.
Proof. unfold finish, activate, activateTunnel. destruct t as [t|]; [|done]. repeat case_match; by simplify_eq/=. Qed.

Lemma end_call_loop i x r b : b_loop (end_call i x r b) = b_loop b.
Proof. unfold end_call. cbn. destruct (is_connect _), r; try done. apply unregister_same. Qed.

(** The delivery of the answer. *)
Lemma round_deliver i x env b :
  e_Hello env = None -> is_response env = true -> b_pending b !! e_ID env = Some i -> b_calls b !! i = Some x -> c_chan x = None ->
  ReadLoop_round env b =
  upd_calls (b_pending b) (<[i := set_chan env x]> (b_calls b)) (upd_io (b_loop b) (b_in b ++ [env]) (b_out b) b).
Proof.
  intros E1 E2 E3 E4 E5. unfold ReadLoop_round, deliver. rewrite E1, E2. cbn [upd_io b_pending b_calls]. by rewrite E3, E4, E5.
Qed.

Lemma sync_call_run k s :
  idle s -> let '(r, s') := sync_call k s in run s s' /\ idle s' /\ completed s' k r.
Proof.
  intros (I1 & I2 & I3 & I4 & I5). destruct s as [b c]. cbn in *. unfold sync_call. cbn [sy_bridge sy_client].
  set (i := length (b_calls b)). set (x := new_call k b). set (id := c_id x).
  destruct (begin_call_fields k b) as (B1 & B2 & B3 & B4 & B5). fold i x id in B1, B2.
  assert (Bi : b_calls (begin_call k b) !! i = Some x) by (rewrite B1; by apply list_lookup_middle).
  set (b2 := send_call i x (begin_call k b)). set (q := request_message k).
  set (c1 := ReadLoop_dispatch (envelope id q) c). pose proof (dispatch_request id k c) as D. fold q c1 in D.
  destruct (answer dial id q c1) as [[m t] c2] eqn:An.
  pose proof (answer_response id k c1) as (M1 & M2 & M3). fold q in M1, M2, M3. rewrite An in M1, M2, M3. cbn [fst] in M1, M2, M3.
  pose proof (answer_io dial id q c1) as (A1 & A2 & _). pose proof (answer_loop id q c1) as A3. rewrite An in A1, A2, A3.
  cbn [snd] in A1, A2, A3. destruct (finish_fields id m t c2) as (F1 & F2 & F3 & F4).
  set (c3 := finish id m t c2) in *. set (w := set_call_phase CWaiting x). set (r := receive_result k id (envelope id m)).
  assert (Ci : b_calls b2 !! i = Some w) by (unfold b2, send_call; cbn; apply list_lookup_insert_eq; by eapply lookup_lt_Some).
  assert (Di : ReadLoop_round (envelope id m) b2 = upd_calls (b_pending b2) (<[i := set_chan (envelope id m) w]> (b_calls b2))
            (upd_io (b_loop b2) (b_in b2 ++ [envelope id m]) (b_out b2) b2)).
  { apply round_deliver; [done|done| |done|done]. rewrite M3. cbn. rewrite B2. apply lookup_insert_eq. }
  set (b3 := ReadLoop_round (envelope id m) b2) in *.
  assert (Ei : b_calls b3 !! i = Some (set_chan (envelope id m) w)).
  { rewrite Di. cbn [upd_calls b_calls]. apply list_lookup_insert_eq. by eapply lookup_lt_Some. }
  assert (Ed : b_calls (end_call i (set_chan (envelope id m) w) r b3) !! i = Some (set_call_phase (CDone r) (set_chan (envelope id m) w))).
  { unfold end_call. cbn [upd_calls b_calls]. apply list_lookup_insert_eq.
    destruct (is_connect _), r; try rewrite (proj1 (unregister_same _ _)); by eapply lookup_lt_Some. }
  split; [|split; [|by exists i, (set_call_phase (CDone r) (set_chan (envelope id m) w))]].
  - eapply rtc_l; [apply ss_helper, (bs_begin k)|]. eapply rtc_l; [apply ss_helper, (bs_send i x); [done|done]|]. fold b2.
    eapply rtc_l; [apply (ss_up dial others b2 c (envelope id q) []); [done|by rewrite I3; cbn; rewrite B5]|]. fold c1.
    eapply rtc_l; [apply ss_host, (cs_answer dial others [] [] id q m t c2 c1); [by rewrite D, I5|done]|].
    eapply rtc_l; [apply ss_host, (cs_send dial others [] [] id m t); done|].
    transitivity {| sy_bridge := b2; sy_client := c3 |}.
    { unfold c3, finish. destruct t as [t|]; [|apply rtc_refl]. apply rtc_once, ss_host, (cs_activate dial others [] []). done. }
    eapply rtc_l; [apply (ss_down dial others b2 c3 (envelope id m) [])|]; fold b3.
    + cbn. by rewrite B3.
    + rewrite F3, A2, D. cbn. by rewrite B4, I4.
    + apply rtc_once, ss_helper. by eapply (bs_receive i).
  - destruct (end_call_io i (set_chan (envelope id m) w) r b3) as [O1 O2]. unfold idle. cbn [sy_bridge sy_client].
    by rewrite end_call_loop, O1, O2, F1, F2, F3, F4, A1, A2, A3, D, Di; cbn; rewrite B3, B4, B5, I2, I3, I4.
Qed.

(** ** The interface, one call at a time *)

Definition sync_value {A} (k : call_kind) (get : call_result -> option A) (s : system) : (callError + A) * system :=
  let '(r, s) := sync_call k s in
  (match get r with
   | Some a => inr a
   | None => inl (CallError match r with RErr e => e | _ => "" end)
   end, s).
Definition get_proxy (r : call_result) : option ProxyResponse := match r with RProxy r => Some r | _ => None end.
Definition get_mitm (r : call_result) : option MITMResponse := match r with RMITM r => Some r | _ => None end.
Definition get_connect (r : call_result) : option ConnectResponse := match r with RConnect r => Some r | _ => None end.
Definition get_leaf (r : call_result) : option LeafCertResponse := match r with RLeafCert r => Some r | _ => None end.
Definition on_bridge (f : RuntimeBridge -> RuntimeBridge) (s : system) : system :=
  {| sy_bridge := f (sy_bridge s); sy_client := sy_client s |}.

#[local] Instance syncBridge (mitm : bool) (limit : Z) (url : URL -> string) : IngressBridge system := {|
  MITMEnabled := mitm; MaxRequestBodyBytes := limit; leaf_cert := LeafCertResponse;
  rt_ProxyRoundTrip req := sync_value (CProxy req) get_proxy;
  rt_MITMRoundTrip req := sync_value (CMITM req) get_mitm;
  rt_Connect host port s :=
    let '(r, s') := sync_value (CConnect host port) get_connect s in (next_id (b_nextID (sy_bridge s)), r, s');
  rt_AuthorizeConnect host port := sync_value (CAuthorize host port false ("", "", "")) get_connect;
  rt_AuthorizeTransparentConnect host port metadata := sync_value (CAuthorize host port true metadata) get_connect;
  rt_RequestLeafCert host := sync_value (CLeafCert host) get_leaf;
  rt_UnregisterTunnel id := on_bridge (UnregisterTunnel id);
  rt_SendTunnelClose id write e := on_bridge (Send (envelope id (MTunnelClose {| tc_Write := write; tc_Error := close_text e |})));
  inurl_String := url;
|}.

Lemma sync_value_implements {A} k (get : call_result -> option A) (result : A -> call_kind * call_result -> Prop) :
  (forall r a, get r = Some a -> result a (k, r)) -> implements idle id (sync_value k get) result.
Proof.
  intros G s I. pose proof (sync_call_run k s I) as K. unfold sync_value. destruct (sync_call k s) as [r s'].
  destruct K as (K1 & K2 & K3). cbn. split; [done|]. split; [done|]. intros a E. exists k, r. split; [|done].
  apply G. by destruct (get r) as [x|]; simplify_eq.
Qed.

#[local] Instance syncBridge_bridged mitm limit url : Bridged (IngressBridge0 := syncBridge mitm limit url) idle id.
Proof.
  split; intros; try (apply sync_value_implements; intros [] ?; simpl; try done; intros [= ->]; done).
  - intros s I. pose proof (sync_value_implements (CConnect host port) get_connect (returns (CConnect host port) RConnect)) as K.
    cbn. specialize (K ltac:(intros [] ?; simpl; try done; by intros [= ->]) s I).
    by destruct (sync_value _ _ s).
  - apply sync_value_implements. intros [] ?; simpl; try done. intros _. by eexists.
Qed.
End composed.
