(* ===== verification/SystemTheorems.v ===== *)
(** End-to-end claims: what the helper's listeners and the host guarantee
    together, over the control channel and under every interleaving. *)
From S2P Require Import Prelude GoStrings GoNet Sys Policy PolicySpec PolicyTheorems Access Manager ManagerTheorems Messages MitmCA.
From S2P Require Import Bridge BridgeProofs HostClient System StringLemmas Ingress Composed Sample SampleNet SampleCerts.

(** ** The manager's registry is untouched by its handlers *)

Section registry.
Context `{GoLib} `{Net}.

Definition same_registry (h h' : host) : Prop :=
  pm_sandboxes (h_mgr h') = pm_sandboxes (h_mgr h) /\ pm_policies (h_mgr h') = pm_policies (h_mgr h) /\
  pm_policyMode (h_mgr h') = pm_policyMode (h_mgr h).
#[global] Instance same_registry_refl : Reflexive same_registry.
Proof. done. Qed.
#[global] Instance same_registry_trans : Transitive same_registry.
Proof. intros h1 h2 h3 (A1 & A2 & A3) (B1 & B2 & B3). split; [congruence|]. split; congruence. Qed.
Lemma same_record event h : same_registry h (recordAccessEvent event h).
Proof. apply record_registry. Qed.
Lemma same_net n h : same_registry h (set_host_net n h).
Proof. done. Qed.
Lemma same_forward cfg bad wb wr event out h :
  same_registry h (forward h_net set_host_net recordAccessEvent cfg bad wb wr event out h).2.
Proof.
  destruct (forward_spec cfg bad wb wr event out h) as (resp & n & res & status & err & -> & _). simpl.
  etrans; [apply (same_net n)|apply same_record].
Qed.
Lemma same_record_hosts id mode a s r e l h : same_registry h (record_hosts id mode a s r e l h).
Proof.
  unfold record_hosts. revert h. induction l as [|x l IH]; intros h; [done|]. simpl. etrans; [apply same_record|apply IH].
Qed.
Lemma same_proxy id req h : same_registry h (handleProxyRequest id req h).2.
Proof.
  unfold handleProxyRequest. destruct (pm_policies (h_mgr h) !! id); [|done]. unfold HandleProxyRequest.
  destruct (url_Parse _); [|done]. destruct (normalizeHostPort _ _). unfold deny.
  repeat case_match; simpl; first [apply same_record|apply same_forward].
Qed.
Lemma same_mitm id req h : same_registry h (handleMITMRequest id req h).2.
Proof.
  unfold handleMITMRequest. destruct (pm_policies (h_mgr h) !! id); [|done]. unfold HandleMITMRequest.
  destruct (mitmHostPort _ _ _). unfold deny. repeat case_match; simpl; first [apply same_record|apply same_forward].
Qed.
Lemma same_connect id req h : same_registry h (handleConnectRequest id req h).2.
Proof.
  unfold handleConnectRequest. destruct (pm_policies (h_mgr h) !! id); [|done]. unfold HandleConnectRequest.
  destruct (normalizeHostPort _ _). case_match; simpl; apply same_record.
Qed.
Lemma same_dns id req h : same_registry h (handleDNSRequest id req h).2.
Proof.
  unfold handleDNSRequest. destruct (pm_policies (h_mgr h) !! id); [|done]. destruct (dnsQuestionHosts _); [|done].
  destruct (evaluate_hosts _ _ _) as [[? ?]|?]; simpl; [apply same_record|].
  destruct (handleQuery _ _ _) as [r n]. repeat case_match; simpl;
    first [apply (same_net n)|etrans; [apply (same_net n)|apply same_record_hosts]].
Qed.

(** The sandbox has this policy and enforces it. *)
Definition enforces (id : string) (p : compiledPolicy) (h : host) : Prop :=
  pm_policies (h_mgr h) !! id = Some p /\ policyModeForSandbox id (h_mgr h) = PolicyModeEnforce.
Lemma enforces_same id p h h' : same_registry h h' -> enforces id p h -> enforces id p h'.
Proof.
  intros (A1 & A2 & A3) [E M]. split; [by rewrite A2|]. unfold policyModeForSandbox in *. by rewrite A1, A3.
Qed.
End registry.

Section endtoend.
Context `{GoLib} `{Net} `{CertLib}.
Context (dial : string -> nstate -> option string * nstate).

Lemma answer_enforces sid p id m c :
  governed sid (enforces sid p) c -> governed sid (enforces sid p) (answer dial id m c).2.
Proof.
  intros [S G]. split; [rewrite <- S; apply answer_io|].
  destruct (cl_host c) as [h|] eqn:Hh.
  - assert (K : forall h', same_registry h h' -> enforces sid p h') by (intros; by eapply enforces_same).
    unfold answer, HandleProxyRequest_answer, HandleMITMRequest_answer, HandleDNSRequest_answer, HandleLeafCertRequest_answer,
      HandleConnectRequest_answer. rewrite Hh.
    destruct m as [| |req| |req| |req| |req| |req| | | | | | |]; cbn; rewrite ?Hh; try done.
    + pose proof (same_proxy (cl_sandboxID c) req h). destruct (handleProxyRequest _ _ _). cbn. by apply K.
    + pose proof (same_connect (cl_sandboxID c) req h). destruct (handleConnectRequest _ _ _) as [r h']. cbn.
      destruct (_ || _); [cbn; by apply K|]. destruct (dial _ _) as [[e|] n]; cbn; apply K; by etrans.
    + pose proof (same_dns (cl_sandboxID c) req h). destruct (handleDNSRequest _ _ _). cbn. by apply K.
    + destruct (handleLeafCertRequest _ _ _). cbn. by apply K.
    + pose proof (same_mitm (cl_sandboxID c) req h). destruct (handleMITMRequest _ _ _). cbn. by apply K.
  - unfold answer, HandleProxyRequest_answer, HandleMITMRequest_answer, HandleDNSRequest_answer, HandleLeafCertRequest_answer,
      HandleConnectRequest_answer. rewrite Hh. destruct m; cbn; by rewrite ?Hh.
Qed.

(** A tunnel request is accepted only if the written policy admits it. *)
Lemma connect_accepted pol p id sid req c :
  compilePolicy pol = Ok p -> governed sid (enforces sid p) c ->
  accepted (HandleConnectRequest_answer dial id req c).1.1 = true ->
  if cr_Transparent req then admits_transparent pol (cr_Host req) else admits_connect pol (cr_Host req) (cr_Port req).
Proof.
  intros C [S G]. unfold HandleConnectRequest_answer. destruct (cl_host c) as [h|]; [|done].
  destruct G as [E M]. rewrite S. unfold handleConnectRequest. rewrite E. unfold HandleConnectRequest.
  destruct (normalizeHostPort _ _). unfold newManagerConnectService. rewrite M. cbn [normalizedPolicyModeOrDefault].
  destruct (Allowed (evaluateConnect p (cr_Host req) (cr_Port req) (cr_Transparent req))) eqn:A.
  - intros _. destruct (cr_Transparent req).
    + by eapply (evaluateTransparent_iff pol p).
    + by eapply (evaluateConnect_iff pol p).
  - change (normalizedPolicyModeOrDefault PolicyModeEnforce) with PolicyModeEnforce. cbn [negb andb].
    replace (bool_decide (PolicyModeEnforce = PolicyModeAudit)) with false by done. cbn. unfold accepted. cbn.
    by rewrite andb_false_r.
Qed.

(** ** One sandbox with a policy it enforces *)

Context (others : host -> host -> Prop) (pol : NetworkPolicy) (p : compiledPolicy) (sid : string).
Hypothesis policy_compiles : compilePolicy pol = Ok p.
Hypothesis policy_stays : forall h h', enforces sid p h -> others h h' -> enforces sid p h'.

(** Reachable within the range of the message numbers. *)
Definition runs_to (s : system) : Prop :=
  exists proxyAddr h ca, enforces sid p h /\ rtc (system_step dial others) (initial_system proxyAddr sid h ca) s.
Definition numbered (s : system) : Prop := Z.of_nat (length (b_calls (sy_bridge s))) < max_calls.

Lemma runs_to_inv s : runs_to s -> numbered s -> system_inv dial sid (enforces sid p) s.
Proof.
  intros (proxyAddr & h & ca & E & R) N. eapply system_reachable_inv; [|done|exact R| |exact N].
  - apply answer_enforces.
  - by apply initial_system_inv.
Qed.
Lemma runs_to_step s s' : runs_to s -> rtc (system_step dial others) s s' -> runs_to s'.
Proof. intros (proxyAddr & h & ca & E & R) R'. exists proxyAddr, h, ca. split; [done|]. by etrans. Qed.

(** A tunnel request a completed call of the bridge was granted. *)
Lemma completed_connect s k r host port transparent :
  runs_to s -> numbered s -> completed s k (RConnect r) -> accepted r = true ->
  k = CConnect host port /\ transparent = false \/ (exists metadata, k = CAuthorize host port transparent metadata) ->
  if transparent then admits_transparent pol host else admits_connect pol host port.
Proof.
  intros R N (i & c & E & K & Ph) A Hk. destruct (call_authentic dial sid (enforces sid p) s i c _ (runs_to_inv s R N) E Ph)
    as [[e ?]|(c0 & G & Hr)]; [done|].
  rewrite K in Hr.
  destruct Hk as [[-> ->]|[metadata ->]]; cbn in Hr;
    destruct (HandleConnectRequest_answer dial (c_id c) _ c0) as [[r' t] c'] eqn:An; cbn in Hr; injection Hr as ->;
    epose proof (connect_accepted pol p (c_id c) sid _ c0 policy_compiles G) as W; rewrite An in W; exact (W A).
Qed.

(** C7. Answers are authentic. The helper and the host run concurrently over
    the control channel; whatever the interleaving of their goroutines, the order
    of the responses, cancelled calls and failed sends, a call in the helper ends
    with an error or with exactly what the manager answered to that very request
    (its kind, number and arguments) for the client's sandbox, at a moment when the
    sandbox's policy was in force: no response reaches another call. *)
Theorem helper_calls_authentic s i c r :
  runs_to s -> numbered s -> b_calls (sy_bridge s) !! i = Some c -> c_phase c = CDone r ->
  (exists e, r = RErr e) \/
  exists c0, cl_sandboxID c0 = sid /\ (forall h, cl_host c0 = Some h -> enforces sid p h) /\
    r = receive_result (c_kind c) (c_id c) (envelope (c_id c) (answer dial (c_id c) (request_message (c_kind c)) c0).1.1).
Proof.
  intros R N E Ph. destruct (call_authentic _ _ _ s i c r (runs_to_inv s R N) E Ph) as [?|(c0 & [G1 G2] & Hr)]; [by left|].
  right. exists c0. split; [done|]. split; [|done]. intros h Hh. by rewrite Hh in G2.
Qed.

(** ** Through the interface of the listeners *)

Section listeners.
Context {St : Type} `{!IngressBridge St} (R : St -> Prop) (view : St -> system) `{!Bridged dial others R view}.

Lemma implements_runs {A} (op : St -> (callError + A) * St) result st :
  implements dial others R view op result -> R st -> runs_to (view st) -> R (op st).2 /\ runs_to (view (op st).2).
Proof. intros I Rs S. destruct (I st Rs) as (K1 & K2 & _). split; [done|]. by eapply runs_to_step. Qed.

Lemma numbered_back s s' : rtc (system_step dial others) s s' -> numbered s' -> numbered s.
Proof. intros S%run_length N. unfold numbered in *. lia. Qed.

(** A granted operation, used from a state before the end of the handler. *)
Lemma granted k op host port transparent st r s' :
  implements dial others R view op (returns k RConnect) ->
  k = CConnect host port /\ transparent = false \/ (exists metadata, k = CAuthorize host port transparent metadata) ->
  R st -> runs_to (view st) -> (op st).1 = inr r -> accepted r = true ->
  rtc (system_step dial others) (view (op st).2) s' -> numbered s' ->
  if transparent then admits_transparent pol host else admits_connect pol host port.
Proof.
  intros I Hk Rs S E A S' N. destruct (I st Rs) as (_ & K & C). destruct (C r E) as (k' & r' & Hr & D). injection Hr as -> ->.
  eapply completed_connect; [by eapply runs_to_step|by eapply numbered_back|done|done|done].
Qed.

Lemma leaf_run host st : R st -> rtc (system_step dial others) (view st) (view (rt_RequestLeafCert host st).2).
Proof. intros Rs. apply (br_leaf dial others R view host st Rs). Qed.

(** C8. Transparent connections end to end, in enforce mode and while the policy
    registered for the sandbox stays: when the helper serves a connection that was
    redirected to it (hands its requests to the HTTP handler or to the TLS
    interception), the policy the user wrote for the sandbox admits the
    connection's host, whatever the first bytes, the port, the server name and the
    interleaving with everything else on the control channel. (In audit mode a
    host the policy denies is served and reported: see the answers of
    [connect_request_enforced].) *)
Theorem transparent_connection_admitted r connectHost connectPort hello handshake st out st' :
  R st -> runs_to (view st) -> ServeTransparentTCPConn r connectHost connectPort hello handshake st = (out, st') ->
  numbered (view st') ->
  match out with SHTTP _ _ | SMITM _ _ => admits_transparent pol (TrimSpace connectHost) | SReset | SClosed => True end.
Proof.
  intros Rs S E N. unfold ServeTransparentTCPConn, authorizeTransparentTCPConn in E.
  destruct (detectTransparentTCPProtocol r) as [protocol r']. case_bool_decide as B.
  { destruct protocol; injection E as <- <-; done. }
  assert (K : forall port metadata response st1,
    rt_AuthorizeTransparentConnect (TrimSpace connectHost) port metadata st = (inr response, st1) -> accepted response = true ->
    R st1 /\ (rtc (system_step dial others) (view st1) (view st') -> admits_transparent pol (TrimSpace connectHost))).
  { intros port metadata response st1 Q A. pose proof (br_authorize_transparent dial others R view (TrimSpace connectHost) port metadata) as I.
    assert (R1 := proj1 (I st Rs)). split; [by rewrite Q in R1|]. intros S'.
    eapply (granted _ _ (TrimSpace connectHost) port true st); [exact I|eauto|done|done|by rewrite Q|done|by rewrite Q|done]. }
  destruct protocol; match type of E with context[rt_AuthorizeTransparentConnect ?a ?b ?c st] =>
    specialize (K b c); destruct (rt_AuthorizeTransparentConnect a b c st) as [[e|response] st1] end;
    try (by injection E as <- <-); destruct (accepted response) eqn:A; try (by injection E as <- <-);
    destruct (K response st1 eq_refl A) as [R1 G]; clear K.
  - injection E as <- <-. by apply G.
  - unfold ServeTransparentHTTPSConn in E. destruct (negb MITMEnabled); [by injection E as <- <-|].
    destruct hello as [name|]; [|by injection E as <- <-]. cbv zeta in E.
    set (serverName := if bool_decide (ToLower (TrimSpace name) = "") then _ else _) in E.
    destruct (bool_decide (serverName = "")); [by injection E as <- <-|].
    pose proof (leaf_run serverName st1 R1) as L. destruct (rt_RequestLeafCert serverName st1) as [[e|cert] st2];
      [by injection E as <- <-|]. destruct handshake; injection E as <- <-; [|done]. by apply G.
Qed.

(** C9. CONNECT end to end, in enforce mode and while the policy registered for
    the sandbox stays: the helper's proxy relays a tunnel, or intercepts a TLS
    connection, only for a target it could parse and that the policy the user
    wrote admits for exactly that host and port; every other outcome leaves the
    client with an error answer or a closed connection. (In audit mode the tunnel
    to a denied host is relayed and reported.) *)
Theorem proxy_connect_admitted req hj write_error handshake st out st' :
  R st -> runs_to (view st) -> ProxyHandler req hj write_error handshake st = (inl out, st') -> numbered (view st') ->
  match out with
  | KTunnel _ _ | KIntercept _ _ _ _ =>
      exists host port, parseConnectTarget (ir_Host req) = Ok (host, port) /\ admits_connect pol host port
  | KAnswer _ | KRefused _ | KClosed => True
  end.
Proof.
  intros Rs S E N. unfold ProxyHandler in E. case_bool_decide; [|by destruct (serveHTTPForward _ req st)].
  destruct MITMEnabled.
  - destruct (HandleMITMConnect req hj write_error handshake st) as [out1 st1] eqn:E1. injection E as -> ->.
    unfold HandleMITMConnect in E1. destruct (parseConnectTarget (ir_Host req)) as [[host port]|e]; [|by injection E1 as <- <-].
    destruct hj as [|e|rw]; [by injection E1 as <- <-..|]. pose proof (br_authorize dial others R view host port) as I.
    pose proof (proj1 (I st Rs)) as R1. destruct (rt_AuthorizeConnect host port st) as [[e|response] st1] eqn:Q;
      [by injection E1 as <- <-|]. destruct (accepted response) eqn:A; [|by injection E1 as <- <-]. cbn in E1, R1.
    destruct write_error; [by injection E1 as <- <-|]. pose proof (leaf_run host st1 R1) as L.
    destruct (rt_RequestLeafCert host st1) as [[e|leaf] st2]; [by injection E1 as <- <-|].
    destruct handshake; injection E1 as <- <-; [|done]. exists host, port. split; [done|].
    eapply (granted _ _ host port false st); [exact I|eauto|done|done|by rewrite Q|done|by rewrite Q|done].
  - destruct (HandleConnect req hj write_error st) as [out1 st1] eqn:E1. injection E as -> ->.
    unfold HandleConnect in E1. destruct (parseConnectTarget (ir_Host req)) as [[host port]|e]; [|by injection E1 as <- <-].
    destruct hj as [|e|rw]; [by injection E1 as <- <-..|]. pose proof (br_connect dial others R view host port) as I.
    destruct (rt_Connect host port st) as [[id [e|response]] st1] eqn:Q; [by injection E1 as <- <-|].
    destruct (accepted response) eqn:A; [|by injection E1 as <- <-]. cbn in E1. destruct write_error; injection E1 as <- <-; [done|].
    exists host, port. split; [done|].
    eapply (granted _ _ host port false st); [exact I|by left|done|done|by cbn; rewrite Q|done|by cbn; rewrite Q|done].
Qed.
End listeners.

(** C10. An intercepted connection stays with its host. In enforce mode, a
    request the client sends inside an intercepted TLS connection (to a non-blank
    [connectHost], as CONNECT or the server name gave it) reaches the network only
    if it was inspected whole, the written policy admits it, its Host header (when it has one) names the host of
    the connection, and it is sent, over https, to that host and port. *)
Theorem intercepted_request_pinned connectHost connectPort req u body tooLarge h resp h' :
  enforces sid p h -> TrimSpace connectHost <> "" ->
  handleMITMRequest sid (mitm_request connectHost connectPort req u body tooLarge) h = (resp, h') -> h_net h' <> h_net h ->
  let authority := JoinHostPort (TrimSpace connectHost) (Itoa (if connectPort <=? 0 then 443 else connectPort)) in
  let host := if bool_decide (ir_Host req = "") then connectHost else ir_Host req in
  tooLarge = false /\
  admits_request pol {| pq_Method := ir_Method req; pq_Host := host; pq_Path := u_Path u;
                        pq_Header := ir_Header req; pq_Body := body; pq_BodyTooLarge := false |} /\
  (exists name, normalizePolicyHostname host = Ok name /\ normalizePolicyHostname authority = Ok name) /\
  exists out, h_net h' = (roundTrip_http out (h_net h)).2 /\
    or_Method out = ir_Method req /\ or_Body out = body /\ or_Header out = ir_Header req /\
    or_URL out = url_String (url_of "https" authority (if bool_decide (u_Path u = "") then "/" else u_Path u) "" (u_RawQuery u)).
Proof.
  intros [E M] B HM NE authority host.
  destruct (mitm_forwarded _ _ _ _ _ _ _ policy_compiles E M HM NE) as (B1 & _ & AD & V & out & O1 & O2 & O3 & O4 & O5).
  assert (Ha : mr_Authority (mitm_request connectHost connectPort req u body tooLarge) = authority).
  { cbn. unfold mitmAuthority. by rewrite bool_decide_eq_false_2. }
  assert (NB : TrimSpace authority <> "") by apply JoinHostPort_visible.
  assert (Hn : authority <> "") by (by intros Ea; rewrite Ea in NB).
  assert (Hp : mitm_authority (mitm_request connectHost connectPort req u body tooLarge) = authority).
  { unfold mitm_authority. by rewrite Ha, bool_decide_eq_false_2. }
  assert (Hh : mitm_policy_host (mitm_request connectHost connectPort req u body tooLarge) = host).
  { unfold mitm_policy_host. rewrite Hp. change (mr_Host _) with host. rewrite bool_decide_eq_false_2; [done|].
    unfold host. intros Hb. case_bool_decide; [by rewrite Hb in B|done]. }
  cbn in B1. subst tooLarge. split; [done|]. unfold mitm_policy_request in AD. rewrite Hh in AD. split; [exact AD|].
  rewrite Hp in V, O5. rewrite Hh in V. split.
  - apply (validate_same_host _ _ V NB). intros Bl. destruct AD as (_ & name & r0 & NH & _). by apply (normalize_blank _ Bl name).
  - by exists out.
Qed.

(** ** An authorization dials *)

Lemma bad_gateway_refused e : accepted (bad_gateway e) = false.
Proof. unfold accepted. cbn. by rewrite andb_false_r. Qed.
Lemma accepted_status r : accepted r = true -> (cs_StatusCode r <? 200) || (300 <=? cs_StatusCode r) = false.
Proof.
  unfold accepted. cbv zeta. destruct (cs_StatusCode r =? 0) eqn:Z; [by rewrite !andb_false_r|].
  rewrite !andb_true_iff, orb_false_iff, Z.leb_le, Z.ltb_lt, Z.ltb_ge, Z.leb_gt. lia.
Qed.
Lemma connect_answer_dials id req c r t c' :
  HandleConnectRequest_answer dial id req c = (r, t, c') -> accepted r = true ->
  t = Some (length (cl_heap c)) /\ cl_heap c' = cl_heap c ++ [newHostTunnel id] /\
  cl_pendingTunnels c' = <[id := length (cl_heap c)]> (cl_pendingTunnels c) /\
  exists n, (dial (tunnel_address (cr_Host req) (cr_Port req)) n).1 = None.
Proof.
  unfold HandleConnectRequest_answer. destruct (cl_host c) as [h|]; [|intros [= <- <- <-]; by rewrite bad_gateway_refused].
  destruct (handleConnectRequest _ _ _) as [r0 h']. cbv zeta. set (r1 := if cs_StatusCode r0 =? 0 then _ else _).
  destruct (_ || _) eqn:S; [intros [= <- <- <-] A%accepted_status; congruence|].
  destruct (dial _ _) as [[e|] n] eqn:D; intros [= <- <- <-]; [by rewrite bad_gateway_refused|]. intros _.
  split; [done|]. split; [done|]. split; [done|]. exists (h_net h'). by rewrite D.
Qed.

Lemma next_unused b : bridge_inv b -> Z.of_nat (length (b_calls b)) + 1 < max_calls -> b_tunnels b !! next_id (b_nextID b) = None.
Proof.
  intros [C T] L. destruct (b_tunnels b !! _) as [d|] eqn:E; [|done]. exfalso.
  destruct (tv_owner _ _ _ T _ d E) as (i & c & Ei & Hid & _).
  pose proof (ci_ids _ _ _ _ C i c Ei) as K. pose proof (lookup_lt_Some _ _ _ Ei).
  destruct (begin_calls_inv _ _ _ _ (c_kind c) None C L) as [N _]. lia.
Qed.

(** The parts of an authorization that the theorem is about. *)
Lemma response_same env b :
  e_Hello env = None -> is_response env = true ->
  b_tunnels (ReadLoop_round env b) = b_tunnels b /\ length (b_calls (ReadLoop_round env b)) = length (b_calls b).
Proof.
  intros E1 E2. unfold ReadLoop_round, deliver. rewrite E1, E2. repeat case_match; cbn; by rewrite ?length_insert.
Qed.
Lemma finish_active id m t c :
  cl_pendingTunnels c !! id = Some t ->
  cl_tunnels (finish id m (Some t) c) !! id = Some t /\ cl_heap (finish id m (Some t) c) = alter tunnel_start t (cl_heap c).
Proof.
  intros E. unfold finish, activate, activateTunnel. cbn. rewrite E. cbn. by rewrite lookup_insert_eq.
Qed.
Lemma sync_call_authorize host port transparent metadata s r s' :
  sync_call dial (CAuthorize host port transparent metadata) s = (RConnect r, s') ->
  let id := next_id (b_nextID (sy_bridge s)) in
  b_tunnels (sy_bridge s') = b_tunnels (sy_bridge s) /\ length (b_calls (sy_bridge s')) = S (length (b_calls (sy_bridge s))) /\
  exists c t c', HandleConnectRequest_answer dial id {| cr_Host := host; cr_Port := port; cr_Transparent := transparent;
      cr_ProtocolMetadata := metadata |} c = (r, t, c') /\
    sy_client s' = finish id (MConnectResponse r) t c' /\ cl_heap c = cl_heap (sy_client s) /\
    cl_pendingTunnels c = cl_pendingTunnels (sy_client s).
Proof.
  unfold sync_call. cbn [new_call c_id request_message]. set (id := next_id _). set (req := Build_ConnectRequest _ _ _ _).
  set (c := ReadLoop_dispatch _ _). unfold answer. destruct (HandleConnectRequest_answer dial id req c) as [[r1 t] c'] eqn:An.
  intros [= Hr Hs]. cbn in Hr. subst r1 s'. cbn [sy_bridge sy_client].
  set (b := send_call _ _ _). destruct (response_same (envelope id (MConnectResponse r)) b eq_refl eq_refl) as [T L].
  set (b1 := ReadLoop_round _ b) in *. clearbody b1. split; [|split].
  - unfold end_call. cbn. by rewrite T.
  - unfold end_call. cbn. rewrite length_insert, L. unfold b. cbn. rewrite length_insert, length_app. simpl. lia.
  - exists c, t, c'. done.
Qed.

(** An authorization opens a connection nobody owns. The helper authorizes
    intercepted and transparent connections with a request that only asks; the host
    answers it by dialling the destination and starting a tunnel for it. The helper
    has no tunnel with that number, so it can neither use that connection nor close
    it. *)
Theorem authorization_opens_tunnel host port transparent metadata s r s' :
  runs_to s -> numbered s' -> idle s ->
  sync_call dial (CAuthorize host port transparent metadata) s = (RConnect r, s') -> accepted r = true ->
  let id := next_id (b_nextID (sy_bridge s)) in
  b_tunnels (sy_bridge s') !! id = None /\
  (exists t tn, cl_tunnels (sy_client s') !! id = Some t /\ cl_heap (sy_client s') !! t = Some tn /\
     ht_id tn = id /\ ht_closed tn = false /\ ht_out tn = true /\ ht_in tn = true) /\
  exists n, (dial (tunnel_address host port) n).1 = None.
Proof.
  intros R N I Sy A id. pose proof (sync_call_run dial others (CAuthorize host port transparent metadata) s I) as Run.
  rewrite Sy in Run. destruct Run as (Run & _ & _).
  assert (Bi := si_bridge _ _ _ _ (runs_to_inv s R (numbered_back _ _ Run N))).
  destruct (sync_call_authorize _ _ _ _ _ _ _ Sy) as (T & L & c & t & c' & An & Hc & Hn & Hl).
  destruct (connect_answer_dials _ _ _ _ _ _ An A) as (-> & Hh & Hp & Hd).
  split; [rewrite T; apply next_unused; [done|unfold numbered in N; rewrite L in N; lia]|]. split; [|exact Hd].
  destruct (finish_active id (MConnectResponse r) (length (cl_heap c)) c') as [F1 F2]; [by rewrite Hp, lookup_insert_eq|].
  fold id in Hc, Hh. rewrite Hc. exists (length (cl_heap c)), (tunnel_start (newHostTunnel id)). split; [done|]. split; [|done].
  rewrite F2, Hh, list_lookup_alter_eq. by rewrite (list_lookup_middle (cl_heap c) [] _ _ eq_refl).
Qed.
End endtoend.

(** ** Leaf certificates *)

Section leaves.
Context `{GoLib} `{CertLib}.

(** Requests in their order, each with the time it is served. *)
Definition serve_leaves (requests : list (string * Z)) (c : mitmCA) : mitmCA :=
  foldl (fun c request => (LeafForHost request.1 request.2 c).2) c requests.
Lemma serve_leaves_keeps requests c h cert :
  ca_leafCache c !! h = Some cert -> ca_leafCache (serve_leaves requests c) !! h = Some cert.
Proof.
  revert c. induction requests as [|[host now] l IH]; intros c E; [done|]. apply IH. by apply LeafForHost_keeps.
Qed.
Lemma serve_leaves_inv requests c : ca_inv c -> ca_inv (serve_leaves requests c).
Proof. revert c. induction requests as [|[host now] l IH]; intros c I; [done|]. apply IH. by apply LeafForHost_inv. Qed.

(** Leaf certificates are made for exactly the (trimmed, lower-case) name
    asked for, and once: whatever was asked in between, and however much later, the
    same name gets the same certificate. A certificate is valid for a day, so the
    one handed out later than that has expired. *)
Theorem leaf_issued_once before host now cert c :
  let ca := serve_leaves before {| ca_leafCache := ∅; ca_rng := c |} in
  (LeafForHost host now ca).1 = Ok cert ->
  (exists serial issued r r', lib_CreateCertificate (leaf_template (leaf_host host) serial issued) (lf_key cert) r = (Ok (lf_DER cert), r')) /\
  forall between host' later, leaf_host host' = leaf_host host ->
    (LeafForHost host' later (serve_leaves between (LeafForHost host now ca).2)).1 = Ok cert.
Proof.
  intros ca E. assert (I : ca_inv ca) by (apply serve_leaves_inv, map_Forall_empty).
  destruct (LeafForHost host now ca) as [res ca'] eqn:L. cbn in E. subst res.
  destruct (LeafForHost_ok host now ca cert ca' I L) as (NE & (serial & issued & r & r' & C & _) & In). split; [by exists serial, issued, r, r'|].
  intros between host' later Hh. cbn. apply (serve_leaves_keeps between) in In. unfold LeafForHost.
  rewrite Hh, bool_decide_eq_false_2 by done. by rewrite In.
Qed.
End leaves.

(** * Witnesses *)

#[local] Existing Instance sampleLib.
#[local] Existing Instance sampleNet.

#[local] Existing Instance sampleCerts.

Definition demo_dial (address : string) (n : nstate) : option string * nstate := (None, n).
Definition demo_ca : option mitmCA := Some {| ca_leafCache := ∅; ca_rng := 7 |}.
Definition demo_system : system := initial_system "127.0.0.1:8080" "box" demo_host demo_ca.
Definition nothing_else (h h' : host) : Prop := False.
Definition demo_url_string (u : URL) : string := u_Host u.
#[local] Instance demo_bridge : IngressBridge system := syncBridge demo_dial true 1000 demo_url_string.
#[local] Instance demo_bridged : Bridged demo_dial nothing_else idle id.
Proof. apply syncBridge_bridged. Qed.

Lemma demo_enforces : enforces "box" (compiled demo_policy') demo_host.
Proof. split; [reflexivity|vm_compute; reflexivity]. Qed.
Lemma demo_stays h h' : enforces "box" (compiled demo_policy') h -> nothing_else h h' -> enforces "box" (compiled demo_policy') h'.
Proof. done. Qed.
Lemma demo_runs : runs_to demo_dial nothing_else (compiled demo_policy') "box" demo_system.
Proof. exists "127.0.0.1:8080", demo_host, demo_ca. split; [apply demo_enforces|apply rtc_refl]. Qed.
Lemma demo_idle : idle demo_system.
Proof. done. Qed.

Definition demo_reader : reader := {| rd_buf := ""; rd_chunks := ["GET /x"; " HTTP/1.1"] |}.
(** A pair whose first component is known by evaluation. *)
Lemma pair_of {A B} (x : A * B) a : x.1 = a -> x = (a, x.2).
Proof. destruct x. by intros <-. Qed.
Definition demo_served : served * system := ServeTransparentTCPConn demo_reader "www.example.com" 80 None true demo_system.
Lemma demo_served_out : demo_served.1 = SHTTP "www.example.com" 80.
Proof. vm_compute. reflexivity. Qed.
Lemma demo_served_numbered : numbered demo_served.2.
Proof. vm_compute. reflexivity. Qed.
Lemma transparent_connection_admitted_witness :
  demo_served.1 = SHTTP "www.example.com" 80 /\ admits_transparent demo_policy' (TrimSpace "www.example.com").
Proof.
  split; [exact demo_served_out|].
  exact (transparent_connection_admitted demo_dial nothing_else demo_policy' (compiled demo_policy') "box"
    demo_policy_compiles demo_stays idle id demo_reader "www.example.com" 80 None true demo_system
    (SHTTP "www.example.com" 80) demo_served.2 demo_idle demo_runs (pair_of _ _ demo_served_out) demo_served_numbered).
Defined.

Definition demo_connect : InRequest := {|
  ir_Method := "CONNECT"; ir_URL := None; ir_Host := "api.example.com:8443"; ir_Header := []; ir_Body := None; ir_Proto := "HTTP/1.1" |}.
Definition demo_proxied : (connect_result leaf_cert + option Answer) * system :=
  ProxyHandler demo_connect (Hijacked (Some "hi")) None true demo_system.
Definition demo_leaf : LeafCertResponse :=
  {| lc_CertPEM := "CERTIFICATEapi.example.com/86400000000001"; lc_KeyPEM := "PRIVATE KEY7"; lc_Error := "" |}.
Lemma demo_proxied_out : demo_proxied.1 = inl (KIntercept (demo_leaf : leaf_cert) "api.example.com" 8443 "hi").
Proof. vm_compute. reflexivity. Qed.
Lemma demo_proxied_numbered : numbered demo_proxied.2.
Proof. vm_compute. reflexivity. Qed.
Lemma proxy_connect_admitted_witness :
  exists host port, parseConnectTarget "api.example.com:8443" = Ok (host, port) /\ admits_connect demo_policy' host port.
Proof.
  exact (proxy_connect_admitted demo_dial nothing_else demo_policy' (compiled demo_policy') "box"
    demo_policy_compiles demo_stays idle id demo_connect (Hijacked (Some "hi")) None true demo_system
    (KIntercept (demo_leaf : leaf_cert) "api.example.com" 8443 "hi") demo_proxied.2 demo_idle demo_runs
    (pair_of _ _ demo_proxied_out) demo_proxied_numbered).
Defined.

(** One authorization, run to its end. *)
Definition demo_kind : call_kind := CAuthorize "www.example.com" 80 true ("http", "first_bytes", "probable").
Definition demo_called : call_result * system := sync_call demo_dial demo_kind demo_system.
Definition granted_response : ConnectResponse := {| cs_StatusCode := 200; cs_Message := ""; cs_Error := "" |}.
Lemma demo_called_result : demo_called.1 = RConnect granted_response.
Proof. vm_compute. reflexivity. Qed.
Lemma demo_called_numbered : numbered demo_called.2.
Proof. vm_compute. reflexivity. Qed.
Lemma demo_called_run : rtc (system_step demo_dial nothing_else) demo_system demo_called.2 /\ completed demo_called.2 demo_kind demo_called.1.
Proof.
  pose proof (sync_call_run demo_dial nothing_else demo_kind demo_system demo_idle) as K. unfold demo_called.
  destruct (sync_call _ _ _). split; apply K.
Qed.
Lemma demo_called_runs : runs_to demo_dial nothing_else (compiled demo_policy') "box" demo_called.2.
Proof. eapply runs_to_step; [apply demo_runs|apply demo_called_run]. Qed.

Lemma helper_calls_authentic_witness :
  exists i c, b_calls (sy_bridge demo_called.2) !! i = Some c /\ c_kind c = demo_kind /\ 
  exists c0, (forall h, cl_host c0 = Some h -> enforces "box" (compiled demo_policy') h) /\
    RConnect granted_response = receive_result (c_kind c) (c_id c)
      (envelope (c_id c) (answer demo_dial (c_id c) (request_message (c_kind c)) c0).1.1).
Proof.
  destruct demo_called_run as [_ (i & c & E & K & Ph)]. exists i, c. split; [exact E|]. split; [exact K|].
  rewrite demo_called_result in Ph.
  destruct (helper_calls_authentic demo_dial nothing_else (compiled demo_policy') "box" demo_stays demo_called.2 i c
    (RConnect granted_response) demo_called_runs demo_called_numbered E Ph) as [[e Q]|(c0 & _ & G & Q)]; [discriminate Q|].
  exists c0. split; [exact G|exact Q].
Defined.

Lemma authorization_opens_tunnel_witness :
  b_tunnels (sy_bridge demo_called.2) !! next_id 0 = None /\
  exists t tn, cl_tunnels (sy_client demo_called.2) !! next_id 0 = Some t /\ cl_heap (sy_client demo_called.2) !! t = Some tn /\
    ht_closed tn = false /\ ht_out tn = true.
Proof.
  destruct (authorization_opens_tunnel demo_dial nothing_else (compiled demo_policy') "box" demo_stays "www.example.com" 80 true
    ("http", "first_bytes", "probable") demo_system granted_response demo_called.2 demo_runs demo_called_numbered demo_idle
    (pair_of _ _ demo_called_result) eq_refl) as (A & (t & tn & B1 & B2 & _ & B3 & B4 & _) & _).
  split; [exact A|]. exists t, tn. split; [exact B1|]. split; [exact B2|]. split; [exact B3|exact B4].
Defined.

Definition demo_get : InRequest := {|
  ir_Method := "GET"; ir_URL := None; ir_Host := ""; ir_Header := []; ir_Body := None; ir_Proto := "HTTP/1.1" |}.
Definition demo_inurl : URL :=
  url_of "" "" "/x" "" "".
Definition demo_mitm : ProxyResponse * host :=
  handleMITMRequest "box" (mitm_request "www.example.com" 443 demo_get demo_inurl "" false) demo_host.
Lemma intercepted_request_pinned_witness :
  exists out, h_net demo_mitm.2 = (roundTrip_http out (h_net demo_host)).2 /\
    or_URL out = "https://www.example.com:443/x".
Proof.
  destruct (intercepted_request_pinned demo_policy' (compiled demo_policy') "box" demo_policy_compiles "www.example.com" 443
    demo_get demo_inurl "" false demo_host demo_mitm.1 demo_mitm.2 demo_enforces) as (_ & _ & _ & out & O & _ & _ & _ & U).
  - vm_compute. discriminate.
  - apply surjective_pairing.
  - vm_compute. discriminate.
  - exists out. split; [exact O|]. rewrite U. vm_compute. reflexivity.
Defined.

(** Asked at time 0 and again 25 hours later. *)
Definition fresh_ca : mitmCA := {| ca_leafCache := ∅; ca_rng := 7 |}.
Definition day_cert : leafCertificate := {| lf_DER := "a.example.com/86400000000000"; lf_key := (7 : private_key) |}.
Lemma leaf_issued_once_witness :
  (LeafForHost " A.example.com" (25 * Hour) (LeafForHost "a.example.com" 0 fresh_ca).2).1 = Ok day_cert.
Proof.
  destruct (leaf_issued_once [] "a.example.com" 0 day_cert 7) as [_ L].
  - vm_compute. reflexivity.
  - apply (L [] " A.example.com" (25 * Hour)). vm_compute. reflexivity.
Defined.
