(* ===== verification/Seccomp.v ===== *)
(** The payload's seccomp filter: src/seccomp.go.

    The libseccomp bindings are the class [Libseccomp]: name resolution, the
    construction of a condition, whether a rule is accepted, and what an exported
    program answers to a system call. [LibseccompLaws] states what
    seccomp_rule_add(3) and the bindings document. A filter is the list of the
    rules that were added to it. *)
From S2P Require Import Prelude GoStrings.

Record SeccompCondition := { sc_Argument : N; sc_Operation : string; sc_Value : Z; sc_Mask : Z }.
Record SeccompRule := { sr_Syscall : string; sr_Action : string; sr_Errno : Z; sr_Conditions : list SeccompCondition }.
Record SeccompOptions := { so_Disabled : bool; so_Profile : string; so_Rules : list SeccompRule }.
Record normalizedSeccompOptions := { no_disabled : bool; no_profile : string; no_rules : list SeccompRule }.
Record seccompRuleSpec := { ss_rule : SeccompRule; ss_optional : bool }.

Definition SeccompProfileBaseline : string := "baseline".
Definition SeccompProfileRestricted : string := "restricted".
Definition SeccompProfileCustom : string := "custom".
Definition SeccompActionErrno : string := "errno".
Definition SeccompActionTrap : string := "trap".
Definition SeccompActionKillProcess : string := "kill-process".
Definition SeccompCompareNotEqual : string := "ne".
Definition SeccompCompareLessThan : string := "lt".
Definition SeccompCompareLessOrEqual : string := "le".
Definition SeccompCompareEqual : string := "eq".
Definition SeccompCompareGreaterOrEqual : string := "ge".
Definition SeccompCompareGreaterThan : string := "gt".
Definition SeccompCompareMaskedEqual : string := "masked-eq".

(** An argument index has type [uint], so it is a natural number.
    Constants of golang.org/x/sys/unix. *)
Definition EPERM_code : Z := 1.
Definition ENOSYS_code : Z := 38.
Definition EINVAL_code : Z := 22.
Definition TIOCSTI : Z := 0x5412.
Definition PR_SET_SECCOMP : Z := 22.
Definition CLONE_NEWTIME : Z := 0x80.
Definition CLONE_NEWNS : Z := 0x20000.
Definition CLONE_NEWCGROUP : Z := 0x2000000.
Definition CLONE_NEWUTS : Z := 0x4000000.
Definition CLONE_NEWIPC : Z := 0x8000000.
Definition CLONE_NEWUSER : Z := 0x10000000.
Definition CLONE_NEWPID : Z := 0x20000000.
Definition CLONE_NEWNET : Z := 0x40000000.

(** Go's conversion to [int16]. *)
Definition int16 (n : Z) : Z := (n + 2 ^ 15) mod 2 ^ 16 - 2 ^ 15.

(** ** libseccomp *)

Inductive ScmpAction := ActInvalid | ActKillProcess | ActTrap | ActErrno (code : Z) | ActAllow.
Inductive ScmpCompareOp :=
| CompareInvalid | CompareNotEqual | CompareLess | CompareLessOrEqual | CompareEqual
| CompareGreaterEqual | CompareGreater | CompareMaskedEqual.
Record ScmpCondition := { cd_Argument : Z; cd_Op : ScmpCompareOp; cd_Operand1 : Z; cd_Operand2 : Z }.
Record ScmpRule := { rl_call : Z; rl_action : ScmpAction; rl_conditions : list ScmpCondition }.

#[global] Instance ScmpAction_eq_dec : EqDecision ScmpAction.
Proof. solve_decision. Defined.
#[global] Instance ScmpCompareOp_eq_dec : EqDecision ScmpCompareOp.
Proof. solve_decision. Defined.

Class Libseccomp := {
  GetSyscallFromName : string -> result Z;
  MakeCondition : Z -> ScmpCompareOp -> list Z -> result ScmpCondition;
  NewFilter : option string;
  AddRule_error : list ScmpRule -> ScmpRule -> option string;
  ExportBPF_error : list ScmpRule -> option string;
  (** what the program exported from the rules answers to a system call *)
  program_action : list ScmpRule -> Z -> list Z -> ScmpAction;
}.

(** The comparison of seccomp_rule_add(3): arguments are 64-bit values; a masked
    comparison has the mask as its first operand. *)
Definition cond_holds (args : list Z) (c : ScmpCondition) : bool :=
  let a := nth (Z.to_nat (cd_Argument c)) args 0 in
  match cd_Op c with
  | CompareInvalid => false
  | CompareNotEqual => negb (a =? cd_Operand1 c)
  | CompareLess => a <? cd_Operand1 c
  | CompareLessOrEqual => a <=? cd_Operand1 c
  | CompareEqual => a =? cd_Operand1 c
  | CompareGreaterEqual => cd_Operand1 c <=? a
  | CompareGreater => cd_Operand1 c <? a
  | CompareMaskedEqual => Z.land a (cd_Operand1 c) =? cd_Operand2 c
  end.
Definition rule_applies (call : Z) (args : list Z) (r : ScmpRule) : bool :=
  (rl_call r =? call) && forallb (cond_holds args) (rl_conditions r).

(** A call number of the native interface. Negative numbers are libseccomp's own,
    and on x86-64 numbers with bit 30 set are those of x32: a program answers them
    by the action for foreign architectures. *)
Definition native_call (call : Z) : bool := (0 <=? call) && (call <? 0x40000000).

(** What a program answers to a native call, made through the native entry. *)
Class LibseccompLaws (L : Libseccomp) : Prop := {
  MakeCondition_ok : forall arg op v1 vs,
    0 <= arg <= 5 -> op <> CompareInvalid -> (length vs <= 1)%nat ->
    MakeCondition arg op (v1 :: vs) =
      Ok {| cd_Argument := arg; cd_Op := op; cd_Operand1 := v1; cd_Operand2 := default 0 (head vs) |};
  (** the default action of the filter, which is ActAllow here *)
  program_default : forall rules call args, native_call call = true ->
    existsb (rule_applies call args) rules = false -> program_action rules call args = ActAllow;
  program_match : forall rules call args, native_call call = true ->
    existsb (rule_applies call args) rules = true ->
    exists r, In r rules /\ rule_applies call args r = true /\ program_action rules call args = rl_action r;
}.

Section seccomp.
Context `{GoLib} `{Libseccomp}.

(** ** Options *)

Definition isZeroSeccompOptions (opts : SeccompOptions) : bool :=
  negb (so_Disabled opts) && bool_decide (so_Profile opts = "") && (length (so_Rules opts) =? 0)%nat.

(** The two fields of [SandboxOptions] it reads are arguments. *)
Definition effectiveSeccompOptions (dockerBuild_Enabled : bool) (opts : SeccompOptions) : SeccompOptions :=
  if dockerBuild_Enabled && isZeroSeccompOptions opts
  then {| so_Disabled := true; so_Profile := ""; so_Rules := [] |} else opts.

Definition DenySyscall (syscall : string) : SeccompRule :=
  {| sr_Syscall := syscall; sr_Action := SeccompActionErrno; sr_Errno := EPERM_code; sr_Conditions := [] |}.

Definition normalizeSeccompOptions (opts : SeccompOptions) : normalizedSeccompOptions :=
  let normalized := {| no_disabled := so_Disabled opts; no_profile := so_Profile opts; no_rules := so_Rules opts |} in
  if no_disabled normalized then normalized else
  if bool_decide (no_profile normalized = "")
  then {| no_disabled := no_disabled normalized; no_profile := SeccompProfileBaseline; no_rules := no_rules normalized |}
  else normalized.

Definition normalizeSeccompAction (action : string) : string :=
  if bool_decide (TrimSpace action = "") then SeccompActionErrno else ToLower (TrimSpace action).
Definition normalizeSeccompCompareOp (op : string) : string := ToLower (TrimSpace op).

Definition known_actions : list string := [SeccompActionErrno; SeccompActionTrap; SeccompActionKillProcess].
Definition known_ops : list string :=
  [SeccompCompareNotEqual; SeccompCompareLessThan; SeccompCompareLessOrEqual; SeccompCompareEqual;
   SeccompCompareGreaterOrEqual; SeccompCompareGreaterThan; SeccompCompareMaskedEqual].

Definition validate_condition (rule : SeccompRule) (condition : SeccompCondition) : result unit :=
  if (5 <? sc_Argument condition)%N then
    Err ("sandbox seccomp rule for " +:+ Quote (sr_Syscall rule) +:+ " uses invalid argument index " +:+ Itoa (Z.of_N (sc_Argument condition)))
  else if negb (bool_decide (normalizeSeccompCompareOp (sc_Operation condition) ∈ known_ops)) then
    Err ("sandbox seccomp compare op " +:+ Quote (sc_Operation condition) +:+ " is not supported")
  else if bool_decide (normalizeSeccompCompareOp (sc_Operation condition) = SeccompCompareMaskedEqual) && (sc_Mask condition =? 0) then
    Err ("sandbox seccomp masked-eq rule for " +:+ Quote (sr_Syscall rule) +:+ " requires a non-zero mask")
  else Ok tt.

Definition validateSeccompRule (rule : SeccompRule) : result unit :=
  if bool_decide (TrimSpace (sr_Syscall rule) = "") then Err "sandbox seccomp rule syscall is required"
  else if negb (bool_decide (normalizeSeccompAction (sr_Action rule) ∈ known_actions)) then
    Err ("sandbox seccomp action " +:+ Quote (sr_Action rule) +:+ " is not supported")
  else if negb (bool_decide (normalizeSeccompAction (sr_Action rule) = SeccompActionErrno)) && negb (sr_Errno rule =? 0) then
    Err ("sandbox seccomp rule for " +:+ Quote (sr_Syscall rule) +:+ " sets errno without errno action")
  else if (sr_Errno rule <? 0) || (0x7fff <? sr_Errno rule) then
    Err ("sandbox seccomp errno for " +:+ Quote (sr_Syscall rule) +:+ " must be between 0 and 32767")
  else _ <-! result_map (validate_condition rule) (sr_Conditions rule); Ok tt.

Definition validateSeccompOptions (opts : SeccompOptions) : result unit :=
  let normalized := normalizeSeccompOptions opts in
  if no_disabled normalized then Ok tt else
  if negb (bool_decide (no_profile normalized ∈ [SeccompProfileBaseline; SeccompProfileRestricted; SeccompProfileCustom])) then
    Err ("sandbox seccomp profile " +:+ Quote (so_Profile opts) +:+ " is not supported")
  else _ <-! result_map validateSeccompRule (no_rules normalized); Ok tt.

(** ** Profiles *)

Definition denyRequiredSyscall (name : string) : seccompRuleSpec := {| ss_rule := DenySyscall name; ss_optional := false |}.
Definition denyOptionalSyscall (name : string) : seccompRuleSpec := {| ss_rule := DenySyscall name; ss_optional := true |}.
Definition denyOptionalSyscallErrno (name : string) (errno : Z) : seccompRuleSpec :=
  {| ss_rule := {| sr_Syscall := name; sr_Action := SeccompActionErrno; sr_Errno := errno; sr_Conditions := [] |};
     ss_optional := true |}.
Definition conditional_spec (syscall : string) (condition : SeccompCondition) : seccompRuleSpec :=
  {| ss_rule := {| sr_Syscall := syscall; sr_Action := ""; sr_Errno := 0; sr_Conditions := [condition] |};
     ss_optional := false |}.

Definition namespaceCloneFlags : list Z :=
  [CLONE_NEWCGROUP; CLONE_NEWIPC; CLONE_NEWNET; CLONE_NEWNS; CLONE_NEWPID; CLONE_NEWTIME; CLONE_NEWUSER; CLONE_NEWUTS].
Definition clone_spec (flag : Z) : seccompRuleSpec :=
  conditional_spec "clone"
    {| sc_Argument := 0%N; sc_Operation := SeccompCompareMaskedEqual; sc_Mask := flag; sc_Value := flag |}.

Definition baselineSeccompRuleSpecs : list seccompRuleSpec :=
  conditional_spec "ioctl"
    {| sc_Argument := 1%N; sc_Operation := SeccompCompareEqual; sc_Value := TIOCSTI; sc_Mask := 0 |} ::
  map denyRequiredSyscall
    ["mount"; "umount2"; "pivot_root"; "unshare"; "setns"; "bpf"; "ioperm"; "iopl"; "reboot"; "swapon"; "swapoff";
     "syslog"; "add_key"; "request_key"; "keyctl"] ++
  map denyOptionalSyscall
    ["open_by_handle_at"; "name_to_handle_at"; "move_mount"; "open_tree"; "fsopen"; "fsconfig"; "fsmount"; "fspick";
     "mount_setattr"; "perf_event_open"; "userfaultfd"; "fanotify_init"; "init_module"; "finit_module";
     "delete_module"; "kexec_load"; "kexec_file_load"] ++
  denyRequiredSyscall "ptrace" ::
  map denyOptionalSyscall ["process_vm_readv"; "process_vm_writev"; "kcmp"; "pidfd_getfd"] ++
  denyOptionalSyscallErrno "clone3" ENOSYS_code ::
  map clone_spec namespaceCloneFlags.

Definition restrictedSeccompRuleSpecs : list seccompRuleSpec :=
  [denyRequiredSyscall "seccomp";
   conditional_spec "prctl"
     {| sc_Argument := 0%N; sc_Operation := SeccompCompareEqual; sc_Value := PR_SET_SECCOMP; sc_Mask := 0 |}].

Definition seccompProfileRules (profile : string) : list seccompRuleSpec :=
  if bool_decide (profile = SeccompProfileBaseline) then baselineSeccompRuleSpecs
  else if bool_decide (profile = SeccompProfileRestricted) then baselineSeccompRuleSpecs ++ restrictedSeccompRuleSpecs
  else [].

(** ** Compilation *)

Definition seccompActionForRule (rule : SeccompRule) : result ScmpAction :=
  let action := normalizeSeccompAction (sr_Action rule) in
  if bool_decide (action = SeccompActionErrno) then
    Ok (ActErrno (int16 (if sr_Errno rule =? 0 then EPERM_code else sr_Errno rule)))
  else if bool_decide (action = SeccompActionTrap) then Ok ActTrap
  else if bool_decide (action = SeccompActionKillProcess) then Ok ActKillProcess
  else Err ("sandbox seccomp action " +:+ Quote (sr_Action rule) +:+ " is not supported").

Definition seccompCompareOpForCondition (op : string) : result ScmpCompareOp :=
  let normalized := normalizeSeccompCompareOp op in
  if bool_decide (normalized = SeccompCompareNotEqual) then Ok CompareNotEqual
  else if bool_decide (normalized = SeccompCompareLessThan) then Ok CompareLess
  else if bool_decide (normalized = SeccompCompareLessOrEqual) then Ok CompareLessOrEqual
  else if bool_decide (normalized = SeccompCompareEqual) then Ok CompareEqual
  else if bool_decide (normalized = SeccompCompareGreaterOrEqual) then Ok CompareGreaterEqual
  else if bool_decide (normalized = SeccompCompareGreaterThan) then Ok CompareGreater
  else if bool_decide (normalized = SeccompCompareMaskedEqual) then Ok CompareMaskedEqual
  else Err ("sandbox seccomp compare op " +:+ Quote op +:+ " is not supported").

Definition compile_condition (rule : SeccompRule) (condition : SeccompCondition) : result ScmpCondition :=
  op <-! seccompCompareOpForCondition (sc_Operation condition);
  result_wrap (fun e => "build seccomp condition for " +:+ Quote (sr_Syscall rule) +:+ ": " +:+ e)
    (if bool_decide (op = CompareMaskedEqual)
     then MakeCondition (Z.of_N (sc_Argument condition)) op [sc_Mask condition; sc_Value condition]
     else MakeCondition (Z.of_N (sc_Argument condition)) op [sc_Value condition]).
Definition seccompConditionsForRule (rule : SeccompRule) : result (list ScmpCondition) :=
  result_map (compile_condition rule) (sr_Conditions rule).

(** A filter is the list of its rules, in the order they were added. *)
Definition addSeccompRule (filter : list ScmpRule) (spec : seccompRuleSpec) : result (list ScmpRule) :=
  let name := Quote (sr_Syscall (ss_rule spec)) in
  match GetSyscallFromName (TrimSpace (sr_Syscall (ss_rule spec))) with
  | Err e => if ss_optional spec then Ok filter else Err ("resolve seccomp syscall " +:+ name +:+ ": " +:+ e)
  | Ok call =>
      action <-! seccompActionForRule (ss_rule spec);
      conditions <-! seccompConditionsForRule (ss_rule spec);
      let rule := {| rl_call := call; rl_action := action; rl_conditions := conditions |} in
      match AddRule_error filter rule with
      | Some e =>
          Err ((if (length conditions =? 0)%nat then "add seccomp rule for " else "add seccomp conditional rule for ")
                 +:+ name +:+ ": " +:+ e)
      | None => Ok (filter ++ [rule])
      end
  end.
Fixpoint add_rules (filter : list ScmpRule) (specs : list seccompRuleSpec) : result (list ScmpRule) :=
  match specs with
  | [] => Ok filter
  | spec :: specs => filter <-! addSeccompRule filter spec; add_rules filter specs
  end.

(** ** The program file *)

(** What the operating system answers while the file is made: the memfd or its
    errno, whether a handle is made of it, and the temporary file's path. *)
Record fileOS := {
  fo_MemfdCreate : Z + Z;
  fo_NewFile_nil : bool;
  fo_CreateTemp : result string;
  fo_Seek_error : option string;
  fo_errno_text : Z -> string;
}.
Inductive programFile := Memfd (fd : Z) | TempFile (path : string).

(** What happens to the files, in order. *)
Inductive fileEvent :=
| FOpened (f : programFile)
| FClosedFD (fd : Z)
| FClosed (f : programFile)
| FRemoved (path : string).

Definition cleanup_events (f : programFile) : list fileEvent :=
  match f with Memfd _ => [] | TempFile path => [FRemoved path] end.
Definition preparedSeccompProgram_Close (f : programFile) : list fileEvent := FClosed f :: cleanup_events f.

Definition newSeccompProgramFile (os : fileOS) : result programFile * list fileEvent :=
  match fo_MemfdCreate os with
  | inl fd =>
      if fo_NewFile_nil os
      then (Err "create seccomp memfd handle", [FOpened (Memfd fd); FClosedFD fd])
      else (Ok (Memfd fd), [FOpened (Memfd fd)])
  | inr errno =>
      if negb (errno =? ENOSYS_code) && negb (errno =? EINVAL_code)
      then (Err ("create seccomp memfd: " +:+ fo_errno_text os errno), [])
      else match fo_CreateTemp os with
           | Err e => (Err ("create seccomp temp file: " +:+ e), [])
           | Ok path => (Ok (TempFile path), [FOpened (TempFile path)])
           end
  end.

Definition filter_rules (normalized : normalizedSeccompOptions) : result (list ScmpRule) :=
  filter <-! add_rules [] (seccompProfileRules (no_profile normalized));
  add_rules filter (map (fun rule => {| ss_rule := rule; ss_optional := false |}) (no_rules normalized)).

(** [None] is the nil program of a disabled filter. *)
Definition prepareSeccompProgram (os : fileOS) (opts : SeccompOptions)
    : result (option (list ScmpRule * programFile)) * list fileEvent :=
  let normalized := normalizeSeccompOptions opts in
  if no_disabled normalized then (Ok None, []) else
  match validateSeccompOptions opts with
  | Err e => (Err e, [])
  | Ok _ =>
      match NewFilter with
      | Some e => (Err ("create seccomp filter: " +:+ e), [])
      | None =>
          match filter_rules normalized with
          | Err e => (Err e, [])
          | Ok rules =>
              match newSeccompProgramFile os with
              | (Err e, events) => (Err e, events)
              | (Ok file, events) =>
                  match ExportBPF_error rules with
                  | Some e => (Err ("export seccomp program: " +:+ e), events ++ FClosed file :: cleanup_events file)
                  | None =>
                      match fo_Seek_error os with
                      | Some e => (Err ("rewind seccomp program: " +:+ e), events ++ FClosed file :: cleanup_events file)
                      | None => (Ok (Some (rules, file)), events)
                      end
                  end
              end
          end
      end
  end.

(** [compileSeccompProgram]: the bytes of the program, given how the file reads;
    the program is closed on every path. [None] is the nil slice. *)
Definition compileSeccompProgram (os : fileOS) (rewind : option string) (read : list ScmpRule -> result string)
    (opts : SeccompOptions) : result (option string) * list fileEvent :=
  match prepareSeccompProgram os opts with
  | (Err e, events) => (Err e, events)
  | (Ok None, events) => (Ok None, events)
  | (Ok (Some (rules, file)), events) =>
      let close := events ++ preparedSeccompProgram_Close file in
      match rewind with
      | Some e => (Err ("rewind seccomp program: " +:+ e), close)
      | None =>
          match read rules with
          | Err e => (Err ("read seccomp program: " +:+ e), close)
          | Ok bytes => (Ok (Some bytes), close)
          end
      end
  end.

(** ** The meaning of a rule as it is written *)

Definition condition_holds (args : list Z) (c : SeccompCondition) : bool :=
  let a := nth (N.to_nat (sc_Argument c)) args 0 in
  let op := normalizeSeccompCompareOp (sc_Operation c) in
  if bool_decide (op = SeccompCompareNotEqual) then negb (a =? sc_Value c)
  else if bool_decide (op = SeccompCompareLessThan) then a <? sc_Value c
  else if bool_decide (op = SeccompCompareLessOrEqual) then a <=? sc_Value c
  else if bool_decide (op = SeccompCompareEqual) then a =? sc_Value c
  else if bool_decide (op = SeccompCompareGreaterOrEqual) then sc_Value c <=? a
  else if bool_decide (op = SeccompCompareGreaterThan) then sc_Value c <? a
  else Z.land a (sc_Mask c) =? sc_Value c.

(** A written rule covers a system call if its name resolves to that call and all
    its conditions hold of the arguments. *)
Definition covers (call : Z) (args : list Z) (rule : SeccompRule) : bool :=
  match GetSyscallFromName (TrimSpace (sr_Syscall rule)) with
  | Ok c => (c =? call) && forallb (condition_holds args) (sr_Conditions rule)
  | Err _ => false
  end.
Definition written_rules (opts : SeccompOptions) : list SeccompRule :=
  map ss_rule (seccompProfileRules (no_profile (normalizeSeccompOptions opts))) ++ so_Rules opts.
End seccomp.
