(* ===== verification/SeccompTheorems.v ===== *)
(** What the payload's seccomp filter does: it denies exactly the system calls a
    written rule covers, so the profiles block what they list, extra rules only
    tighten it, and the two places where a 64-bit comparison leaves a gap. *)
From S2P Require Import Prelude GoStrings Sample Seccomp.

Definition denial (a : ScmpAction) : Prop :=
  match a with ActErrno code => 0 < code <= 32767 | ActTrap | ActKillProcess => True | _ => False end.

Lemma int16_small n : 0 <= n <= 32767 -> int16 n = n.
Proof. intros R. unfold int16. rewrite Z.mod_small; lia. Qed.

Section proofs.
Context `{GoLib} {L : Libseccomp} {LL : LibseccompLaws L}.

Lemma validate_condition_ok rule c :
  validate_condition rule c = Ok tt ->
  (sc_Argument c <= 5)%N /\ normalizeSeccompCompareOp (sc_Operation c) ∈ known_ops.
Proof.
  unfold validate_condition. intros V. split_all_in V.
  to_prop. split; [by apply N.ltb_ge|done].
Qed.

(** A rule that passed validation compiles to a condition with its meaning. *)
Lemma compile_condition_spec rule c :
  validate_condition rule c = Ok tt ->
  exists d, compile_condition rule c = Ok d /\ forall args, cond_holds args d = condition_holds args c.
Proof.
  intros [A O]%validate_condition_ok. unfold known_ops in O.
  unfold compile_condition, seccompCompareOpForCondition, condition_holds.
  assert (N : forall args, nth (Z.to_nat (Z.of_N (sc_Argument c))) args 0 = nth (N.to_nat (sc_Argument c)) args 0).
  { intros. f_equal. lia. }
  rewrite !elem_of_cons, elem_of_nil in O.
  destruct_or!; try done; rewrite O; simpl; (rewrite MakeCondition_ok by (try done; cbn; lia));
    simpl; eexists; (split; [reflexivity|]); intros args; unfold cond_holds; simpl; by rewrite N.
Qed.

Lemma validateSeccompRule_inv rule :
  validateSeccompRule rule = Ok tt ->
  normalizeSeccompAction (sr_Action rule) ∈ known_actions /\ 0 <= sr_Errno rule <= 32767 /\
  Forall (fun c => validate_condition rule c = Ok tt) (sr_Conditions rule).
Proof.
  unfold validateSeccompRule. intros V.
  destruct (bool_decide (TrimSpace _ = "")); [done|].
  case_bool_decide as A; simpl in V; [|done].
  destruct (_ && _); [done|].
  destruct ((sr_Errno rule <? 0) || (32767 <? sr_Errno rule)) eqn:R; [done|].
  apply result_bind_ok in V as (us & V & _). apply result_map_ok in V. to_prop.
  split; [done|]. split; [lia|].
  apply Forall_forall. intros c C. apply list_elem_of_lookup in C as [i C].
  destruct (Forall2_lookup_l _ _ _ _ _ V C) as ([] & _ & E). exact E.
Qed.

(** What a rule asks for: its action in any case and with blanks around it, an
    errno when it has none, and EPERM (1) when the errno is not given. *)
Definition written_action (rule : SeccompRule) : option ScmpAction :=
  let action := ToLower (TrimSpace (sr_Action rule)) in
  if decide (TrimSpace (sr_Action rule) = "" \/ action = "errno")
  then Some (ActErrno (if sr_Errno rule =? 0 then 1 else sr_Errno rule))
  else if decide (action = "trap") then Some ActTrap
  else if decide (action = "kill-process") then Some ActKillProcess else None.

Lemma seccompActionForRule_spec rule :
  validateSeccompRule rule = Ok tt ->
  exists a, seccompActionForRule rule = Ok a /\ denial a /\ written_action rule = Some a.
Proof.
  intros (A & R & _)%validateSeccompRule_inv. unfold seccompActionForRule. unfold known_actions in A.
  rewrite !elem_of_cons, elem_of_nil in A.
  assert (E : denial (ActErrno (int16 (if sr_Errno rule =? 0 then EPERM_code else sr_Errno rule))) /\
              int16 (if sr_Errno rule =? 0 then EPERM_code else sr_Errno rule) = (if sr_Errno rule =? 0 then 1 else sr_Errno rule)).
  { destruct (sr_Errno rule =? 0) eqn:Z; to_prop; [by vm_compute|]. rewrite int16_small; [|lia]. simpl. lia. }
  destruct E as [E1 E2]. unfold written_action. rewrite <- E2. clear E2.
  unfold normalizeSeccompAction in *. destruct (decide (TrimSpace (sr_Action rule) = "")) as [B|B].
  { rewrite (bool_decide_eq_true_2 (TrimSpace (sr_Action rule) = "")) by done. rewrite decide_True by (by left). eexists. split; [reflexivity|]. done. }
  rewrite (bool_decide_eq_false_2 (TrimSpace _ = "")) in * by done. destruct_or!; try done; rewrite A.
  - rewrite decide_True by (by right). eexists. split; [reflexivity|]. done.
  - rewrite decide_False by naive_solver. eexists. split; [reflexivity|]. done.
  - rewrite decide_False by naive_solver. eexists. split; [reflexivity|]. done.
Qed.

Lemma seccompConditionsForRule_spec rule :
  validateSeccompRule rule = Ok tt ->
  exists ds, seccompConditionsForRule rule = Ok ds /\
    forall args, forallb (cond_holds args) ds = forallb (condition_holds args) (sr_Conditions rule).
Proof.
  intros (_ & _ & V)%validateSeccompRule_inv. unfold seccompConditionsForRule.
  induction V as [|c cs V _ (ds & IH1 & IH2)]; simpl; [by exists []|].
  destruct (compile_condition_spec _ _ V) as (d & -> & D). simpl. rewrite IH1. simpl.
  exists (d :: ds). split; [done|]. intros args. simpl. by rewrite D, IH2.
Qed.

(** A rule of a filter that comes from a written one: it applies where that one
    covers, with the action it asks for. *)
Definition made_from (written : list SeccompRule) (r : ScmpRule) : Prop :=
  denial (rl_action r) /\ exists w, w ∈ written /\ written_action w = Some (rl_action r) /\
    forall call args, rule_applies call args r = covers call args w.
Lemma made_from_mono written written' r : written ⊆ written' -> made_from written r -> made_from written' r.
Proof. intros S (D & w & I & X). split; [done|]. exists w. split; [by apply S|done]. Qed.

(** One rule added to a filter: the filter grows by what the rule covers. *)
Lemma addSeccompRule_spec written filter spec filter' :
  validateSeccompRule (ss_rule spec) = Ok tt -> addSeccompRule filter spec = Ok filter' ->
  Forall (made_from written) filter ->
  Forall (made_from (written ++ [ss_rule spec])) filter' /\
  forall call args, existsb (rule_applies call args) filter' =
    existsb (rule_applies call args) filter || covers call args (ss_rule spec).
Proof.
  intros V A F. assert (F' : Forall (made_from (written ++ [ss_rule spec])) filter).
  { eapply Forall_impl; [exact F|]. intros r. apply made_from_mono. set_solver. }
  unfold addSeccompRule in A. destruct (GetSyscallFromName _) as [c|e] eqn:G.
  - destruct (seccompActionForRule_spec _ V) as (a & EA & D & W).
    destruct (seccompConditionsForRule_spec _ V) as (ds & EC & DS). rewrite EA, EC in A. simpl in A.
    destruct (AddRule_error _ _); [done|]. injection A as <-.
    assert (C : forall call args, rule_applies call args {| rl_call := c; rl_action := a; rl_conditions := ds |} = covers call args (ss_rule spec)).
    { intros call args. unfold rule_applies, covers. rewrite G. simpl. by rewrite DS. }
    split.
    + apply Forall_app. split; [done|]. apply Forall_singleton. split; [done|]. exists (ss_rule spec). split; [set_solver|done].
    + intros call args. rewrite existsb_app. cbn [existsb]. by rewrite C, orb_false_r.
  - unfold covers. rewrite G. destruct (ss_optional spec); [|done]. injection A as <-. split; [done|]. intros. by rewrite orb_false_r.
Qed.

Lemma add_rules_spec written specs filter filter' :
  Forall (fun s => validateSeccompRule (ss_rule s) = Ok tt) specs -> add_rules filter specs = Ok filter' ->
  Forall (made_from written) filter ->
  Forall (made_from (written ++ map ss_rule specs)) filter' /\
  forall call args, existsb (rule_applies call args) filter' =
    existsb (rule_applies call args) filter || existsb (covers call args) (map ss_rule specs).
Proof.
  intros V. revert written filter. induction V as [|s specs V _ IH]; intros written filter A F; simpl in A.
  - injection A as <-. simpl. rewrite app_nil_r. split; [done|]. intros. by rewrite orb_false_r.
  - apply result_bind_ok in A as (f1 & A & B).
    destruct (addSeccompRule_spec _ _ _ _ V A F) as [F1 E1]. destruct (IH _ _ B F1) as [F2 E2].
    rewrite <- app_assoc in F2. split; [done|]. intros. simpl. by rewrite E2, E1, orb_assoc.
Qed.

Lemma deny_valid name code opt :
  TrimSpace name <> "" -> 0 <= code <= 32767 ->
  validateSeccompRule (ss_rule {| ss_rule := {| sr_Syscall := name; sr_Action := SeccompActionErrno; sr_Errno := code;
    sr_Conditions := [] |}; ss_optional := opt |}) = Ok tt.
Proof.
  intros N R. unfold validateSeccompRule. simpl. rewrite bool_decide_eq_false_2 by done.
  replace (code <? 0) with false by lia. by replace (32767 <? code) with false by lia.
Qed.

(** The built-in rules pass their own validation. *)
Lemma profile_rules_valid profile :
  Forall (fun s => validateSeccompRule (ss_rule s) = Ok tt) (seccompProfileRules profile).
Proof.
  assert (B : Forall (fun s => validateSeccompRule (ss_rule s) = Ok tt) baselineSeccompRuleSpecs).
  { unfold baselineSeccompRuleSpecs. simpl.
    repeat (constructor; [first [apply deny_valid; [by vm_compute|by vm_compute] | reflexivity]|]). constructor. }
  unfold seccompProfileRules. case_bool_decide; [done|]. case_bool_decide; [|constructor].
  apply Forall_app. split; [done|].
  repeat (constructor; [first [apply deny_valid; [by vm_compute|by vm_compute] | reflexivity]|]). constructor.
Qed.

Lemma normalize_enabled opts :
  so_Disabled opts = false ->
  no_disabled (normalizeSeccompOptions opts) = false /\ no_rules (normalizeSeccompOptions opts) = so_Rules opts.
Proof. intros D. unfold normalizeSeccompOptions. cbn. rewrite D. by destruct (bool_decide _). Qed.

Lemma validateSeccompOptions_rules opts :
  so_Disabled opts = false -> validateSeccompOptions opts = Ok tt ->
  Forall (fun r => validateSeccompRule r = Ok tt) (so_Rules opts).
Proof.
  intros D V. unfold validateSeccompOptions in V.
  destruct (normalize_enabled _ D) as [E1 E2]. cbv zeta in V. rewrite E1, E2 in V. destruct (negb _); [done|].
  apply result_bind_ok in V as (us & V & _). apply result_map_ok in V.
  apply Forall_forall. intros c C. apply list_elem_of_lookup in C as [i C].
  destruct (Forall2_lookup_l _ _ _ _ _ V C) as ([] & _ & F). exact F.
Qed.

Lemma prepare_inv os opts rules file events :
  prepareSeccompProgram os opts = (Ok (Some (rules, file)), events) ->
  so_Disabled opts = false /\ validateSeccompOptions opts = Ok tt /\
  filter_rules (normalizeSeccompOptions opts) = Ok rules.
Proof.
  unfold prepareSeccompProgram. intros P.
  destruct (no_disabled (normalizeSeccompOptions opts)) eqn:D; [done|].
  destruct (validateSeccompOptions opts) as [[]|] eqn:V; [|done].
  destruct NewFilter; [done|]. destruct (filter_rules _) as [rs|] eqn:F; [|done].
  destruct (newSeccompProgramFile os) as [[f|] evs]; [|done].
  destruct (ExportBPF_error rs); [done|]. destruct (fo_Seek_error os); [done|].
  injection P as <- <- <-. split; [|done].
  unfold normalizeSeccompOptions in D. simpl in D. destruct (so_Disabled opts); done.
Qed.

(** The rules of a prepared program apply where a written rule covers. *)
Lemma prepared_rules_spec os opts rules file events :
  prepareSeccompProgram os opts = (Ok (Some (rules, file)), events) ->
  Forall (made_from (written_rules opts)) rules /\
  forall call args, existsb (rule_applies call args) rules = existsb (covers call args) (written_rules opts).
Proof.
  intros (D & V & F)%prepare_inv. unfold filter_rules in F. apply result_bind_ok in F as (f1 & F1 & F2).
  destruct (add_rules_spec [] _ _ _ (profile_rules_valid _) F1 (List.Forall_nil _)) as [G1 E1].
  destruct (normalize_enabled _ D) as [_ NR].
  rewrite NR in F2.
  destruct (add_rules_spec (map ss_rule (seccompProfileRules (no_profile (normalizeSeccompOptions opts)))) (map (fun rule => {| ss_rule := rule; ss_optional := false |}) (so_Rules opts)) f1 rules)
    as [G2 E2]; [|done|exact G1|].
  { apply Forall_map. eapply Forall_impl; [by apply validateSeccompOptions_rules|]. done. }
  rewrite map_map, map_id in G2. split; [exact G2|]. intros call args. rewrite E2, E1, map_map, map_id. simpl. unfold written_rules.
  by rewrite existsb_app.
Qed.

(** The program's answer, in terms of the written rules. *)
Lemma program_answers os opts rules file events call args :
  prepareSeccompProgram os opts = (Ok (Some (rules, file)), events) -> native_call call = true ->
  if existsb (covers call args) (written_rules opts)
  then denial (program_action rules call args) /\
       exists w, w ∈ written_rules opts /\ covers call args w = true /\ written_action w = Some (program_action rules call args)
  else program_action rules call args = ActAllow.
Proof.
  intros P NC. destruct (prepared_rules_spec _ _ _ _ _ P) as [D E].
  rewrite <- E. destruct (existsb (rule_applies call args) rules) eqn:X.
  - apply program_match in X as (r & I & Ap & ->); [|done]. rewrite Forall_forall in D. apply list_elem_of_In in I.
    destruct (D r I) as (Dn & w & Iw & Ww & Cw). split; [done|]. exists w. by rewrite <- Cw.
  - by apply program_default.
Qed.
End proofs.

(** A concrete libseccomp: the numbers of x86-64, every rule accepted, the first
    matching rule wins. Only the witnesses use it. *)
Module SampleScmp.
#[local] Existing Instance sampleLib.
Definition numbers : list (string * Z) :=
  [("ioctl", 16); ("getpid", 39); ("clone", 56); ("ptrace", 101); ("syslog", 103); ("pivot_root", 155); ("prctl", 157);
   ("mount", 165); ("umount2", 166); ("swapon", 167); ("swapoff", 168); ("reboot", 169); ("iopl", 172); ("ioperm", 173);
   ("add_key", 248); ("request_key", 249); ("keyctl", 250); ("unshare", 272); ("setns", 308); ("seccomp", 317);
   ("bpf", 321); ("clone3", 435)].
Definition number (name : string) : result Z :=
  match find (fun e => String.eqb e.1 name) numbers with Some (_, n) => Ok n | None => Err "unknown syscall" end.
Definition make (arg : Z) (op : ScmpCompareOp) (vs : list Z) : result ScmpCondition :=
  if bool_decide (0 <= arg <= 5 /\ op <> CompareInvalid /\ (1 <= length vs <= 2)%nat)
  then Ok {| cd_Argument := arg; cd_Op := op; cd_Operand1 := default 0 (head vs); cd_Operand2 := default 0 (head (tail vs)) |}
  else Err "invalid condition".
Definition run (rules : list ScmpRule) (call : Z) (args : list Z) : ScmpAction :=
  match find (rule_applies call args) rules with Some r => rl_action r | None => ActAllow end.

#[export] Instance scmp : Libseccomp := {|
  GetSyscallFromName := number; MakeCondition := make; NewFilter := None;
  AddRule_error := fun _ _ => None; ExportBPF_error := fun _ => None; program_action := run |}.

#[export] Instance scmp_laws : LibseccompLaws scmp.
Proof.
  split; cbn.
  - intros arg op v1 vs A O V. unfold make. rewrite bool_decide_eq_true_2; [done|]. simpl. repeat split; try done; lia.
  - intros rules call args _ E. unfold run. destruct (find _ rules) as [r|] eqn:F; [|done].
    apply List.find_some in F as [I A]. enough (existsb (rule_applies call args) rules = true) by congruence.
    apply List.existsb_exists. eauto.
  - intros rules call args _ E. unfold run. destruct (find _ rules) as [r|] eqn:F.
    + apply List.find_some in F as [I A]. eauto.
    + apply List.existsb_exists in E as (r & I & A). by rewrite (List.find_none _ _ F _ I) in A.
Qed.

Definition os : fileOS := {|
  fo_MemfdCreate := inl 7; fo_NewFile_nil := false; fo_CreateTemp := Err "no"; fo_Seek_error := None;
  fo_errno_text := fun _ => "errno" |}.
Definition opts (profile : string) : SeccompOptions := {| so_Disabled := false; so_Profile := profile; so_Rules := [] |}.
Definition rules (profile : string) : list ScmpRule :=
  match (prepareSeccompProgram os (opts profile)).1 with Ok (Some (rules, _)) => rules | _ => [] end.

Lemma prepared_baseline : prepareSeccompProgram os (opts "") = (Ok (Some (rules "", Memfd 7)), [FOpened (Memfd 7)]).
Proof. vm_compute. reflexivity. Qed.
Lemma prepared_restricted :
  prepareSeccompProgram os (opts "restricted") = (Ok (Some (rules "restricted", Memfd 7)), [FOpened (Memfd 7)]).
Proof. vm_compute. reflexivity. Qed.
End SampleScmp.

Section theorems.
Context `{GoLib} {L : Libseccomp} {LL : LibseccompLaws L}.


Lemma covered_denied os opts rules file events call args r :
  prepareSeccompProgram os opts = (Ok (Some (rules, file)), events) -> native_call call = true ->
  r ∈ written_rules opts -> covers call args r = true -> denial (program_action rules call args).
Proof.
  intros P NC I C. pose proof (program_answers _ _ _ _ _ call args P NC) as A.
  replace (existsb (covers call args) (written_rules opts)) with true in A; [by destruct A|].
  symmetry. apply List.existsb_exists. exists r. by rewrite <- list_elem_of_In.
Qed.

(** The options that select a built-in profile. *)
Definition builtin_profile (opts : SeccompOptions) : Prop :=
  so_Profile opts ∈ ["" ; SeccompProfileBaseline; SeccompProfileRestricted].

Lemma builtin_written opts :
  so_Disabled opts = false -> builtin_profile opts ->
  exists extra, written_rules opts = map ss_rule baselineSeccompRuleSpecs ++ extra.
Proof.
  intros D B. unfold written_rules, normalizeSeccompOptions. cbn [no_disabled no_profile]. rewrite D.
  unfold builtin_profile in B. rewrite !elem_of_cons, elem_of_nil in B. destruct_or!; try done; rewrite B; cbn [bool_decide decide].
  - exists (so_Rules opts). reflexivity.
  - exists (so_Rules opts). reflexivity.
  - exists (map ss_rule restrictedSeccompRuleSpecs ++ so_Rules opts).
    change (seccompProfileRules _) with (baselineSeccompRuleSpecs ++ restrictedSeccompRuleSpecs).
    by rewrite map_app, app_assoc.
Qed.

Lemma baseline_in opts r :
  so_Disabled opts = false -> builtin_profile opts -> r ∈ map ss_rule baselineSeccompRuleSpecs -> r ∈ written_rules opts.
Proof. intros D B I. destruct (builtin_written _ D B) as [e ->]. apply elem_of_app. by left. Qed.

Lemma covers_unconditional call args name r :
  GetSyscallFromName (TrimSpace name) = Ok call -> sr_Syscall r = name -> sr_Conditions r = [] -> covers call args r = true.
Proof. intros G N C. unfold covers. rewrite N, G, C. simpl. by rewrite Z.eqb_refl. Qed.

(** Each namespace flag is one bit. *)
Lemma flag_bit f : f ∈ namespaceCloneFlags -> exists n, 0 <= n /\ f = 2 ^ n.
Proof.
  unfold namespaceCloneFlags. rewrite !elem_of_cons, elem_of_nil.
  intros D. destruct_or!; try done; subst f;
    match goal with |- exists n, _ /\ ?c = _ => exists (Z.log2 c) end; by vm_compute.
Qed.

Lemma land_one_bit x n : 0 <= n -> Z.land x (2 ^ n) <> 0 -> Z.land x (2 ^ n) = 2 ^ n.
Proof.
  intros N NZ. destruct (Z.testbit x n) eqn:T.
  - apply Z.bits_inj'. intros m M. rewrite Z.land_spec, Z.pow2_bits_eqb by lia.
    destruct (Z.eqb_spec n m); [by subst; rewrite T|by rewrite andb_false_r].
  - exfalso. apply NZ. apply Z.bits_inj'. intros m M. rewrite Z.land_spec, Z.pow2_bits_eqb, Z.bits_0 by lia.
    destruct (Z.eqb_spec n m); [by subst; rewrite T|by rewrite andb_false_r].
Qed.

(** Under the baseline and the restricted profile the payload cannot make
    namespaces or change mounts: whatever rules the user adds, every clone whose
    flags contain a namespace flag is denied for all values of the other flags,
    and so are unshare, setns, clone3, the mount calls, ptrace and the module, key
    and bpf calls, for all arguments. *)
Theorem seccomp_namespaces_denied os opts rules file events :
  prepareSeccompProgram os opts = (Ok (Some (rules, file)), events) -> builtin_profile opts ->
  (forall call flags rest f, GetSyscallFromName "clone" = Ok call -> native_call call = true -> f ∈ namespaceCloneFlags -> Z.land flags f <> 0 ->
    denial (program_action rules call (flags :: rest))) /\
  (forall name call args, GetSyscallFromName name = Ok call -> native_call call = true ->
    name ∈ ["unshare"; "setns"; "clone3"; "mount"; "umount2"; "pivot_root"; "move_mount"; "open_tree"; "fsopen";
            "fsmount"; "mount_setattr"; "ptrace"; "process_vm_writev"; "pidfd_getfd"; "bpf"; "keyctl"; "init_module";
            "finit_module"; "kexec_load"; "open_by_handle_at"; "perf_event_open"; "userfaultfd"] ->
    denial (program_action rules call args)).
Proof.
  intros P B. pose proof (prepare_inv _ _ _ _ _ P) as (D & _). split.
  - intros call flags rest f G NC F NZ. destruct (flag_bit f F) as (n & N & E).
    eapply covered_denied; [exact P|exact NC| |].
    + apply (baseline_in _ (ss_rule (clone_spec f)) D B). apply list_elem_of_fmap. exists (clone_spec f). split; [done|].
      unfold baselineSeccompRuleSpecs. rewrite elem_of_cons, !elem_of_app, elem_of_cons, !elem_of_app, elem_of_cons.
      do 6 right. apply list_elem_of_fmap. eauto.
    + unfold covers. change (TrimSpace _) with "clone". rewrite G, Z.eqb_refl. unfold condition_holds. cbn. rewrite E in *.
      rewrite land_one_bit by done. by rewrite Z.eqb_refl.
  - intros name call args G NC I.
    assert (M : existsb (fun r => String.eqb (sr_Syscall r) name && (length (sr_Conditions r) =? 0)%nat)
                  (map ss_rule baselineSeccompRuleSpecs) = true /\ TrimSpace name = name).
    { rewrite !elem_of_cons, elem_of_nil in I. destruct_or!; try done; subst name; by vm_compute. }
    destruct M as [M T]. apply List.existsb_exists in M as (r & M & Q). apply list_elem_of_In in M.
    apply andb_true_iff in Q as [N%String.eqb_eq C%Nat.eqb_eq%nil_length_inv].
    eapply covered_denied; [exact P|exact NC|by apply baseline_in|].
    eapply covers_unconditional; [by rewrite T|done|done].
Qed.

(** User rules only tighten a filter: what is denied without them stays denied. *)
Lemma seccomp_rules_tighten os1 os2 opts extra rules1 rules2 file1 file2 events1 events2 call args :
  prepareSeccompProgram os1 opts = (Ok (Some (rules1, file1)), events1) ->
  prepareSeccompProgram os2 {| so_Disabled := so_Disabled opts; so_Profile := so_Profile opts;
    so_Rules := so_Rules opts ++ extra |} = (Ok (Some (rules2, file2)), events2) ->
  native_call call = true ->
  denial (program_action rules1 call args) -> denial (program_action rules2 call args).
Proof.
  intros P1 P2 NC D. pose proof (program_answers _ _ _ _ _ call args P1 NC) as A1.
  pose proof (program_answers _ _ _ _ _ call args P2 NC) as A2.
  destruct (existsb (covers call args) (written_rules opts)) eqn:E; [|by rewrite A1 in D].
  assert (E2 : written_rules {| so_Disabled := so_Disabled opts; so_Profile := so_Profile opts; so_Rules := so_Rules opts ++ extra |}
               = written_rules opts ++ extra).
  { unfold written_rules, normalizeSeccompOptions. simpl. rewrite app_assoc. f_equal. f_equal.
    destruct (so_Disabled opts); [done|]. by destruct (bool_decide _). }
  rewrite E2, existsb_app, E in A2. by destruct A2.
Qed.

Notation all_specs := (seccompProfileRules SeccompProfileRestricted).

Lemma written_restricted opts r :
  so_Disabled opts = false -> builtin_profile opts -> so_Rules opts = [] ->
  In r (written_rules opts) -> In r (map ss_rule all_specs).
Proof.
  intros D B NR. rewrite <- !list_elem_of_In. unfold written_rules, normalizeSeccompOptions.
  cbn [no_disabled no_profile]. rewrite D, NR, app_nil_r.
  unfold builtin_profile in B. rewrite !elem_of_cons, elem_of_nil in B.
  change all_specs with (baselineSeccompRuleSpecs ++ restrictedSeccompRuleSpecs).
  rewrite map_app, elem_of_app. destruct_or!; try done; rewrite B.
  - intros I. left. exact I.
  - intros I. left. exact I.
  - change (seccompProfileRules _) with (baselineSeccompRuleSpecs ++ restrictedSeccompRuleSpecs).
    by rewrite map_app, elem_of_app.
Qed.

(** A call that only the rules named [name] can cover, and whose conditions fail. *)
Lemma uncovered_allowed os opts rules file events call name args :
  prepareSeccompProgram os opts = (Ok (Some (rules, file)), events) ->
  builtin_profile opts -> so_Rules opts = [] -> native_call call = true ->
  (forall n, In n (map (fun s => TrimSpace (sr_Syscall (ss_rule s))) all_specs) ->
     GetSyscallFromName n = Ok call -> n = name) ->
  (forall r, In r (map ss_rule all_specs) -> TrimSpace (sr_Syscall r) = name ->
     forallb (condition_holds args) (sr_Conditions r) = false) ->
  program_action rules call args = ActAllow.
Proof.
  intros P B NR NC N C. pose proof (prepare_inv _ _ _ _ _ P) as (D & _).
  pose proof (program_answers _ _ _ _ _ call args P NC) as A.
  destruct (existsb (covers call args) (written_rules opts)) eqn:E; [|done]. exfalso.
  apply List.existsb_exists in E as (r & I & V). apply (written_restricted _ _ D B NR) in I.
  unfold covers in V. destruct (GetSyscallFromName _) as [c|] eqn:G; [|done].
  apply andb_true_iff in V as [V%Z.eqb_eq F]. subst c. rewrite C in F; [done|done|].
  apply N; [|done]. apply List.in_map_iff in I as (s & <- & I). apply List.in_map_iff. by exists s.
Qed.

(** A gap of the built-in profiles: their comparisons of the ioctl request and
    of the prctl option are over 64 bits, while the kernel takes the low 32 bits of
    both arguments. A request that is TIOCSTI modulo 2^32 with a bit set above is
    allowed by the baseline profile, and a PR_SET_SECCOMP of that form by the
    restricted profile. *)
Theorem seccomp_wide_argument_gap os opts rules file events ioctl prctl high rest :
  prepareSeccompProgram os opts = (Ok (Some (rules, file)), events) ->
  builtin_profile opts -> so_Rules opts = [] -> 0 < high -> native_call ioctl = true -> native_call prctl = true ->
  (forall name, In name (map (fun s => TrimSpace (sr_Syscall (ss_rule s))) (seccompProfileRules SeccompProfileRestricted)) ->
     (GetSyscallFromName name = Ok ioctl -> name = "ioctl") /\ (GetSyscallFromName name = Ok prctl -> name = "prctl")) ->
  (forall fd, let request := high * 2 ^ 32 + TIOCSTI in
    request mod 2 ^ 32 = TIOCSTI /\ program_action rules ioctl (fd :: request :: rest) = ActAllow) /\
  (let option := high * 2 ^ 32 + PR_SET_SECCOMP in
    option mod 2 ^ 32 = PR_SET_SECCOMP /\ program_action rules prctl (option :: rest) = ActAllow).
Proof.
  intros P B NR HI NI NP U.
  assert (LOW : forall c, 0 <= c < 2 ^ 32 -> (high * 2 ^ 32 + c) mod 2 ^ 32 = c).
  { intros c R. rewrite Z.add_comm, Z.mod_add by done. by apply Z.mod_small. }
  split.
  - intros fd. cbv zeta. split; [by apply LOW|]. 
    apply (uncovered_allowed _ _ _ _ _ _ "ioctl" _ P B NR NI).
    + intros n IN G. by apply (U n).
    + intros r I. cbn in I. repeat (destruct I as [<-|I]; [try (intros N; exfalso; vm_compute in N; discriminate N)|]); [|done]. intros _.
      change ((high * 2 ^ 32 + TIOCSTI =? TIOCSTI) && true = false). rewrite andb_true_r. apply Z.eqb_neq. lia.
  - cbv zeta. split; [by apply LOW|]. 
    apply (uncovered_allowed _ _ _ _ _ _ "prctl" _ P B NR NP).
    + intros n IN G. by apply (U n).
    + intros r I. cbn in I. repeat (destruct I as [<-|I]; [try (intros N; exfalso; vm_compute in N; discriminate N)|]); [|done]. intros _.
      change ((high * 2 ^ 32 + PR_SET_SECCOMP =? PR_SET_SECCOMP) && true = false). rewrite andb_true_r. apply Z.eqb_neq. lia.
Qed.
End theorems.

(** A failed preparation gives its file back, and so does every call of
    [compileSeccompProgram]. *)
Definition released (events : list fileEvent) (f : programFile) : Prop :=
  match f with
  | Memfd fd => FClosed f ∈ events \/ FClosedFD fd ∈ events
  | TempFile path => FClosed f ∈ events /\ FRemoved path ∈ events
  end.
Definition all_released (events : list fileEvent) : Prop := forall f, FOpened f ∈ events -> released events f.

Section files.
Context `{GoLib} {L : Libseccomp}.

Lemma all_released_nil : all_released [].
Proof. intros f F. by apply elem_of_nil in F. Qed.

Lemma all_released_close f : all_released ([FOpened f] ++ FClosed f :: cleanup_events f).
Proof. intros g G. assert (g = f) as -> by (destruct f; set_solver). destruct f; simpl; set_solver. Qed.

Lemma newSeccompProgramFile_files os :
  match newSeccompProgramFile os with (Ok f, events) => events = [FOpened f] | (Err _, events) => all_released events end.
Proof.
  unfold newSeccompProgramFile. repeat split_match; simplify_eq; try done; try apply all_released_nil.
  intros g G. rewrite !elem_of_cons, elem_of_nil in G. destruct_or!; simplify_eq. right. set_solver.
Qed.

Lemma prepareSeccompProgram_files os opts :
  match prepareSeccompProgram os opts with
  | (Ok (Some (_, f)), events) => events = [FOpened f]
  | (_, events) => all_released events
  end.
Proof.
  unfold prepareSeccompProgram. pose proof (newSeccompProgramFile_files os) as F.
  destruct (no_disabled _); [apply all_released_nil|].
  destruct (validateSeccompOptions opts); [|apply all_released_nil].
  destruct NewFilter; [apply all_released_nil|]. destruct (filter_rules _); [|apply all_released_nil].
  destruct (newSeccompProgramFile os) as [[f|e] events]; [subst events|done].
  destruct (ExportBPF_error _); [apply all_released_close|].
  destruct (fo_Seek_error os); [apply all_released_close|done].
Qed.

Lemma compileSeccompProgram_files os rewind read opts :
  all_released (compileSeccompProgram os rewind read opts).2.
Proof.
  unfold compileSeccompProgram. pose proof (prepareSeccompProgram_files os opts) as F.
  destruct (prepareSeccompProgram os opts) as [[[[rules f]|]|e] events]; try done. subst events.
  destruct rewind; [apply all_released_close|]. destruct (read rules); apply all_released_close.
Qed.
End files.

#[local] Existing Instance sampleLib.
Import SampleScmp.


Lemma seccomp_namespaces_denied_witness :
  denial (program_action (rules "restricted") 56 [CLONE_NEWUSER + 17]) /\
  denial (program_action (rules "restricted") 165 [1; 2; 3]).
Proof.
  split.
  - apply (proj1 (seccomp_namespaces_denied _ _ _ _ _ prepared_restricted ltac:(unfold builtin_profile; set_solver))
             56 (CLONE_NEWUSER + 17) [] CLONE_NEWUSER); [reflexivity|reflexivity| |by vm_compute].
    unfold namespaceCloneFlags. set_solver.
  - apply (proj2 (seccomp_namespaces_denied _ _ _ _ _ prepared_restricted ltac:(unfold builtin_profile; set_solver)) "mount");
      [reflexivity|reflexivity|set_solver].
Defined.

Lemma seccomp_wide_argument_gap_witness :
  program_action (rules "") 16 [0; 2 ^ 32 + TIOCSTI] = ActAllow /\
  program_action (rules "") 16 [0; TIOCSTI] = ActErrno EPERM_code.
Proof.
  split; [|vm_compute; reflexivity].
  refine (proj2 (proj1 (seccomp_wide_argument_gap _ _ _ _ _ 16 157 1 [] prepared_baseline _ _ _ eq_refl eq_refl _) 0)).
  - unfold builtin_profile. set_solver.
  - reflexivity.
  - lia.
  - intros name I. cbn in I. repeat (destruct I as [<-|I]; [split; vm_compute; congruence|]). done.
Defined.
