(* ===== verification/PathLemmas.v ===== *)
(** Lexical facts about absolute paths: a cleaned path is the list of its
    elements, and one path lies below another exactly if its elements extend the
    other's. *)
From S2P Require Import Prelude GoStrings GoPath StringLemmas.

(** An element of a cleaned absolute path. *)
Definition element (e : string) : Prop := e <> "" /\ e <> "." /\ e <> ".." /\ free_of "/" e.
(** The elements of an absolute path, dots and dot-dots resolved. *)
Definition elements (path : string) : list string := clean_go true [] (SplitByte path "/").
Definition absolute (path : string) : Prop := filepath_IsAbs path = true.

Lemma SplitByte_free s c : Forall (free_of c) (SplitByte s c).
Proof.
  induction s as [|d s IH]; simpl; [by repeat constructor|]. case_bool_decide as E; [by constructor|].
  destruct (SplitByte s c) as [|w ws]; [by repeat constructor; rewrite free_of_cons|].
  inversion IH; subst. constructor; [|done]. by rewrite free_of_cons.
Qed.

Lemma SplitByte_ne s c : SplitByte s c <> [].
Proof. destruct s as [|d s]; simpl; [done|]. case_bool_decide; [done|]. by destruct (SplitByte s c). Qed.

Lemma SplitByte_sep a b c : SplitByte (a +:+ String c b) c = SplitByte a c ++ SplitByte b c.
Proof.
  induction a as [|d a IH]; rewrite ?string_app_nil, ?string_app_cons; simpl; [by rewrite bool_decide_eq_true_2|].
  case_bool_decide as E; [by rewrite IH|]. rewrite IH. destruct (SplitByte a c) as [|w ws] eqn:W; [|done].
  by apply SplitByte_ne in W.
Qed.

Lemma SplitByte_Join l c : Forall (free_of c) l -> l <> [] -> SplitByte (Join l (String c "")) c = l.
Proof.
  induction l as [|w l IH]; intros F N; [done|]. inversion F; subst. destruct l as [|v l].
  - by apply SplitByte_none.
  - change (Join (w :: v :: l) (String c "")) with (w +:+ String c (Join (v :: l) (String c ""))).
    rewrite SplitByte_app by done. by rewrite IH.
Qed.

Lemma Join_app l k sep : l <> [] -> k <> [] -> Join (l ++ k) sep = Join l sep +:+ sep +:+ Join k sep.
Proof.
  intros L K. induction l as [|w l IH]; [done|]. destruct l as [|v l].
  - simpl. by destruct k.
  - change (w +:+ sep +:+ Join ((v :: l) ++ k) sep = (w +:+ sep +:+ Join (v :: l) sep) +:+ sep +:+ Join k sep).
    rewrite IH by done. by rewrite !string_app_assoc.
Qed.

(** ** Cleaning *)

Lemma clean_go_elements out parts :
  Forall element out -> Forall (free_of "/") parts -> Forall element (clean_go true out parts).
Proof.
  revert out. induction parts as [|p parts IH]; intros out O F; cbn [clean_go].
  - by apply Forall_rev.
  - inversion F; subst. destruct (bool_decide (p = "") || bool_decide (p = ".")) eqn:E; [by apply IH|].
    to_prop. destruct E as [E1 E2]. case_bool_decide as D.
    + destruct out as [|top out]; [by apply IH|]. inversion O as [|? ? (A & B & C & G)]; subst.
      rewrite bool_decide_eq_false_2 by done. by apply IH.
    + apply IH; [|done]. by constructor.
Qed.

Lemma clean_go_id out parts : Forall element parts -> clean_go true out parts = rev out ++ parts.
Proof.
  revert out. induction parts as [|p parts IH]; intros out F; cbn [clean_go]; [by rewrite app_nil_r|].
  inversion F as [|? ? (A & B & C & D) F']; subst. rewrite !bool_decide_eq_false_2 by done. simpl.
  rewrite IH by done. simpl. by rewrite <- app_assoc.
Qed.

Lemma elements_ok path : Forall element (elements path).
Proof. apply clean_go_elements; [constructor|apply SplitByte_free]. Qed.

Lemma element_free l : Forall element l -> Forall (free_of "/") l.
Proof. intros F. eapply Forall_impl; [exact F|]. by intros e (_ & _ & _ & G). Qed.

(** The absolute path with the given elements. *)
Definition of_elements (l : list string) : string := "/" +:+ Join l "/".

Lemma path_Clean_abs path : absolute path -> path_Clean path = of_elements (elements path).
Proof. unfold absolute, filepath_IsAbs, path_Clean, of_elements, elements. by intros ->. Qed.

Lemma of_elements_absolute l : absolute (of_elements l).
Proof. unfold absolute, filepath_IsAbs, HasPrefix, of_elements. rewrite string_app_cons. cbn. by destruct (Join l "/"). Qed.

Lemma elements_of_elements l : Forall element l -> elements (of_elements l) = l.
Proof.
  intros F. unfold elements, of_elements. rewrite string_app_cons, string_app_nil. cbn [SplitByte].
  rewrite bool_decide_eq_true_2 by done. cbn [clean_go]. cbn. destruct l as [|e l]; [done|].
  rewrite SplitByte_Join by (try done; by apply element_free). by rewrite clean_go_id.
Qed.

Lemma path_Clean_absolute path : absolute path -> absolute (path_Clean path).
Proof. intros A. rewrite path_Clean_abs by done. apply of_elements_absolute. Qed.
Lemma elements_Clean path : absolute path -> elements (path_Clean path) = elements path.
Proof. intros A. rewrite path_Clean_abs by done. apply elements_of_elements, elements_ok. Qed.
Lemma path_Clean_idemp path : absolute path -> path_Clean (path_Clean path) = path_Clean path.
Proof.
  intros A. rewrite (path_Clean_abs (path_Clean path)) by (by apply path_Clean_absolute).
  by rewrite elements_Clean, <- path_Clean_abs.
Qed.
Lemma of_elements_inj l k : Forall element l -> Forall element k -> of_elements l = of_elements k -> l = k.
Proof. intros L K E. rewrite <- (elements_of_elements l), <- (elements_of_elements k) by done. by rewrite E. Qed.

(** ** Below *)

Lemma HasPrefix_iff s p : HasPrefix s p = true <-> exists t, s = p +:+ t.
Proof.
  unfold HasPrefix. revert s. induction p as [|c p IH]; intros s; cbn [String.prefix].
  - split; [by exists s|]. by destruct s.
  - destruct s as [|d s]; cbn [String.prefix].
    + split; [done|]. intros [t E]. by rewrite string_app_cons in E.
    + destruct (Ascii.ascii_dec c d) as [->|N].
      * rewrite IH. split; intros [t E]; exists t; rewrite string_app_cons in *; congruence.
      * split; [done|]. intros [t E]. rewrite string_app_cons in E. congruence.
Qed.

Lemma of_elements_below l k :
  Forall element l -> Forall element k -> k <> [] ->
  HasPrefix (of_elements l) (of_elements k +:+ "/") = true <-> exists r, r <> [] /\ l = k ++ r.
Proof.
  intros L K N. rewrite HasPrefix_iff. unfold of_elements. split.
  - intros [t E]. rewrite !string_app_assoc in E.
    change (String "/" (Join l "/") = String "/" (Join k "/" +:+ String "/" t)) in E. injection E as E.
    destruct l as [|e l]; [by destruct (Join k "/")|].
    assert (S : SplitByte (Join (e :: l) "/") "/" = SplitByte (Join k "/" +:+ String "/" t) "/") by congruence.
    rewrite SplitByte_sep in S. rewrite !SplitByte_Join in S by (try done; by apply element_free).
    exists (SplitByte t "/"). split; [apply SplitByte_ne|done].
  - intros (r & R & ->). exists (Join r "/"). rewrite Join_app by done.
    by rewrite !string_app_assoc.
Qed.
