(* ===== verification/HostFS.v ===== *)
(** The host's file system and tools as the staging and assembly code sees them.

    The class [HostFS] has the queries the code makes and the outcome of each
    change. Its state is the list of the changes attempted so far, so a query may
    depend on them and every change is on record, also one that failed. The class
    [MapOrder] is the iteration order of Go maps, which the language leaves open.
    [FM] is the monad of the code that changes files. *)
From S2P Require Import Prelude GoStrings GoPath.

Record FileInfo := { fi_IsDir : bool; fi_IsRegular : bool; fi_Perm : Z }.

Inductive fsOp :=
| OpMkdirAll (path : string) (mode : Z)
| OpChmod (path : string) (mode : Z)
| OpCreate (path : string) (mode : Z)
| OpCopy (source path : string) (mode : Z)
| OpWriteFile (path content : string) (mode : Z)
| OpRemoveAll (path : string).

Definition fsState := list fsOp.

Class HostFS := {
  os_Stat : fsState -> string -> result FileInfo;
  os_ReadFile : fsState -> string -> result string;
  (** names of the entries of a directory and whether each is a directory *)
  os_ReadDir : fsState -> string -> result (list (string * bool));
  os_MkdirTemp : result string;
  os_Getwd : result string;
  os_Geteuid : Z;
  user_Current : result string;
  exec_LookPath : string -> result string;
  (** the combined output of ldd and its error *)
  ldd : string -> string * option string;
  (** whether an operation fails, after the given ones *)
  fs_error : fsState -> fsOp -> option string;
}.

Class MapOrder := {
  map_range {A} : gmap string A -> list (string * A);
  map_range_perm {A} (m : gmap string A) : Permutation (map_range m) (map_to_list m);
}.

(** ** The monad *)

Definition FM (A : Type) : Type := fsState -> result A * fsState.
Definition fm_ret {A} (a : A) : FM A := fun h => (Ok a, h).
Definition fm_fail {A} (e : string) : FM A := fun h => (Err e, h).
Definition fm_bind {A B} (c : FM A) (k : A -> FM B) : FM B := fun h =>
  match c h with
  | (Ok a, h') => k a h'
  | (Err e, h') => (Err e, h')
  end.
Definition fm_lift {A} (r : result A) : FM A := fun h => (r, h).
(** A query of the file system. *)
Definition fm_ask {A} (q : fsState -> result A) : FM A := fun h => (q h, h).
Definition fm_wrap {A} (f : string -> string) (c : FM A) : FM A := fun h =>
  match c h with
  | (Ok a, h') => (Ok a, h')
  | (Err e, h') => (Err (f e), h')
  end.
Declare Scope fs_scope.
Delimit Scope fs_scope with fs.
Notation "x <-@ c ; k" := (fm_bind c (fun x => k))
  (at level 100, c at next level, k at level 200, right associativity,
   format "'[v' x  <-@  c ; '/' k ']'") : fs_scope.
Notation "c ;;@ k" := (fm_bind c (fun _ => k))
  (at level 100, k at level 200, right associativity, format "'[v' c ;;@ '/' k ']'") : fs_scope.
Open Scope fs_scope.

(** A change of the file system. *)
Definition fm_do `{HostFS} (op : fsOp) : FM unit := fun h =>
  (match fs_error h op with Some e => Err e | None => Ok tt end, h ++ [op]).

Fixpoint fm_iter {A} (f : A -> FM unit) (l : list A) : FM unit :=
  match l with
  | [] => fm_ret tt
  | x :: l => f x ;;@ fm_iter f l
  end.
Fixpoint fm_map {A B} (f : A -> FM B) (l : list A) : FM (list B) :=
  match l with
  | [] => fm_ret []
  | x :: l => y <-@ f x; ys <-@ fm_map f l; fm_ret (y :: ys)
  end.

(** ** What a program may do

    [fm_ops P c]: from every state, the changes [c] makes all satisfy [P]. *)
Definition fm_ops {A} (P : fsOp -> Prop) (c : FM A) : Prop :=
  forall h, exists ops, (c h).2 = h ++ ops /\ Forall P ops.

Lemma fm_ops_ret {A} P (a : A) : fm_ops P (fm_ret a).
Proof. intros h. exists []. by rewrite app_nil_r. Qed.
Lemma fm_ops_fail {A} P e : fm_ops P (@fm_fail A e).
Proof. intros h. exists []. by rewrite app_nil_r. Qed.
Lemma fm_ops_lift {A} P (r : result A) : fm_ops P (fm_lift r).
Proof. intros h. exists []. by rewrite app_nil_r. Qed.
Lemma fm_ops_ask {A} P (q : fsState -> result A) : fm_ops P (fm_ask q).
Proof. intros h. exists []. by rewrite app_nil_r. Qed.
Lemma fm_ops_do `{HostFS} (P : fsOp -> Prop) op : P op -> fm_ops P (fm_do op).
Proof. intros O h. exists [op]. split; [done|]. by repeat constructor. Qed.

Lemma fm_ops_bind' {A B} P (c : FM A) (k : A -> FM B) :
  fm_ops P c -> (forall h a h', c h = (Ok a, h') -> fm_ops P (k a)) -> fm_ops P (fm_bind c k).
Proof.
  intros C K h. unfold fm_bind. destruct (C h) as (ops & E & F). destruct (c h) as [[a|e] h'] eqn:X; simpl in *.
  - destruct (K h a h' X h') as (ops' & E' & F'). exists (ops ++ ops'). rewrite E', E, app_assoc.
    split; [done|]. by apply Forall_app.
  - exists ops. done.
Qed.
Lemma fm_ops_bind {A B} P (c : FM A) (k : A -> FM B) :
  fm_ops P c -> (forall a, fm_ops P (k a)) -> fm_ops P (fm_bind c k).
Proof. intros C K. by apply fm_ops_bind'. Qed.
Lemma fm_ops_wrap {A} P f (c : FM A) : fm_ops P c -> fm_ops P (fm_wrap f c).
Proof.
  intros C h. unfold fm_wrap. destruct (C h) as (ops & E & F). exists ops. by destruct (c h) as [[a|e] h'].
Qed.
Lemma fm_ops_iter {A} P (f : A -> FM unit) l : (forall x, x ∈ l -> fm_ops P (f x)) -> fm_ops P (fm_iter f l).
Proof.
  induction l as [|x l IH]; intros F; simpl; [apply fm_ops_ret|].
  apply fm_ops_bind; [apply F; set_solver|]. intros _. apply IH. set_solver.
Qed.
Lemma fm_ops_map {A B} P (f : A -> FM B) l : (forall x, x ∈ l -> fm_ops P (f x)) -> fm_ops P (fm_map f l).
Proof.
  induction l as [|x l IH]; intros F; simpl; [apply fm_ops_ret|].
  apply fm_ops_bind; [apply F; set_solver|]. intros y. apply fm_ops_bind; [apply IH; set_solver|].
  intros. apply fm_ops_ret.
Qed.
Lemma fm_ops_impl {A} (P Q : fsOp -> Prop) (c : FM A) : (forall op, P op -> Q op) -> fm_ops P c -> fm_ops Q c.
Proof. intros I C h. destruct (C h) as (ops & E & F). exists ops. split; [done|]. by eapply Forall_impl. Qed.
#[export] Hint Resolve fm_ops_ret fm_ops_fail fm_ops_lift fm_ops_ask fm_ops_do fm_ops_wrap fm_ops_bind fm_ops_iter fm_ops_map : fsops.

Lemma fm_bind_ok {A B} (c : FM A) (k : A -> FM B) h b h' :
  fm_bind c k h = (Ok b, h') <-> exists a h1, c h = (Ok a, h1) /\ k a h1 = (Ok b, h').
Proof. unfold fm_bind. destruct (c h) as [[a|e] h1]; naive_solver. Qed.
Lemma fm_wrap_ok {A} f (c : FM A) h a h' : fm_wrap f c h = (Ok a, h') <-> c h = (Ok a, h').
Proof. unfold fm_wrap. destruct (c h) as [[b|e] h1]; naive_solver. Qed.
Lemma fm_map_ok {A B} (f : A -> FM B) l h ys h' :
  fm_map f l h = (Ok ys, h') -> Forall2 (fun x y => exists h1 h2, f x h1 = (Ok y, h2)) l ys.
Proof.
  revert h ys. induction l as [|x l IH]; intros h ys M; simpl in M; [by injection M as <- <-|].
  apply fm_bind_ok in M as (y & h1 & X & M). apply fm_bind_ok in M as (ys' & h2 & Y & M).
  injection M as <- <-. constructor; [by eauto|by eapply IH].
Qed.

(** [filepath.Abs] *)
Definition filepath_Abs `{HostFS} (path : string) : result string :=
  if filepath_IsAbs path then Ok (path_Clean path) else
  wd <-! os_Getwd; Ok (filepath_Join [wd; path]).

(** ** Text *)

(** [strings.Fields], with the white space of [TrimSpace]. *)
Definition emit (cur : string) (l : list string) : list string := if bool_decide (cur = "") then l else cur :: l.
Fixpoint fields_go (s cur : string) : list string :=
  match s with
  | "" => emit cur []
  | String a s1 =>
      if ascii_space a then emit cur (fields_go s1 "") else
      match s1 with
      | "" => emit (cur +:+ String a "") []
      | String b s2 =>
          if utf8_space2 a b then emit cur (fields_go s2 "") else
          match s2 with
          | "" => fields_go s1 (cur +:+ String a "")
          | String c s3 =>
              if utf8_space3 a b c then emit cur (fields_go s3 "") else fields_go s1 (cur +:+ String a "")
          end
      end
  end.
Definition Fields (s : string) : list string := fields_go s "".
(** [strings.Cut] and [strings.SplitN(s, sep, 2)] at a string. *)
Fixpoint CutString (s sep : string) : option (string * string) :=
  if HasPrefix s sep then Some ("", string_drop (String.length sep) s) else
  match s with
  | "" => None
  | String c s => match CutString s sep with Some (a, b) => Some (String c a, b) | None => None end
  end.
(** The lines of a text as [bufio.Scanner] yields them (carriage returns aside). *)
Definition scan_lines (s : string) : list string :=
  match rev (SplitByte s "010") with
  | "" :: ls => rev ls
  | _ => SplitByte s "010"
  end.
Definition max_scan_token : Z := 65536.
