(* ===== verification/Staging.v ===== *)
(** The staged root file system: src/internal/sandboxroot (builder_tools.go,
    resolve.go, stage.go) and src/staging.go. *)
From S2P Require Import Prelude GoStrings GoPath HostFS Access.

(** The octal modes 755 and 644. *)
Definition mode_755 : Z := 493.
Definition mode_644 : Z := 420.

Definition DefaultSandboxBinDir : string := "/app/bin".
Definition DefaultSandboxDockerShimPath : string := DefaultSandboxBinDir +:+ "/docker".
Definition DefaultSandboxBuildkitdPath : string := DefaultSandboxBinDir +:+ "/buildkitd".
Definition DefaultSandboxBuildctlPath : string := DefaultSandboxBinDir +:+ "/buildctl".
Definition DefaultSandboxRuncPath : string := DefaultSandboxBinDir +:+ "/runc".
Definition DefaultSandboxBBoxPath : string := "/app/bbox".
Definition mitmTrustBundlePaths : list string :=
  ["/etc/ssl/certs/ca-certificates.crt"; "/etc/pki/tls/certs/ca-bundle.crt"; "/etc/ssl/cert.pem"].

Record DockerBuildOptions := {
  do_Enabled : bool; do_BuildkitdPath : string; do_BuildctlPath : string; do_RuncPath : string;
  do_PodmanPath : string; do_NewuidmapPath : string; do_NewgidmapPath : string }.
Record BuilderTooling := {
  bt_BuildkitdPath : string; bt_BuildctlPath : string; bt_RuncPath : string;
  bt_PodmanPath : string; bt_NewuidmapPath : string; bt_NewgidmapPath : string }.
#[global] Instance BuilderTooling_eq_dec : EqDecision BuilderTooling.
Proof. solve_decision. Defined.
Record StageOptions := { sg_Binaries : list string; sg_DockerBuild : DockerBuildOptions }.
Record StageResult := { sg_Root : string; sg_Builder : option BuilderTooling }.

(** [slices.Sort] on strings. *)
Definition path_le (a b : string) : Prop := string_le a b = true.
#[global] Instance path_le_dec a b : Decision (path_le a b).
Proof. unfold path_le. apply _. Defined.
Definition sort_strings (l : list string) : list string := merge_sort path_le l.

Section staging.
Context `{GoLib} `{HostFS} `{MapOrder}.
(** [runtime.GOOS] *)
Context (GOOS : string).

(** ** Resolving binaries: resolve.go *)

Definition ResolveBinary (nameOrPath : string) : FM string :=
  if bool_decide (nameOrPath = "") then fm_fail "binary path is required" else
  if Contains nameOrPath "/" then
    absPath <-@ fm_lift (result_wrap (fun e => "resolve absolute binary path " +:+ Quote nameOrPath +:+ ": " +:+ e)
                           (filepath_Abs nameOrPath));
    _ <-@ fm_wrap (fun e => "binary " +:+ Quote absPath +:+ ": " +:+ e) (fm_ask (fun h => os_Stat h absPath));
    fm_ret absPath
  else
    resolved <-@ fm_lift (result_wrap (fun e => "resolve binary " +:+ Quote nameOrPath +:+ ": " +:+ e) (exec_LookPath nameOrPath));
    fm_lift (result_wrap (fun e => "resolve absolute binary path " +:+ Quote resolved +:+ ": " +:+ e) (filepath_Abs resolved)).

Definition ldd_line (line : string) : list string :=
  let line := TrimSpace line in
  if bool_decide (line = "") then [] else
  let fields := match CutString line "=>" with
                | Some (_, after) => Fields (TrimSpace after)
                | None => Fields line
                end in
  match fields with
  | path :: _ => if HasPrefix path "/" then [path] else []
  | [] => []
  end.
Definition ParseLddOutput (output : string) : list string := flat_map ldd_line (SplitByte output "010").

Definition RuntimeFilesForBinary (binaryPath : string) : result (list string) :=
  match ldd binaryPath with
  | (output, Some err) =>
      if Contains output "not a dynamic executable" then Ok []
      else Err ("ldd " +:+ binaryPath +:+ ": " +:+ err +:+ ": " +:+ TrimSpace output)
  | (output, None) => Ok (ParseLddOutput output)
  end.

Fixpoint envShebangTarget (args : list string) : option string :=
  match args with
  | [] => None
  | arg :: args =>
      let arg := TrimSpace arg in
      if bool_decide (arg = "") then envShebangTarget args
      else if HasPrefix arg "-" then envShebangTarget args
      else Some arg
  end.

Definition scriptInterpreterChain (path : string) : FM (list string) :=
  content <-@ fm_wrap (fun e => "read potential script " +:+ Quote path +:+ ": " +:+ e) (fm_ask (fun h => os_ReadFile h path));
  let line := TrimSpace (match CutByte content "010" with Some (line, _) => line | None => content end) in
  if negb (HasPrefix line "#!") then fm_ret [] else
  match Fields (TrimSpace (TrimPrefix line "#!")) with
  | [] => fm_fail ("script " +:+ Quote path +:+ " has an empty shebang")
  | interpreter :: args =>
      if negb (filepath_IsAbs interpreter)
      then fm_fail ("script " +:+ Quote path +:+ " uses non-absolute shebang interpreter " +:+ Quote interpreter)
      else if bool_decide (filepath_Base interpreter = "env") then
        match envShebangTarget args with
        | Some target =>
            resolved <-@ fm_wrap (fun e => "resolve env shebang target " +:+ Quote target +:+ " for " +:+ Quote path +:+ ": " +:+ e)
                           (ResolveBinary target);
            fm_ret [interpreter; resolved]
        | None => fm_ret [interpreter]
        end
      else fm_ret [interpreter]
  end.

(** The recursion ends when the fuel does, with [None]; [files_for_terminates]
    gives enough fuel. [seen] is the map the recursive calls share. *)
Section walk.
Context (h : fsState).
Fixpoint filesForCommandRecursive (fuel : nat) (commandPath : string) (seen : gset string)
    : option (result (list string) * gset string) :=
  match fuel with
  | O => None
  | S fuel =>
      let commandPath := path_Clean commandPath in
      if bool_decide (commandPath ∈ seen) then Some (Ok [], seen) else
      let seen := {[ commandPath ]} ∪ seen in
      match RuntimeFilesForBinary commandPath with
      | Err e => Some (Err e, seen)
      | Ok runtimeFiles =>
          match (scriptInterpreterChain commandPath h).1 with
          | Err e => Some (Err e, seen)
          | Ok interpreters =>
              (fix interpreter_files (interpreters : list string) (files : list string) (seen : gset string) :=
                 match interpreters with
                 | [] => Some (Ok files, seen)
                 | interpreter :: interpreters =>
                     match filesForCommandRecursive fuel interpreter seen with
                     | None => None
                     | Some (Err e, seen) => Some (Err e, seen)
                     | Some (Ok interpreterFiles, seen) => interpreter_files interpreters (files ++ interpreterFiles) seen
                     end
                 end) interpreters (commandPath :: runtimeFiles) seen
          end
      end
  end.
End walk.

(** Running out of fuel is an error of its own here. *)
Definition FilesForCommand (fuel : nat) (commandPath : string) : FM (list string) := fun h =>
  match filesForCommandRecursive h fuel commandPath ∅ with
  | Some (r, _) => (r, h)
  | None => (Err "out of fuel", h)
  end.

(** ** Builder tools: builder_tools.go *)

Definition FileHasSubordinateIDEntry (path username : string) : FM bool :=
  content <-@ fm_wrap (fun e => "open " +:+ path +:+ ": " +:+ e) (fm_ask (fun h => os_ReadFile h path));
  (fix scan (lines : list string) : FM bool :=
     match lines with
     | [] => fm_ret false
     | line :: lines =>
         if max_scan_token <=? slen line then fm_fail ("scan " +:+ path +:+ ": bufio.Scanner: token too long")
         else if HasPrefix (TrimSpace line) (username +:+ ":") then fm_ret true else scan lines
     end) (scan_lines content).

Definition ValidateSubordinateIDMappingsForUser (username subuidPath subgidPath : string) : FM unit :=
  if bool_decide (TrimSpace username = "") then fm_fail "current username is empty" else
  fm_iter (fun path =>
    ok <-@ FileHasSubordinateIDEntry path username;
    if ok then fm_ret tt else fm_fail (path +:+ " does not contain an entry for " +:+ username)) [subuidPath; subgidPath].
Definition ValidateSubordinateIDMappings : FM unit :=
  username <-@ fm_lift (result_wrap (fun e => "resolve current user: " +:+ e) user_Current);
  ValidateSubordinateIDMappingsForUser username "/etc/subuid" "/etc/subgid".

Definition resolve_tool (override fallback label : string) : FM string :=
  let candidate := TrimSpace override in
  let candidate := if bool_decide (candidate = "") then fallback else candidate in
  fm_wrap (fun e => "resolve " +:+ label +:+ ": " +:+ e) (ResolveBinary candidate).

Definition ResolveDockerBuildSupport (opts : DockerBuildOptions) : FM (option BuilderTooling) :=
  if negb (do_Enabled opts) then fm_ret None else
  if negb (bool_decide (GOOS = "linux")) then fm_fail "docker build sandbox support is only available on linux" else
  buildkitdPath <-@ resolve_tool (do_BuildkitdPath opts) "buildkitd" "buildkitd";
  buildctlPath <-@ resolve_tool (do_BuildctlPath opts) "buildctl" "buildctl";
  runcPath <-@ resolve_tool (do_RuncPath opts) "runc" "runc";
  podmanPath <-@ resolve_tool (do_PodmanPath opts) "podman" "podman";
  newuidmapPath <-@ resolve_tool (do_NewuidmapPath opts) "newuidmap" "newuidmap";
  newgidmapPath <-@ resolve_tool (do_NewgidmapPath opts) "newgidmap" "newgidmap";
  ValidateSubordinateIDMappings ;;@
  fm_ret (Some {| bt_BuildkitdPath := buildkitdPath; bt_BuildctlPath := buildctlPath; bt_RuncPath := runcPath;
                  bt_PodmanPath := podmanPath; bt_NewuidmapPath := newuidmapPath; bt_NewgidmapPath := newgidmapPath |}).

Definition PrependPATHDir (pathValue dir : string) : string :=
  let dir := TrimSpace dir in
  if bool_decide (dir = "") then pathValue else
  Join (dir :: filter (fun part => TrimSpace part <> "" /\ part <> dir) (SplitByte pathValue ":")) ":".

(** ** Writing into the root: stage.go *)

Definition SandboxPathInRoot (root sandboxPath : string) : result string :=
  let cleanRoot := path_Clean root in
  if bool_decide (cleanRoot = ".") || bool_decide (cleanRoot = "") then Err "staging root is required" else
  let cleanSandboxPath := TrimPrefix (path_Clean sandboxPath) "/" in
  let dest := filepath_Join [cleanRoot; cleanSandboxPath] in
  match filepath_Rel cleanRoot dest with
  | None => Err ("map sandbox path " +:+ Quote sandboxPath +:+ " into " +:+ Quote root +:+ ": Rel: can't make " +:+ dest +:+ " relative to " +:+ cleanRoot)
  | Some rel =>
      if bool_decide (rel = "..") || HasPrefix rel "../"
      then Err ("sandbox path " +:+ Quote sandboxPath +:+ " escapes staging root") else Ok dest
  end.

Definition CopyFileToPath (root hostPath sandboxPath : string) : FM unit :=
  info <-@ fm_wrap (fun e => "stat " +:+ hostPath +:+ ": " +:+ e) (fm_ask (fun h => os_Stat h hostPath));
  if negb (fi_IsRegular info) then fm_fail (hostPath +:+ " is not a regular file") else
  _ <-@ fm_wrap (fun e => "open " +:+ hostPath +:+ ": " +:+ e) (fm_ask (fun h => os_ReadFile h hostPath));
  dest <-@ fm_lift (SandboxPathInRoot root sandboxPath);
  fm_wrap (fun e => "mkdir " +:+ filepath_Dir dest +:+ ": " +:+ e) (fm_do (OpMkdirAll (filepath_Dir dest) mode_755)) ;;@
  fm_wrap (fun e => "create " +:+ dest +:+ ": " +:+ e) (fm_do (OpCopy hostPath dest (fi_Perm info))).
Definition CopyFileIntoRoot (root hostPath : string) : FM unit := CopyFileToPath root hostPath hostPath.

Definition docker_shim : string :=
  "#!/bin/sh" +:+ str1 10 +:+ "exec /app/bbox internal-docker-build " +:+ str1 34 +:+ "$@" +:+ str1 34 +:+ str1 10.
Definition WriteDockerBuildShim (root : string) : FM unit :=
  path <-@ fm_lift (SandboxPathInRoot root DefaultSandboxDockerShimPath);
  fm_wrap (fun e => "create docker shim dir: " +:+ e) (fm_do (OpMkdirAll (filepath_Dir path) mode_755)) ;;@
  fm_wrap (fun e => "write docker shim: " +:+ e) (fm_do (OpWriteFile path docker_shim mode_755)).

Definition FirstExistingPath (h : fsState) (paths : list string) : option string :=
  List.find (fun path => is_ok (os_Stat h path)) paths.

Definition HostTrustBundleContent : FM string := fun h =>
  match FirstExistingPath h mitmTrustBundlePaths with
  | None => (Err ("no host trust bundle found in [" +:+ Join mitmTrustBundlePaths " " +:+ "]"), h)
  | Some path =>
      match os_ReadFile h path with
      | Err e => (Err ("read host trust bundle " +:+ Quote path +:+ ": " +:+ e), h)
      | Ok content =>
          if bool_decide (content = "") then (Err ("host trust bundle " +:+ Quote path +:+ " is empty"), h) else (Ok content, h)
      end
  end.
Definition AppendTrustBundlePEM (base extra : string) : string :=
  (if negb (bool_decide (base = "")) && negb (HasSuffix base (str1 10)) then base +:+ str1 10 else base) +:+ extra.

Definition TransparentResolvConfContent : FM string :=
  content <-@ fm_wrap (fun e => "read host resolv.conf: " +:+ e) (fm_ask (fun h => os_ReadFile h "/etc/resolv.conf"));
  let nameservers := filter (fun line => HasPrefix line "nameserver " = true) (map TrimSpace (SplitByte content "010")) in
  match nameservers with
  | [] => fm_fail "host resolv.conf does not contain nameserver entries"
  | _ => fm_ret (Join nameservers (str1 10) +:+ str1 10)
  end.

Definition hosts_content : string := "127.0.0.1 localhost" +:+ str1 10 +:+ "::1 localhost" +:+ str1 10.
Definition config_files (resolv trustBundle : string) : gmap string string :=
  foldl (fun files path => <[path := trustBundle]> files)
    (<["/etc/resolv.conf" := resolv]>
       (<["/etc/nsswitch.conf" := "hosts: files dns" +:+ str1 10]> {["/etc/hosts" := hosts_content]}))
    mitmTrustBundlePaths.
(** Write one file of the configuration. *)
Definition write_config (root path content : string) : FM unit :=
  dest <-@ fm_lift (SandboxPathInRoot root path);
  fm_wrap (fun e => "mkdir " +:+ dest +:+ ": " +:+ e) (fm_do (OpMkdirAll (filepath_Dir dest) mode_755)) ;;@
  fm_wrap (fun e => "write " +:+ dest +:+ ": " +:+ e) (fm_do (OpWriteFile dest content mode_644)).
Definition WriteSandboxConfig (root mitmCAPEM : string) : FM unit :=
  content <-@ TransparentResolvConfContent;
  trustBundle <-@ HostTrustBundleContent;
  let trustBundle := if bool_decide (mitmCAPEM = "") then trustBundle else AppendTrustBundlePEM trustBundle mitmCAPEM in
  fm_iter (fun '(path, content) => write_config root path content) (map_range (config_files content trustBundle)).

Definition multiarch_dirs (h : fsState) (root : string) : list string :=
  match os_ReadDir h root with
  | Err _ => []
  | Ok entries =>
      sort_strings
        (map (fun e => filepath_Join [root; e.1]) (filter (fun e => e.2 = true /\ HasSuffix e.1 "-linux-gnu" = true) entries))
  end.
Definition NSSModuleCandidatePaths (h : fsState) (module : string) : list string :=
  map (fun dir => filepath_Join [dir; module])
    (["/usr/lib"; "/lib"; "/usr/lib64"; "/lib64"] ++ multiarch_dirs h "/usr/lib" ++ multiarch_dirs h "/lib").

(** [slices.Compact] *)
Fixpoint Compact (l : list string) : list string :=
  match l with
  | [] => []
  | x :: l' =>
      match l' with
      | y :: _ => if bool_decide (x = y) then Compact l' else x :: Compact l'
      | [] => [x]
      end
  end.

(** An NSS module that exists, with its dependencies. *)
Definition nss_module (module : string) : FM (list string * list string) := fun h =>
  match FirstExistingPath h (NSSModuleCandidatePaths h module) with
  | Some path => match RuntimeFilesForBinary path with Err e => (Err e, h) | Ok deps => (Ok ([path], deps), h) end
  | None => (Ok ([], []), h)
  end.

Definition command_files (fuel : nat) (requested : string) : FM (list string) :=
  binaryPath <-@ ResolveBinary requested; FilesForCommand fuel binaryPath.

(** The files the root gets at their own paths, before sorting. *)
Definition stage_files (fuel : nat) (opts : StageOptions) (bboxHostPath : string) (builder : option BuilderTooling) : FM (list string) :=
  requested <-@ fm_map (command_files fuel) (sg_Binaries opts);
  tools <-@ match builder with
            | Some b =>
                tools <-@ fm_map (FilesForCommand fuel) [bt_BuildkitdPath b; bt_BuildctlPath b; bt_RuncPath b];
                shell <-@ FilesForCommand fuel "/bin/sh";
                fm_ret (concat tools ++ shell)
            | None => fm_ret []
            end;
  bbox <-@ FilesForCommand fuel bboxHostPath;
  files_module <-@ nss_module "libnss_files.so.2";
  dns_module <-@ nss_module "libnss_dns.so.2";
  extras <-@ fm_ask (fun h => Ok (List.filter (fun extra => is_ok (os_Stat h extra))
                                   ("/lib64/ld-linux-x86-64.so.2" :: files_module.1 ++ dns_module.1)));
  fm_ret (concat requested ++ tools ++ bbox ++ files_module.2 ++ dns_module.2 ++ extras).

Definition builder_copies (b : BuilderTooling) : gmap string string :=
  <[DefaultSandboxBuildkitdPath := bt_BuildkitdPath b]> (<[DefaultSandboxBuildctlPath := bt_BuildctlPath b]>
    {[DefaultSandboxRuncPath := bt_RuncPath b]}).

(** The body of [Stage] after the root was made. *)
Definition stage_root (fuel : nat) (root : string) (opts : StageOptions) (runtimeBinary mitmCAPEM : string) : FM StageResult :=
  bboxHostPath <-@ ResolveBinary runtimeBinary;
  builder <-@ ResolveDockerBuildSupport (sg_DockerBuild opts);
  files <-@ stage_files fuel opts bboxHostPath builder;
  fm_iter (CopyFileIntoRoot root) (Compact (sort_strings files)) ;;@
  CopyFileToPath root bboxHostPath DefaultSandboxBBoxPath ;;@
  match builder with
  | Some b =>
      fm_iter (fun '(sandboxPath, hostPath) => CopyFileToPath root hostPath sandboxPath) (map_range (builder_copies b)) ;;@
      WriteDockerBuildShim root
  | None => fm_ret tt
  end ;;@
  WriteSandboxConfig root mitmCAPEM ;;@
  fm_ret {| sg_Root := root; sg_Builder := builder |}.

Definition Stage (fuel : nat) (opts : StageOptions) (runtimeBinary mitmCAPEM : string) : FM StageResult := fun h =>
  match os_MkdirTemp with
  | Err e => (Err ("create sandbox root: " +:+ e), h)
  | Ok root =>
      match stage_root fuel root opts runtimeBinary mitmCAPEM h with
      | (Ok r, h') => (Ok r, h')
      | (Err e, h') => (Err e, (fm_do (OpRemoveAll root) h').2)
      end
  end.

(** ** The compiled seccomp program: src/staging.go *)

Definition defaultSandboxPayloadSeccompPath : string := "/app/bbox-payload-seccomp.bpf".
(** [compiled] is what [compileSeccompProgram] returned; [None] is the nil slice. *)
Definition stagePayloadSeccompProgram (root : string) (compiled : result (option string)) : FM string :=
  program <-@ fm_lift compiled;
  match program with
  | None | Some "" => fm_ret ""
  | Some program =>
      dest <-@ fm_lift (SandboxPathInRoot root defaultSandboxPayloadSeccompPath);
      fm_wrap (fun e => "mkdir " +:+ filepath_Dir dest +:+ ": " +:+ e) (fm_do (OpMkdirAll (filepath_Dir dest) mode_755)) ;;@
      fm_wrap (fun e => "write " +:+ dest +:+ ": " +:+ e) (fm_do (OpWriteFile dest program mode_644)) ;;@
      fm_ret defaultSandboxPayloadSeccompPath
  end.
End staging.
