(* ===== verification/StagingTheorems.v ===== *)
(** Staging stays inside its root, finds the files of a command in finitely many
    steps, and copies each file once. *)
From S2P Require Import Prelude GoStrings GoPath StringLemmas PathLemmas HostFS Access AccessProofs Staging Sample.

(** ** Mapping a path into the root *)

(** [below root path]: [path] is [root] or lies under it. *)
Definition below (root path : string) : Prop := absolute path /\ elements root `prefix_of` elements path.

Lemma path_elements_of l : Forall element l -> path_elements (of_elements l) = l.
Proof.
  intros F. unfold path_elements, of_elements. rewrite string_app_cons, string_app_nil. cbn [SplitByte].
  rewrite bool_decide_eq_true_2 by done. rewrite filter_cons_False by naive_solver.
  destruct l as [|e l]; [done|]. rewrite SplitByte_Join by (try done; by apply element_free).
  induction F as [|x k [N _] F IH]; [done|]. by rewrite filter_cons_True, IH.
Qed.

Lemma strip_common_spec b t :
  exists c, b = c ++ (strip_common b t).1 /\ t = c ++ (strip_common b t).2.
Proof.
  revert t. induction b as [|x b IH]; intros t; [by exists []|]. destruct t as [|y t]; [by exists []|]. simpl.
  case_bool_decide as E; [|by exists []]. subst y. destruct (IH t) as (c & E1 & E2). exists (x :: c). simpl. by rewrite <- E1, <- E2.
Qed.

Lemma Join_dotdot l : HasPrefix (Join (".." :: l) "/") "../" = true \/ Join (".." :: l) "/" = "..".
Proof.
  destruct l as [|e l]; [by right|]. left. apply HasPrefix_iff. exists (Join (e :: l) "/").
  change (Join (".." :: e :: l) "/") with (".." +:+ "/" +:+ Join (e :: l) "/"). done.
Qed.

Lemma filepath_Rel_inside base targ rel :
  absolute base -> absolute targ -> filepath_Rel base targ = Some rel -> rel <> ".." -> HasPrefix rel "../" = false ->
  elements base `prefix_of` elements targ.
Proof.
  intros A B R N P. unfold filepath_Rel in R. rewrite !path_Clean_abs in R by done.
  case_bool_decide as E.
  { apply of_elements_inj in E; [by rewrite E|apply elements_ok|apply elements_ok]. }
  rewrite bool_decide_eq_false_2 in R.
  2:{ intros X. pose proof (of_elements_absolute (elements base)) as Y. unfold absolute, filepath_IsAbs in Y.
      rewrite X in Y. done. }
  rewrite !(of_elements_absolute _ : HasPrefix _ "/" = true) in R. simpl in R.
  rewrite !path_elements_of in R by apply elements_ok.
  destruct (strip_common_spec (elements base) (elements targ)) as (c & E1 & E2).
  destruct (strip_common (elements base) (elements targ)) as [b t]. simpl in E1, E2.
  case_bool_decide; [done|]. injection R as R. destruct b as [|x b].
  - rewrite E1, E2, app_nil_r. by exists t.
  - exfalso. change (Join (".." :: replicate (length b) ".." ++ t) "/" = rel) in R.
    destruct (Join_dotdot (replicate (length b) ".." ++ t)) as [J|J]; congruence.
Qed.

Lemma absolute_app a b : absolute a -> absolute (a +:+ b).
Proof.
  unfold absolute, filepath_IsAbs. rewrite !HasPrefix_iff. intros [t ->]. exists (t +:+ b). by rewrite string_app_assoc.
Qed.

Lemma filepath_Join_absolute a b : absolute a -> absolute (filepath_Join [a; b]).
Proof.
  intros A. unfold filepath_Join. assert (N : a <> "") by (by intros ->).
  rewrite filter_cons_True by done. destruct (decide (b = "")) as [->|B].
  - simpl. by apply path_Clean_absolute.
  - rewrite filter_cons_True by done. simpl. apply path_Clean_absolute. by apply absolute_app.
Qed.

(** Whatever path is asked for, relative ones with dot-dots included, the result
    is inside the root. *)
Lemma SandboxPathInRoot_below `{GoLib} root sandboxPath dest :
  absolute root -> SandboxPathInRoot root sandboxPath = Ok dest -> below root dest.
Proof.
  intros A S. unfold SandboxPathInRoot in S. destruct (_ || _); [done|].
  set (d := filepath_Join _) in S.
  assert (D : absolute d) by (by apply filepath_Join_absolute, path_Clean_absolute).
  destruct (filepath_Rel _ d) as [rel|] eqn:R; [|done].
  destruct (bool_decide (rel = "..") || HasPrefix rel "../") eqn:X; [done|]. injection S as <-. to_prop.
  split; [done|]. rewrite <- (elements_Clean root) by done.
  by eapply filepath_Rel_inside; [apply path_Clean_absolute| |exact R|apply X|apply X].
Qed.

(** ** The directory of a path *)

Lemma elements_trailing l : Forall element l -> elements (of_elements l +:+ "/") = l.
Proof.
  intros F. unfold elements. rewrite SplitByte_sep.
  assert (E : forall out ps, clean_go true out (ps ++ [""]) = clean_go true out ps).
  { intros out ps. revert out. induction ps as [|p ps IH]; intros out; [done|]. simpl.
    destruct (_ || _); [done|]. case_bool_decide; [|done]. destruct out; [done|]. by case_bool_decide. }
  simpl. rewrite E. by apply elements_of_elements.
Qed.

Lemma filepath_Dir_of l : Forall element l -> elements (filepath_Dir (of_elements l)) = removelast l.
Proof.
  intros F. destruct (decide (l = [])) as [->|N]; [reflexivity|].
  destruct (exists_last N) as (k & e & ->). apply Forall_app in F as [K E]. inversion E as [|? ? (_ & _ & _ & FE) _]; subst.
  rewrite removelast_last. unfold filepath_Dir. destruct (decide (k = [])) as [->|NK].
  - change (of_elements ([] ++ [e])) with ("" +:+ String "/" e). rewrite LastIndexByte_app by done. cbn.
    by destruct e.
  - assert (X : of_elements (k ++ [e]) = of_elements k +:+ String "/" e).
    { unfold of_elements. rewrite Join_app by done. by rewrite !string_app_assoc. }
    rewrite X, LastIndexByte_app by done.
    assert (Y : string_take (S (String.length (of_elements k))) (of_elements k +:+ String "/" e) = of_elements k +:+ "/").
    { replace (S (String.length (of_elements k))) with (String.length (of_elements k +:+ "/"))
        by (rewrite string_app_length; simpl; lia).
      change (String "/" e) with ("/" +:+ e). rewrite <- string_app_assoc. apply string_take_app_length. }
    rewrite Y. rewrite elements_Clean by (apply absolute_app, of_elements_absolute). by apply elements_trailing.
Qed.

Lemma filepath_Dir_clean l : Forall element l -> filepath_Dir (of_elements l) = of_elements (removelast l).
Proof.
  intros F. pose proof (filepath_Dir_of l F) as E.
  assert (C : exists p, absolute p /\ filepath_Dir (of_elements l) = path_Clean p).
  { unfold filepath_Dir. destruct (LastIndexByte (of_elements l) "/") as [i|] eqn:L.
    - eexists. split; [|done]. unfold of_elements. rewrite string_app_cons. cbn. by destruct (string_take i _).
    - exfalso. unfold of_elements in L. rewrite string_app_cons in L. cbn in L. by destruct (LastIndexByte _ _). }
  destruct C as (p & A & C). rewrite C in *. rewrite elements_Clean in E by done. by rewrite path_Clean_abs, E.
Qed.

Lemma Join_below dir name : absolute dir -> element name \/ name = "/" -> below dir (filepath_Join [dir; name]).
Proof.
  intros A E. split; [by apply filepath_Join_absolute|]. assert (D : dir <> "") by (by intros ->).
  assert (NN : name <> "") by (destruct E as [(N & _)| ->]; done).
  unfold filepath_Join. rewrite filter_cons_True by done. rewrite filter_cons_True by done. simpl.
  change (Join [dir; name] "/") with (dir +:+ "/" +:+ name).
  assert (AJ : absolute (dir +:+ "/" +:+ name)) by (by apply absolute_app).
  rewrite elements_Clean by done. unfold elements. change ("/" +:+ name) with (String "/" name). rewrite SplitByte_sep.
  assert (X : forall out ps qs, clean_go true out (ps ++ qs) = clean_go true (rev (clean_go true out ps)) qs).
  { intros out ps qs. revert out. induction ps as [|p ps IH]; intros out; simpl; [by rewrite rev_involutive|].
    destruct (_ || _); [done|]. case_bool_decide; [destruct out; [done|case_bool_decide; done]|done]. }
  rewrite X. destruct E as [E| ->].
  - rewrite (SplitByte_none name) by apply E. rewrite (clean_go_id _ [name]) by (by apply Forall_singleton). rewrite rev_involutive. by eexists.
  - simpl. rewrite rev_involutive. done.
Qed.
Lemma filepath_Join_elements base p :
  absolute base -> exists l, Forall element l /\ filepath_Join [base; p] = of_elements l.
Proof.
  intros A. assert (B : base <> "") by (by intros ->).
  assert (Q : exists q, absolute q /\ filepath_Join [base; p] = path_Clean q).
  { unfold filepath_Join. rewrite filter_cons_True by done. destruct (decide (p = "")) as [->|N].
    - exists base. done.
    - rewrite filter_cons_True by done. eexists. split; [|done]. by apply absolute_app. }
  destruct Q as (q & Q & ->). exists (elements q). split; [apply elements_ok|by apply path_Clean_abs].
Qed.

Lemma abs_clean `{HostFS} path dir :
  (forall wd, os_Getwd = Ok wd -> absolute wd) -> filepath_Abs path = Ok dir -> exists l, Forall element l /\ dir = of_elements l.
Proof.
  intros WD D. unfold filepath_Abs in D. destruct (filepath_IsAbs path) eqn:A.
  - injection D as <-. exists (elements path). split; [apply elements_ok|by apply path_Clean_abs].
  - apply result_bind_ok in D as (wd & W & [= <-]). by apply filepath_Join_elements, WD.
Qed.

(** ** What staging may do to the host *)

(** A change confined to the root. A directory on the way to the root counts as
    well: it exists already. *)
Definition confined (root : string) (op : fsOp) : Prop :=
  match op with
  | OpMkdirAll path _ => elements root `prefix_of` elements path \/ elements path `prefix_of` elements root
  | OpChmod path _ | OpCreate path _ | OpCopy _ path _ | OpWriteFile path _ _ | OpRemoveAll path => below root path
  end.

Lemma removelast_prefix {A} (l : list A) : removelast l `prefix_of` l.
Proof.
  destruct (decide (l = [])) as [->|N]; [done|]. destruct (exists_last N) as (k & e & ->).
  rewrite removelast_last. by exists [e].
Qed.

Lemma confined_mkdir_gen root dest mode : below root dest -> path_Clean dest = dest -> confined root (OpMkdirAll (filepath_Dir dest) mode).
Proof.
  intros [A P] C. cbn. rewrite path_Clean_abs in C by done. rewrite <- C. rewrite filepath_Dir_of by apply elements_ok.
  destruct P as [r P].
  rewrite P. destruct (decide (r = [])) as [->|N].
  - right. rewrite app_nil_r. apply removelast_prefix.
  - left. destruct (exists_last N) as (k & e & ->). rewrite app_assoc, removelast_last. by exists k.
Qed.

Lemma filepath_Join_clean a b : absolute a -> path_Clean (filepath_Join [a; b]) = filepath_Join [a; b].
Proof.
  intros A. assert (N : a <> "") by (by intros ->). unfold filepath_Join. rewrite filter_cons_True by done.
  destruct (decide (b = "")) as [->|B].
  - simpl. by apply path_Clean_idemp.
  - rewrite filter_cons_True by done. simpl. by apply path_Clean_idemp, absolute_app.
Qed.

Lemma SandboxPathInRoot_clean `{GoLib} root sandboxPath dest :
  absolute root -> SandboxPathInRoot root sandboxPath = Ok dest -> path_Clean dest = dest.
Proof.
  intros A S. unfold SandboxPathInRoot in S. destruct (_ || _); [done|]. destruct (filepath_Rel _ _); [|done].
  destruct (_ || _); [done|]. injection S as <-. by apply filepath_Join_clean, path_Clean_absolute.
Qed.

Section confinement.
Context `{GoLib} `{HostFS} `{MapOrder} (GOOS root : string) (A : absolute root).

(** A program that maps a path into the root and then only changes what the
    mapping gave. *)
Lemma fm_ops_in_root {B} sandboxPath (k : string -> FM B) :
  (forall dest, below root dest -> path_Clean dest = dest -> fm_ops (confined root) (k dest)) ->
  fm_ops (confined root) (dest <-@ fm_lift (SandboxPathInRoot root sandboxPath); k dest).
Proof.
  intros K. apply fm_ops_bind'; [apply fm_ops_lift|]. intros h dest h' E. unfold fm_lift in E. simplify_eq.
  match goal with E : SandboxPathInRoot _ _ = Ok _ |- _ => rename E into S end.
  apply K; [by eapply SandboxPathInRoot_below|by eapply SandboxPathInRoot_clean].
Qed.

Lemma confined_copy hostPath sandboxPath : fm_ops (confined root) (CopyFileToPath root hostPath sandboxPath).
Proof.
  unfold CopyFileToPath. apply fm_ops_bind; [auto with fsops|]. intros info. destruct (negb _); [auto with fsops|].
  apply fm_ops_bind; [auto with fsops|]. intros _. apply fm_ops_in_root. intros dest B C.
  apply fm_ops_bind; [apply fm_ops_wrap, fm_ops_do; by apply confined_mkdir_gen|]. intros _. by apply fm_ops_wrap, fm_ops_do.
Qed.

Lemma confined_write path content dir_mode mode f g :
  fm_ops (confined root) (dest <-@ fm_lift (SandboxPathInRoot root path);
    fm_wrap (f dest) (fm_do (OpMkdirAll (filepath_Dir dest) dir_mode)) ;;@ fm_wrap (g dest) (fm_do (OpWriteFile dest content mode))).
Proof.
  apply fm_ops_in_root. intros dest B C.
  apply fm_ops_bind; [apply fm_ops_wrap, fm_ops_do; by apply confined_mkdir_gen|]. intros _. by apply fm_ops_wrap, fm_ops_do.
Qed.

(** The queries change nothing. *)
Lemma reads_ResolveBinary P name : fm_ops P (ResolveBinary name).
Proof.
  unfold ResolveBinary. case_bool_decide; [auto with fsops|]. destruct (Contains _ _).
  - apply fm_ops_bind; [auto with fsops|]. intros p. apply fm_ops_bind; auto with fsops.
  - apply fm_ops_bind; auto with fsops.
Qed.
Lemma reads_FilesForCommand P fuel path : fm_ops P (FilesForCommand fuel path).
Proof.
  intros h. exists []. rewrite app_nil_r. unfold FilesForCommand. by destruct (filesForCommandRecursive h fuel path ∅) as [[r s]|].
Qed.
Lemma reads_subordinate P : fm_ops P ValidateSubordinateIDMappings.
Proof.
  apply fm_ops_bind; [auto with fsops|]. intros username. unfold ValidateSubordinateIDMappingsForUser.
  case_bool_decide; [auto with fsops|]. apply fm_ops_iter. intros path _. apply fm_ops_bind; [|intros []; auto with fsops].
  unfold FileHasSubordinateIDEntry. apply fm_ops_bind; [auto with fsops|]. intros content.
  induction (scan_lines content) as [|line lines IH]; [auto with fsops|]. destruct (_ <=? _); [auto with fsops|].
  destruct (HasPrefix _ _); [auto with fsops|done].
Qed.
Lemma reads_tooling P opts : fm_ops P (ResolveDockerBuildSupport GOOS opts).
Proof.
  unfold ResolveDockerBuildSupport, resolve_tool. destruct (negb (do_Enabled opts)); [auto with fsops|].
  destruct (negb _); [auto with fsops|].
  repeat (apply fm_ops_bind; [apply fm_ops_wrap, reads_ResolveBinary|intros ?]).
  apply fm_ops_bind; [apply reads_subordinate|auto with fsops].
Qed.
Lemma reads_nss P module : fm_ops P (nss_module module).
Proof.
  intros h. exists []. rewrite app_nil_r. unfold nss_module. destruct (FirstExistingPath _ _); [|done].
  by destruct (RuntimeFilesForBinary _).
Qed.
Lemma reads_stage_files P fuel opts bbox builder : fm_ops P (stage_files fuel opts bbox builder).
Proof.
  unfold stage_files. apply fm_ops_bind.
  { apply fm_ops_map. intros x _. unfold command_files.
    apply fm_ops_bind; [apply reads_ResolveBinary|intros; apply reads_FilesForCommand]. }
  intros requested. apply fm_ops_bind.
  { destruct builder; [|auto with fsops].
    apply fm_ops_bind; [apply fm_ops_map; intros; apply reads_FilesForCommand|intros ?].
    apply fm_ops_bind; [apply reads_FilesForCommand|auto with fsops]. }
  intros tools. apply fm_ops_bind; [apply reads_FilesForCommand|intros b].
  apply fm_ops_bind; [apply reads_nss|intros m1]. apply fm_ops_bind; [apply reads_nss|intros m2].
  apply fm_ops_bind; auto with fsops.
Qed.
Lemma reads_bundle P : fm_ops P HostTrustBundleContent.
Proof.
  intros h. exists []. rewrite app_nil_r. unfold HostTrustBundleContent. destruct (FirstExistingPath _ _); [|done].
  destruct (os_ReadFile _ _); [|done]. by case_bool_decide.
Qed.

Lemma confined_config pem : fm_ops (confined root) (WriteSandboxConfig root pem).
Proof.
  unfold WriteSandboxConfig. apply fm_ops_bind.
  { unfold TransparentResolvConfContent. apply fm_ops_bind; [auto with fsops|]. intros content.
    destruct (filter _ _); auto with fsops. }
  intros content. apply fm_ops_bind; [apply reads_bundle|]. intros bundle. apply fm_ops_iter. intros [p c] _.
  apply confined_write.
Qed.

Lemma confined_stage_root fuel opts binary pem : fm_ops (confined root) (stage_root GOOS fuel root opts binary pem).
Proof.
  unfold stage_root. apply fm_ops_bind; [apply reads_ResolveBinary|intros bbox].
  apply fm_ops_bind; [apply reads_tooling|intros builder]. apply fm_ops_bind; [apply reads_stage_files|intros files].
  apply fm_ops_bind; [apply fm_ops_iter; intros; apply confined_copy|intros _].
  apply fm_ops_bind; [apply confined_copy|intros _]. apply fm_ops_bind.
  { destruct builder as [b|]; [|auto with fsops].
    apply fm_ops_bind; [apply fm_ops_iter; intros [p c] _; apply confined_copy|intros _]. apply confined_write. }
  intros _. apply fm_ops_bind; [apply confined_config|auto with fsops].
Qed.
End confinement.

(** ** Termination of the search for interpreters *)

Section walk.
Context `{GoLib} `{HostFS} (h : fsState) (paths : gset string).
(** [paths] has the interpreters of its scripts. *)
Context (closed : forall p chain i, p ∈ paths -> (scriptInterpreterChain p h).1 = Ok chain -> i ∈ chain -> path_Clean i ∈ paths).

Lemma files_for_enough fuel p seen :
  path_Clean p ∈ paths -> (size (paths ∖ seen) < fuel)%nat ->
  exists r seen', filesForCommandRecursive h fuel p seen = Some (r, seen') /\ seen ⊆ seen'.
Proof.
  revert p seen. induction fuel as [|fuel IH]; intros p seen I F; [lia|]. cbn [filesForCommandRecursive]. cbv zeta.
  case_bool_decide as S; [by eauto|].
  assert (D : (size (paths ∖ ({[path_Clean p]} ∪ seen)) < fuel)%nat).
  { assert (E : paths ∖ seen = {[path_Clean p]} ∪ paths ∖ ({[path_Clean p]} ∪ seen)).
    { apply leibniz_equiv. intros x. rewrite elem_of_union, !elem_of_difference, elem_of_union, elem_of_singleton.
      destruct (decide (x = path_Clean p)); set_solver. }
    rewrite E, size_union, size_singleton in F by set_solver. lia. }
  destruct (RuntimeFilesForBinary _); [|eexists _, _; split; [done|set_solver]].
  destruct (scriptInterpreterChain (path_Clean p) h).1 as [chain|] eqn:C; [|eexists _, _; split; [done|set_solver]].
  assert (Ch : forall i, i ∈ chain -> path_Clean i ∈ paths) by (intros i Ii; by eapply closed). clear C.
  set (seen1 := {[path_Clean p]} ∪ seen) in *. assert (Sub : seen ⊆ seen1) by set_solver. clearbody seen1.
  generalize (path_Clean p :: a). clear a. revert seen1 D Sub. induction chain as [|i chain IHc]; intros seen1 D Sub files.
  { eauto. }
  destruct (IH i seen1) as (r & seen2 & -> & S2); [apply Ch; set_solver|lia|].
  destruct r as [fs|e]; [|eexists _, _; split; [done|set_solver]].
  apply IHc; [intros; apply Ch; set_solver| |set_solver].
  eapply Nat.le_lt_trans; [|exact D]. apply subseteq_size. set_solver.
Qed.
End walk.

(** ** Sorting and removing duplicates *)

Lemma path_le_total : Total path_le.
Proof. intros a b. apply string_le_total. Qed.
#[local] Existing Instance path_le_total.
#[local] Instance path_le_transitive : Transitive path_le.
Proof. intros a b c. apply string_le_trans. Qed.

Lemma Compact_elem l x : x ∈ Compact l <-> x ∈ l.
Proof.
  induction l as [|y l IH]; [done|]. cbn [Compact]. destruct l as [|z l]; [done|].
  case_bool_decide as E; [|rewrite !(elem_of_cons _ x y), IH; done]. subst y. rewrite IH. set_solver.
Qed.

Lemma Compact_NoDup l : StronglySorted path_le l -> NoDup (Compact l).
Proof.
  induction 1 as [|x l SS IH F]; [constructor|]. cbn [Compact]. destruct l as [|y l]; [repeat constructor; set_solver|].
  case_bool_decide as E; [done|]. constructor; [|done]. rewrite Compact_elem. intros I.
  inversion F as [|? ? L1 F2]; subst. apply elem_of_cons in I as [->|I]; [done|].
  inversion SS as [|? ? SS' F3]; subst. rewrite Forall_forall in F3.
  apply E, (string_le_antisym _ _ L1). by apply F3.
Qed.

(** The files copied to their own paths: every file found, each of them once. *)
Lemma staged_once files : NoDup (Compact (sort_strings files)) /\ forall f, f ∈ Compact (sort_strings files) <-> f ∈ files.
Proof.
  split.
  - apply Compact_NoDup. apply (StronglySorted_merge_sort path_le).
  - intros f. rewrite Compact_elem. unfold sort_strings. by rewrite merge_sort_Permutation.
Qed.

Section theorems.
Context `{GoLib} `{HostFS} `{MapOrder} (GOOS : string).

(** C24. Staging writes inside its own root only: whatever binaries are requested,
    whatever ldd, script headers and the file system answer, each change [Stage]
    attempts on the host is confined to the root directory it made (host files are
    only read), and when it fails its last act is to remove that directory. *)
Theorem stage_confined fuel opts binary pem root h r h' :
  os_MkdirTemp = Ok root -> absolute root -> Stage GOOS fuel opts binary pem h = (r, h') ->
  exists ops, h' = h ++ ops /\ Forall (confined root) ops /\
    (is_ok r = false -> last ops = Some (OpRemoveAll root)).
Proof.
  intros M A S. unfold Stage in S. rewrite M in S.
  destruct (confined_stage_root GOOS root A fuel opts binary pem h) as (ops & E & F).
  destruct (stage_root GOOS fuel root opts binary pem h) as [[res|e] h1]; simplify_eq/=.
  - by exists ops.
  - exists (ops ++ [OpRemoveAll root]). rewrite app_assoc, last_snoc. split; [done|]. split; [|done].
    apply Forall_app. split; [done|]. constructor; [|constructor]. by split.
Qed.

(** The search for the files of a command ends: interpreters are followed
    recursively, also in cycles, and when the scripts and interpreters that can be
    reached are among finitely many paths, recursion no deeper than their number
    plus one returns a result (a list of files or an error). *)
Theorem files_for_terminates h paths fuel p :
  (forall q chain i, q ∈ paths -> (scriptInterpreterChain q h).1 = Ok chain -> i ∈ chain -> path_Clean i ∈ paths) ->
  path_Clean p ∈ paths -> (size (paths : gset string) < fuel)%nat ->
  exists r seen, filesForCommandRecursive h fuel p ∅ = Some (r, seen) /\ FilesForCommand fuel p h = (r, h).
Proof.
  intros C I F. destruct (files_for_enough h paths C fuel p ∅ I) as (r & seen & E & _).
  - eapply Nat.le_lt_trans; [|exact F]. apply subseteq_size. set_solver.
  - exists r, seen. split; [done|]. unfold FilesForCommand. by rewrite E.
Qed.
End theorems.

(** A small host for the witnesses: /bin/tool is a script of /bin/sh, which is its
    own interpreter; everything else is missing. *)
Module SampleHost.
#[export] Instance fs : HostFS := {|
  os_Stat := fun _ p => if bool_decide (p ∈ ["/bin/tool"; "/bin/sh"]) then Ok {| fi_IsDir := false; fi_IsRegular := true; fi_Perm := 493 |}
                        else Err "not found";
  os_ReadFile := fun _ p => if bool_decide (p ∈ ["/bin/tool"; "/bin/sh"]) then Ok ("#!/bin/sh" +:+ str1 10) else Err "not found";
  os_ReadDir := fun _ _ => Err "not found";
  os_MkdirTemp := Ok "/tmp/root";
  os_Getwd := Ok "/";
  os_Geteuid := 1000;
  user_Current := Ok "u";
  exec_LookPath := fun name => Ok ("/bin/" +:+ name);
  ldd := fun _ => ("not a dynamic executable", Some "exit status 1");
  fs_error := fun _ _ => None |}.
#[export] Instance order : MapOrder.
Proof. refine {| map_range := fun A m => map_to_list m |}. done. Defined.
Definition options : StageOptions := {|
  sg_Binaries := ["tool"];
  sg_DockerBuild := {| do_Enabled := false; do_BuildkitdPath := ""; do_BuildctlPath := ""; do_RuncPath := "";
                       do_PodmanPath := ""; do_NewuidmapPath := ""; do_NewgidmapPath := "" |} |}.
End SampleHost.

#[local] Existing Instance sampleLib.
Import SampleHost.

Lemma stage_confined_witness :
  exists ops, (Stage "linux" 3 options "/bin/tool" "CA" []).2 = ops /\ Forall (confined "/tmp/root") ops /\
    last ops = Some (OpRemoveAll "/tmp/root") /\ OpCopy "/bin/sh" "/tmp/root/bin/sh" 493 ∈ ops.
Proof.
  destruct (stage_confined (H0 := fs) (H1 := order) "linux" 3 options "/bin/tool" "CA" "/tmp/root" [] _ _ eq_refl eq_refl (surjective_pairing _))
    as (ops & E & F & L).
  exists ops. split; [exact E|]. split; [exact F|]. split; [apply L; vm_compute; reflexivity|].
  simpl in E. rewrite <- E. vm_compute. set_solver.
Defined.

Lemma files_for_terminates_witness :
  exists r seen, filesForCommandRecursive [] 3 "/bin/tool" ∅ = Some (r, seen) /\ FilesForCommand 3 "/bin/tool" [] = (r, []).
Proof.
  apply (files_for_terminates [] {["/bin/tool"; "/bin/sh"]}).
  - intros q chain i Q C I. apply elem_of_union in Q as [Q%elem_of_singleton|Q%elem_of_singleton]; subst q;
      vm_compute in C; injection C as <-; apply list_elem_of_singleton in I; subst i; vm_compute; reflexivity.
  - vm_compute. reflexivity.
  - vm_compute. lia.
Defined.
