(* ===== verification/Mounts.v ===== *)
(** Mounts and the bubblewrap command line: src/mounts.go, src/mounts_linux.go and
    src/rootless_linux.go. *)
From S2P Require Import Prelude GoStrings GoPath HostFS Access Staging.

Definition MountTypeBind : string := "bind".
Definition MountTypeEmptyDir : string := "empty_dir".
Record Mount := { mt_Type : string; mt_Source : string; mt_Target : string; mt_ReadOnly : bool; mt_Mode : Z }.

Definition reservedSandboxTargets : list string :=
  ["/app"; "/usr"; "/etc"; "/lib"; "/lib64"; "/proc"; "/dev"; "/tmp"].

Definition targetsOverlap (a b : string) : bool :=
  let a := path_Clean a in
  let b := path_Clean b in
  if bool_decide (a = b) then true else
  if bool_decide (a = "/") || bool_decide (b = "/") then true else
  HasPrefix a (b +:+ "/") || HasPrefix b (a +:+ "/").

Definition isAllowedReservedBindTarget (m : Mount) (cleanTarget reservedTarget : string) : bool :=
  if negb (bool_decide (mt_Type m = MountTypeBind)) || negb (mt_ReadOnly m) || negb (bool_decide (path_Clean (mt_Source m) = cleanTarget))
  then false
  else if bool_decide (reservedTarget = "/usr") then bool_decide (cleanTarget = "/usr")
  else if bool_decide (reservedTarget = "/etc") then bool_decide (cleanTarget = "/etc/alternatives")
  else false.

Definition overlapsReservedSandboxTarget (target : string) : bool := existsb (targetsOverlap target) reservedSandboxTargets.

Section mounts.
Context `{GoLib} `{HostFS} `{MapOrder}.

(** The checks of one mount by itself: its type, source and target. *)
Definition validate_mount (h : fsState) (m : Mount) : result unit :=
  if bool_decide (mt_Type m = "") then Err "mount type is required" else
  _ <-! (if bool_decide (mt_Type m = MountTypeBind) then
           if bool_decide (mt_Source m = "") then Err ("mount source is required for " +:+ Quote (mt_Type m)) else
           if negb (filepath_IsAbs (mt_Source m)) then Err ("mount source " +:+ Quote (mt_Source m) +:+ " must be absolute") else
           match os_Stat h (mt_Source m) with
           | Err e => Err ("mount source " +:+ Quote (mt_Source m) +:+ ": " +:+ e)
           | Ok _ => if negb (mt_Mode m =? 0) then Err ("mount type " +:+ Quote (mt_Type m) +:+ " must not set mode") else Ok tt
           end
         else if bool_decide (mt_Type m = MountTypeEmptyDir) then
           if negb (bool_decide (mt_Source m = "")) then Err ("mount type " +:+ Quote (mt_Type m) +:+ " must not set source") else Ok tt
         else Err ("unknown mount type " +:+ Quote (mt_Type m)));
  if bool_decide (mt_Target m = "") then Err "mount target is required" else
  if negb (filepath_IsAbs (mt_Target m)) then Err ("mount target " +:+ Quote (mt_Target m) +:+ " must be absolute") else
  Ok tt.

(** The first reserved path the target may not overlap. *)
Definition reserved_conflict (m : Mount) : option string :=
  let target := path_Clean (mt_Target m) in
  List.find (fun reserved => negb (isAllowedReservedBindTarget m target reserved) && targetsOverlap target reserved)
    reservedSandboxTargets.

Fixpoint validate_mounts_go (h : fsState) (seen : gmap string Mount) (mounts : list Mount) : result unit :=
  match mounts with
  | [] => Ok tt
  | m :: mounts =>
      _ <-! validate_mount h m;
      let target := path_Clean (mt_Target m) in
      match reserved_conflict m with
      | Some reserved => Err ("mount target " +:+ Quote (mt_Target m) +:+ " overlaps reserved sandbox path " +:+ Quote reserved)
      | None =>
          match seen !! target with
          | Some prev => Err ("mount target " +:+ Quote (mt_Target m) +:+ " conflicts with " +:+ Quote (mt_Source prev))
          | None =>
              match List.find (fun e => targetsOverlap e.1 target) (map_range seen) with
              | Some (existing, prev) =>
                  Err ("mount target " +:+ Quote (mt_Target m) +:+ " overlaps with " +:+ Quote existing +:+ " from " +:+ Quote (mt_Source prev))
              | None => validate_mounts_go h (<[target := m]> seen) mounts
              end
          end
      end
  end.
Definition validateMounts (h : fsState) (mounts : list Mount) : result unit := validate_mounts_go h ∅ mounts.

(** ** Preparing mounts: mounts_linux.go *)

Definition runtimeEmptyDirBase : string := ".bbox-empty-dirs".

Definition materializeReservedMountTarget (root : string) (mount : Mount) : FM unit :=
  let target := path_Clean (mt_Target mount) in
  if negb (overlapsReservedSandboxTarget target) then fm_ret tt else
  info <-@ fm_wrap (fun e => "stat runtime mount source " +:+ Quote (mt_Source mount) +:+ ": " +:+ e)
             (fm_ask (fun h => os_Stat h (mt_Source mount)));
  dest <-@ fm_wrap (fun e => "prepare runtime mount target " +:+ Quote (mt_Target mount) +:+ ": " +:+ e)
             (fm_lift (SandboxPathInRoot root target));
  if fi_IsDir info then
    fm_wrap (fun e => "create runtime mount target " +:+ Quote (mt_Target mount) +:+ ": " +:+ e) (fm_do (OpMkdirAll dest mode_755))
  else
    fm_wrap (fun e => "create runtime mount target parent " +:+ Quote (mt_Target mount) +:+ ": " +:+ e)
      (fm_do (OpMkdirAll (filepath_Dir dest) mode_755)) ;;@
    fm_wrap (fun e => "create runtime mount target " +:+ Quote (mt_Target mount) +:+ ": " +:+ e) (fm_do (OpCreate dest (fi_Perm info))).

Definition prepare_mount (root : string) (idx : nat) (mount : Mount) : FM Mount :=
  if bool_decide (mt_Type mount = MountTypeBind) then
    materializeReservedMountTarget root mount ;;@ fm_ret mount
  else if bool_decide (mt_Type mount = MountTypeEmptyDir) then
    let mode := if mt_Mode mount =? 0 then mode_755 else mt_Mode mount in
    let hostDir := filepath_Join [root; runtimeEmptyDirBase; Itoa (Z.of_nat idx)] in
    fm_wrap (fun e => "create empty_dir mount " +:+ Quote (mt_Target mount) +:+ ": " +:+ e) (fm_do (OpMkdirAll hostDir mode)) ;;@
    fm_wrap (fun e => "chmod empty_dir mount " +:+ Quote (mt_Target mount) +:+ ": " +:+ e) (fm_do (OpChmod hostDir mode)) ;;@
    fm_ret {| mt_Type := MountTypeBind; mt_Source := hostDir; mt_Target := mt_Target mount; mt_ReadOnly := false; mt_Mode := 0 |}
  else fm_fail ("unsupported mount type " +:+ Quote (mt_Type mount)).
Definition prepareRuntimeMounts (root : string) (mounts : list Mount) : FM (list Mount) :=
  fm_map (fun '(idx, mount) => prepare_mount root idx mount) (zip (seq 0 (length mounts)) mounts).

(** ** The arguments of bubblewrap *)

Record dockerSocketMount := { ds_HostPath : string; ds_SandboxPath : string }.
Record bwrapArgsConfig := {
  bw_root : string;
  bw_helperPath : string;
  bw_proxyListenAddr : string;
  bw_mitm_Enabled : bool;
  bw_unshareUser : bool;
  bw_capSysAdmin : bool;
  bw_maxRequestBodyBytes : Z;
  bw_mounts : list Mount;
  bw_tmpfsTargets : list string;
  bw_dockerSocketMount : option dockerSocketMount;
  bw_trafficMode : string;
  bw_payloadSeccompBPFPath : string;
  bw_bridgeFD : Z;
  bw_seccompFD : Z;
}.

Definition system_dirs : list string := ["app"; "usr"; "etc"; "lib"; "lib64"; "bin"; "sbin"].
(** The staged directories that exist, bound read-only. *)
Definition system_binds (h : fsState) (root : string) : list string :=
  flat_map (fun dir =>
    let hostDir := filepath_Join [root; dir] in
    match os_Stat h hostDir with
    | Ok info => if fi_IsDir info then ["--ro-bind"; hostDir; "/" +:+ dir] else []
    | Err _ => []
    end) system_dirs.
Definition mount_args (mount : Mount) : list string :=
  if negb (bool_decide (mt_Type mount = MountTypeBind)) then [] else
  [if mt_ReadOnly mount then "--ro-bind" else "--bind"; mt_Source mount; path_Clean (mt_Target mount)].
Definition show_bool (b : bool) : string := if b then "true" else "false".

Definition helper_command (cfg : bwrapArgsConfig) : list string :=
  [bw_helperPath cfg; "internal-helper"; "--bridge-fd"; Itoa (bw_bridgeFD cfg); "--proxy-addr"; bw_proxyListenAddr cfg;
   "--traffic-mode"; normalizeTrafficMode (bw_trafficMode cfg); "--mitm-enabled=" +:+ show_bool (bw_mitm_Enabled cfg);
   "--max-request-body-bytes"; Itoa (bw_maxRequestBodyBytes cfg)] ++
  (if bool_decide (bw_payloadSeccompBPFPath cfg = "") then [] else ["--payload-seccomp-bpf"; bw_payloadSeccompBPFPath cfg]) ++
  ["child-proxy"].

Definition buildBwrapArgs (h : fsState) (cfg : bwrapArgsConfig) : list string :=
  (if bw_unshareUser cfg then ["--unshare-user"] else []) ++
  ["--unshare-pid"; "--unshare-net"; "--die-with-parent"; "--new-session"; "--clearenv"; "--setenv"; "PATH"; "/usr/bin"] ++
  (if 0 <=? bw_seccompFD cfg then ["--seccomp"; Itoa (bw_seccompFD cfg)] else []) ++
  (if bw_capSysAdmin cfg then ["--cap-add"; "CAP_SYS_ADMIN"] else []) ++
  system_binds h (bw_root cfg) ++
  flat_map mount_args (bw_mounts cfg) ++
  match bw_dockerSocketMount cfg with
  | Some d => ["--bind"; ds_HostPath d; path_Clean (ds_SandboxPath d)]
  | None => []
  end ++
  flat_map (fun target => ["--tmpfs"; path_Clean target]) (bw_tmpfsTargets cfg) ++
  ["--proc"; "/proc"; "--dev"; "/dev"; "--tmpfs"; "/tmp"; "--chdir"; "/tmp"; "--"] ++
  helper_command cfg.

(** ** The command: rootless_linux.go *)

Definition defaultBuilderCgroupPath : string := "/sys/fs/cgroup".
Definition DefaultBuildkitRootPath : string := "/var/lib/buildkitd".
Definition DefaultBuildOutputDir : string := "/var/lib/buildkitd-out".

Definition builderTargetMounted (mounts : list Mount) (target : string) : bool :=
  existsb (fun mount => targetsOverlap (mt_Target mount) target) mounts.
Definition appendBuilderMountIfAbsent (mounts : list Mount) (want : Mount) : list Mount :=
  if existsb (fun mount => targetsOverlap (mt_Target mount) (mt_Target want)) mounts then mounts else mounts ++ [want].
Definition appendBuilderMounts (h : fsState) (mounts : list Mount) : list Mount :=
  match os_Stat h defaultBuilderCgroupPath with
  | Ok info =>
      if fi_IsDir info then
        appendBuilderMountIfAbsent mounts {| mt_Type := MountTypeBind; mt_Source := defaultBuilderCgroupPath;
          mt_Target := defaultBuilderCgroupPath; mt_ReadOnly := true; mt_Mode := 0 |}
      else mounts
  | Err _ => mounts
  end.
Definition defaultBuilderTmpfsTargets (mounts : list Mount) : list string :=
  List.filter (fun target => negb (builderTargetMounted mounts target)) [DefaultBuildkitRootPath; DefaultBuildOutputDir].

Record bwrapCommandConfig := {
  bc_root : string;
  bc_proxyListenAddr : string;
  bc_mitm_Enabled : bool;
  bc_mounts : list Mount;
  bc_dockerBuild : DockerBuildOptions;
  bc_builder : option BuilderTooling;
  bc_mode : string;
  bc_payloadSeccompPath : string;
  bc_bridgeFD : Z;
  bc_seccompFD : Z;
  bc_dockerSocketMount : option dockerSocketMount;
  bc_maxRequestBody : Z;
}.
(** A command: the program and its arguments. *)
Definition buildLinuxSandboxCommand (GOOS : string) (cfg : bwrapCommandConfig) : FM (string * list string) :=
  tooling <-@ match bc_builder cfg with
              | Some t => fm_ret (Some t)
              | None => ResolveDockerBuildSupport GOOS (bc_dockerBuild cfg)
              end;
  let tmpfsTargets := match tooling with Some _ => defaultBuilderTmpfsTargets (bc_mounts cfg) | None => [] end in
  mounts <-@ fm_ask (fun h => Ok (match tooling with Some _ => appendBuilderMounts h (bc_mounts cfg) | None => bc_mounts cfg end));
  runtimeMounts <-@ fm_wrap (fun e => "prepare runtime mounts: " +:+ e) (prepareRuntimeMounts (bc_root cfg) mounts);
  bwrapArgs <-@ fm_ask (fun h => Ok (buildBwrapArgs h {|
    bw_root := bc_root cfg;
    bw_helperPath := DefaultSandboxBBoxPath;
    bw_proxyListenAddr := bc_proxyListenAddr cfg;
    bw_mitm_Enabled := bc_mitm_Enabled cfg;
    bw_unshareUser := negb (os_Geteuid =? 0) && bool_decide (tooling = None);
    bw_capSysAdmin := negb (bool_decide (tooling = None));
    bw_maxRequestBodyBytes := bc_maxRequestBody cfg;
    bw_mounts := runtimeMounts;
    bw_tmpfsTargets := tmpfsTargets;
    bw_dockerSocketMount := bc_dockerSocketMount cfg;
    bw_trafficMode := bc_mode cfg;
    bw_payloadSeccompBPFPath := bc_payloadSeccompPath cfg;
    bw_bridgeFD := bc_bridgeFD cfg;
    bw_seccompFD := bc_seccompFD cfg |}));
  fm_ret (match tooling with
          | Some t => (bt_PodmanPath t, ["--cgroup-manager=cgroupfs"; "unshare"; "bwrap"] ++ bwrapArgs)
          | None => ("bwrap", bwrapArgs)
          end).
End mounts.
