(* ===== verification/Assembly.v ===== *)
(** The assembly of a sandbox: src/sandbox.go, src/sandbox_linux.go,
    src/sandbox_runtime.go, src/api.go and the Docker socket configuration of
    src/docker_socket_proxy.go.

    What the operating system answers while a sandbox is made and closed is in the
    records [linuxEnv] and [bootEnv]. Resources are tracked by the events that
    acquire and release them. A Go panic is [None]. *)
From S2P Require Import Prelude GoStrings GoPath HostFS Policy Access Manager Docker Seccomp Staging Mounts.

(** ** Environment lists *)

Definition proxyURL (addr : string) : string := "http://" +:+ addr.
Definition splitEnv (entry : string) : option (string * string) := CutByte entry "=".
Definition reserved_keys : list string := ["PATH"; "HTTP_PROXY"; "http_proxy"; "HTTPS_PROXY"; "https_proxy"].
Definition filterReservedEnv (env : list string) : list string :=
  List.filter (fun entry =>
    match splitEnv entry with
    | None => false
    | Some (key, _) => negb (bool_decide (key ∈ reserved_keys))
    end) env.
Fixpoint last_value (env : list string) (key : string) : option string :=
  match env with
  | [] => None
  | entry :: env =>
      match last_value env key with
      | Some v => Some v
      | None => match splitEnv entry with Some (k, v) => if bool_decide (k = key) then Some v else None | None => None end
      end
  end.
(** The loop runs from the end of the list. *)
Definition lastEnvValue (env : list string) (key : string) : option string := last_value env key.

Definition env_key (entry : string) : string := match splitEnv entry with Some (key, _) => key | None => entry end.
(** One entry: the list so far and the index of each key. *)
Definition merge_entry (st : list string * gmap string nat) (entry : string) : list string * gmap string nat :=
  let '(merged, indexByKey) := st in
  if bool_decide (entry = "") then st else
  match indexByKey !! env_key entry with
  | Some idx => (<[idx := entry]> merged, indexByKey)
  | None => (merged ++ [entry], <[env_key entry := length merged]> indexByKey)
  end.
Definition mergeEnv (groups : list (list string)) : list string := (foldl merge_entry ([], ∅) (concat groups)).1.

Definition defaultRunEnvPath : string := "/usr/bin".
Definition withDockerBuildPATHEnvEntries (env : list string) : list string :=
  let pathValue := default defaultRunEnvPath (lastEnvValue env "PATH") in
  env ++ ["PATH=" +:+ PrependPATHDir pathValue DefaultSandboxBinDir].

Definition runEnvForProxyAddr (proxyAddr : string) (extraEnv : list string) : list string :=
  let pathValue := default defaultRunEnvPath (lastEnvValue extraEnv "PATH") in
  mergeEnv [filterReservedEnv extraEnv;
            ["PATH=" +:+ pathValue; "HTTP_PROXY=" +:+ proxyURL proxyAddr; "http_proxy=" +:+ proxyURL proxyAddr;
             "HTTPS_PROXY=" +:+ proxyURL proxyAddr; "https_proxy=" +:+ proxyURL proxyAddr]].
Definition runEnvForTrafficMode `{GoLib} (mode proxyAddr : string) (extraEnv : list string) : option (list string) :=
  let normalized := normalizeTrafficMode mode in
  if bool_decide (normalized = TrafficModeTransparent) then
    let pathValue := default defaultRunEnvPath (lastEnvValue extraEnv "PATH") in
    Some (mergeEnv [filterReservedEnv extraEnv; ["PATH=" +:+ pathValue]])
  else if bool_decide (normalized = TrafficModeProxy) then Some (runEnvForProxyAddr proxyAddr extraEnv)
  else None.

(** ** Options *)

Record ReportingOptions := { ro_PolicyViolations : bool; ro_AccessSummary : bool; ro_RequestSummary : bool }.
#[global] Instance ReportingOptions_eq_dec : EqDecision ReportingOptions.
Proof. solve_decision. Defined.
Definition no_reporting : ReportingOptions :=
  {| ro_PolicyViolations := false; ro_AccessSummary := false; ro_RequestSummary := false |}.
Record DockerSocketOptions := {
  dk_Enabled : bool; dk_MountPath : string; dk_TargetSocketPath : string; dk_Policy : DockerSocketPolicy }.
Record SandboxOptions := {
  op_Name : string;
  op_Binaries : list string;
  op_Mounts : list Mount;
  op_Env : list string;
  op_TrafficMode : string;
  op_Policy : NetworkPolicy;
  op_PolicyMode : string;
  op_Reporting : ReportingOptions;
  op_WorkDir : string;
  op_Seccomp : SeccompOptions;
  op_DockerSocket : DockerSocketOptions;
  op_DockerBuild : DockerBuildOptions;
}.

Definition defaultDockerSocketMountPath : string := "/var/run/docker.sock".
Definition defaultDockerSocketTargetPath : string := "/var/run/docker.sock".
Definition errUnsupportedPlatformFeature (platform feature : string) : string :=
  feature +:+ " is not supported on " +:+ platform.

Section assembly.
Context `{GoLib} `{Net} `{HostFS} `{MapOrder} `{Libseccomp}.
(** [sandboxPlatform], which is [runtime.GOOS]. *)
Context (platform : string).

Definition not_absolute (path : string) : bool := negb (filepath_IsAbs path).

Definition validateSandboxOptions (h : fsState) (opts : SandboxOptions) (mitmEnabled : bool) : result unit :=
  if negb (bool_decide (op_WorkDir opts = "")) && not_absolute (op_WorkDir opts)
  then Err ("sandbox workdir " +:+ Quote (op_WorkDir opts) +:+ " must be absolute") else
  let mountPath := TrimSpace (dk_MountPath (op_DockerSocket opts)) in
  if negb (bool_decide (mountPath = "")) && not_absolute mountPath
  then Err ("docker socket mount path " +:+ Quote (dk_MountPath (op_DockerSocket opts)) +:+ " must be absolute") else
  let targetSocketPath := TrimSpace (dk_TargetSocketPath (op_DockerSocket opts)) in
  if negb (bool_decide (targetSocketPath = "")) && not_absolute targetSocketPath
  then Err ("docker socket target socket path " +:+ Quote (dk_TargetSocketPath (op_DockerSocket opts)) +:+ " must be absolute") else
  let mode := normalizeTrafficMode (op_TrafficMode opts) in
  if negb (bool_decide (mode = TrafficModeProxy)) && negb (bool_decide (mode = TrafficModeTransparent))
  then Err ("sandbox traffic mode " +:+ Quote (op_TrafficMode opts) +:+ " is not supported") else
  _ <-! normalizePolicyMode (op_PolicyMode opts);
  if bool_decide (platform = "darwin") then
    if bool_decide (mode = TrafficModeTransparent) then Err (errUnsupportedPlatformFeature "darwin" "transparent traffic mode") else
    if (0 <? length (op_Mounts opts))%nat then Err "mounts are not supported on darwin" else
    if negb (isZeroSeccompOptions (op_Seccomp opts)) then Err (errUnsupportedPlatformFeature "darwin" "seccomp") else Ok tt
  else
  _ <-! validateMounts h (op_Mounts opts);
  if bool_decide (mode = TrafficModeTransparent) && negb mitmEnabled
  then Err "transparent traffic mode requires MITM to be enabled" else
  validateSeccompOptions (op_Seccomp opts).

Definition validateEffectiveDockerSocketOptions (opts : DockerSocketOptions) (mounts : list Mount) : result unit :=
  if negb (dk_Enabled opts) then Ok tt else
  if bool_decide (platform = "darwin") then Err (errUnsupportedPlatformFeature "darwin" "docker socket mediation") else
  let mountPath := path_Clean (TrimSpace (dk_MountPath opts)) in
  if bool_decide (mountPath = "") || not_absolute mountPath
  then Err ("docker socket mount path " +:+ Quote (dk_MountPath opts) +:+ " must be absolute") else
  let targetSocketPath := path_Clean (TrimSpace (dk_TargetSocketPath opts)) in
  if bool_decide (targetSocketPath = "") || not_absolute targetSocketPath
  then Err ("docker socket target socket path " +:+ Quote (dk_TargetSocketPath opts) +:+ " must be absolute") else
  match List.find (fun mount => targetsOverlap (path_Clean (mt_Target mount)) mountPath) mounts with
  | Some mount => Err ("docker socket mount path " +:+ Quote mountPath +:+ " overlaps with mount target " +:+ Quote (mt_Target mount))
  | None => Ok tt
  end.

(** ** The manager's configuration: api.go *)

(** The manager of [Manager] with the settings sandboxes are made from. *)
Record managerState := {
  ms_manager : ProxyManager;
  ms_listenAddr : string;
  ms_mitmEnabled : bool;
  ms_reporting : ReportingOptions;
  ms_dockerSocket : DockerSocketOptions;
  ms_dockerSocketPolicy : option compiledDockerSocketPolicy;
  ms_caCertPEM : string;
  ms_nextSandboxID : Z;
}.
Definition with_manager (f : ProxyManager -> ProxyManager) (m : managerState) : managerState := {|
  ms_manager := f (ms_manager m); ms_listenAddr := ms_listenAddr m; ms_mitmEnabled := ms_mitmEnabled m;
  ms_reporting := ms_reporting m; ms_dockerSocket := ms_dockerSocket m; ms_dockerSocketPolicy := ms_dockerSocketPolicy m;
  ms_caCertPEM := ms_caCertPEM m; ms_nextSandboxID := ms_nextSandboxID m |}.

Record ProxyOptions := {
  po_ListenAddr : string;
  po_MaxRequestBodyBytes : Z;
  po_MaxResponseBodyBytes : Z;
  po_NetworkPolicy : NetworkPolicy;
  po_PolicyMode : string;
  po_Reporting : ReportingOptions;
  po_MITM_Enabled : bool;
  po_DockerSocket : DockerSocketOptions;
}.
Definition defaultMaxRequestBodyBytes : Z := Z.shiftl 1 20.
Definition defaultMaxResponseBodyBytes : Z := 0.
Definition DefaultProxyAddr : string := "127.0.0.1:31111".
Definition effectiveRequestBodyLimit (opts : ProxyOptions) : Z :=
  if 0 <? po_MaxRequestBodyBytes opts then po_MaxRequestBodyBytes opts else defaultMaxRequestBodyBytes.
Definition effectiveResponseBodyLimit (opts : ProxyOptions) : Z :=
  if 0 <? po_MaxResponseBodyBytes opts then po_MaxResponseBodyBytes opts else defaultMaxResponseBodyBytes.

(** [resolveTCP] is [net.ResolveTCPAddr], [newCA] the certificate of [newMITMCA]. *)
Definition NewProxyManager (resolveTCP : string -> result unit) (newCA : result string) (opts : ProxyOptions) : result managerState :=
  policy <-! compilePolicy (po_NetworkPolicy opts);
  dockerSocketPolicy <-! compileDockerSocketPolicy (dk_Policy (po_DockerSocket opts));
  policyMode <-! normalizePolicyMode (po_PolicyMode opts);
  if po_MaxRequestBodyBytes opts <? 0 then Err "max request body bytes must be non-negative" else
  if po_MaxResponseBodyBytes opts <? 0 then Err "max response body bytes must be non-negative" else
  let listenAddr := TrimSpace (po_ListenAddr opts) in
  let listenAddr := if bool_decide (listenAddr = "") then DefaultProxyAddr else listenAddr in
  _ <-! result_wrap (fun e => "resolve proxy listen address " +:+ Quote listenAddr +:+ ": " +:+ e) (resolveTCP listenAddr);
  pem <-! (if po_MITM_Enabled opts then newCA else Ok "");
  Ok {| ms_manager := {| pm_defaultPolicy := policy; pm_sandboxes := ∅; pm_policies := ∅; pm_audit := None;
          pm_hasLogger := true; pm_log := []; pm_requestBodyLimitBytes := effectiveRequestBodyLimit opts;
          pm_responseBodyLimitBytes := effectiveResponseBodyLimit opts; pm_policyMode := policyMode |};
        ms_listenAddr := listenAddr; ms_mitmEnabled := po_MITM_Enabled opts; ms_reporting := po_Reporting opts;
        ms_dockerSocket := po_DockerSocket opts; ms_dockerSocketPolicy := Some dockerSocketPolicy;
        ms_caCertPEM := pem; ms_nextSandboxID := 0 |}.

Definition nextSandboxName (requested : string) (m : managerState) : string * managerState :=
  let trimmed := TrimSpace requested in
  if negb (bool_decide (trimmed = "")) then (trimmed, m) else
  let next := (ms_nextSandboxID m + 1) mod 2 ^ 64 in
  ("sandbox-" +:+ Itoa next,
   {| ms_manager := ms_manager m; ms_listenAddr := ms_listenAddr m; ms_mitmEnabled := ms_mitmEnabled m;
      ms_reporting := ms_reporting m; ms_dockerSocket := ms_dockerSocket m; ms_dockerSocketPolicy := ms_dockerSocketPolicy m;
      ms_caCertPEM := ms_caCertPEM m; ms_nextSandboxID := next |}).

Definition hasDockerSocketPolicyOverride (policy : DockerSocketPolicy) : bool :=
  negb (bool_decide (dp_DefaultAction policy = "")) || (0 <? length (dp_Rules policy))%nat.

Definition effectiveDockerSocketConfig (m : managerState) (opts : SandboxOptions)
    : result (DockerSocketOptions * compiledDockerSocketPolicy) :=
  let base := ms_dockerSocket m in
  let own := op_DockerSocket opts in
  let enabled := dk_Enabled base || dk_Enabled own in
  let own_mount := TrimSpace (dk_MountPath own) in
  let own_target := TrimSpace (dk_TargetSocketPath own) in
  let mountPath := if bool_decide (own_mount = "") then dk_MountPath base else own_mount in
  let targetPath := if bool_decide (own_target = "") then dk_TargetSocketPath base else own_target in
  let override := hasDockerSocketPolicyOverride (dk_Policy own) in
  let policy := if override then dk_Policy own else dk_Policy base in
  compiled <-! (if override then compileDockerSocketPolicy (dk_Policy own)
                else match ms_dockerSocketPolicy m with
                     | Some compiled => Ok compiled
                     | None => compileDockerSocketPolicy policy
                     end);
  let fill path fallback := if enabled && bool_decide (TrimSpace path = "") then fallback else path in
  Ok ({| dk_Enabled := enabled; dk_MountPath := fill mountPath defaultDockerSocketMountPath;
         dk_TargetSocketPath := fill targetPath defaultDockerSocketTargetPath; dk_Policy := policy |}, compiled).
End assembly.
