(* ===== verification/SandboxLife.v ===== *)
(** The life of a sandbox: [newLinuxSandboxRuntime] and [linuxSandboxRuntime.Close]
    of src/sandbox_linux.go, [NewSandbox], [run] and [Close] of src/sandbox.go.

    Resources are tracked by the events that acquire and release them; the
    operating system's answers are in [linuxEnv] and [bootEnv]. *)
From S2P Require Import Prelude GoStrings GoPath HostFS Policy Access Manager Docker Seccomp Staging Mounts Assembly.

(** ** Waiting for the helper *)

(** The error of [cmd.Wait]: an exit status, a death by a signal, or another error. *)
Inductive waitError := ExitStatus (code : Z) | Signaled (signal : Z) | Timeout | OtherError (text : string).
Definition SIGTERM_number : Z := 15.
Definition SIGKILL_number : Z := 9.

(** What [waitWithTimeout] selects, in order: the value of the channel [done], the
    timer, or a tick with the answer of [processExited]. *)
Inductive waitEvent := WDone (err : option waitError) | WTimer | WTick (exited : bool).

Fixpoint waitWithTimeout (events : list waitEvent) : option waitError :=
  match events with
  | [] => Some Timeout
  | WDone err :: _ => err
  | WTimer :: _ => Some Timeout
  | WTick exited :: events => if exited then None else waitWithTimeout events
  end.

(** [processExited] from /proc/<pid>/stat: its content, or whether it is missing;
    otherwise [kill0_esrch] is whether signal 0 finds no process. *)
Definition processExited (pid : Z) (stat : string + bool) (kill0_esrch : bool) : bool :=
  if pid <=? 0 then true else
  match stat with
  | inl text =>
      match LastIndexByte text ")" with
      | Some i =>
          if (i + 2 <? String.length text)%nat then bool_decide (String.get (i + 2) text = Some "Z"%char) else false
      | None => false
      end
  | inr missing => if missing then true else kill0_esrch
  end.

Definition normalizeHelperExit (err : option waitError) : option waitError :=
  match err with
  | Some (Signaled s) => if (s =? SIGTERM_number) || (s =? SIGKILL_number) then None else err
  | _ => err
  end.

(** The answers of the system while a runtime is closed. [ce_SIGTERM] and
    [ce_SIGKILL] are errors other than ErrProcessDone. *)
Record closeEnv := {
  ce_client : option string;
  ce_wait1 : list waitEvent;
  ce_wait2 : list waitEvent;
  ce_wait3 : list waitEvent;
  ce_SIGTERM : option string;
  ce_SIGKILL : option string;
}.
Definition join_error (err : option string) : list string := match err with Some e => [e] | None => [] end.
Definition wait_text (err : waitError) : string :=
  match err with
  | ExitStatus code => "exit status " +:+ Itoa code
  | Signaled s => "signal: " +:+ Itoa s
  | Timeout => "timeout waiting for sandbox helper exit"
  | OtherError text => text
  end.

(** The three waits: how the last one ended and the errors of the signals. *)
Definition wait_helper (env : closeEnv) : option waitError * list string :=
  let waitErr := waitWithTimeout (ce_wait1 env) in
  let '(waitErr, errs) :=
    match waitErr with
    | Some _ => (waitWithTimeout (ce_wait2 env), join_error ((fun e => "signal sandbox helper: " +:+ e) <$> ce_SIGTERM env))
    | None => (waitErr, [])
    end in
  match waitErr with
  | Some _ => (waitWithTimeout (ce_wait3 env), errs ++ join_error ((fun e => "kill sandbox helper: " +:+ e) <$> ce_SIGKILL env))
  | None => (waitErr, errs)
  end.
(** [suffix] is [helperErrorSuffix]. The result is the list of joined errors. *)
Definition linux_Close (suffix : string) (env : closeEnv) : list string :=
  let '(waitErr, errs) := wait_helper env in
  join_error ((fun e => "close sandbox bridge: " +:+ e) <$> ce_client env) ++ errs ++
  join_error ((fun e => "wait for sandbox helper: " +:+ wait_text e +:+ suffix) <$> normalizeHelperExit waitErr).

(** Whether a wait saw the helper end: its value on the channel, or its process
    gone. A wait that did not is followed by the next one. *)
Fixpoint saw_end (events : list waitEvent) : bool :=
  match events with
  | [] => false
  | WDone _ :: _ => true
  | WTimer :: _ => false
  | WTick exited :: events => if exited then true else saw_end events
  end.
Definition helper_gone (env : closeEnv) : bool := saw_end (ce_wait1 env) || saw_end (ce_wait2 env) || saw_end (ce_wait3 env).

Definition helperErrorSuffix (log : string) : string :=
  let stderr := TrimSpace log in if bool_decide (stderr = "") then "" else ": " +:+ stderr.

(** ** Resources *)

(** The ends of the bridge, the descriptor and the file of the helper's log, the
    helper, the staged root, the listener and the directory of the Docker proxy. *)
Inductive resource := RBridgeParent | RBridgeChild | RHelperLog | RLogFile | RProcess | RRoot | RDockerProxy | RDockerDir.
#[global] Instance resource_eq_dec : EqDecision resource.
Proof. solve_decision. Defined.
Inductive resEvent := Acquire (r : resource) | Release (r : resource).
(** The resources held after a sequence of events. *)
Definition hold (held : list resource) (e : resEvent) : list resource :=
  match e with Acquire r => r :: held | Release r => List.filter (fun x => negb (bool_decide (x = r))) held end.
Definition held (events : list resEvent) : list resource := foldl hold [] events.
(** A resource whose removal may fail is given back if it did not. *)
Definition release (r : resource) (err : option string) : list resEvent := match err with None => [Release r] | Some _ => [] end.

Section life.
Context `{GoLib} `{Net} `{HostFS} `{MapOrder} `{Libseccomp}.
Context (platform : string) (fuel : nat).

(** ** The Linux runtime *)

Record linuxEnv := {
  le_runtimeBinary : result string;
  le_bridgePair : result unit;
  le_helperLog : result string;
  le_files : fileOS;
  le_rewind : option string;
  le_read : list ScmpRule -> result string;
  le_cmdStart : option string;
  le_clientStart : result string;
  le_log : string;
  (** the error of removing the file of the log *)
  le_removeLog : option string;
  le_close : closeEnv;
}.
Record bootstrap := { bs_root : string; bs_proxyAddr : string }.

Definition closed_log (env : linuxEnv) : list resEvent := Release RHelperLog :: release RLogFile (le_removeLog env).
Definition linux_Close_events (env : linuxEnv) : list resEvent :=
  [Release RBridgeParent] ++ (if helper_gone (le_close env) then [Release RProcess] else []) ++ closed_log env.

Definition newLinuxSandboxRuntime (env : linuxEnv) (m : managerState) (opts : SandboxOptions) (mode : string)
    (dockerMount : option dockerSocketMount) (h : fsState) : result bootstrap * fsState * list resEvent :=
  match le_runtimeBinary env with
  | Err e => (Err e, h, [])
  | Ok runtimeBinary =>
  match Stage platform fuel {| sg_Binaries := op_Binaries opts; sg_DockerBuild := op_DockerBuild opts |}
          runtimeBinary (ms_caCertPEM m) h with
  | (Err e, h) => (Err e, h, [])
  | (Ok staged, h) =>
  let root := sg_Root staged in
  let removed h := (fm_do (OpRemoveAll root) h).2 in
  let released h := release RRoot (fs_error h (OpRemoveAll root)) in
  match le_bridgePair env with
  | Err e => (Err e, removed h, [Acquire RRoot] ++ released h)
  | Ok _ =>
  match le_helperLog env with
  | Err e =>
      (Err ("create helper log file: " +:+ e), removed h,
       [Acquire RRoot; Acquire RBridgeParent; Acquire RBridgeChild; Release RBridgeChild; Release RBridgeParent] ++ released h)
  | Ok _ =>
  let opened := [Acquire RRoot; Acquire RBridgeParent; Acquire RBridgeChild; Acquire RLogFile; Acquire RHelperLog] in
  let undo h := closed_log env ++ [Release RBridgeChild; Release RBridgeParent] ++ released h in
  match stagePayloadSeccompProgram root
          (compileSeccompProgram (le_files env) (le_rewind env) (le_read env)
             (effectiveSeccompOptions (do_Enabled (op_DockerBuild opts)) (op_Seccomp opts))).1 h with
  | (Err e, h) => (Err e, removed h, opened ++ undo h)
  | (Ok payloadSeccompBPFPath, h) =>
  match buildLinuxSandboxCommand platform {|
          bc_root := root; bc_proxyListenAddr := ms_listenAddr m; bc_mitm_Enabled := ms_mitmEnabled m;
          bc_mounts := op_Mounts opts; bc_dockerBuild := op_DockerBuild opts; bc_builder := sg_Builder staged;
          bc_mode := mode; bc_payloadSeccompPath := payloadSeccompBPFPath; bc_bridgeFD := 3; bc_seccompFD := -1;
          bc_dockerSocketMount := dockerMount;
          bc_maxRequestBody := pm_requestBodyLimitBytes (ms_manager m) |} h with
  | (Err e, h) => (Err e, removed h, opened ++ undo h)
  | (Ok _, h) =>
  match le_cmdStart env with
  | Some e => (Err ("start bwrap helper: " +:+ e), removed h, opened ++ undo h)
  | None =>
  let started := opened ++ [Acquire RProcess; Release RBridgeChild] in
  match le_clientStart env with
  | Err e =>
      (Err ("start sandbox helper: " +:+ e +:+ helperErrorSuffix (le_log env)), removed h,
       started ++ linux_Close_events env ++ released h)
  | Ok proxyAddr =>
      (Ok {| bs_root := root; bs_proxyAddr := if bool_decide (mode = TrafficModeProxy) then proxyAddr else "" |}, h, started)
  end end end end end end end end.

(** ** NewSandbox *)

Record sandbox := {
  sx_id : string;
  sx_root : string;
  sx_trafficMode : string;
  sx_policyMode : string;
  sx_reporting : ReportingOptions;
  sx_proxyAddr : string;
  sx_baseEnv : list string;
  sx_workDir : string;
  sx_docker : option (string * string);
  sx_registered : bool;
  sx_closed : option (list string);
}.
(** The manager's view of a sandbox. *)
Definition sandbox_view (s : sandbox) : Sandbox := {| sb_trafficMode := sx_trafficMode s; sb_policyMode := sx_policyMode s |}.

Record bootEnv := {
  be_socketDir : result string;
  be_listen : option string;
  be_darwin : result bootstrap * list resEvent;
  be_linux : linuxEnv;
  (** the errors of closing the Docker proxy, and of removing its directory *)
  be_closeProxy : list string;
  be_removeSocketDir : option string;
  be_removeRoot : option string;
}.

Definition newSandboxRuntime (env : bootEnv) (m : managerState) (opts : SandboxOptions) (mode : string)
    (dockerMount : option dockerSocketMount) (h : fsState) : result bootstrap * fsState * list resEvent :=
  if bool_decide (platform = "linux") then newLinuxSandboxRuntime (be_linux env) m opts mode dockerMount h
  else if bool_decide (platform = "darwin") then
    ((be_darwin env).1, h, (be_darwin env).2)
  else (Err ("bbox sandbox is not supported on " +:+ platform), h, []).

(** [startDockerSocketProxy]: the path of its socket. *)
Definition startDockerSocketProxy (env : bootEnv) (sandboxID : string) (opts : DockerSocketOptions) : result string * list resEvent :=
  if bool_decide (TrimSpace sandboxID = "") then (Err "sandbox ID is required", []) else
  if negb (dk_Enabled opts) then (Err "docker socket mediation is not enabled", []) else
  match be_socketDir env with
  | Err e => (Err ("create docker proxy temp dir: " +:+ e), [])
  | Ok socketDir =>
      match be_listen env with
      | Some e => (Err ("listen docker proxy socket: " +:+ e), Acquire RDockerDir :: release RDockerDir (be_removeSocketDir env))
      | None => (Ok (filepath_Join [socketDir; "docker.sock"]), [Acquire RDockerDir; Acquire RDockerProxy])
      end
  end.
Definition start_proxy (env : bootEnv) (sandboxID : string) (docker : DockerSocketOptions) : result (option string) * list resEvent :=
  if dk_Enabled docker
  then match startDockerSocketProxy env sandboxID docker with
       | (Ok path, events) => (Ok (Some path), events)
       | (Err e, events) => (Err e, events)
       end
  else (Ok None, []).
(** [dockerSocketProxy.Close] of a proxy with that socket. *)
Definition closed_proxy (env : bootEnv) : list resEvent := Release RDockerProxy :: release RDockerDir (be_removeSocketDir env).
Definition closed_proxy_errors (env : bootEnv) (path : string) : list string :=
  be_closeProxy env ++
  join_error ((fun e => "remove docker proxy dir " +:+ Quote (filepath_Dir path) +:+ ": " +:+ e) <$> be_removeSocketDir env).

Definition set_closed (errs : list string) (s : sandbox) : sandbox := {|
  sx_id := sx_id s; sx_root := sx_root s; sx_trafficMode := sx_trafficMode s; sx_policyMode := sx_policyMode s;
  sx_reporting := sx_reporting s; sx_proxyAddr := sx_proxyAddr s; sx_baseEnv := sx_baseEnv s; sx_workDir := sx_workDir s;
  sx_docker := None; sx_registered := false; sx_closed := Some errs |}.
Definition set_registered (s : sandbox) : sandbox := {|
  sx_id := sx_id s; sx_root := sx_root s; sx_trafficMode := sx_trafficMode s; sx_policyMode := sx_policyMode s;
  sx_reporting := sx_reporting s; sx_proxyAddr := sx_proxyAddr s; sx_baseEnv := sx_baseEnv s; sx_workDir := sx_workDir s;
  sx_docker := sx_docker s; sx_registered := true; sx_closed := sx_closed s |}.

(** [Close], for a sandbox with the Linux runtime: the body runs once; later calls
    return the same error. *)
Definition Sandbox_Close (env : bootEnv) (m : managerState) (s : sandbox)
    : list string * managerState * sandbox * list resEvent :=
  match sx_closed s with
  | Some errs => (errs, m, s, [])
  | None =>
      let errs := linux_Close (helperErrorSuffix (le_log (be_linux env))) (le_close (be_linux env)) ++
                  (match sx_docker s with Some (path, _) => closed_proxy_errors env path | None => [] end) ++
                  (if bool_decide (sx_root s = "") then [] else
                   join_error ((fun e => "remove staged root " +:+ Quote (sx_root s) +:+ ": " +:+ e) <$> be_removeRoot env)) in
      (errs,
       if sx_registered s then with_manager (unregisterSandbox (sx_id s)) m else m,
       set_closed errs s,
       linux_Close_events (be_linux env) ++
       (match sx_docker s with Some _ => closed_proxy env | None => [] end) ++
       (if bool_decide (sx_root s = "") then [] else release RRoot (be_removeRoot env)))
  end.

(** The manager, the file system and the resource events after a call. *)
Definition outcome (A : Type) : Type := result A * managerState * fsState * list resEvent.

Definition register_and_attach (env : bootEnv) (m : managerState) (policy : compiledPolicy) (s : sandbox)
    (h : fsState) (events : list resEvent) : outcome sandbox :=
  match registerSandbox (sx_id s) (Some policy) (ms_manager m) with
  | Err e => let '(_, m, _, closing) := Sandbox_Close env m s in (Err e, m, h, events ++ closing)
  | Ok pm =>
      let m := with_manager (fun _ => pm) m in
      let s := set_registered s in
      match attachSandbox (sx_id s) (sandbox_view s) (ms_manager m) with
      | Err e => let '(_, m, _, closing) := Sandbox_Close env m s in (Err e, m, h, events ++ closing)
      | Ok pm => (Ok s, with_manager (fun _ => pm) m, h, events)
      end
  end.

(** [None] is a panic of [runEnvForTrafficMode]. *)
Definition start_sandbox (env : bootEnv) (m : managerState) (opts : SandboxOptions) (policyMode : string)
    (policy : compiledPolicy) (docker : DockerSocketOptions) (sandboxID : string) (h : fsState) : option (outcome sandbox) :=
  let mode := normalizeTrafficMode (op_TrafficMode opts) in
  let reporting := if bool_decide (op_Reporting opts = no_reporting) then ms_reporting m else op_Reporting opts in
  match start_proxy env sandboxID docker with
  | (Err e, proxied) => Some (Err e, m, h, proxied)
  | (Ok proxy, proxied) =>
      let dockerMount := option_map (fun path => {| ds_HostPath := path; ds_SandboxPath := dk_MountPath docker |}) proxy in
      match newSandboxRuntime env m opts mode dockerMount h with
      | (Err e, h, events) =>
          Some (Err e, m, h, proxied ++ events ++ match proxy with Some _ => closed_proxy env | None => [] end)
      | (Ok setup, h, events) =>
          let proxyAddr := if bool_decide (mode = TrafficModeProxy) then bs_proxyAddr setup else "" in
          let baseEnv := if do_Enabled (op_DockerBuild opts) then withDockerBuildPATHEnvEntries (op_Env opts) else op_Env opts in
          match runEnvForTrafficMode mode proxyAddr baseEnv with
          | None => None
          | Some runEnv =>
              Some (register_and_attach env m policy {|
                sx_id := sandboxID; sx_root := bs_root setup; sx_trafficMode := mode; sx_policyMode := policyMode;
                sx_reporting := reporting; sx_proxyAddr := proxyAddr; sx_baseEnv := runEnv; sx_workDir := op_WorkDir opts;
                sx_docker := option_map (fun path => (path, dk_MountPath docker)) proxy; sx_registered := false; sx_closed := None |}
                h (proxied ++ events))
          end
      end
  end.

Definition NewSandbox (env : bootEnv) (m : managerState) (opts : SandboxOptions) (h : fsState) : option (outcome sandbox) :=
  match validateSandboxOptions platform h opts (ms_mitmEnabled m) with
  | Err e => Some (Err e, m, h, [])
  | Ok _ =>
  match normalizePolicyMode (if bool_decide (op_PolicyMode opts = "") then pm_policyMode (ms_manager m) else op_PolicyMode opts) with
  | Err e => Some (Err e, m, h, [])
  | Ok policyMode =>
  match compilePolicy (op_Policy opts) with
  | Err e => Some (Err e, m, h, [])
  | Ok policy =>
  match effectiveDockerSocketConfig m opts with
  | Err e => Some (Err e, m, h, [])
  | Ok (docker, _) =>
  match validateEffectiveDockerSocketOptions platform docker (op_Mounts opts) with
  | Err e => Some (Err e, m, h, [])
  | Ok _ =>
      let '(sandboxID, m) := nextSandboxName (op_Name opts) m in
      start_sandbox env m opts policyMode policy docker sandboxID h
  end end end end end.

(** ** Running a command *)

(** The environment and the directory [run] hands to the runtime. *)
Definition Sandbox_run (s : sandbox) (argv : list string) (env : list string) (workDir : string)
    : result (list string * string) :=
  if (length argv =? 0)%nat then Err "argv must not be empty" else
  Ok (mergeEnv [sx_baseEnv s; env], if bool_decide (workDir = "") then sx_workDir s else workDir).

Definition Sandbox_ProxyAddr (s : sandbox) (runtimeAddr : string) : string :=
  if negb (bool_decide (normalizeTrafficMode (sx_trafficMode s) = TrafficModeProxy)) then "" else
  if bool_decide (runtimeAddr = "") then sx_proxyAddr s else runtimeAddr.
Definition Sandbox_ProxyURL (s : sandbox) (runtimeAddr : string) : string :=
  let addr := Sandbox_ProxyAddr s runtimeAddr in if bool_decide (addr = "") then "" else proxyURL addr.

(** [ProxyManager.Close] closes the attached sandboxes and forgets the audit state. *)
Fixpoint close_all (env : bootEnv) (m : managerState) (sandboxes : list sandbox) : list string * managerState * list resEvent :=
  match sandboxes with
  | [] => ([], m, [])
  | s :: sandboxes =>
      let '(errs, m, _, events) := Sandbox_Close env m s in
      let '(errs', m, events') := close_all env m sandboxes in
      (errs ++ errs', m, events ++ events')
  end.
Definition ProxyManager_Close (env : bootEnv) (cleanup : option string) (m : managerState) (attached : list sandbox)
    : list string * managerState * list resEvent :=
  let '(errs, m, events) := close_all env m attached in
  (errs ++ join_error cleanup, with_manager (fun pm => set_audit None (pm_log pm) pm) m, events).
End life.
