(* ===== verification/MountTheorems.v ===== *)
(** Accepted mounts: what [validateMounts] decides, in terms of path elements, and
    that each accepted mount stays visible under everything bubblewrap mounts after
    it. *)
From S2P Require Import Prelude GoStrings GoPath StringLemmas PathLemmas HostFS Policy Access Manager Docker Seccomp Staging StagingTheorems Mounts Assembly.
From S2P Require Import Sample.

(** ** Overlap *)

(** Two absolute paths are disjoint if neither is above the other. *)
Definition disjoint (a b : string) : Prop :=
  ~ elements a `prefix_of` elements b /\ ~ elements b `prefix_of` elements a.

Lemma disjoint_sym a b : disjoint a b -> disjoint b a.
Proof. unfold disjoint. tauto. Qed.

Lemma of_elements_root l : Forall element l -> of_elements l = "/" <-> l = [].
Proof.
  intros F. split; [|by intros ->]. change "/" with (of_elements []). intros E.
  apply of_elements_inj in E; [done|done|constructor].
Qed.

Lemma targetsOverlap_iff a b :
  absolute a -> absolute b ->
  targetsOverlap a b = true <-> elements a `prefix_of` elements b \/ elements b `prefix_of` elements a.
Proof.
  intros A B. unfold targetsOverlap. rewrite !path_Clean_abs by done.
  pose proof (elements_ok a) as FA. pose proof (elements_ok b) as FB.
  set (l := elements a) in *. set (k := elements b) in *. clearbody l k.
  case_bool_decide as E.
  { apply of_elements_inj in E; [|done|done]. subst. split; [by left|done]. }
  assert (N : l <> k) by congruence.
  destruct (bool_decide (of_elements l = "/") || bool_decide (of_elements k = "/")) eqn:R.
  - apply orb_true_iff in R. rewrite !bool_decide_eq_true, !of_elements_root in R by done.
    split; [intros _|done]. destruct R as [-> | ->]; [left|right]; apply prefix_nil.
  - apply orb_false_iff in R. rewrite !bool_decide_eq_false, !of_elements_root in R by done. destruct R as [R1 R2].
    rewrite orb_true_iff, !of_elements_below by done. split.
    + intros [(r & _ & ->)|(r & _ & ->)]; [right|left]; by exists r.
    + intros [(r & ->)|(r & ->)]; [right|left]; exists r; (split; [|done]); intros ->; by rewrite app_nil_r in N.
Qed.

Lemma targetsOverlap_false a b : absolute a -> absolute b -> targetsOverlap a b = false <-> disjoint a b.
Proof.
  intros A B. rewrite <- not_true_iff_false, targetsOverlap_iff by done. unfold disjoint. tauto.
Qed.

Lemma overlap_Clean_l a b : absolute a -> targetsOverlap (path_Clean a) b = targetsOverlap a b.
Proof. intros A. unfold targetsOverlap. by rewrite path_Clean_idemp. Qed.
Lemma overlap_Clean_r a b : absolute b -> targetsOverlap a (path_Clean b) = targetsOverlap a b.
Proof. intros B. unfold targetsOverlap. by rewrite path_Clean_idemp. Qed.

Lemma reserved_absolute r : r ∈ reservedSandboxTargets -> absolute r.
Proof. unfold reservedSandboxTargets. rewrite !elem_of_cons, elem_of_nil. intros D. by destruct_or!; subst. Qed.

(** ** What is accepted *)

(** A mount may replace a reserved path only as a read-only bind of /usr or
    /etc/alternatives onto itself. *)
Definition identity_exception (m : Mount) (r : string) : Prop :=
  mt_Type m = MountTypeBind /\ mt_ReadOnly m = true /\ path_Clean (mt_Source m) = path_Clean (mt_Target m) /\
  ((r = "/usr" /\ path_Clean (mt_Target m) = "/usr") \/ (r = "/etc" /\ path_Clean (mt_Target m) = "/etc/alternatives")).
Definition respects_reserved (m : Mount) : Prop :=
  forall r, r ∈ reservedSandboxTargets -> disjoint (mt_Target m) r \/ identity_exception m r.

Lemma isAllowed_iff m r : isAllowedReservedBindTarget m (path_Clean (mt_Target m)) r = true <-> identity_exception m r.
Proof.
  unfold isAllowedReservedBindTarget, identity_exception.
  destruct (bool_decide (mt_Type m = MountTypeBind)) eqn:E1; to_prop; [|naive_solver].
  destruct (mt_ReadOnly m) eqn:E2; [|naive_solver].
  destruct (bool_decide (path_Clean (mt_Source m) = path_Clean (mt_Target m))) eqn:E3; to_prop; [|naive_solver]. simpl.
  case_bool_decide; subst; rewrite ?bool_decide_eq_true; [naive_solver|].
  case_bool_decide; subst; rewrite ?bool_decide_eq_true; naive_solver.
Qed.

Lemma reserved_conflict_iff m : absolute (mt_Target m) -> reserved_conflict m = None <-> respects_reserved m.
Proof.
  intros A. unfold reserved_conflict, respects_reserved. split.
  - intros F r R. pose proof (reserved_absolute r R) as AR.
    rewrite list_elem_of_In in R. pose proof (List.find_none _ _ F _ R) as X. cbv beta in X.
    apply andb_false_iff in X as [X|X].
    + right. apply isAllowed_iff. by apply negb_false_iff.
    + left. rewrite overlap_Clean_l in X by done. by apply targetsOverlap_false.
  - intros P. destruct (List.find _ _) as [r|] eqn:F; [|done]. apply List.find_some in F as [R X].
    apply list_elem_of_In in R. pose proof (reserved_absolute r R) as AR. apply andb_true_iff in X as [X1 X2].
    destruct (P r R) as [D|E].
    + rewrite overlap_Clean_l in X2 by done. by rewrite (proj2 (targetsOverlap_false _ _ A AR) D) in X2.
    + apply isAllowed_iff in E. by rewrite E in X1.
Qed.

Section accepted.
Context `{GoLib} `{HostFS} `{MapOrder}.

Lemma validate_mount_absolute h m : validate_mount h m = Ok tt -> absolute (mt_Target m).
Proof.
  unfold validate_mount. case_bool_decide; [done|]. intros V. apply result_bind_ok in V as (? & _ & V).
  case_bool_decide; [done|]. unfold absolute. by destruct (filepath_IsAbs _).
Qed.

(** The mounts seen so far, by their cleaned targets. *)
Definition seen_ok (seen : gmap string Mount) (before : list Mount) : Prop :=
  forall t, is_Some (seen !! t) <-> t ∈ map (fun m => path_Clean (mt_Target m)) before.

Lemma find_range_none (seen : gmap string Mount) target :
  List.find (fun e : string * Mount => targetsOverlap e.1 target) (map_range seen) = None <->
  forall t, is_Some (seen !! t) -> targetsOverlap t target = false.
Proof.
  split.
  - intros F t [m T]. apply (List.find_none _ _ F (t, m)). apply list_elem_of_In.
    rewrite map_range_perm. by apply elem_of_map_to_list.
  - intros P. destruct (List.find _ _) as [[t m]|] eqn:F; [|done]. apply List.find_some in F as [I X]. simpl in X.
    apply list_elem_of_In in I. rewrite map_range_perm in I. apply elem_of_map_to_list in I. rewrite P in X; [done|by eauto].
Qed.

Lemma validate_mounts_go_iff h before seen mounts :
  seen_ok seen before -> Forall (fun m => absolute (mt_Target m)) before ->
  validate_mounts_go h seen mounts = Ok tt <->
  Forall (fun m => validate_mount h m = Ok tt /\ respects_reserved m) mounts /\
  Forall (fun m => Forall (fun b => disjoint (mt_Target b) (mt_Target m)) before) mounts /\
  ForallOrdPairs (fun a b => disjoint (mt_Target a) (mt_Target b)) mounts.
Proof.
  revert before seen. induction mounts as [|m mounts IH]; intros before seen S FB; cbn [validate_mounts_go].
  { split; [|done]. intros _. by repeat constructor. }
  rewrite result_bind_ok. rewrite !Forall_cons. set (t := path_Clean (mt_Target m)).
  destruct (validate_mount h m) as [[]|e] eqn:V; [|naive_solver]. pose proof (validate_mount_absolute h m V) as A.
  assert (AT : absolute t) by (by apply path_Clean_absolute).
  assert (DB : Forall (fun b => disjoint (mt_Target b) (mt_Target m)) before <->
               forall x, is_Some (seen !! x) -> targetsOverlap x t = false).
  { rewrite Forall_forall. rewrite Forall_forall in FB. split.
    - intros D x X%S. apply list_elem_of_fmap in X as (b & -> & B). unfold t.
      rewrite overlap_Clean_l, overlap_Clean_r by (try done; by apply FB).
      apply targetsOverlap_false; [by apply FB|done|by apply D].
    - intros D b B. assert (X : targetsOverlap (path_Clean (mt_Target b)) t = false).
      { apply D, S, list_elem_of_fmap. by exists b. }
      unfold t in X. rewrite overlap_Clean_l, overlap_Clean_r in X by (try done; by apply FB).
      apply targetsOverlap_false in X; [done|by apply FB|done]. }
  destruct (reserved_conflict m) as [r|] eqn:R.
  { split; [by intros (? & _ & ?)|]. intros ((( _ & P) & _) & _). apply (reserved_conflict_iff m A) in P. congruence. }
  apply (reserved_conflict_iff m A) in R. cbv zeta.
  destruct (seen !! t) as [prev|] eqn:L.
  { split; [by intros (? & _ & ?)|]. intros (_ & (D & _) & _). apply DB with (x := t) in D; [|by eauto].
    apply targetsOverlap_false in D; [|done|done]. destruct D as [D _]. by destruct D. }
  destruct (List.find _ (map_range seen)) as [[x prev]|] eqn:F.
  { split; [by intros (? & _ & ?)|]. intros (_ & (D & _) & _). apply List.find_some in F as [I X]. simpl in X.
    apply list_elem_of_In in I. rewrite map_range_perm in I. apply elem_of_map_to_list in I.
    apply DB with (x := x) in D; [congruence|by eauto]. }
  assert (D : Forall (fun b => disjoint (mt_Target b) (mt_Target m)) before) by (apply DB; by apply find_range_none).
  transitivity (validate_mounts_go h (<[t := m]> seen) mounts = Ok tt); [naive_solver|].
  rewrite (IH (before ++ [m])).
  - assert (E : Forall (fun m0 => Forall (fun b => disjoint (mt_Target b) (mt_Target m0)) (before ++ [m])) mounts <->
               Forall (fun m0 => Forall (fun b => disjoint (mt_Target b) (mt_Target m0)) before) mounts /\
               Forall (fun m0 => disjoint (mt_Target m) (mt_Target m0)) mounts).
    { rewrite <- Forall_and. apply Forall_iff. intros m0. rewrite Forall_app, Forall_singleton. done. }
    rewrite E. split.
    + intros (P1 & (P2 & P3) & P4). repeat split; try done. by constructor.
    + intros ((_ & P1) & (_ & P2) & P4). inversion P4; subst. naive_solver.
  - intros x. rewrite lookup_insert_is_Some, map_app, elem_of_app, (S x). simpl.
    rewrite list_elem_of_singleton. fold t. destruct (decide (t = x)); naive_solver.
  - apply Forall_app. by repeat constructor.
Qed.
End accepted.

(** ** The bubblewrap command line, read back

    The options [buildBwrapArgs] uses, by the number of words they take, as
    bwrap(1) documents them; [None] is a usage error. *)
Inductive bwrapOp :=
| BBind (readonly : bool) (source dest : string)
| BTmpfs (dest : string)
| BProc (dest : string)
| BDev (dest : string)
| BOption (words : list string).
Definition op_dest (op : bwrapOp) : option string :=
  match op with BBind _ _ d | BTmpfs d | BProc d | BDev d => Some d | BOption _ => None end.

Definition flags0 : list string :=
  ["--unshare-user"; "--unshare-pid"; "--unshare-net"; "--die-with-parent"; "--new-session"; "--clearenv"].
Definition flags1 : list string := ["--seccomp"; "--cap-add"; "--chdir"].
Definition push (op : bwrapOp) (r : option (list bwrapOp * list string)) : option (list bwrapOp * list string) :=
  match r with Some (ops, command) => Some (op :: ops, command) | None => None end.

Fixpoint bwrap_parse (args : list string) : option (list bwrapOp * list string) :=
  match args with
  | [] => None
  | flag :: args =>
      if bool_decide (flag = "--") then Some ([], args)
      else if bool_decide (flag ∈ flags0) then push (BOption [flag]) (bwrap_parse args)
      else match args with
           | [] => None
           | w1 :: args =>
               if bool_decide (flag ∈ flags1) then push (BOption [flag; w1]) (bwrap_parse args)
               else if bool_decide (flag = "--tmpfs") then push (BTmpfs w1) (bwrap_parse args)
               else if bool_decide (flag = "--proc") then push (BProc w1) (bwrap_parse args)
               else if bool_decide (flag = "--dev") then push (BDev w1) (bwrap_parse args)
               else match args with
                    | [] => None
                    | w2 :: args =>
                        if bool_decide (flag = "--setenv") then push (BOption [flag; w1; w2]) (bwrap_parse args)
                        else if bool_decide (flag = "--bind") then push (BBind false w1 w2) (bwrap_parse args)
                        else if bool_decide (flag = "--ro-bind") then push (BBind true w1 w2) (bwrap_parse args)
                        else None
                    end
           end
  end.

(** [words] are the words of the operations [ops]. *)
Definition words_of (words : list string) (ops : list bwrapOp) : Prop :=
  forall rest, bwrap_parse (words ++ rest) =
    match bwrap_parse rest with Some (l, command) => Some (ops ++ l, command) | None => None end.

Lemma words_nil : words_of [] [].
Proof. intros rest. simpl. by destruct (bwrap_parse rest) as [[l c]|]. Qed.
Lemma words_app w1 o1 w2 o2 : words_of w1 o1 -> words_of w2 o2 -> words_of (w1 ++ w2) (o1 ++ o2).
Proof.
  intros H1 H2 rest. rewrite <- app_assoc, H1, H2. destruct (bwrap_parse rest) as [[l c]|]; [|done]. by rewrite app_assoc.
Qed.
Lemma words_flat {A} (f : A -> list string) (g : A -> list bwrapOp) l :
  (forall x, words_of (f x) (g x)) -> words_of (flat_map f l) (flat_map g l).
Proof. intros F. induction l as [|x l IH]; simpl; [apply words_nil|by apply words_app]. Qed.
Lemma words_bind ro source dest : words_of [if ro : bool then "--ro-bind" else "--bind"; source; dest] [BBind ro source dest].
Proof. intros rest. destruct ro; simpl; by destruct (bwrap_parse rest) as [[l c]|]. Qed.
Lemma words_option1 flag w : flag ∈ flags1 -> words_of [flag; w] [BOption [flag; w]].
Proof.
  unfold flags1. rewrite !elem_of_cons, elem_of_nil. intros D rest.
  destruct_or!; try done; subst; simpl; by destruct (bwrap_parse rest) as [[l c]|].
Qed.
Lemma words_tmpfs d : words_of ["--tmpfs"; d] [BTmpfs d].
Proof. intros rest. simpl. by destruct (bwrap_parse rest) as [[l c]|]. Qed.

Section command.
Context `{GoLib} `{HostFS} `{MapOrder}.

Definition setup_ops (cfg : bwrapArgsConfig) : list bwrapOp :=
  (if bw_unshareUser cfg then [BOption ["--unshare-user"]] else []) ++
  [BOption ["--unshare-pid"]; BOption ["--unshare-net"]; BOption ["--die-with-parent"]; BOption ["--new-session"];
   BOption ["--clearenv"]; BOption ["--setenv"; "PATH"; "/usr/bin"]] ++
  (if 0 <=? bw_seccompFD cfg then [BOption ["--seccomp"; Itoa (bw_seccompFD cfg)]] else []) ++
  (if bw_capSysAdmin cfg then [BOption ["--cap-add"; "CAP_SYS_ADMIN"]] else []).
Definition system_ops (h : fsState) (root : string) : list bwrapOp :=
  flat_map (fun dir =>
    match os_Stat h (filepath_Join [root; dir]) with
    | Ok info => if fi_IsDir info then [BBind true (filepath_Join [root; dir]) ("/" +:+ dir)] else []
    | Err _ => []
    end) system_dirs.
Definition mount_op (m : Mount) : list bwrapOp :=
  if negb (bool_decide (mt_Type m = MountTypeBind)) then [] else [BBind (mt_ReadOnly m) (mt_Source m) (path_Clean (mt_Target m))].
Definition late_ops (cfg : bwrapArgsConfig) : list bwrapOp :=
  match bw_dockerSocketMount cfg with
  | Some d => [BBind false (ds_HostPath d) (path_Clean (ds_SandboxPath d))]
  | None => []
  end ++
  flat_map (fun target => [BTmpfs (path_Clean target)]) (bw_tmpfsTargets cfg) ++
  [BProc "/proc"; BDev "/dev"; BTmpfs "/tmp"; BOption ["--chdir"; "/tmp"]].

(** Read back, the arguments are these operations, whatever the paths contain, and
    the helper's command line. *)
Lemma buildBwrapArgs_parse h cfg :
  bwrap_parse (buildBwrapArgs h cfg) =
    Some (setup_ops cfg ++ system_ops h (bw_root cfg) ++ flat_map mount_op (bw_mounts cfg) ++ late_ops cfg, helper_command cfg).
Proof.
  assert (W : forall words ops command, words_of words ops -> bwrap_parse (words ++ "--" :: command) = Some (ops, command)).
  { intros words ops command W. rewrite W. simpl. by rewrite app_nil_r. }
  unfold buildBwrapArgs.
  change (["--proc"; "/proc"; "--dev"; "/dev"; "--tmpfs"; "/tmp"; "--chdir"; "/tmp"; "--"] ++ helper_command cfg)
    with (["--proc"; "/proc"; "--dev"; "/dev"; "--tmpfs"; "/tmp"; "--chdir"; "/tmp"] ++ "--" :: helper_command cfg).
  rewrite !app_assoc. apply W. rewrite <- !app_assoc. unfold setup_ops, late_ops. rewrite <- !app_assoc.
  apply words_app.
  { destruct (bw_unshareUser cfg); [|apply words_nil]. intros rest. simpl. by destruct (bwrap_parse rest) as [[l c]|]. }
  apply words_app.
  { intros rest. simpl. by destruct (bwrap_parse rest) as [[l c]|]. }
  apply words_app.
  { destruct (0 <=? bw_seccompFD cfg); [|apply words_nil]. apply words_option1. unfold flags1. set_solver. }
  apply words_app.
  { destruct (bw_capSysAdmin cfg); [|apply words_nil]. apply words_option1. unfold flags1. set_solver. }
  apply words_app.
  { apply words_flat. intros dir. cbv zeta. destruct (os_Stat h _) as [info|]; [|apply words_nil].
    destruct (fi_IsDir info); [|apply words_nil]. apply (words_bind true). }
  apply words_app.
  { apply words_flat. intros m. unfold mount_args, mount_op. destruct (negb _); [apply words_nil|apply words_bind]. }
  apply words_app.
  { destruct (bw_dockerSocketMount cfg); [|apply words_nil]. apply (words_bind false). }
  apply words_app.
  { apply words_flat. intros t. apply words_tmpfs. }
  intros rest. simpl. by destruct (bwrap_parse rest) as [[l c]|].
Qed.

(** ** Prepared mounts *)

(** What a user's mount becomes at run time. *)
Definition runtime_mount (root : string) (idx : nat) (m : Mount) : Mount :=
  if bool_decide (mt_Type m = MountTypeBind) then m else
  {| mt_Type := MountTypeBind; mt_Source := filepath_Join [root; runtimeEmptyDirBase; Itoa (Z.of_nat idx)];
     mt_Target := mt_Target m; mt_ReadOnly := false; mt_Mode := 0 |}.

Lemma runtime_mount_target root idx m : mt_Target (runtime_mount root idx m) = mt_Target m.
Proof. unfold runtime_mount. by destruct (bool_decide (mt_Type m = MountTypeBind)). Qed.

Lemma prepare_mount_ok root idx m h m' h' :
  prepare_mount root idx m h = (Ok m', h') -> m' = runtime_mount root idx m /\ mt_Type m' = MountTypeBind.
Proof.
  unfold prepare_mount, runtime_mount. case_bool_decide as B.
  - intros P. apply fm_bind_ok in P as (? & h1 & _ & P). injection P as <- _. done.
  - case_bool_decide; [|done]. intros P. apply fm_bind_ok in P as (? & h1 & _ & P).
    apply fm_bind_ok in P as (? & h2 & _ & P). injection P as <- _. done.
Qed.

Lemma prepareRuntimeMounts_lookup root mounts h ms h' :
  prepareRuntimeMounts root mounts h = (Ok ms, h') ->
  length ms = length mounts /\
  forall i m', ms !! i = Some m' -> exists m, mounts !! i = Some m /\ m' = runtime_mount root i m /\ mt_Type m' = MountTypeBind.
Proof.
  intros P. apply fm_map_ok in P. split.
  - apply Forall2_length in P. rewrite length_zip, length_seq in P. lia.
  - intros i m' L. destruct (Forall2_lookup_r _ _ _ _ _ P L) as ([idx m] & Z & h1 & h2 & E).
    apply lookup_zip_Some in Z as [Z1 Z2]. apply lookup_seq in Z1 as [-> _].
    exists m. split; [done|]. by eapply prepare_mount_ok.
Qed.
End command.

Lemma ordpairs_lookup {A} (R : A -> A -> Prop) l i j a b :
  Symmetric R -> ForallOrdPairs R l -> l !! i = Some a -> l !! j = Some b -> i <> j -> R a b.
Proof.
  intros Sy F. revert i j. induction F as [|x l X F IH]; intros i j; [done|].
  rewrite Forall_forall in X. destruct i as [|i], j as [|j]; simpl; intros I J N; simplify_eq; try done.
  - apply X. by eapply list_elem_of_lookup_2.
  - symmetry. apply X. by eapply list_elem_of_lookup_2.
  - eapply IH; [done|done|lia].
Qed.
Lemma ordpairs_permutation {A} (R : A -> A -> Prop) l k :
  Symmetric R -> Permutation l k -> ForallOrdPairs R l -> ForallOrdPairs R k.
Proof.
  intros Sy P. induction P as [|x l k P IH|x y l|l k m P1 IH1 P2 IH2]; intros F; try done.
  - inversion F; subst. constructor; [by rewrite <- P|by apply IH].
  - inversion F as [|? ? X F']; subst. inversion F' as [|? ? Y F'']; subst. inversion X; subst.
    repeat constructor; try done.
  - auto.
Qed.
#[local] Instance disjoint_symmetric : Symmetric (fun a b => disjoint (mt_Target a) (mt_Target b)).
Proof. intros a b. apply disjoint_sym. Qed.

Section theorems.
Context `{GoLib} `{HostFS} `{MapOrder}.

Lemma validateMounts_iff h mounts :
  validateMounts h mounts = Ok tt <->
  Forall (fun m => validate_mount h m = Ok tt /\ respects_reserved m) mounts /\
  ForallOrdPairs (fun a b => disjoint (mt_Target a) (mt_Target b)) mounts.
Proof.
  unfold validateMounts. rewrite (validate_mounts_go_iff h []).
  - split; [naive_solver|]. intros [F1 F2]. split; [done|]. split; [|done]. apply Forall_true. constructor.
  - intros t. rewrite lookup_empty. simpl. rewrite elem_of_nil. split; [by intros []|done].
  - constructor.
Qed.

(** C25. Mount validation decides this property of the paths, and nothing else:
    each mount has a legal shape, its target is neither above nor below a path the
    sandbox needs (but for a read-only bind of /usr or /etc/alternatives onto
    itself), and no target is above or below another's. In particular the answer
    does not depend on the order of the mounts nor on the order in which Go
    iterates over the map of targets. *)
Theorem mounts_accepted_exactly h mounts :
  (validateMounts h mounts = Ok tt <->
   Forall (fun m => validate_mount h m = Ok tt /\ respects_reserved m) mounts /\
   ForallOrdPairs (fun a b => disjoint (mt_Target a) (mt_Target b)) mounts) /\
  (forall mounts', Permutation mounts mounts' -> is_ok (validateMounts h mounts) = is_ok (validateMounts h mounts')).
Proof.
  split; [apply validateMounts_iff|].
  assert (D : forall l k, Permutation l k -> validateMounts h l = Ok tt -> validateMounts h k = Ok tt).
  { intros l k P V. apply validateMounts_iff in V as [F1 F2]. apply validateMounts_iff. split; [by rewrite <- P|].
    by eapply ordpairs_permutation; [apply _| |exact F2]. }
  intros mounts' P. destruct (validateMounts h mounts) as [[]|e] eqn:V1, (validateMounts h mounts') as [[]|e'] eqn:V2; try done.
  - apply (D _ _ P) in V1. congruence.
  - apply (D _ _ (Permutation_sym P)) in V2. congruence.
Qed.

(** Accepted mounts are disjoint from a target no accepted mount overlaps. *)
Lemma not_mounted_disjoint h mounts target :
  validateMounts h mounts = Ok tt -> absolute target ->
  existsb (fun m => targetsOverlap (mt_Target m) target) mounts = false ->
  forall m, m ∈ mounts -> disjoint (mt_Target m) target.
Proof.
  intros V A E m M. apply validateMounts_iff in V as [F _]. rewrite Forall_forall in F. destruct (F m M) as [V _].
  apply targetsOverlap_false; [by eapply validate_mount_absolute|done|].
  destruct (targetsOverlap (mt_Target m) target) eqn:O; [|done]. exfalso.
  enough (existsb (fun m => targetsOverlap (mt_Target m) target) mounts = true) by congruence.
  apply List.existsb_exists. exists m. by rewrite <- list_elem_of_In.
Qed.

Lemma appendBuilderMounts_lookup h0 h mounts :
  validateMounts h0 mounts = Ok tt ->
  forall i j m m', appendBuilderMounts h mounts !! j = Some m' -> mounts !! i = Some m ->
  appendBuilderMounts h mounts !! i = Some m /\ (j <> i -> disjoint (mt_Target m) (mt_Target m')).
Proof.
  intros V i j m m' J I.
  assert (P : forall k n, mounts !! k = Some n -> k <> i -> disjoint (mt_Target m) (mt_Target n)).
  { intros k n K N. pose proof V as [_ F]%validateMounts_iff.
    by eapply (ordpairs_lookup (fun a b => disjoint (mt_Target a) (mt_Target b))); [apply _|exact F|exact I|exact K|]. }
  unfold appendBuilderMounts, appendBuilderMountIfAbsent in *.
  destruct (os_Stat h defaultBuilderCgroupPath) as [info|]; [|naive_solver].
  destruct (fi_IsDir info); [|naive_solver]. cbn [mt_Target] in *.
  destruct (existsb _ mounts) eqn:E; [naive_solver|]. split; [by apply lookup_app_l_Some|]. intros N.
  apply lookup_app_Some in J as [J|[L J]]; [by eapply P|].
  apply list_lookup_singleton_Some in J as [_ <-]. cbn.
  apply (not_mounted_disjoint h0 mounts _ V (eq_refl : absolute defaultBuilderCgroupPath) E). by eapply list_elem_of_lookup_2.
Qed.

(** The reserved paths that are mounted last. *)
Lemma respects_late m r : respects_reserved m -> r ∈ ["/proc"; "/dev"; "/tmp"] -> disjoint (mt_Target m) r.
Proof.
  intros R I. destruct (R r) as [D|(_ & _ & _ & [[-> _]|[-> _]])]; [|done| |].
  - unfold reservedSandboxTargets. set_solver.
  - exfalso. set_solver.
  - exfalso. set_solver.
Qed.
End theorems.

Section visibility.
Context `{GoLib} `{HostFS} `{MapOrder} (platform : string).

(** The operations after the user's mounts, given the checks of the options. *)
Lemma late_disjoint h0 docker cfg m op d :
  validateMounts h0 (bc_mounts cfg) = Ok tt ->
  validateEffectiveDockerSocketOptions platform docker (bc_mounts cfg) = Ok tt ->
  TrimSpace (dk_MountPath docker) = dk_MountPath docker ->
  (forall dm, bc_dockerSocketMount cfg = Some dm -> dk_Enabled docker = true /\ ds_SandboxPath dm = dk_MountPath docker) ->
  m ∈ bc_mounts cfg ->
  op ∈ (match bc_dockerSocketMount cfg with
        | Some d => [BBind false (ds_HostPath d) (path_Clean (ds_SandboxPath d))]
        | None => []
        end ++
        flat_map (fun target => [BTmpfs (path_Clean target)]) (defaultBuilderTmpfsTargets (bc_mounts cfg)) ++
        [BProc "/proc"; BDev "/dev"; BTmpfs "/tmp"; BOption ["--chdir"; "/tmp"]]) ->
  op_dest op = Some d -> disjoint (mt_Target m) d.
Proof.
  intros V D T B M O E. pose proof V as [F _]%validateMounts_iff. rewrite Forall_forall in F.
  destruct (F m M) as [VM RM]. pose proof (validate_mount_absolute _ _ VM) as A.
  rewrite !elem_of_app in O. destruct O as [O|[O|O]].
  - destruct (bc_dockerSocketMount cfg) as [dm|] eqn:DM; [|by apply elem_of_nil in O].
    apply list_elem_of_singleton in O. subst op. injection E as <-. destruct (B dm eq_refl) as [En ->].
    unfold validateEffectiveDockerSocketOptions in D. rewrite En, T in D. cbn [negb] in D.
    destruct (bool_decide (platform = "darwin")); [done|].
    destruct (bool_decide (path_Clean (dk_MountPath docker) = "") || not_absolute (path_Clean (dk_MountPath docker))) eqn:NA; [done|].
    cbv zeta in D. destruct (_ || _) in D; [done|]. destruct (List.find _ _) as [x|] eqn:X in D; [done|].
    apply orb_false_iff in NA as [_ NA]. unfold not_absolute in NA. apply negb_false_iff in NA.
    apply targetsOverlap_false; [done|exact NA|].
    rewrite <- (overlap_Clean_l _ _ A). apply (List.find_none _ _ X). by apply list_elem_of_In.
  - apply list_elem_of_In, List.in_flat_map in O as (t & I & O). apply List.filter_In in I as [I1 I2].
    destruct O as [<-|[]]. injection E as <-. apply negb_true_iff in I2.
    assert (AT : absolute t) by (destruct I1 as [<-|[<-|[]]]; reflexivity).
    pose proof (not_mounted_disjoint h0 (bc_mounts cfg) t V AT I2 m M) as X. unfold disjoint in *.
    by rewrite elements_Clean.
  - rewrite !elem_of_cons, elem_of_nil in O. destruct_or!; subst op; simplify_eq/=; try done;
      (apply respects_late; [done|set_solver]).
Qed.

(** Every accepted mount is visible in the sandbox: in the bubblewrap command
    line that [buildLinuxSandboxCommand] makes, read back option by option, the
    network is unshared, and each of the user's mounts has its own bind (with its
    source and its read-only flag, or a fresh writable directory) at its target;
    whatever is mounted before or after it among the user's and the builder's
    mounts, and the Docker socket, the tmpfs, /proc, /dev and /tmp mounts that come
    later, are disjoint from it, so none hides it. *)
Theorem mounts_stay_visible h0 h h' docker cfg prog args :
  validateMounts h0 (bc_mounts cfg) = Ok tt ->
  validateEffectiveDockerSocketOptions platform docker (bc_mounts cfg) = Ok tt ->
  TrimSpace (dk_MountPath docker) = dk_MountPath docker ->
  (forall dm, bc_dockerSocketMount cfg = Some dm -> dk_Enabled docker = true /\ ds_SandboxPath dm = dk_MountPath docker) ->
  buildLinuxSandboxCommand platform cfg h = (Ok (prog, args), h') ->
  exists wrapper bargs early mounts late command,
    args = wrapper ++ bargs /\ bwrap_parse bargs = Some (early ++ flat_map mount_op mounts ++ late, command) /\
    BOption ["--unshare-net"] ∈ early /\ head command = Some DefaultSandboxBBoxPath /\
    forall i m, bc_mounts cfg !! i = Some m ->
      mounts !! i = Some (runtime_mount (bc_root cfg) i m) /\
      (forall j m', mounts !! j = Some m' -> j <> i -> disjoint (mt_Target m) (mt_Target m')) /\
      (forall op d, op ∈ late -> op_dest op = Some d -> disjoint (mt_Target m) d).
Proof.
  intros V D T B C. unfold buildLinuxSandboxCommand in C.
  apply fm_bind_ok in C as (tooling & h1 & _ & C). cbv zeta in C.
  apply fm_bind_ok in C as (mounts & h2 & M & C). unfold fm_ask in M. injection M as M _.
  apply fm_bind_ok in C as (ms & h3 & P & C). apply fm_wrap_ok, prepareRuntimeMounts_lookup in P as [PL P].
  apply fm_bind_ok in C as (bargs & h4 & X & C). unfold fm_ask in X. injection X as X _.
  injection C as C _. eexists (match tooling with Some t => ["--cgroup-manager=cgroupfs"; "unshare"; "bwrap"] | None => [] end), bargs, _, ms, _, _.
  split; [by destruct tooling; injection C as _ <-|].
  split; [rewrite <- X, buildBwrapArgs_parse, app_assoc; reflexivity|].
  split; [unfold setup_ops; rewrite !elem_of_app, !elem_of_cons; tauto|]. split; [reflexivity|].
  assert (K : forall i j m m', mounts !! j = Some m' -> bc_mounts cfg !! i = Some m ->
            mounts !! i = Some m /\ (j <> i -> disjoint (mt_Target m) (mt_Target m'))).
  { subst mounts. destruct tooling; [by eapply appendBuilderMounts_lookup|]. intros i j m m' J I. split; [done|]. intros N.
    pose proof V as [_ F]%validateMounts_iff.
    by eapply (ordpairs_lookup (fun a b => disjoint (mt_Target a) (mt_Target b))); [apply _|exact F|exact I|exact J|]. }
  assert (SZ : forall i m, bc_mounts cfg !! i = Some m -> is_Some (mounts !! i)).
  { intros i m I. subst mounts. destruct tooling; [|by eauto]. unfold appendBuilderMounts, appendBuilderMountIfAbsent.
    repeat case_match; eauto using lookup_app_l_Some. }
  intros i m I. destruct (SZ i m I) as [n Ni]. destruct (K i i m n Ni I) as [Mi _]. rewrite Mi in Ni. injection Ni as <-.
  split.
  - assert (Li : (i < length ms)%nat) by (rewrite PL; by eapply lookup_lt_Some).
    apply lookup_lt_is_Some in Li as [m' Li]. destruct (P i m' Li) as (m2 & E1 & -> & _). congruence.
  - split.
    + intros j m' J N. destruct (P j m' J) as (n & E & -> & _). rewrite runtime_mount_target. by eapply K.
    + intros op d O E. eapply late_disjoint; [exact V|exact D|exact T|exact B|by eapply list_elem_of_lookup_2| |exact E].
      unfold late_ops in O. cbn [bw_dockerSocketMount bw_tmpfsTargets] in O. destruct tooling; [exact O|].
      rewrite !elem_of_app in *. destruct O as [O|[O|O]]; [by left| |by right; right]. simpl in O. by apply elem_of_nil in O.
Qed.

(** The Docker socket is an exception: its mount path is checked to be absolute
    and disjoint from the user's mounts only. A path below /tmp, /proc or /dev is
    accepted, bound, and then covered by the mount of that directory, which comes
    later. *)
Theorem docker_socket_hidden h cfg docker dm :
  dk_Enabled docker = true -> platform <> "darwin" ->
  bw_dockerSocketMount cfg = Some dm -> ds_SandboxPath dm = dk_MountPath docker ->
  TrimSpace (dk_MountPath docker) = dk_MountPath docker ->
  absolute (dk_MountPath docker) -> absolute (TrimSpace (dk_TargetSocketPath docker)) ->
  Exists (fun r => elements r `prefix_of` elements (dk_MountPath docker)) ["/proc"; "/dev"; "/tmp"] ->
  validateEffectiveDockerSocketOptions platform docker [] = Ok tt /\
  exists before after command d,
    bwrap_parse (buildBwrapArgs h cfg) =
      Some (before ++ BBind false (ds_HostPath dm) (path_Clean (dk_MountPath docker)) :: after, command) /\
    (exists op, op ∈ after /\ op_dest op = Some d) /\
    elements d `prefix_of` elements (path_Clean (dk_MountPath docker)).
Proof.
  intros En PL DM SP T A AT X. split.
  - unfold validateEffectiveDockerSocketOptions. rewrite En, T, (bool_decide_eq_false_2 _ PL). simpl.
    unfold not_absolute. pose proof (path_Clean_absolute _ A) as A1. pose proof (path_Clean_absolute _ AT) as A2.
    unfold absolute in A1, A2. rewrite A1, A2.
    rewrite !bool_decide_eq_false_2; [done| |]; intros E; by rewrite E in *.
  - apply Exists_exists in X as (r & R & P).
    exists (setup_ops cfg ++ system_ops h (bw_root cfg) ++ flat_map mount_op (bw_mounts cfg)). eexists _, _, r. split.
    + rewrite buildBwrapArgs_parse. unfold late_ops. rewrite DM, SP. rewrite <- !app_assoc. reflexivity.
    + rewrite elements_Clean by done. split; [|done]. rewrite !elem_of_cons, elem_of_nil in R.
      destruct_or!; subst r; try done; [exists (BProc "/proc")|exists (BDev "/dev")|exists (BTmpfs "/tmp")];
        (split; [set_solver|done]).
Qed.
End visibility.

#[local] Existing Instance sampleLib.
Import SampleHost.

(** A bind and an empty directory, with the Docker socket. *)
Module SampleMounts.
Definition work : Mount := {| mt_Type := "bind"; mt_Source := "/bin/tool"; mt_Target := "/work/tool"; mt_ReadOnly := true; mt_Mode := 0 |}.
Definition cache : Mount := {| mt_Type := "empty_dir"; mt_Source := ""; mt_Target := "/cache/"; mt_ReadOnly := false; mt_Mode := 0 |}.
Definition docker (path : string) : DockerSocketOptions := {|
  dk_Enabled := true; dk_MountPath := path; dk_TargetSocketPath := "/var/run/docker.sock";
  dk_Policy := {| dp_DefaultAction := ""; dp_Rules := [] |} |}.
Definition socket (path : string) : dockerSocketMount := {| ds_HostPath := "/tmp/d/docker.sock"; ds_SandboxPath := path |}.
Definition cfg : bwrapCommandConfig := {|
  bc_root := "/tmp/root"; bc_proxyListenAddr := "127.0.0.1:0"; bc_mitm_Enabled := true; bc_mounts := [work; cache];
  bc_dockerBuild := sg_DockerBuild options; bc_builder := None; bc_mode := ""; bc_payloadSeccompPath := "";
  bc_bridgeFD := 3; bc_seccompFD := -1; bc_dockerSocketMount := Some (socket "/run/docker.sock"); bc_maxRequestBody := 0 |}.
Definition args : list string := match (buildLinuxSandboxCommand "linux" cfg []).1 with Ok (_, args) => args | Err _ => [] end.
Definition after : fsState := (buildLinuxSandboxCommand "linux" cfg []).2.
Lemma command : buildLinuxSandboxCommand "linux" cfg [] = (Ok ("bwrap", args), after).
Proof. vm_compute. reflexivity. Qed.
Lemma accepted : validateMounts [] (bc_mounts cfg) = Ok tt.
Proof. vm_compute. reflexivity. Qed.
Definition bargs (path : string) : bwrapArgsConfig := {|
  bw_root := "/tmp/root"; bw_helperPath := DefaultSandboxBBoxPath; bw_proxyListenAddr := ""; bw_mitm_Enabled := false;
  bw_unshareUser := true; bw_capSysAdmin := false; bw_maxRequestBodyBytes := 0; bw_mounts := []; bw_tmpfsTargets := [];
  bw_dockerSocketMount := Some (socket path); bw_trafficMode := ""; bw_payloadSeccompBPFPath := ""; bw_bridgeFD := 3;
  bw_seccompFD := -1 |}.
End SampleMounts.
Import SampleMounts.

Lemma mounts_stay_visible_witness :
  exists (mounts : list Mount) (late : list bwrapOp), mounts !! 1%nat = Some (runtime_mount "/tmp/root" 1 cache) /\
    (forall op d, op ∈ late -> op_dest op = Some d -> disjoint "/cache/" d) /\ disjoint "/cache/" "/work/tool".
Proof.
  destruct (mounts_stay_visible "linux" [] [] after (docker "/run/docker.sock") cfg "bwrap" args accepted) as
    (wrapper & ba & early & mounts & late & cmd & _ & _ & _ & _ & K).
  - vm_compute. reflexivity.
  - vm_compute. reflexivity.
  - intros dm [= <-]. split; reflexivity.
  - exact command.
  - destruct (K 1%nat cache eq_refl) as (M & _ & L). exists mounts, late. split; [exact M|]. split; [exact L|].
    destruct (K 0%nat work eq_refl) as (M0 & _ & _). destruct (K 1%nat cache eq_refl) as (_ & J & _).
    apply (J 0%nat _ M0). done.
Defined.

Lemma docker_socket_hidden_witness :
  validateEffectiveDockerSocketOptions "linux" (docker "/tmp/docker.sock") [] = Ok tt /\
  exists before after command,
    bwrap_parse (buildBwrapArgs [] (bargs "/tmp/docker.sock")) =
      Some (before ++ BBind false "/tmp/d/docker.sock" "/tmp/docker.sock" :: after, command) /\
    exists op d, op ∈ after /\ op_dest op = Some d /\ elements d `prefix_of` elements "/tmp/docker.sock".
Proof.
  destruct (docker_socket_hidden "linux" [] (bargs "/tmp/docker.sock") (docker "/tmp/docker.sock") (socket "/tmp/docker.sock"))
    as (V & before & aft & cmd & d & P & (op & O1 & O2) & E); try reflexivity; try done.
  - apply Exists_exists. exists "/tmp". split; [set_solver|]. exists ["docker.sock"]. reflexivity.
  - split; [exact V|]. exists before, aft, cmd. split; [exact P|]. exists op, d. split; [exact O1|]. split; [exact O2|exact E].
Defined.
