(* ===== verification/SandboxTheorems.v ===== *)
(** What the assembly of a sandbox guarantees: the environment of its commands, the
    resources it holds, and where it departs from its documentation. *)
From S2P Require Import Prelude GoStrings GoPath StringLemmas HostFS Policy PolicySpec Access Manager Docker Seccomp Staging StagingTheorems Mounts Assembly SandboxLife.
From S2P Require Import Sample SeccompTheorems SampleNet.

(** ** Merging environments *)

(** The entry a key has in a list: the last one. *)
Definition entry_for (env : list string) (key : string) : option string :=
  last (List.filter (fun e => negb (bool_decide (e = "")) && bool_decide (env_key e = key)) env).

Lemma entry_for_snoc env e key :
  entry_for (env ++ [e]) key =
    if negb (bool_decide (e = "")) && bool_decide (env_key e = key) then Some e else entry_for env key.
Proof.
  unfold entry_for. rewrite List.filter_app. simpl. destruct (_ && _); [by rewrite last_snoc|by rewrite app_nil_r].
Qed.

(** The list and the index of [mergeEnv] after the entries [env]. *)
Record merged_ok (env merged : list string) (index : gmap string nat) : Prop := {
  mo_index : forall k i, index !! k = Some i <-> exists e, merged !! i = Some e /\ env_key e = k;
  mo_nonempty : Forall (fun e => e <> "") merged;
  mo_entry : forall k, entry_for env k = index !! k ≫= fun i => merged !! i;
  mo_from : forall e, e ∈ merged -> e ∈ env;
}.

Lemma merged_ok_step env merged index e :
  merged_ok env merged index ->
  merged_ok (env ++ [e]) (merge_entry (merged, index) e).1 (merge_entry (merged, index) e).2.
Proof.
  intros [I N E F]. unfold merge_entry. case_bool_decide as Z.
  { subst. split; [done|done| |set_solver]. intros k. rewrite entry_for_snoc. simpl. apply E. }
  destruct (index !! env_key e) as [i|] eqn:L; cbn [fst snd].
  - pose proof L as (e0 & L0 & K0)%I. assert (Li : (i < length merged)%nat) by (by eapply lookup_lt_Some). split.
    + intros k j. rewrite I. destruct (decide (i = j)) as [<-|D].
      * rewrite list_lookup_insert_eq by done. naive_solver.
      * by rewrite list_lookup_insert_ne.
    + by apply Forall_insert.
    + intros k. rewrite entry_for_snoc, (bool_decide_eq_false_2 _ Z). simpl. case_bool_decide as K.
      * subst k. rewrite L. simpl. by rewrite list_lookup_insert_eq.
      * rewrite E. destruct (index !! k) as [j|] eqn:J; [|done]. simpl. rewrite list_lookup_insert_ne; [done|].
        intros ->. apply I in J as (? & ? & ?). congruence.
    + intros x X. apply elem_of_app. apply list_elem_of_lookup in X as [j X].
      destruct (decide (i = j)) as [<-|D].
      * rewrite list_lookup_insert_eq in X by done. set_solver.
      * rewrite list_lookup_insert_ne in X by done. left. apply F. by eapply list_elem_of_lookup_2.
  - split.
    + intros k j. destruct (decide (env_key e = k)) as [<-|D].
      * rewrite lookup_insert_eq. split.
        -- intros [= <-]. exists e. by rewrite list_lookup_middle.
        -- intros (x & X & K). apply lookup_app_Some in X as [X|[Lx X]].
           ++ assert (index !! env_key e = Some j) by (apply I; eauto). congruence.
           ++ apply list_lookup_singleton_Some in X as [Xj <-]. f_equal. lia.
      * rewrite lookup_insert_ne by done. rewrite I. split; intros (x & X & K); exists x; (split; [|done]).
        -- by apply lookup_app_l_Some.
        -- apply lookup_app_Some in X as [X|[Lx X]]; [done|]. apply list_lookup_singleton_Some in X as [_ <-]. done.
    + apply Forall_app. by repeat constructor.
    + intros k. rewrite entry_for_snoc, (bool_decide_eq_false_2 _ Z). simpl. case_bool_decide as K.
      * subst k. rewrite lookup_insert_eq. simpl. by rewrite list_lookup_middle.
      * rewrite lookup_insert_ne by done. rewrite E. destruct (index !! k) as [j|] eqn:J; [|done]. simpl.
        apply I in J as (x & X & _). rewrite X. symmetry. by apply lookup_app_l_Some.
    + intros x. rewrite !elem_of_app. intros [X|X]; [left; by apply F|by right].
Qed.

Lemma merged_ok_foldl env :
  merged_ok env (foldl merge_entry ([], ∅) env).1 (foldl merge_entry ([], ∅) env).2.
Proof.
  induction env as [|e env IH] using rev_ind.
  - split; [|constructor|done|done]. intros k i. cbn [foldl fst snd]. rewrite lookup_empty. split; [done|by intros (? & ? & ?)].
  - rewrite foldl_app. cbn [foldl]. destruct (foldl merge_entry ([], ∅) env) as [merged index]. by apply merged_ok_step.
Qed.

(** Each key occurs once in a merged environment, with the last entry it had. *)
Lemma mergeEnv_NoDup groups : NoDup (map env_key (mergeEnv groups)).
Proof.
  destruct (merged_ok_foldl (concat groups)) as [I _ _ _]. unfold mergeEnv.
  set (m := (foldl merge_entry ([], ∅) (concat groups)).1) in *. apply NoDup_alt. intros i j k A B.
  rewrite list_lookup_fmap in A, B. apply fmap_Some in A as (x & A & ->). apply fmap_Some in B as (y & B & E).
  assert (P : (foldl merge_entry ([], ∅) (concat groups)).2 !! env_key x = Some i) by (apply I; eauto).
  assert (Q : (foldl merge_entry ([], ∅) (concat groups)).2 !! env_key x = Some j) by (apply I; eauto). congruence.
Qed.

Lemma last_value_snoc env e key :
  last_value (env ++ [e]) key =
    match splitEnv e with
    | Some (k, v) => if bool_decide (k = key) then Some v else last_value env key
    | None => last_value env key
    end.
Proof.
  induction env as [|x env IH]; simpl.
  - destruct (splitEnv e) as [[k v]|]; [|done]. by case_bool_decide.
  - rewrite IH. destruct (splitEnv e) as [[k v]|]; [|done]. by case_bool_decide.
Qed.

Definition assignment (e : string) : Prop := is_Some (splitEnv e).

(** Among assignments, the last entry of a key has its last value. *)
Lemma last_value_entry env key :
  Forall assignment env -> last_value env key = entry_for env key ≫= fun e => snd <$> splitEnv e.
Proof.
  induction env as [|e env IH] using rev_ind; intros F; [done|]. apply Forall_app in F as [F G]. inversion G as [|? ? [[k v] S] _]; subst.
  rewrite last_value_snoc, entry_for_snoc, S, IH by done.
  rewrite (bool_decide_eq_false_2 (e = "")) by (by intros ->).
  assert (K : env_key e = k) by (unfold env_key; by rewrite S). rewrite K. simpl.
  case_bool_decide; [simpl; by rewrite S|done].
Qed.

Lemma entry_for_unique env e :
  NoDup (map env_key env) -> e ∈ env -> e <> "" -> entry_for env (env_key e) = Some e.
Proof.
  induction env as [|x env IH] using rev_ind; [set_solver|]. rewrite map_app. intros ND I N.
  apply NoDup_app in ND as (ND & D & _). rewrite entry_for_snoc. apply elem_of_app in I as [I|I].
  - rewrite (bool_decide_eq_false_2 (env_key x = env_key e)); [rewrite andb_false_r; by apply IH|].
    intros E. apply (D (env_key e)); [apply list_elem_of_fmap; by exists e|]. simpl. rewrite E. set_solver.
  - apply list_elem_of_singleton in I. subst x. by rewrite bool_decide_eq_false_2, bool_decide_eq_true_2.
Qed.

Lemma mergeEnv_entry groups key : entry_for (mergeEnv groups) key = entry_for (concat groups) key.
Proof.
  pose proof (mergeEnv_NoDup groups) as ND. destruct (merged_ok_foldl (concat groups)) as [I N E F]. rewrite E.
  fold (mergeEnv groups) in *. destruct (_ !! key) as [i|] eqn:L; simpl.
  - apply I in L as (e & L & <-). rewrite L. rewrite Forall_forall in N. assert (M : e ∈ mergeEnv groups) by (by eapply list_elem_of_lookup_2).
    apply entry_for_unique; [done|done|by apply N].
  - destruct (entry_for (mergeEnv groups) key) as [e|] eqn:X; [|done]. exfalso.
    unfold entry_for in X. apply last_Some_elem_of, list_elem_of_In, List.filter_In in X as [X K].
    apply andb_true_iff in K as [_ K]. apply bool_decide_eq_true in K. apply list_elem_of_In, list_elem_of_lookup in X as [i X].
    assert (Y : (foldl merge_entry ([], ∅) (concat groups)).2 !! key = Some i) by (apply I; eauto). congruence.
Qed.

Lemma mergeEnv_value groups key :
  Forall assignment (concat groups) -> lastEnvValue (mergeEnv groups) key = lastEnvValue (concat groups) key.
Proof.
  intros F. unfold lastEnvValue. rewrite !last_value_entry; [by rewrite mergeEnv_entry|done|].
  destruct (merged_ok_foldl (concat groups)) as [_ _ _ M]. rewrite Forall_forall in *. intros e X. by apply F, M.
Qed.

(** ** The environment of a run *)

Lemma filterReserved_assignment env : Forall assignment (filterReservedEnv env).
Proof.
  apply Forall_forall. intros e X. apply list_elem_of_In, List.filter_In in X as [_ X]. unfold assignment.
  destruct (splitEnv e); [by eauto|done].
Qed.

Lemma filterReserved_value env key :
  lastEnvValue (filterReservedEnv env) key = if bool_decide (key ∈ reserved_keys) then None else lastEnvValue env key.
Proof.
  unfold lastEnvValue, filterReservedEnv. induction env as [|e env IH] using rev_ind; [by case_bool_decide|].
  rewrite List.filter_app. simpl. rewrite last_value_snoc. destruct (splitEnv e) as [[k v]|] eqn:S.
  - destruct (decide (k ∈ reserved_keys)) as [R|R].
    + rewrite (bool_decide_eq_true_2 _ R). simpl. rewrite app_nil_r, IH. case_bool_decide as K; [done|].
      by rewrite bool_decide_eq_false_2 by congruence.
    + rewrite (bool_decide_eq_false_2 _ R). simpl. rewrite last_value_snoc, S, IH.
      destruct (bool_decide (k = key)) eqn:K; [|done]. apply bool_decide_eq_true in K. subst.
      by rewrite bool_decide_eq_false_2.
  - rewrite app_nil_r. exact IH.
Qed.

Lemma splitEnv_assign key value : free_of "=" key -> splitEnv (key +:+ "=" +:+ value) = Some (key, value).
Proof.
  intros F. unfold splitEnv, CutByte. change (key +:+ "=" +:+ value) with (key +:+ String "=" value).
  rewrite IndexByte_app by done. rewrite string_take_app_length.
  replace (S (String.length key)) with (String.length (key +:+ "=")) by (rewrite string_app_length; simpl; lia).
  change (String "=" value) with ("=" +:+ value). rewrite <- string_app_assoc. by rewrite string_drop_app_length.
Qed.

Definition proxy_keys : list string := ["HTTP_PROXY"; "http_proxy"; "HTTPS_PROXY"; "https_proxy"].

(** The value of a key after an environment whose reserved keys were removed and
    that gets fixed assignments. *)
Lemma fixed_env_value extra (fixed : list (string * string)) key :
  Forall (fun kv => free_of "=" kv.1) fixed ->
  lastEnvValue (mergeEnv [filterReservedEnv extra; map (fun kv => kv.1 +:+ "=" +:+ kv.2) fixed]) key =
    match List.find (fun kv => String.eqb kv.1 key) (rev fixed) with
    | Some kv => Some kv.2
    | None => if bool_decide (key ∈ reserved_keys) then None else lastEnvValue extra key
    end.
Proof.
  intros F. rewrite mergeEnv_value.
  2:{ simpl. rewrite app_nil_r. apply Forall_app. split; [apply filterReserved_assignment|].
      apply Forall_map. eapply Forall_impl; [exact F|]. intros [k v] K. unfold assignment. simpl. rewrite splitEnv_assign by done. by eauto. }
  simpl. rewrite app_nil_r. unfold lastEnvValue. induction fixed as [|[k v] fixed IH] using rev_ind.
  - simpl. rewrite app_nil_r. apply filterReserved_value.
  - apply Forall_app in F as [F G]. inversion G; subst. rewrite map_app, app_assoc. simpl. rewrite last_value_snoc.
    simpl in *. rewrite splitEnv_assign by done. rewrite rev_app_distr. simpl.
    destruct (String.eqb_spec k key) as [->|N]; [by rewrite bool_decide_eq_true_2|]. rewrite bool_decide_eq_false_2 by done.
    by apply IH.
Qed.

Section theorems.
Context `{GoLib}.

(** C26. The base environment of a sandbox is mediated: in proxy mode the four
    proxy variables have the address of the helper's proxy and nothing else, in
    transparent mode they are absent, whatever the environment of the options says;
    PATH is the last one the options give or /usr/bin; every other variable has the
    last value the options give; no variable occurs twice. The entries a single run
    is given ([own], merged on top by [Sandbox.run]) override the value of exactly
    the variables they set, also of the proxy variables. *)
Theorem run_env_mediated mode addr extra env :
  runEnvForTrafficMode mode addr extra = Some env ->
  NoDup (map env_key env) /\
  (forall k, k ∈ proxy_keys -> lastEnvValue env k =
     if bool_decide (normalizeTrafficMode mode = TrafficModeTransparent) then None else Some (proxyURL addr)) /\
  lastEnvValue env "PATH" = Some (default defaultRunEnvPath (lastEnvValue extra "PATH")) /\
  (forall k, k ∉ reserved_keys -> lastEnvValue env k = lastEnvValue extra k) /\
  (forall own k, entry_for (mergeEnv [env; own]) k = match entry_for own k with Some e => Some e | None => entry_for env k end).
Proof.
  unfold runEnvForTrafficMode. set (path := default defaultRunEnvPath (lastEnvValue extra "PATH")). intros R.
  assert (L : forall own k, entry_for (mergeEnv [env; own]) k = match entry_for own k with Some e => Some e | None => entry_for env k end).
  { intros own k. rewrite mergeEnv_entry. simpl. rewrite app_nil_r. unfold entry_for. rewrite List.filter_app, last_app. done. }
  destruct (bool_decide (normalizeTrafficMode mode = TrafficModeTransparent)) eqn:T.
  - injection R as <-.
    pose proof (fixed_env_value extra [("PATH", path)]) as V. cbn [map fst snd] in V.
    change ("PATH" +:+ "=" +:+ path) with ("PATH=" +:+ path) in V.
    split; [apply mergeEnv_NoDup|]. split; [|split; [|split; [|exact L]]].
    + intros k K. rewrite V by (by repeat constructor). unfold proxy_keys in K. rewrite !elem_of_cons, elem_of_nil in K.
      destruct_or!; try done; subst k; reflexivity.
    + rewrite V by (by repeat constructor). reflexivity.
    + intros k K. rewrite V by (by repeat constructor). rewrite (bool_decide_eq_false_2 _ K). cbn -[String.eqb].
      destruct (String.eqb_spec "PATH" k) as [<-|]; [|done]. destruct K. unfold reserved_keys. set_solver.
  - destruct (bool_decide (normalizeTrafficMode mode = TrafficModeProxy)); [|done]. injection R as <-.
    unfold runEnvForProxyAddr. fold path. set (url := proxyURL addr) in *.
    pose proof (fixed_env_value extra [("PATH", path); ("HTTP_PROXY", url); ("http_proxy", url); ("HTTPS_PROXY", url); ("https_proxy", url)]) as V.
    split; [apply mergeEnv_NoDup|]. split; [|split; [|split; [|exact L]]].
    + intros k K. etransitivity; [apply V; by repeat constructor|]. unfold proxy_keys in K. rewrite !elem_of_cons, elem_of_nil in K.
      destruct_or!; try done; subst k; reflexivity.
    + etransitivity; [apply V; by repeat constructor|]. reflexivity.
    + intros k K. etransitivity; [apply V; by repeat constructor|]. rewrite (bool_decide_eq_false_2 _ K).
      unfold reserved_keys in K. rewrite !not_elem_of_cons in K. destruct K as (K1 & K2 & K3 & K4 & K5 & _). cbn -[String.eqb].
      repeat match goal with |- context [String.eqb ?a k] => destruct (String.eqb_spec a k); [congruence|] end. done.
Qed.
End theorems.

(** ** Resources *)

Section life.
Context `{GoLib} `{Net} `{HostFS} `{MapOrder} `{Libseccomp} (fuel : nat).

Definition running : list resource := [RProcess; RHelperLog; RLogFile; RBridgeParent; RRoot].

(** What the answers of the system say could not be given back: a helper that
    outlived the three waits, a log, a directory or a root that cannot be removed. *)
Definition stuck (env : bootEnv) (r : resource) : bool :=
  match r with
  | RProcess => negb (helper_gone (le_close (be_linux env)))
  | RLogFile => bool_decide (is_Some (le_removeLog (be_linux env)))
  | RDockerDir => bool_decide (is_Some (be_removeSocketDir env))
  | RRoot => bool_decide (is_Some (be_removeRoot env))
  | _ => false
  end.
(** While a sandbox is made, the root is removed from the file system as it is then:
    the last thing done to the file system, [h'] afterwards, is its removal, which
    failed. *)
Definition root_stuck (h' : fsState) : Prop :=
  exists h root e, h' = h ++ [OpRemoveAll root] /\ fs_error h (OpRemoveAll root) = Some e.
Definition left_behind (env : bootEnv) (h' : fsState) (r : resource) : Prop := stuck env r = true \/ r = RRoot /\ root_stuck h'.
Definition docker_start (start : list resource) : Prop := start = [] \/ start = [RDockerProxy; RDockerDir].

Lemma release_held l r err x : x ∈ foldl hold l (release r err) -> x ∈ l /\ (x = r -> is_Some err).
Proof.
  destruct err; cbn; [intros X; split; [done|by eauto]|]. rewrite list_elem_of_In, List.filter_In, <- list_elem_of_In.
  intros [X N]. split; [done|]. intros ->. by rewrite bool_decide_eq_true_2 in N.
Qed.
Lemma linux_runtime_held env m opts mode dm h r h' ev start :
  docker_start start ->
  newLinuxSandboxRuntime "linux" fuel (be_linux env) m opts mode dm h = (r, h', ev) ->
  match r with
  | Ok _ => foldl hold start ev = running ++ start
  | Err _ => forall x, x ∈ foldl hold start ev -> x ∈ start \/ left_behind env h' x
  end.
Proof.
  intros S. unfold newLinuxSandboxRuntime.
  destruct (le_runtimeBinary (be_linux env)); [|intros [= <- <- <-]; by left].
  destruct (Stage _ _ _ _ _ _) as [[staged|] h1]; [|intros [= <- <- <-]; by left].
  assert (RL : forall h l x, x ∈ foldl hold l (release RRoot (fs_error h (OpRemoveAll (sg_Root staged)))) -> x ∈ l /\ (x = RRoot -> left_behind env (h ++ [OpRemoveAll (sg_Root staged)]) x)).
  { intros h0 l x [X E]%release_held. split; [done|]. intros ->. right. split; [done|]. destruct (E eq_refl) as [e Ee]. by exists h0, (sg_Root staged), e. }
  assert (UNDO : forall h l x, x ∈ foldl hold l (closed_log (be_linux env) ++ [Release RBridgeChild; Release RBridgeParent] ++
      release RRoot (fs_error h (OpRemoveAll (sg_Root staged)))) -> x ∈ l /\ (x ∈ [RHelperLog; RLogFile; RBridgeChild; RBridgeParent; RRoot] -> left_behind env (h ++ [OpRemoveAll (sg_Root staged)]) x)).
  { intros h0 l x. rewrite !foldl_app. intros [X R0]%RL. unfold closed_log in X. cbn [foldl hold] in X.
    rewrite !list_elem_of_In, !List.filter_In, <- !list_elem_of_In in X. destruct X as [[X N1] N2]. apply release_held in X as [X L].
    rewrite list_elem_of_In, List.filter_In, <- list_elem_of_In in X. destruct X as [X N3].
    split; [done|]. rewrite !elem_of_cons, elem_of_nil. intros I. destruct_or!; subst; try done; [|by apply R0].
    left. cbn. apply bool_decide_eq_true_2, L, eq_refl. }
  destruct (le_bridgePair (be_linux env)); [|intros [= <- <- <-] x X; rewrite ?foldl_app in X; cbn [foldl] in X; apply RL in X as [X R0]; cbn in X; destruct S as [-> | ->]; set_solver].
  destruct (le_helperLog (be_linux env)); [|intros [= <- <- <-] x X; rewrite ?foldl_app in X; cbn [foldl] in X; apply RL in X as [X R0]; destruct S as [-> | ->]; cbn in X; set_solver].
  destruct (stagePayloadSeccompProgram _ _ _) as [[path|] h2];
    [|intros [= <- <- <-] x X; cbn [app foldl] in X; apply UNDO in X as [X R0]; destruct S as [-> | ->]; cbn in X; set_solver].
  destruct (buildLinuxSandboxCommand _ _ _) as [[cmd|] h3];
    [|intros [= <- <- <-] x X; cbn [app foldl] in X; apply UNDO in X as [X R0]; destruct S as [-> | ->]; cbn in X; set_solver].
  destruct (le_cmdStart (be_linux env)); [intros [= <- <- <-] x X; cbn [app foldl] in X; apply UNDO in X as [X R0]; destruct S as [-> | ->]; cbn in X; set_solver|].
  destruct (le_clientStart (be_linux env)); intros [= <- <- <-]; [by destruct S as [-> | ->]|].
  intros x X. cbn [app foldl] in X. rewrite foldl_app in X. apply RL in X as [X R0]. unfold linux_Close_events, closed_log in X. rewrite !foldl_app in X.
  cbn [foldl] in X. apply release_held in X as [X L]. assert (P : x = RProcess -> helper_gone (le_close (be_linux env)) = true -> False).
  { intros -> G. rewrite G in X. destruct S as [-> | ->]; cbn in X; set_solver. }
  assert (X' : x ∈ RProcess :: RLogFile :: RRoot :: start).
  { destruct (helper_gone (le_close (be_linux env))); destruct S as [-> | ->]; cbn in X; set_solver. }
  rewrite !elem_of_cons in X'. destruct X' as [->|[->|[->|X']]]; [| | |by left]; right; [left|left|by apply R0].
  - cbn. destruct (helper_gone _) eqn:G; [by destruct (P eq_refl)|done].
  - cbn. apply bool_decide_eq_true_2, L, eq_refl.
Qed.

Lemma linux_runtime_root env m opts mode dm h b h' ev :
  (forall root, os_MkdirTemp = Ok root -> root <> "") ->
  newLinuxSandboxRuntime "linux" fuel env m opts mode dm h = (Ok b, h', ev) -> bs_root b <> "".
Proof.
  intros MT. unfold newLinuxSandboxRuntime.
  destruct (le_runtimeBinary env); [|done].
  destruct (Stage _ _ _ _ _ _) as [[staged|] h1] eqn:S; [|done].
  assert (R : sg_Root staged <> "").
  { unfold Stage in S. destruct os_MkdirTemp as [root|] eqn:E; [|done].
    destruct (stage_root _ _ _ _ _ _ _) as [[res|] h2] eqn:SR; [|done]. injection S as <- _. unfold stage_root in SR.
    repeat (apply fm_bind_ok in SR as (? & ? & _ & SR)). injection SR as <- _. by apply MT. }
  destruct (le_bridgePair env); [|done]. destruct (le_helperLog env); [|done].
  destruct (stagePayloadSeccompProgram _ _ _) as [[path|] h2]; [|done].
  destruct (buildLinuxSandboxCommand _ _ _) as [[cmd|] h3]; [|done].
  destruct (le_cmdStart env); [done|]. destruct (le_clientStart env); [|done]. intros [= <- _ _]. exact R.
Qed.

Definition docker_held (s : sandbox) : list resource := match sx_docker s with Some _ => [RDockerProxy; RDockerDir] | None => [] end.

(** Closing gives back everything that is not stuck, and says so when something is:
    only a log that stays is not reported. *)
Lemma close_held env m s :
  sx_closed s = None -> sx_root s <> "" ->
  foldl hold (running ++ docker_held s) (Sandbox_Close env m s).2 = List.filter (stuck env) (running ++ docker_held s).
Proof.
  intros C R. unfold Sandbox_Close, docker_held, linux_Close_events, closed_proxy, closed_log, release.
  rewrite C, (bool_decide_eq_false_2 _ R). cbn [snd].
  destruct (helper_gone (le_close (be_linux env))) eqn:G, (le_removeLog (be_linux env)) eqn:L, (be_removeSocketDir env) eqn:D, (be_removeRoot env) eqn:Q,
    (sx_docker s); cbn -[helper_gone]; rewrite ?G, ?L, ?D, ?Q; reflexivity.
Qed.
Lemma saw_end_timeout events : saw_end events = false -> waitWithTimeout events = Some Timeout.
Proof. induction events as [|[]]; cbn; try done. by destruct exited. Qed.
Lemma join_error_some (f : string -> string) err : is_Some err -> join_error (f <$> err) <> [].
Proof. by intros [e ->]. Qed.
Lemma close_reports env m s r :
  sx_closed s = None -> sx_root s <> "" -> stuck env r = true -> r <> RLogFile -> r ∈ running ++ docker_held s ->
  (Sandbox_Close env m s).1.1.1 <> [].
Proof.
  intros C R S NL I. unfold Sandbox_Close. rewrite C, (bool_decide_eq_false_2 _ R). cbn [fst].
  intros [E1 [E2 E3]%app_eq_nil]%app_eq_nil. destruct r; try done; cbn in S.
  - apply negb_true_iff in S. unfold helper_gone in S. rewrite !orb_false_iff in S. destruct S as [[S1 S2] S3].
    unfold linux_Close, wait_helper in E1. rewrite !saw_end_timeout in E1 by done. cbn in E1.
    apply app_eq_nil in E1 as [_ E1]. by apply app_eq_nil in E1 as [_ E1].
  - apply bool_decide_eq_true in S. by apply join_error_some in E3.
  - apply bool_decide_eq_true in S. unfold docker_held in I. destruct (sx_docker s) as [[path mount]|]; [|set_solver].
    unfold closed_proxy_errors in E2. apply app_eq_nil in E2 as [_ E2]. by apply join_error_some in E2.
Qed.
(** The body runs once. *)
Lemma close_once env env' m m' s :
  let '(errs, m1, s1, _) := Sandbox_Close env m s in Sandbox_Close env' m' s1 = (errs, m', s1, []).
Proof. unfold Sandbox_Close. destruct (sx_closed s) as [errs|] eqn:C; [by rewrite C|done]. Qed.

Lemma registered_then_attached id policy pm pm1 sb : registerSandbox id policy pm = Ok pm1 -> exists pm2, attachSandbox id sb pm1 = Ok pm2 /\
  pm_sandboxes pm2 = <[id := Some sb]> (pm_sandboxes pm1) /\ pm_policies pm2 = pm_policies pm1.
Proof.
  unfold registerSandbox, Register. intros R. apply result_bind_ok in R as (m1 & R & E).
  case_bool_decide as I; [done|]. case_bool_decide as S; [done|]. injection R as <-. injection E as <-.
  unfold attachSandbox, Attach, initAuditStateLocked. rewrite (bool_decide_eq_false_2 _ I). cbn.
  rewrite bool_decide_eq_true_2 by (rewrite lookup_insert_eq; by eauto). by eauto.
Qed.

Lemma registerSandbox_maps id policy pm pm1 : registerSandbox id policy pm = Ok pm1 ->
  pm_sandboxes pm !! id = None /\ pm_sandboxes pm1 = <[id := None]> (pm_sandboxes pm) /\
  pm_policies pm1 = <[id := default (pm_defaultPolicy pm) policy]> (pm_policies pm).
Proof.
  unfold registerSandbox, Register. intros R. apply result_bind_ok in R as (m1 & R & E).
  case_bool_decide as I; [done|]. case_bool_decide as S; [done|]. injection R as <-. injection E as <-.
  unfold initAuditStateLocked. rewrite (bool_decide_eq_false_2 _ I). cbn.
  split; [by apply eq_None_not_Some|done].
Qed.

(** What a call of [start_sandbox] leaves behind, and what closing the sandbox does,
    whatever the system answers then ([env']). *)
Definition balanced (env : bootEnv) (m : managerState) (policy : compiledPolicy) (o : outcome sandbox) : Prop :=
  let '(r, m', h', ev) := o in
  match r with
  | Err _ => (forall x, x ∈ held ev -> left_behind env h' x) /\ ms_manager m' = ms_manager m
  | Ok s =>
      held ev = running ++ docker_held s /\ sx_closed s = None /\
      pm_sandboxes (ms_manager m) !! sx_id s = None /\
      pm_sandboxes (ms_manager m') = <[sx_id s := Some (sandbox_view s)]> (pm_sandboxes (ms_manager m)) /\
      pm_policies (ms_manager m') = <[sx_id s := policy]> (pm_policies (ms_manager m)) /\
      forall env', let '(errs, m'', s', closing) := Sandbox_Close env' m' s in
        held (ev ++ closing) = List.filter (stuck env') (running ++ docker_held s) /\
        (forall x, x ∈ held (ev ++ closing) -> x <> RLogFile -> errs <> []) /\
        pm_sandboxes (ms_manager m'') = pm_sandboxes (ms_manager m) /\
        forall env'' m3, Sandbox_Close env'' m3 s' = (errs, m3, s', [])
  end.

Lemma held_app ev ev' : held (ev ++ ev') = foldl hold (held ev) ev'.
Proof. unfold held. by rewrite foldl_app. Qed.

Lemma close_unregisters env m s : sx_closed s = None -> sx_registered s = true ->
  pm_sandboxes (ms_manager (Sandbox_Close env m s).1.1.2) = delete (sx_id s) (pm_sandboxes (ms_manager m)).
Proof.
  intros C R. unfold Sandbox_Close. rewrite C, R. cbn. unfold unregisterSandbox, removeAuditStateLocked.
  case_bool_decide; [done|]. by destruct (pm_audit _).
Qed.

Lemma register_balanced env m policy s h ev :
  held ev = running ++ docker_held s -> sx_closed s = None -> sx_registered s = false -> sx_root s <> "" ->
  balanced env m policy (register_and_attach env m policy s h ev).
Proof.
  intros E C R NE. unfold register_and_attach, balanced.
  destruct (registerSandbox (sx_id s) (Some policy) (ms_manager m)) as [pm1|e] eqn:Reg.
  - destruct (registered_then_attached _ _ _ _ (sandbox_view (set_registered s)) Reg) as (pm2 & A & A1 & A2).
    pose proof (registerSandbox_maps _ _ _ _ Reg) as (N & M1 & M2). cbn [ms_manager with_manager sx_id set_registered].
    rewrite A. change (docker_held (set_registered s)) with (docker_held s). split; [done|]. split; [done|].
    split; [done|]. split; [cbn [ms_manager with_manager]; rewrite A1, M1; by rewrite insert_insert_eq|].
    split; [cbn [ms_manager with_manager]; by rewrite A2, M2|]. intros env'.
    pose proof (close_held env' (with_manager (fun _ => pm2) (with_manager (fun _ => pm1) m)) (set_registered s) C NE) as K1.
    pose proof (fun r => close_reports env' (with_manager (fun _ => pm2) (with_manager (fun _ => pm1) m)) (set_registered s) r C NE) as K2.
    pose proof (fun env'' m3 => close_once env' env'' (with_manager (fun _ => pm2) (with_manager (fun _ => pm1) m)) m3 (set_registered s)) as K3.
    pose proof (close_unregisters env' (with_manager (fun _ => pm2) (with_manager (fun _ => pm1) m)) (set_registered s) C eq_refl) as K4.
    destruct (Sandbox_Close env' _ (set_registered s)) as [[[errs m2] s2] closing]. cbn [fst snd] in *.
    change (docker_held (set_registered s)) with (docker_held s) in *.
    rewrite held_app, E, K1. split; [done|]. split; [|split; [|done]].
    + intros x [X S]%list_elem_of_In%List.filter_In%(fun H => conj (proj1 H) (proj2 H)) NL. apply (K2 x); [done|done|by apply list_elem_of_In].
    + rewrite K4. cbn [ms_manager with_manager sx_id set_registered]. rewrite A1, M1, insert_insert_eq. by rewrite delete_insert_id.
  - pose proof (close_held env m s C NE) as K. destruct (Sandbox_Close env m s) as [[[errs m2] s2] closing] eqn:X. split.
    + rewrite held_app, E. cbn [snd] in K. rewrite K. intros x [_ S]%list_elem_of_In%List.filter_In. by left.
    + unfold Sandbox_Close in X. rewrite C, R in X. by injection X as _ <- _ _.
Qed.
End life.

Section claims.
Context `{GoLib} `{Net} `{HostFS} `{MapOrder} `{Libseccomp} (fuel : nat).

Lemma validated_mode platform h opts mitm :
  validateSandboxOptions platform h opts mitm = Ok tt ->
  normalizeTrafficMode (op_TrafficMode opts) = TrafficModeProxy \/ normalizeTrafficMode (op_TrafficMode opts) = TrafficModeTransparent.
Proof.
  unfold validateSandboxOptions. cbv zeta. do 3 (destruct (_ && _); [done|]).
  destruct (negb (bool_decide (normalizeTrafficMode (op_TrafficMode opts) = TrafficModeProxy)) && _) eqn:M; [done|]. intros _.
  apply andb_false_iff in M as [M|M]; apply negb_false_iff, bool_decide_eq_true in M; tauto.
Qed.

Lemma runEnv_total mode addr extra :
  mode = TrafficModeProxy \/ mode = TrafficModeTransparent -> exists env, runEnvForTrafficMode mode addr extra = Some env.
Proof. intros [-> | ->]; unfold runEnvForTrafficMode; eexists; reflexivity. Qed.

Lemma start_proxy_held env id docker :
  match start_proxy env id docker with
  | (Ok proxy, events) => held events = match proxy with Some _ => [RDockerProxy; RDockerDir] | None => [] end
  | (Err _, events) => forall x, x ∈ held events -> stuck env x = true
  end.
Proof.
  unfold start_proxy, startDockerSocketProxy. destruct (dk_Enabled docker); [|done]. case_bool_decide; [by intros x X%not_elem_of_nil|].
  cbn [negb]. destruct (be_socketDir env); [|by intros x X%not_elem_of_nil]. destruct (be_listen env); [|done].
  intros x X. cbn [held foldl] in X. unfold held in X. cbn [foldl hold] in X. apply release_held in X as [->%list_elem_of_singleton D].
  cbn. apply bool_decide_eq_true_2, D, eq_refl.
Qed.

Lemma start_balanced env m opts policyMode policy docker id h :
  (forall root, os_MkdirTemp = Ok root -> root <> "") ->
  normalizeTrafficMode (op_TrafficMode opts) = TrafficModeProxy \/ normalizeTrafficMode (op_TrafficMode opts) = TrafficModeTransparent ->
  exists o, start_sandbox "linux" fuel env m opts policyMode policy docker id h = Some o /\ balanced env m policy o.
Proof.
  intros MT MODE. unfold start_sandbox. pose proof (start_proxy_held env id docker) as PH.
  destruct (start_proxy env id docker) as [[proxy|e] proxied].
  2: { eexists. split; [reflexivity|]. split; [|done]. intros x X. left. by apply PH. }
  unfold newSandboxRuntime. rewrite bool_decide_eq_true_2 by done.
  set (dm := option_map _ proxy). set (start := match proxy with Some _ => [RDockerProxy; RDockerDir] | None => [] end) in *.
  assert (S : docker_start start) by (unfold start, docker_start; destruct proxy; tauto).
  destruct (newLinuxSandboxRuntime _ _ _ _ _ _ dm h) as [[[b|e] h1] ev] eqn:L;
    pose proof (linux_runtime_held fuel _ _ _ _ _ _ _ _ _ start S L) as HE.
  - pose proof (linux_runtime_root fuel _ _ _ _ _ _ _ _ _ MT L) as NE.
    destruct (runEnv_total (normalizeTrafficMode (op_TrafficMode opts))
      (if bool_decide (normalizeTrafficMode (op_TrafficMode opts) = TrafficModeProxy) then bs_proxyAddr b else "")
      (if do_Enabled (op_DockerBuild opts) then withDockerBuildPATHEnvEntries (op_Env opts) else op_Env opts) MODE) as [re ->].
    eexists. split; [reflexivity|]. apply register_balanced; [|done|done|done].
    rewrite held_app, PH, HE. unfold docker_held, start. by destruct proxy.
  - eexists. split; [reflexivity|]. unfold balanced. split; [|done]. intros x X. rewrite app_assoc, !held_app, PH in X.
    unfold start in *. destruct proxy; [|destruct (HE x X) as [I|?]; [by apply not_elem_of_nil in I|done]].
    unfold closed_proxy in X. cbn [foldl] in X. apply release_held in X as [X D].
    cbn [hold] in X. rewrite list_elem_of_In, List.filter_In, <- list_elem_of_In in X. destruct X as [X N].
    destruct (HE x X) as [I|?]; [|done]. rewrite !elem_of_cons, elem_of_nil in I. destruct I as [->|[->|[]]]; [done|].
    left. cbn. apply bool_decide_eq_true_2, D, eq_refl.
Qed.

Lemma NewSandbox_balanced env m opts h :
  (forall root, os_MkdirTemp = Ok root -> root <> "") ->
  exists o policy, NewSandbox "linux" fuel env m opts h = Some o /\ balanced env m policy o /\
    (is_ok o.1.1.1 = true -> compilePolicy (op_Policy opts) = Ok policy).
Proof.
  intros MT. unfold NewSandbox.
  assert (refused : forall e, exists o policy, Some (Err e, m, h, []) = Some o /\ balanced env m policy o /\
    (is_ok o.1.1.1 = true -> compilePolicy (op_Policy opts) = Ok policy)).
  { intros e. exists (Err e, m, h, []), {| rules := [] |}. split; [done|]. split; [|done]. split; [by intros x X%not_elem_of_nil|done]. }
  destruct (validateSandboxOptions "linux" h opts (ms_mitmEnabled m)) as [[]|e] eqn:V; [|by apply refused].
  destruct (normalizePolicyMode _) as [pmode|e]; [|by apply refused].
  destruct (compilePolicy (op_Policy opts)) as [policy|e] eqn:C; [|by apply refused].
  destruct (effectiveDockerSocketConfig m opts) as [[docker dp]|e]; [|by apply refused].
  destruct (validateEffectiveDockerSocketOptions _ _ _); [|by apply refused].
  destruct (nextSandboxName (op_Name opts) m) as [id m1] eqn:N.
  assert (M : ms_manager m1 = ms_manager m).
  { unfold nextSandboxName in N. destruct (negb _); by injection N as _ <-. }
  destruct (start_balanced env m1 opts pmode policy docker id h MT (validated_mode _ _ _ _ V)) as (o & E & B).
  exists o, policy. split; [done|]. split; [|done]. unfold balanced in *. by rewrite <- M.
Qed.

(** C27. A sandbox that cannot be made leaves nothing behind that the system let
    it give back, and one that is made gives everything back when it is closed, once.
    [NewSandbox] never panics; on every error, wherever it occurs, each resource it
    acquired (root, bridge, log and its file, process, Docker proxy and its
    directory) is released but for those stuck: a root, log or directory whose
    removal failed, a helper that no wait saw end; and the manager is unchanged,
    also if the name was taken. On success the sandbox alone is added to the
    registry under a fresh name, with the policy compiled from its options, and
    exactly its own resources are held; [Close], whatever the system answers,
    releases exactly those that are not stuck, reports an error if one is (a log
    file excepted, whose removal is not checked) and restores the registry; a second
    [Close] does nothing and returns the same errors. *)
Theorem sandbox_resources_balanced env m opts h :
  (forall root, os_MkdirTemp = Ok root -> root <> "") ->
  exists o policy, NewSandbox "linux" fuel env m opts h = Some o /\ balanced env m policy o /\
    (is_ok o.1.1.1 = true -> compilePolicy (op_Policy opts) = Ok policy).
Proof. apply NewSandbox_balanced. Qed.

(** The manager's network policy is never inherited: a sandbox whose options
    have no policy is registered with the empty policy, which allows nothing, and
    not with the default policy of its manager, whatever that is. *)
Theorem default_policy_not_inherited env m opts h s m' h' ev :
  (forall root, os_MkdirTemp = Ok root -> root <> "") ->
  NewSandbox "linux" fuel env m opts h = Some (Ok s, m', h', ev) -> Rules (op_Policy opts) = [] ->
  pm_policies (ms_manager m') !! sx_id s = Some {| rules := [] |}.
Proof.
  intros MT N R. destruct (NewSandbox_balanced env m opts h MT) as (o & policy & E & B & C).
  rewrite N in E. injection E as <-. destruct B as (_ & _ & _ & _ & P & _). rewrite P, lookup_insert_eq. f_equal.
  specialize (C eq_refl). unfold compilePolicy in C. rewrite R in C. by injection C.
Qed.
End claims.

(** ** Closing the helper *)

Definition done_count (events : list waitEvent) : nat := length (List.filter (fun e => match e with WDone _ => true | _ => false end) events).

Lemma wait_source events e : waitWithTimeout events = Some e -> e = Timeout \/ (0 < done_count events)%nat.
Proof.
  induction events as [|ev events IH]; simpl; [intros [= <-]; by left|].
  destruct ev as [err| |exited]; simpl; intros W; [right; unfold done_count; simpl; lia|by injection W as <-; left|].
  destruct exited; [done|]. destruct (IH W) as [->|D]; [by left|right; exact D].
Qed.

(** The exit status of the helper is lost: [Close] waits again whenever a wait
    returned an error, and the channel delivers the exit status only once. If the
    helper ended with a status before the close and its process is seen to be gone,
    [Close] reports no error at all; in no case does it report the status. *)
Theorem helper_exit_status_lost suffix env code :
  waitWithTimeout (ce_wait1 env) = Some (ExitStatus code) ->
  (done_count (ce_wait1 env ++ ce_wait2 env ++ ce_wait3 env) <= 1)%nat ->
  (forall code', (wait_helper env).1 <> Some (ExitStatus code')) /\
  (waitWithTimeout (ce_wait2 env) = None -> ce_client env = None -> ce_SIGTERM env = None -> linux_Close suffix env = []).
Proof.
  intros W1 D.
  assert (Z : done_count (ce_wait2 env) = 0%nat /\ done_count (ce_wait3 env) = 0%nat).
  { destruct (wait_source _ _ W1) as [E|P]; [done|]. unfold done_count in *. rewrite !List.filter_app, !length_app in D. lia. }
  destruct Z as [Z2 Z3].
  assert (T : forall events e, done_count events = 0%nat -> waitWithTimeout events = Some e -> e = Timeout).
  { intros events e N W. destruct (wait_source _ _ W) as [E|P]; [done|lia]. }
  unfold linux_Close, wait_helper. rewrite W1. split.
  - intros code'. destruct (waitWithTimeout (ce_wait2 env)) as [e2|] eqn:W2; [|done]. cbn.
    destruct (waitWithTimeout (ce_wait3 env)) as [e3|] eqn:W3; [|done]. by rewrite (T _ _ Z3 W3).
  - intros -> -> ->. reflexivity.
Qed.

Section limits.
Context `{GoLib} `{Net}.

(** Unset body limits: the manager then bounds request bodies by 2^20 bytes,
    but responses not at all: its response limit is 0, under which a response body
    of any size is read to its end and never reported as too large. *)
Theorem default_response_unbounded resolve ca opts ms :
  NewProxyManager resolve ca opts = Ok ms -> po_MaxRequestBodyBytes opts = 0 -> po_MaxResponseBodyBytes opts = 0 ->
  pm_requestBodyLimitBytes (ms_manager ms) = 2 ^ 20 /\
  forall data, readBoundedResponse (Some {| st_data := data; st_err := None |}) (pm_responseBodyLimitBytes (ms_manager ms)) = Ok (data, false).
Proof.
  intros N Q R. unfold NewProxyManager in N. rewrite Q, R in N. simpl in N.
  apply result_bind_ok in N as (p & _ & N). apply result_bind_ok in N as (d & _ & N).
  apply result_bind_ok in N as (pm & _ & N). apply result_bind_ok in N as (u & _ & N).
  apply result_bind_ok in N as (pem & _ & N). injection N as <-. simpl.
  unfold effectiveRequestBodyLimit, effectiveResponseBodyLimit. rewrite Q, R. split; reflexivity.
Qed.
End limits.

(** A host on which a sandbox can be made. *)
Module SampleBoot.
#[local] Existing Instance sampleLib.
#[local] Existing Instance sampleNet.
#[export] Instance fs : HostFS := {|
  os_Stat := fun _ p => Ok {| fi_IsDir := false; fi_IsRegular := true; fi_Perm := 493 |};
  os_ReadFile := fun _ p => Ok (if String.eqb p "/etc/resolv.conf" then "nameserver 10.0.0.1" +:+ str1 10 else "data");
  os_ReadDir := fun _ _ => Err "not found";
  os_MkdirTemp := Ok "/tmp/root";
  os_Getwd := Ok "/";
  os_Geteuid := 1000;
  user_Current := Ok "u";
  exec_LookPath := fun name => Ok ("/bin/" +:+ name);
  ldd := fun _ => ("not a dynamic executable", Some "exit status 1");
  fs_error := fun _ _ => None |}.
#[export] Existing Instance SampleHost.order.
#[export] Existing Instance SampleScmp.scmp.

Definition no_docker : DockerSocketOptions := {|
  dk_Enabled := false; dk_MountPath := ""; dk_TargetSocketPath := ""; dk_Policy := {| dp_DefaultAction := ""; dp_Rules := [] |} |}.
Definition closing : closeEnv := {|
  ce_client := None; ce_wait1 := [WDone (Some (ExitStatus 1))]; ce_wait2 := [WTick true]; ce_wait3 := [];
  ce_SIGTERM := None; ce_SIGKILL := None |}.
Definition linux : linuxEnv := {|
  le_runtimeBinary := Ok "/bin/bbox"; le_bridgePair := Ok tt; le_helperLog := Ok "/tmp/log"; le_files := SampleScmp.os;
  le_rewind := None; le_read := fun _ => Ok "bpf"; le_cmdStart := None; le_clientStart := Ok "127.0.0.1:4000"; le_log := ""; le_removeLog := None;
  le_close := closing |}.
Definition env : bootEnv := {|
  be_socketDir := Ok "/tmp/d"; be_listen := None; be_darwin := (Err "no", []); be_linux := linux; be_closeProxy := [];
  be_removeSocketDir := None; be_removeRoot := None |}.
Definition proxyOptions : ProxyOptions := {|
  po_ListenAddr := ""; po_MaxRequestBodyBytes := 0; po_MaxResponseBodyBytes := 0; po_NetworkPolicy := {| Rules := [] |};
  po_PolicyMode := ""; po_Reporting := no_reporting; po_MITM_Enabled := false; po_DockerSocket := no_docker |}.
Definition allow_all : NetworkPolicy := {| Rules := [{| HostPatterns := [".*"]; IPCIDRs := []; HTTPMethods := []; ConnectPorts := [];
  PathPatterns := []; HeaderPatterns := []; BodyPatterns := [] |}] |}.
Definition manager : managerState := {|
  ms_manager := {| pm_defaultPolicy := the {| rules := [] |} (compilePolicy allow_all); pm_sandboxes := ∅; pm_policies := ∅; pm_audit := None;
    pm_hasLogger := true; pm_log := []; pm_requestBodyLimitBytes := 0; pm_responseBodyLimitBytes := 0; pm_policyMode := "" |};
  ms_listenAddr := DefaultProxyAddr; ms_mitmEnabled := false; ms_reporting := no_reporting; ms_dockerSocket := no_docker;
  ms_dockerSocketPolicy := None; ms_caCertPEM := ""; ms_nextSandboxID := 0 |}.
Definition opts : SandboxOptions := {|
  op_Name := "box"; op_Binaries := ["sh"]; op_Mounts := []; op_Env := ["A=1"; "HTTP_PROXY=http://evil"]; op_TrafficMode := "";
  op_Policy := {| Rules := [] |}; op_PolicyMode := ""; op_Reporting := no_reporting; op_WorkDir := ""; 
  op_Seccomp := {| so_Disabled := false; so_Profile := ""; so_Rules := [] |}; op_DockerSocket := no_docker;
  op_DockerBuild := sg_DockerBuild SampleHost.options |}.
Lemma temp_named : forall root, os_MkdirTemp = Ok root -> root <> "".
Proof. by intros root [= <-]. Qed.
Lemma made : match NewSandbox "linux" 3 env manager opts [] with Some (Ok _, _, _, _) => true | _ => false end = true.
Proof. vm_compute. reflexivity. Qed.
End SampleBoot.

#[local] Existing Instance sampleLib.
#[local] Existing Instance sampleNet.
Import SampleBoot.

Lemma run_env_mediated_witness :
  exists env, runEnvForTrafficMode "" "127.0.0.1:1" ["A=1"; "HTTP_PROXY=http://evil"] = Some env /\
    lastEnvValue env "HTTP_PROXY" = Some "http://127.0.0.1:1" /\ lastEnvValue env "A" = Some "1".
Proof.
  destruct (runEnvForTrafficMode "" "127.0.0.1:1" ["A=1"; "HTTP_PROXY=http://evil"]) as [env|] eqn:E; [|discriminate E].
  destruct (run_env_mediated "" "127.0.0.1:1" _ env E) as (_ & P & _ & O & _).
  exists env. split; [reflexivity|]. split.
  - rewrite (P "HTTP_PROXY" ltac:(unfold proxy_keys; set_solver)). reflexivity.
  - rewrite (O "A" ltac:(unfold reserved_keys; set_solver)). reflexivity.
Defined.

Lemma sandbox_resources_balanced_witness :
  exists o policy, NewSandbox "linux" 3 env manager opts [] = Some o /\ is_ok o.1.1.1 = true /\ balanced env manager policy o.
Proof.
  destruct (sandbox_resources_balanced 3 env manager opts [] temp_named) as (o & policy & E & B & _).
  exists o, policy. split; [exact E|]. split; [|exact B].
  pose proof made as M. rewrite E in M. destruct o as [[[[s|e] m'] h'] ev]; [reflexivity|discriminate M].
Defined.

Lemma default_policy_not_inherited_witness :
  exists s m' h' ev, NewSandbox "linux" 3 env manager opts [] = Some (Ok s, m', h', ev) /\
    pm_policies (ms_manager m') !! sx_id s = Some {| rules := [] |} /\
    length (rules (pm_defaultPolicy (ms_manager manager))) = 1%nat.
Proof.
  pose proof made as M. destruct (NewSandbox "linux" 3 env manager opts []) as [[[[[s|e] m'] h'] ev]|] eqn:E; try discriminate M.
  exists s, m', h', ev. split; [reflexivity|]. split; [|reflexivity].
  exact (default_policy_not_inherited 3 env manager opts [] s m' h' ev temp_named E eq_refl).
Defined.

Lemma helper_exit_status_lost_witness : linux_Close "" closing = [].
Proof. apply (helper_exit_status_lost "" closing 1 eq_refl ltac:(vm_compute; lia)); reflexivity. Defined.

Lemma default_response_unbounded_witness :
  exists ms, NewProxyManager (fun _ => Ok tt) (Ok "CA") proxyOptions = Ok ms /\ pm_requestBodyLimitBytes (ms_manager ms) = 1048576.
Proof.
  destruct (NewProxyManager (fun _ => Ok tt) (Ok "CA") proxyOptions) as [ms|e] eqn:E; [|discriminate E].
  exists ms. split; [reflexivity|]. destruct (default_response_unbounded _ _ _ _ E eq_refl eq_refl) as [Q _]. exact Q.
Defined.
