(* ===== verification/Darwin.v ===== *)
(** The macOS backend: src/sandbox_darwin_profile.go, src/sandbox_darwin_env.go and
    src/sandbox_darwin_runtime.go.

    A Seatbelt profile is the list of its lines. As in [SandboxLife], the life of
    the host-side helper is a function of the outcomes of the system's calls. *)
From S2P Require Import Prelude GoStrings GoNet GoPath HostFS Policy Access Manager Docker Seccomp Staging Mounts Assembly SandboxLife.

(** ** The profile: sandbox_darwin_profile.go *)

Record darwinProfileConfig := { dc_WorkDir : string; dc_AllowedExecPaths : list string; dc_ProxyAddrs : list string }.
Definition darwinSystemReadPaths : list string :=
  ["/System"; "/Library"; "/usr"; "/bin"; "/sbin"; "/dev"; "/etc"; "/private/etc"; "/var/db"; "/private/var/db";
   "/var/folders"; "/private/var/folders"; "/tmp"; "/private/tmp"].

(** [net.IP.IsLoopback] on the 16-byte form. *)
Definition IsLoopback (ip : IP) : bool :=
  if bool_decide (take 12 ip = v4InV6Prefix) then bool_decide (ip !! 12%nat = Some 127)
  else bool_decide (ip = replicate 15 0 ++ [1]).
Definition isDarwinLoopbackHost (host : string) : bool :=
  let host := TrimSpace host in
  if bool_decide (host = "localhost") then true else
  match ParseIP host with Some ip => IsLoopback ip | None => false end.

Definition darwinMirrorTmpPath (path : string) : string :=
  if bool_decide (path = "/tmp") then "/private/tmp"
  else if bool_decide (path = "/private/tmp") then "/tmp"
  else if HasPrefix path "/tmp/" then "/private" +:+ path
  else if HasPrefix path "/private/tmp/" then TrimPrefix path "/private"
  else "".
(** The loop over the candidates: those that are empty or seen already are skipped. *)
Fixpoint expand_candidates (seen : gset string) (candidates : list string) : list string :=
  match candidates with
  | [] => []
  | candidate :: candidates =>
      if bool_decide (candidate = "") || bool_decide (candidate ∈ seen) then expand_candidates seen candidates
      else candidate :: expand_candidates ({[candidate]} ∪ seen) candidates
  end.
Definition expandDarwinPathVariants (paths : list string) : list string :=
  expand_candidates ∅ (flat_map (fun path => [path_Clean path; darwinMirrorTmpPath path]) paths).

(** [fuel] bounds the number of ancestors by the elements of the path ([ancestor_dirs_enough]). *)
Fixpoint ancestor_dirs (fuel : nat) (current : string) : list string :=
  match fuel with
  | O => []
  | S fuel =>
      if bool_decide (current = "/") || bool_decide (current = ".") then [] else
      current :: (let next := filepath_Dir current in if bool_decide (next = current) then [] else ancestor_dirs fuel next)
  end.
Definition darwinAncestorDirs (path : string) : list string :=
  let current := path_Clean (filepath_Dir path) in
  Compact (sort_strings (ancestor_dirs (S (length (SplitByte current "/"))) current ++ ["/"])).

Section profile.
Context `{GoLib}.

Fixpoint darwin_exec_paths (seen : gset string) (paths : list string) : result (list string) :=
  match paths with
  | [] => Ok []
  | path :: paths =>
      let path := TrimSpace path in
      if bool_decide (path = "") then darwin_exec_paths seen paths else
      if negb (filepath_IsAbs path) then Err ("darwin sandbox executable " +:+ Quote path +:+ " must be absolute") else
      let path := path_Clean path in
      if bool_decide (path ∈ seen) then darwin_exec_paths seen paths else
      rest <-! darwin_exec_paths ({[path]} ∪ seen) paths; Ok (path :: rest)
  end.
Definition normalizeDarwinExecPaths (paths : list string) : result (list string) :=
  normalized <-! darwin_exec_paths ∅ paths; Ok (sort_strings normalized).

Fixpoint darwin_ports (seen : gset Z) (addrs : list string) : result (list Z) :=
  match addrs with
  | [] => Ok []
  | addr :: addrs =>
      let addr := TrimSpace addr in
      if bool_decide (addr = "") then darwin_ports seen addrs else
      hp <-! result_wrap (fun e => "parse darwin proxy addr " +:+ Quote addr +:+ ": " +:+ e) (SplitHostPort addr);
      if negb (isDarwinLoopbackHost hp.1) then Err ("darwin proxy addr " +:+ Quote addr +:+ " must use loopback host") else
      match Atoi hp.2 with
      | None => Err ("darwin proxy addr " +:+ Quote addr +:+ " has invalid port")
      | Some port =>
          if (port <=? 0) || (65535 <? port) then Err ("darwin proxy addr " +:+ Quote addr +:+ " has invalid port") else
          if bool_decide (port ∈ seen) then darwin_ports seen addrs else
          rest <-! darwin_ports ({[port]} ∪ seen) addrs; Ok (port :: rest)
      end
  end.
Definition normalizeDarwinProxyPorts (addrs : list string) : result (list Z) :=
  ports <-! darwin_ports ∅ addrs; Ok (merge_sort Z.le ports).

Definition quoted (s : string) : string := str1 34 +:+ s +:+ str1 34.
Definition profile_header : list string := [
  "(version 1)"; "(deny default)"; ""; "; Process"; "(allow process-fork)"; "(allow process-info*)";
  "(allow signal (target same-sandbox))"; ""; "; Basic runtime services"; "(allow user-preference-read)"; "(allow ipc-posix-shm)";
  "(allow ipc-posix-sem)"; "(allow system-socket (require-all (socket-domain AF_SYSTEM) (socket-protocol 2)))"; "(allow mach-lookup";
  "  (global-name " +:+ quoted "com.apple.system.logger" +:+ ")";
  "  (global-name " +:+ quoted "com.apple.SystemConfiguration.configd" +:+ ")";
  "  (global-name " +:+ quoted "com.apple.trustd.agent" +:+ ")";
  "  (global-name " +:+ quoted "com.apple.securityd.xpc" +:+ ")";
  "  (global-name " +:+ quoted "com.apple.system.opendirectoryd.libinfo" +:+ ")";
  "  (global-name " +:+ quoted "com.apple.system.opendirectoryd.membership" +:+ "))";
  "(allow sysctl-read)"; ""; "; File reads"; "(allow file-read-metadata)"; "(allow file-read-data (literal " +:+ quoted "/" +:+ "))"].
Definition subpath_rule (operation path : string) : list string := ["(allow " +:+ operation; "  (subpath " +:+ Quote path +:+ "))"].
Definition literal_rule (operation path : string) : list string := ["(allow " +:+ operation; "  (literal " +:+ Quote path +:+ "))"].
Definition network_rule (port : Z) : string := "(allow network-outbound (remote ip " +:+ quoted ("localhost:" +:+ Itoa port) +:+ "))".
Definition profile_rules (workDir : string) (execPaths : list string) (ports : list Z) : list string :=
  profile_header ++
  flat_map (subpath_rule "file-read*") darwinSystemReadPaths ++
  flat_map (fun path => subpath_rule "file-read*" path ++ subpath_rule "file-write*" path) (expandDarwinPathVariants [workDir]) ++
  flat_map (fun path => literal_rule "process-exec" path ++ literal_rule "file-read*" path ++
                        flat_map (literal_rule "file-read-metadata") (darwinAncestorDirs path)) (expandDarwinPathVariants execPaths) ++
  [""; "; Network"] ++ map network_rule ports.
Definition generateDarwinSeatbeltProfile (cfg : darwinProfileConfig) : result string :=
  let workDir := TrimSpace (dc_WorkDir cfg) in
  if bool_decide (workDir = "") || negb (filepath_IsAbs workDir)
  then Err ("darwin sandbox workdir " +:+ Quote (dc_WorkDir cfg) +:+ " must be absolute") else
  execPaths <-! normalizeDarwinExecPaths (dc_AllowedExecPaths cfg);
  ports <-! normalizeDarwinProxyPorts (dc_ProxyAddrs cfg);
  Ok (Join (profile_rules workDir execPaths ports) (str1 10) +:+ str1 10).
End profile.

Definition sanitizeDarwinEnv (env : list string) : list string :=
  List.filter (fun entry => match splitEnv entry with Some (key, _) => negb (HasPrefix key "DYLD_") | None => false end) env.

(** ** Running a command: sandbox_darwin_runtime.go *)

Section runtime.
Context `{GoLib} `{HostFS}.

Fixpoint search_darwin_path (h : fsState) (name workDir : string) (dirs : list string) : option string :=
  match dirs with
  | [] => None
  | dir :: dirs =>
      let dir := if bool_decide (TrimSpace dir = "") then workDir else dir in
      let candidate := filepath_Join [dir; name] in
      match os_Stat h candidate with
      | Err _ => search_darwin_path h name workDir dirs
      | Ok info =>
          if negb (fi_IsRegular info) || (Z.land (fi_Perm info) 73 =? 0) then search_darwin_path h name workDir dirs
          else Some (path_Clean candidate)
      end
  end.
(** [filepath.SplitList]: the empty list has no elements. *)
Definition SplitList (s : string) : list string := if bool_decide (s = "") then [] else SplitByte s ":".
Definition resolveDarwinExecutable (h : fsState) (nameOrPath : string) (env : list string) (workDir : string) : result string :=
  let nameOrPath := TrimSpace nameOrPath in
  if bool_decide (nameOrPath = "") then Err "darwin executable path is required" else
  if Contains nameOrPath "/" then
    if filepath_IsAbs nameOrPath then Ok (path_Clean nameOrPath) else Ok (path_Clean (filepath_Join [workDir; nameOrPath]))
  else
  let pathValue := default "" (lastEnvValue env "PATH") in
  let searched := match search_darwin_path h nameOrPath workDir (SplitList pathValue) with
                  | Some path => Ok path
                  | None => Err ("resolve darwin executable " +:+ Quote nameOrPath +:+ " in PATH " +:+ Quote pathValue +:+ ": executable not found")
                  end in
  match exec_LookPath nameOrPath with
  | Ok resolved => if bool_decide (pathValue = "") then Ok (path_Clean resolved) else searched
  | Err _ => searched
  end.

Record darwinRuntime := { dw_binaries : list string; dw_workDir : string; dw_proxyAddr : string }.
(** The command that is run: its arguments, environment and directory. *)
Record darwinCommand := { dn_argv : list string; dn_env : list string; dn_dir : string }.
Definition darwin_command (h : fsState) (r : darwinRuntime) (argv : list string) (optWorkDir : string) (env : list string) : result darwinCommand :=
  match argv with
  | [] => Err "argv must not be empty"
  | name :: args =>
      let workDir := TrimSpace optWorkDir in
      let workDir := if bool_decide (workDir = "") then dw_workDir r else workDir in
      let workDir := if bool_decide (workDir = "") then "/" else workDir in
      commandPath <-! resolveDarwinExecutable h name env workDir;
      allowedExecPaths <-! result_map (fun path => resolveDarwinExecutable h path env workDir) (dw_binaries r ++ [commandPath]);
      profile <-! generateDarwinSeatbeltProfile {|
        dc_WorkDir := workDir; dc_AllowedExecPaths := allowedExecPaths; dc_ProxyAddrs := [dw_proxyAddr r] |};
      Ok {| dn_argv := ["sandbox-exec"; "-p"; profile; commandPath] ++ args; dn_env := sanitizeDarwinEnv env; dn_dir := workDir |}
  end.

(** The end of [runDarwinCommand]: [copyErrors] are the errors of the copying
    goroutines, other than the end of input and EIO, and [waitErr] is the error of
    [cmd.Wait]. *)
Record darwinResult := { dx_Stdout : string; dx_Stderr : string; dx_ExitCode : Z }.
Definition finishDarwinCommand (stdout stderr : string) (copyErrors : list string) (waitErr : option waitError)
    : option darwinResult * option string :=
  match copyErrors with
  | err :: _ => (None, Some err)
  | [] =>
      match waitErr with
      | None => (Some {| dx_Stdout := stdout; dx_Stderr := stderr; dx_ExitCode := 0 |}, None)
      | Some (ExitStatus code) => (Some {| dx_Stdout := stdout; dx_Stderr := stderr; dx_ExitCode := code |}, None)
      | Some (Signaled _) => (Some {| dx_Stdout := stdout; dx_Stderr := stderr; dx_ExitCode := -1 |}, None)
      | Some err => (Some {| dx_Stdout := stdout; dx_Stderr := stderr +:+ wait_text err; dx_ExitCode := -1 |}, Some (wait_text err))
      end
  end.

(** ** The host-side helper *)

Record darwinCloseEnv := {
  dl_client : option string; dl_wait1 : option (option waitError); dl_wait2 : option (option waitError); dl_wait3 : option (option waitError);
  dl_SIGTERM : option string; dl_SIGKILL : option string }.
(** A wait whose channel had a value has seen the helper end. *)
Definition darwin_helper_gone (env : darwinCloseEnv) : bool :=
  bool_decide (is_Some (dl_wait1 env)) || bool_decide (is_Some (dl_wait2 env)) || bool_decide (is_Some (dl_wait3 env)).
Record darwinEnv := {
  da_runtimeBinary : result string; da_bridgePair : result unit; da_helperLog : result string; da_cmdStart : option string;
  da_clientStart : result string; da_log : string; da_removeLog : option string; da_close : darwinCloseEnv }.
Definition darwin_helper_args (m : managerState) : list string :=
  ["internal-helper"; "--bridge-fd"; "3"; "--proxy-addr"; ms_listenAddr m; "--traffic-mode"; "proxy";
   "--max-request-body-bytes"; Itoa (pm_requestBodyLimitBytes (ms_manager m))] ++
  (if ms_mitmEnabled m then ["--mitm-enabled=true"] else []).
Definition newDarwinSandboxRuntime (env : darwinEnv) (opts : SandboxOptions) : result darwinRuntime * list resEvent :=
  match da_runtimeBinary env with
  | Err e => (Err e, [])
  | Ok _ =>
  match da_bridgePair env with
  | Err e => (Err e, [])
  | Ok _ =>
  let opened := [Acquire RBridgeParent; Acquire RBridgeChild] in
  match da_helperLog env with
  | Err e => (Err ("create darwin helper log file: " +:+ e), opened ++ [Release RBridgeChild; Release RBridgeParent])
  | Ok _ =>
  let opened := opened ++ [Acquire RLogFile; Acquire RHelperLog] in
  let closed_log := Release RHelperLog :: release RLogFile (da_removeLog env) in
  match da_cmdStart env with
  | Some e => (Err ("start darwin proxy helper: " +:+ e), opened ++ closed_log ++ [Release RBridgeChild; Release RBridgeParent])
  | None =>
  let started := opened ++ [Acquire RProcess; Release RBridgeChild] in
  match da_clientStart env with
  | Err e => (Err ("start darwin proxy helper: " +:+ e +:+ helperErrorSuffix (da_log env)),
              started ++ [Release RBridgeParent] ++ (if darwin_helper_gone (da_close env) then [Release RProcess] else []) ++ closed_log)
  | Ok proxyAddr => (Ok {| dw_binaries := op_Binaries opts; dw_workDir := op_WorkDir opts; dw_proxyAddr := proxyAddr |}, started)
  end end end end end.

(** [waitForProcessExit]: what arrives first, the value of the channel or the timer. *)
Definition waitForProcessExit (arrived : option (option waitError)) : option waitError :=
  match arrived with Some err => err | None => Some Timeout end.
Definition normalizeDarwinHelperExit (err : option waitError) : option waitError :=
  match err with
  | Some (Signaled s) => if (s =? SIGTERM_number) || (s =? SIGKILL_number) then None else err
  | _ => err
  end.
Definition darwin_wait_text (err : waitError) : string :=
  match err with Timeout => "timeout waiting for darwin proxy helper exit" | _ => wait_text err end.
Definition darwin_Close (suffix : string) (env : darwinCloseEnv) : list string :=
  let waitErr := waitForProcessExit (dl_wait1 env) in
  let '(waitErr, errs) :=
    match waitErr with
    | Some _ => (waitForProcessExit (dl_wait2 env), join_error ((fun e => "signal darwin proxy helper: " +:+ e) <$> dl_SIGTERM env))
    | None => (waitErr, [])
    end in
  let '(waitErr, errs) :=
    match waitErr with
    | Some _ => (waitForProcessExit (dl_wait3 env), errs ++ join_error ((fun e => "kill darwin proxy helper: " +:+ e) <$> dl_SIGKILL env))
    | None => (waitErr, errs)
    end in
  join_error ((fun e => "close darwin proxy bridge: " +:+ e) <$> dl_client env) ++ errs ++
  join_error ((fun e => "wait for darwin proxy helper: " +:+ darwin_wait_text e +:+ suffix) <$> normalizeDarwinHelperExit waitErr).
End runtime.
