(* ===== verification/DarwinTheorems.v ===== *)
(** Theorems about the macOS backend ([Darwin]): what a Seatbelt profile grants, the
    environment of a command and the resources of the helper. *)
From S2P Require Import Prelude GoStrings StringLemmas GoNet GoPath PathLemmas HostFS Policy Access Manager Docker Seccomp Staging StagingTheorems Mounts Assembly SandboxLife Darwin.
From S2P Require Import Sample SandboxTheorems.

(** ** Reading a profile

    A profile is read the way a Scheme reader does: comments run to the end of their line, a string runs to
    the next quotation mark that no backslash precedes, words end at delimiters. The content of a string is
    kept as it is written, with its escapes. *)

Inductive token := LP | RP | Word (w : string) | Text (t : string).
Inductive lexState := Between | InWord (w : string) | InText (t : string) | Escaped (t : string) | InComment.
Definition snoc (s : string) (c : Ascii.ascii) : string := s +:+ String c "".
Definition delimiter (c : Ascii.ascii) : bool := bool_decide (byte_of c ∈ [40; 41; 34; 59; 32; 9; 10; 13]).
Definition lex_start (c : Ascii.ascii) : list token * lexState :=
  let n := byte_of c in
  if n =? 40 then ([LP], Between) else if n =? 41 then ([RP], Between) else if n =? 34 then ([], InText "")
  else if n =? 59 then ([], InComment) else if delimiter c then ([], Between) else ([], InWord (snoc "" c)).
Definition lex_char (st : lexState) (c : Ascii.ascii) : list token * lexState :=
  match st with
  | Between => lex_start c
  | InWord w => if delimiter c then (Word w :: (lex_start c).1, (lex_start c).2) else ([], InWord (snoc w c))
  | InText t => if byte_of c =? 34 then ([Text t], Between) else if byte_of c =? 92 then ([], Escaped (snoc t c)) else ([], InText (snoc t c))
  | Escaped t => ([], InText (snoc t c))
  | InComment => if byte_of c =? 10 then ([], Between) else ([], InComment)
  end.
Fixpoint lex (st : lexState) (s : string) : list token * lexState :=
  match s with
  | "" => ([], st)
  | String c s => let '(first, st) := lex_char st c in let '(rest, st) := lex st s in (first ++ rest, st)
  end.

Inductive sexp := Atom (w : string) | Str (t : string) | Node (l : list sexp).
Fixpoint parse (outer : list (list sexp)) (current : list sexp) (ts : list token) : option (list sexp) :=
  match ts with
  | [] => match outer with [] => Some current | _ => None end
  | Word w :: ts => parse outer (current ++ [Atom w]) ts
  | Text t :: ts => parse outer (current ++ [Str t]) ts
  | LP :: ts => parse (current :: outer) [] ts
  | RP :: ts => match outer with enclosing :: outer => parse outer (enclosing ++ [Node current]) ts | [] => None end
  end.
Definition read_profile (text : string) : option (list sexp) :=
  match lex Between text with (ts, Between) => parse [] [] ts | _ => None end.
Definition allow (rule : string * list sexp) : sexp := Node (Atom "allow" :: Atom rule.1 :: rule.2).

Lemma lex_app st a b : lex st (a +:+ b) = ((lex st a).1 ++ (lex (lex st a).2 b).1, (lex (lex st a).2 b).2).
Proof.
  revert st. induction a as [|c a IH]; intros st; [by rewrite string_app_nil; simpl; destruct (lex st b)|].
  rewrite string_app_cons. cbn [lex]. destruct (lex_char st c) as [first st']. rewrite IH. destruct (lex st' a) as [ts st'']. simpl.
  by rewrite app_assoc.
Qed.

(** The content of a string literal: every quotation mark and every backslash in it is escaped. *)
Inductive literal_body : string -> Prop :=
| literal_nil : literal_body ""
| literal_char c s : byte_of c <> 34 -> byte_of c <> 92 -> literal_body s -> literal_body (String c s)
| literal_escape c d s : byte_of c = 92 -> literal_body s -> literal_body (String c (String d s)).
Lemma literal_app a b : literal_body a -> literal_body b -> literal_body (a +:+ b).
Proof. intros A B. induction A; rewrite ?string_app_nil, ?string_app_cons; [done|by apply literal_char|by apply literal_escape]. Qed.
Lemma lex_literal b t : literal_body b -> lex (InText t) b = ([], InText (t +:+ b)).
Proof.
  intros B. revert t. induction B as [|c s Q E _ IH|c d s E _ IH]; intros t; [by rewrite string_app_nil_r| |].
  - cbn [lex lex_char]. rewrite (proj2 (Z.eqb_neq _ _) Q), (proj2 (Z.eqb_neq _ _) E), IH. unfold snoc. by rewrite string_app_assoc.
  - cbn [lex lex_char]. rewrite E. cbn. rewrite IH. unfold snoc. by rewrite !string_app_assoc.
Qed.
Lemma quote_char_literal c : literal_body (quote_char c).
Proof.
  destruct c as [[] [] [] [] [] [] [] []]; repeat first [apply literal_nil|apply literal_char; [discriminate|discriminate|]|apply literal_escape; [reflexivity|]].
Qed.
Lemma quote_body_literal s : literal_body (quote_body s).
Proof. induction s as [|c s IH]; [constructor|]. apply literal_app; [apply quote_char_literal|done]. Qed.
Lemma digits_literal s : string_all is_digit s = true -> literal_body s.
Proof.
  induction s as [|c s IH]; [constructor|]. cbn [string_all]. intros [D S]%andb_true_iff. unfold is_digit in D.
  apply literal_char; [lia|lia|by apply IH].
Qed.

(** *** Lines *)

(** Lines, each with its end. *)
Definition lines_text (lines : list string) : string := foldr (fun line rest => line +:+ str1 10 +:+ rest) "" lines.
Lemma lines_text_app a b : lines_text (a ++ b) = lines_text a +:+ lines_text b.
Proof. induction a as [|line a IH]; [done|]. simpl. by rewrite IH, !string_app_assoc. Qed.
Lemma Join_lines lines : lines <> [] -> Join lines (str1 10) +:+ str1 10 = lines_text lines.
Proof.
  induction lines as [|line lines IH]; [done|]. intros _. destruct lines as [|next lines]; [done|].
  change (Join (line :: next :: lines) (str1 10)) with (line +:+ str1 10 +:+ Join (next :: lines) (str1 10)).
  rewrite !string_app_assoc, IH by done. done.
Qed.
(** The lines contribute these forms, wherever they stand between forms. *)
Definition says (lines : list string) (forms : list sexp) : Prop :=
  exists ts, lex Between (lines_text lines) = (ts, Between) /\ forall current rest, parse [] current (ts ++ rest) = parse [] (current ++ forms) rest.
Lemma says_app l1 l2 f1 f2 : says l1 f1 -> says l2 f2 -> says (l1 ++ l2) (f1 ++ f2).
Proof.
  intros (t1 & L1 & P1) (t2 & L2 & P2). exists (t1 ++ t2). split; [by rewrite lines_text_app, lex_app, L1; simpl; rewrite L2|].
  intros current rest. by rewrite <- app_assoc, P1, P2, app_assoc.
Qed.
Lemma says_flat_map {A} (f : A -> list string) (g : A -> list (string * list sexp)) l :
  (forall x, x ∈ l -> says (f x) (map allow (g x))) -> says (flat_map f l) (map allow (flat_map g l)).
Proof.
  induction l as [|x l IH]; intros F; simpl; [exists []; split; [done|]; intros current rest; by rewrite app_nil_r|].
  rewrite map_app. apply says_app; [apply F; by left|]. apply IH. intros y Y. apply F. by right.
Qed.
Lemma says_read lines forms : says lines forms -> read_profile (lines_text lines) = Some forms.
Proof. intros (ts & L & P). unfold read_profile. rewrite L. specialize (P [] []). by rewrite app_nil_r in P. Qed.

(** ** Ancestors of a path *)

Lemma of_elements_not_dot l : of_elements l <> ".".
Proof. unfold of_elements. by rewrite string_app_cons. Qed.
Lemma of_elements_slash l : Forall element l -> of_elements l = "/" <-> l = [].
Proof. intros F. split; [|by intros ->]. intros E. change "/" with (of_elements []) in E. by apply of_elements_inj in E. Qed.

(** The loop lists the directory and all directories above it but the root. *)
Lemma ancestor_dirs_enough l fuel q :
  Forall element l -> (length l < fuel)%nat ->
  q ∈ ancestor_dirs fuel (of_elements l) <-> exists k, k <> [] /\ k `prefix_of` l /\ q = of_elements k.
Proof.
  revert fuel. induction l as [|e l IH] using rev_ind; intros fuel F L; (destruct fuel as [|fuel]; [lia|]); cbn [ancestor_dirs].
  - rewrite bool_decide_eq_true_2 by done. simpl. split; [by intros ?%not_elem_of_nil|]. intros (k & N & P & _). by apply prefix_nil_inv in P.
  - assert (G : Forall element l) by (by apply Forall_app in F as [F _]).
    rewrite (bool_decide_eq_false_2 (_ = "/")) by (rewrite of_elements_slash by done; by destruct l).
    rewrite (bool_decide_eq_false_2 (_ = ".")) by apply of_elements_not_dot. simpl orb. cbv iota.
    rewrite filepath_Dir_clean, removelast_last by done. rewrite bool_decide_eq_false_2.
    2: { intros X%of_elements_inj; [|done|done]. apply (f_equal length) in X. rewrite length_app in X. simpl in X. lia. }
    rewrite length_app in L. simpl in L. rewrite elem_of_cons, IH by (done || lia). split.
    + intros [->|(k & N & P & ->)]; [exists (l ++ [e]); by destruct l|]. exists k. split; [done|]. split; [by apply prefix_app_r|done].
    + intros (k & N & [r P] & ->). destruct (decide (r = [])) as [->|NR]; [left; by rewrite app_nil_r in P; subst|]. right.
      destruct (exists_last NR) as (r' & x & ->). rewrite app_assoc in P. apply app_inj_tail in P as [-> _].
      exists k. split; [done|]. split; [by exists r'|done].
Qed.

Lemma sort_strings_elem l x : x ∈ sort_strings l <-> x ∈ l.
Proof. unfold sort_strings. by rewrite merge_sort_Permutation. Qed.

(** The directories whose metadata an executable needs: exactly those above it. *)
Lemma darwinAncestorDirs_spec l q :
  Forall element l -> l <> [] ->
  q ∈ darwinAncestorDirs (of_elements l) <-> exists k, k `prefix_of` removelast l /\ q = of_elements k.
Proof.
  intros F N. unfold darwinAncestorDirs. rewrite Compact_elem, sort_strings_elem, elem_of_app, list_elem_of_singleton.
  assert (G : Forall element (removelast l)).
  { destruct (exists_last N) as (k & e & ->). rewrite removelast_last. by apply Forall_app in F as [F _]. }
  rewrite filepath_Dir_clean by done. rewrite path_Clean_abs by apply of_elements_absolute. rewrite elements_of_elements by done.
  rewrite ancestor_dirs_enough; [|done|].
  - split.
    + intros [(k & _ & P & ->)| ->]; [by exists k|]. exists []. split; [apply prefix_nil|done].
    + intros (k & P & ->). destruct (decide (k = [])) as [->|NK]; [by right|]. left. by exists k.
  - unfold of_elements. rewrite string_app_cons, string_app_nil. cbn [SplitByte]. rewrite bool_decide_eq_true_2 by done. simpl.
    destruct (decide (removelast l = [])) as [->|R]; [simpl; lia|].
    rewrite SplitByte_Join by (done || by apply element_free). lia.
Qed.

(** ** The profile *)

Section profile.
Context `{GoLib}.

Lemma darwin_exec_paths_spec seen paths execs p :
  darwin_exec_paths seen paths = Ok execs ->
  p ∈ execs <-> (exists raw, raw ∈ paths /\ TrimSpace raw <> "" /\ absolute (TrimSpace raw) /\ p = path_Clean (TrimSpace raw)) /\ p ∉ seen.
Proof.
  revert seen execs. induction paths as [|raw paths IH]; intros seen execs D; cbn [darwin_exec_paths] in D.
  { injection D as <-. split; [by intros ?%not_elem_of_nil|]. by intros ((raw & X%not_elem_of_nil & _) & _). }
  setoid_rewrite elem_of_cons. case_bool_decide as B; [rewrite (IH _ _ D); naive_solver|].
  destruct (filepath_IsAbs (TrimSpace raw)) eqn:A; [|done]. cbn [negb] in D. case_bool_decide as S; [rewrite (IH _ _ D); naive_solver|].
  apply result_bind_ok in D as (rest & R & [= <-]). rewrite elem_of_cons, (IH _ _ R), not_elem_of_union, not_elem_of_singleton.
  destruct (decide (p = path_Clean (TrimSpace raw))) as [->|]; naive_solver.
Qed.
Lemma darwin_exec_paths_refused seen paths execs raw :
  darwin_exec_paths seen paths = Ok execs -> raw ∈ paths -> TrimSpace raw <> "" -> absolute (TrimSpace raw).
Proof.
  revert seen execs. induction paths as [|r paths IH]; intros seen execs D I N; [by apply not_elem_of_nil in I|]. cbn [darwin_exec_paths] in D.
  apply elem_of_cons in I as [->|I].
  - rewrite bool_decide_eq_false_2 in D by done. by destruct (filepath_IsAbs (TrimSpace r)) eqn:A.
  - case_bool_decide; [by eapply IH|]. destruct (filepath_IsAbs _); [|done]. cbn [negb] in D. case_bool_decide; [by eapply IH|].
    apply result_bind_ok in D as (rest & R & _). by eapply IH.
Qed.

(** A host on the loopback interface: localhost, an address 127.x.y.z or the address ::1. *)
Definition loopback_host (host : string) : Prop :=
  TrimSpace host = "localhost" \/
  exists ip, ParseIP (TrimSpace host) = Some ip /\ (take 12 ip = v4InV6Prefix /\ ip !! 12%nat = Some 127 \/ ip = replicate 15 0 ++ [1]).
Lemma isDarwinLoopbackHost_spec host : isDarwinLoopbackHost host = true <-> loopback_host host.
Proof.
  unfold isDarwinLoopbackHost, loopback_host. case_bool_decide as L; [tauto|]. destruct (ParseIP (TrimSpace host)) as [ip|]; [|naive_solver].
  unfold IsLoopback. case_bool_decide as V; rewrite bool_decide_eq_true; split.
  - intros ?. right. exists ip. auto.
  - intros [|(ip' & [= <-] & [[_ ?]| ->])]; [done|done|discriminate V].
  - intros ->. right. eexists. split; [done|]. by right.
  - intros [|(ip' & [= <-] & [[? _]|?])]; done.
Qed.
(** A port that is to be reachable: one of a configured address on the loopback interface. *)
Definition proxy_port (addrs : list string) (port : Z) : Prop :=
  1 <= port <= 65535 /\ exists addr host text,
    addr ∈ addrs /\ SplitHostPort (TrimSpace addr) = Ok (host, text) /\ loopback_host host /\ Atoi text = Some port.
Lemma proxy_port_cons addr addrs port :
  proxy_port (addr :: addrs) port <->
    proxy_port addrs port \/ 1 <= port <= 65535 /\ exists host text, SplitHostPort (TrimSpace addr) = Ok (host, text) /\ loopback_host host /\ Atoi text = Some port.
Proof.
  unfold proxy_port. split.
  - intros (R & a & host & text & [->|I]%elem_of_cons & X); [right|left]; (split; [done|]); eauto 6.
  - intros [(R & a & host & text & I & X)|(R & host & text & X)]; (split; [done|]); [exists a, host, text; split; [by right|done]|].
    exists addr, host, text. split; [by left|done].
Qed.
Lemma darwin_ports_spec seen addrs ports port :
  darwin_ports seen addrs = Ok ports -> port ∈ ports <-> proxy_port addrs port /\ port ∉ seen.
Proof.
  revert seen ports. induction addrs as [|addr addrs IH]; intros seen ports D; cbn [darwin_ports] in D.
  { injection D as <-. split; [by intros ?%not_elem_of_nil|]. intros ((_ & a & h & t & X%not_elem_of_nil & _) & _). done. }
  rewrite proxy_port_cons. case_bool_decide as B.
  { rewrite (IH _ _ D). split; [tauto|]. intros [[X|(_ & host & text & S & _)] N]; [done|]. rewrite B in S. discriminate S. }
  apply result_bind_ok in D as ([host text] & S & D). apply result_wrap_ok in S.
  cbn [fst snd] in D. destruct (isDarwinLoopbackHost host) eqn:LB; [|done]. apply isDarwinLoopbackHost_spec in LB.
  cbn [negb] in D. destruct (Atoi text) as [n|] eqn:A; [|done].
  destruct ((n <=? 0) || (65535 <? n)) eqn:R; [done|]. rewrite S.
  assert (H1 : (1 <= port <= 65535 /\ exists h t, Ok (host, text) = Ok (h, t) /\ loopback_host h /\ Atoi t = Some port) <-> port = n).
  { split; [intros (_ & h & t & [= <- <-] & _ & X); congruence|]. intros ->. split; [lia|]. by exists host, text. }
  rewrite H1. case_bool_decide as I.
  - rewrite (IH _ _ D). split; [tauto|]. intros [[X| ->] N]; done.
  - apply result_bind_ok in D as (rest & Q & [= <-]). rewrite elem_of_cons, (IH _ _ Q). set_unfold. destruct (decide (port = n)) as [->|]; tauto.
Qed.

(** *** Spellings of a path *)

(** On macOS /tmp is a link to /private/tmp: a path below one of them has another spelling below the other. *)
Definition under_tmp (path : string) : Prop := path = "/tmp" \/ exists rest, path = "/tmp/" +:+ rest.
Inductive other_spelling : string -> string -> Prop :=
| spelled_private q : under_tmp q -> other_spelling q ("/private" +:+ q)
| spelled_short q : under_tmp q -> other_spelling ("/private" +:+ q) q.
Lemma darwinMirrorTmpPath_spec path q : q <> "" -> darwinMirrorTmpPath path = q <-> other_spelling path q.
Proof.
  intros N. unfold darwinMirrorTmpPath. split.
  - case_bool_decide as P; [intros <-; subst; apply (spelled_private "/tmp"); by left|].
    case_bool_decide as P'; [intros <-; subst; apply (spelled_short "/tmp"); by left|].
    destruct (HasPrefix path "/tmp/") eqn:E1; [intros <-; apply HasPrefix_iff in E1 as [r ->]; apply spelled_private; right; by exists r|].
    destruct (HasPrefix path "/private/tmp/") eqn:E2; [|congruence]. apply HasPrefix_iff in E2 as [r ->]. intros <-.
    change (other_spelling ("/private" +:+ ("/tmp/" +:+ r)) ("/tmp/" +:+ r)). apply spelled_short. right. by exists r.
  - intros S. destruct S as [q' [->|[r ->]]|q' [->|[r ->]]]; [done| |done|].
    + rewrite !bool_decide_eq_false_2 by done. by replace (HasPrefix ("/tmp/" +:+ r) "/tmp/") with true by (symmetry; apply HasPrefix_iff; by exists r).
    + rewrite !bool_decide_eq_false_2 by done. unfold TrimPrefix.
      replace (HasPrefix ("/private" +:+ "/tmp/" +:+ r) "/private/tmp/") with true by (symmetry; apply HasPrefix_iff; by exists r).
      replace (HasPrefix ("/private" +:+ "/tmp/" +:+ r) "/private") with true by (symmetry; apply HasPrefix_iff; by exists ("/tmp/" +:+ r)).
      reflexivity.
Qed.
Lemma expand_candidates_spec seen candidates q : q ∈ expand_candidates seen candidates <-> q ∈ candidates /\ q <> "" /\ q ∉ seen.
Proof.
  revert seen. induction candidates as [|c candidates IH]; intros seen; cbn [expand_candidates]; [set_solver|].
  case_bool_decide as E; [subst; simpl; rewrite IH; set_solver|]. case_bool_decide as S; simpl; rewrite ?elem_of_cons, IH; [set_solver|].
  set_unfold. destruct (decide (q = c)) as [->|]; [|tauto]. tauto.
Qed.
Lemma path_Clean_not_empty path : absolute path -> path_Clean path <> "".
Proof. intros A E. apply path_Clean_absolute in A. unfold absolute in A. by rewrite E in A. Qed.
Lemma expandDarwinPathVariants_spec paths q :
  Forall absolute paths ->
  q ∈ expandDarwinPathVariants paths <-> exists path, path ∈ paths /\ (q = path_Clean path \/ other_spelling path q).
Proof.
  intros F. rewrite Forall_forall in F. unfold expandDarwinPathVariants. rewrite expand_candidates_spec, list_elem_of_In, in_flat_map.
  setoid_rewrite <- list_elem_of_In. split.
  - intros ((path & P & [->|[M|[]]%list_elem_of_In]%elem_of_cons) & N & _); exists path; (split; [done|]); [by left|right].
    by apply darwinMirrorTmpPath_spec.
  - intros (path & P & Q). split; [|split; [|set_solver]].
    + exists path. split; [done|]. rewrite elem_of_cons, list_elem_of_singleton. destruct Q as [->|S]; [by left|right].
      symmetry. apply darwinMirrorTmpPath_spec; [|done]. by destruct S as [q [->|[r ->]]|q [->|[r ->]]].
    + destruct Q as [->|S]; [by apply path_Clean_not_empty, F|]. by destruct S as [q [->|[r ->]]|q [->|[r ->]]].
Qed.

(** *** What a profile is to grant *)

(** The rules that do not depend on the configuration. *)
Definition service (name : string) : sexp := Node [Atom "global-name"; Str name].
Definition runtime_grants : list (string * list sexp) := [
  ("process-fork", []); ("process-info*", []); ("signal", [Node [Atom "target"; Atom "same-sandbox"]]);
  ("user-preference-read", []); ("ipc-posix-shm", []); ("ipc-posix-sem", []);
  ("system-socket", [Node [Atom "require-all"; Node [Atom "socket-domain"; Atom "AF_SYSTEM"]; Node [Atom "socket-protocol"; Atom "2"]]]);
  ("mach-lookup", map service ["com.apple.system.logger"; "com.apple.SystemConfiguration.configd"; "com.apple.trustd.agent";
                               "com.apple.securityd.xpc"; "com.apple.system.opendirectoryd.libinfo"; "com.apple.system.opendirectoryd.membership"]);
  ("sysctl-read", []); ("file-read-metadata", []); ("file-read-data", [Node [Atom "literal"; Str "/"]])].
Definition system_directories : list string :=
  ["/System"; "/Library"; "/usr"; "/bin"; "/sbin"; "/dev"; "/etc"; "/private/etc"; "/var/db"; "/private/var/db";
   "/var/folders"; "/private/var/folders"; "/tmp"; "/private/tmp"].
(** A filter on a path: its argument is the path as a string literal. *)
Definition path_filter (kind path : string) (f : sexp) : Prop := exists body, Quote path = quoted body /\ f = Node [Atom kind; Str body].
Definition work_path (cfg : darwinProfileConfig) (path : string) : Prop :=
  let workDir := TrimSpace (dc_WorkDir cfg) in path = path_Clean workDir \/ other_spelling workDir path.
Definition exec_path (cfg : darwinProfileConfig) (path : string) : Prop :=
  exists raw, raw ∈ dc_AllowedExecPaths cfg /\ TrimSpace raw <> "" /\
    let exe := path_Clean (TrimSpace raw) in path = exe \/ other_spelling exe path.
Inductive configured (cfg : darwinProfileConfig) : string -> list sexp -> Prop :=
| grant_runtime op filters : (op, filters) ∈ runtime_grants -> configured cfg op filters
| grant_system path f : path ∈ system_directories -> path_filter "subpath" path f -> configured cfg "file-read*" [f]
| grant_read path f : work_path cfg path -> path_filter "subpath" path f -> configured cfg "file-read*" [f]
| grant_write path f : work_path cfg path -> path_filter "subpath" path f -> configured cfg "file-write*" [f]
| grant_exec path f : exec_path cfg path -> path_filter "literal" path f -> configured cfg "process-exec" [f]
| grant_exec_read path f : exec_path cfg path -> path_filter "literal" path f -> configured cfg "file-read*" [f]
| grant_proxy port : proxy_port (dc_ProxyAddrs cfg) port ->
    configured cfg "network-outbound" [Node [Atom "remote"; Atom "ip"; Str ("localhost:" +:+ Itoa port)]].

(** *** What the lines say *)

(** [strconv.Quote] returns a string literal. *)
Hypothesis quote_literal : forall s, exists body, unicode_Quote s = quoted body /\ literal_body body.
Lemma Quote_literal s : exists body, Quote s = quoted body /\ literal_body body.
Proof.
  unfold Quote. destruct (string_all is_ascii s); [|apply quote_literal]. exists (quote_body s). split; [done|apply quote_body_literal].
Qed.
(** The content of the literal of a path. *)
Definition unquoted (path : string) : string := let q := Quote path in string_take (String.length q - 2) (string_drop 1 q).
Lemma unquoted_of path body : Quote path = quoted body -> unquoted path = body.
Proof.
  intros Q. unfold unquoted. rewrite Q. unfold quoted, str1. rewrite string_app_cons, string_app_nil. cbn [String.length string_drop].
  rewrite string_app_length. cbn [String.length]. replace (S (String.length body + 1) - 2)%nat with (String.length body) by lia. apply string_take_app_length.
Qed.
Lemma unquoted_spec path : Quote path = quoted (unquoted path) /\ literal_body (unquoted path).
Proof. destruct (Quote_literal path) as (body & Q & L). by rewrite (unquoted_of _ _ Q). Qed.
Lemma path_filter_unquoted kind path f : path_filter kind path f <-> f = Node [Atom kind; Str (unquoted path)].
Proof.
  split; [intros (body & Q & ->); by rewrite (unquoted_of _ _ Q)|]. intros ->. exists (unquoted path). split; [apply unquoted_spec|done].
Qed.
Definition path_rule (op kind path : string) : string * list sexp := (op, [Node [Atom kind; Str (unquoted path)]]).
(** A rule on a path, whatever characters the path has. *)
Lemma says_path op kind path before after :
  lex Between ("(allow " +:+ op +:+ str1 10 +:+ "  (" +:+ kind +:+ " " +:+ str1 34) = ([LP; Word "allow"; Word op; LP; Word kind], InText "") ->
  before = "(allow " +:+ op -> after = "  (" +:+ kind +:+ " " +:+ Quote path +:+ "))" ->
  says [before; after] [allow (path_rule op kind path)].
Proof.
  intros P -> ->. destruct (unquoted_spec path) as [Q L]. exists [LP; Word "allow"; Word op; LP; Word kind; Text (unquoted path); RP; RP]. split; [|done].
  assert (T : lines_text ["(allow " +:+ op; "  (" +:+ kind +:+ " " +:+ Quote path +:+ "))"] =
    ("(allow " +:+ op +:+ str1 10 +:+ "  (" +:+ kind +:+ " " +:+ str1 34) +:+ unquoted path +:+ (str1 34 +:+ "))" +:+ str1 10)).
  { rewrite Q. unfold lines_text, quoted. cbn [foldr]. by rewrite !string_app_assoc. }
  rewrite T, lex_app, P. cbn [fst snd]. by rewrite lex_app, lex_literal.
Qed.
Lemma says_network port : 0 <= port ->
  says [network_rule port] [allow ("network-outbound", [Node [Atom "remote"; Atom "ip"; Str ("localhost:" +:+ Itoa port)]])].
Proof.
  intros N. exists [LP; Word "allow"; Word "network-outbound"; LP; Word "remote"; Word "ip"; Text ("localhost:" +:+ Itoa port); RP; RP]. split; [|done].
  assert (T : lines_text [network_rule port] =
    ("(allow network-outbound (remote ip " +:+ str1 34 +:+ "localhost:") +:+ Itoa port +:+ (str1 34 +:+ "))" +:+ str1 10)).
  { unfold lines_text, network_rule, quoted. cbn [foldr]. by rewrite !string_app_assoc. }
  rewrite T, lex_app. change (lex Between ("(allow network-outbound (remote ip " +:+ str1 34 +:+ "localhost:"))
    with ([LP; Word "allow"; Word "network-outbound"; LP; Word "remote"; Word "ip"], InText "localhost:"). cbn [fst snd].
  rewrite lex_app, lex_literal by (by apply digits_literal, Itoa_digits). done.
Qed.

Definition profile_grants (workDir : string) (execs : list string) (ports : list Z) : list (string * list sexp) :=
  runtime_grants ++ flat_map (fun path => [path_rule "file-read*" "subpath" path]) darwinSystemReadPaths ++
  flat_map (fun path => [path_rule "file-read*" "subpath" path; path_rule "file-write*" "subpath" path]) (expandDarwinPathVariants [workDir]) ++
  flat_map (fun path => [path_rule "process-exec" "literal" path] ++ [path_rule "file-read*" "literal" path] ++
                        flat_map (fun dir => [path_rule "file-read-metadata" "literal" dir]) (darwinAncestorDirs path)) (expandDarwinPathVariants execs) ++
  flat_map (fun port => [("network-outbound", [Node [Atom "remote"; Atom "ip"; Str ("localhost:" +:+ Itoa port)]])]) ports.
Definition profile_start : list sexp := [Node [Atom "version"; Atom "1"]; Node [Atom "deny"; Atom "default"]].
Lemma profile_rules_say workDir execs ports :
  Forall (fun n => 0 <= n) ports -> says (profile_rules workDir execs ports) (profile_start ++ map allow (profile_grants workDir execs ports)).
Proof.
  intros P. unfold profile_rules, profile_grants. rewrite map_app, (app_assoc profile_start).
  apply says_app; [eexists; split; [vm_compute; reflexivity|]; intros current rest; cbn; rewrite <- !app_assoc; reflexivity|].
  rewrite !map_app. apply says_app; [apply says_flat_map; intros path _; by apply says_path|].
  apply says_app; [apply says_flat_map; intros path _; apply (says_app _ _ [_] [_]); by apply says_path|].
  apply says_app.
  { apply says_flat_map. intros path _. rewrite !map_app. apply says_app; [by apply says_path|]. apply says_app; [by apply says_path|].
    apply says_flat_map. intros dir _. by apply says_path. }
  apply (says_app _ _ []); [exists []; split; [reflexivity|]; intros current rest; rewrite app_nil_r; reflexivity|].
  replace (map network_rule ports) with (flat_map (fun port => [network_rule port]) ports) by (clear P; induction ports; simpl; congruence).
  apply says_flat_map. intros port I. apply says_network. rewrite Forall_forall in P. by apply P.
Qed.
Lemma elem_of_flat_map {A B} (f : A -> list B) l y : y ∈ flat_map f l <-> exists x, x ∈ l /\ y ∈ f x.
Proof. rewrite list_elem_of_In, in_flat_map. by setoid_rewrite list_elem_of_In. Qed.


Lemma profile_grants_spec cfg execs ports op filters :
  absolute (TrimSpace (dc_WorkDir cfg)) -> Forall absolute execs -> op <> "file-read-metadata" ->
  (forall q, (exists p, p ∈ execs /\ (q = path_Clean p \/ other_spelling p q)) <-> exec_path cfg q) ->
  (forall n, n ∈ ports <-> proxy_port (dc_ProxyAddrs cfg) n) ->
  (op, filters) ∈ profile_grants (TrimSpace (dc_WorkDir cfg)) execs ports <-> configured cfg op filters.
Proof.
  intros W X M E N. unfold profile_grants. rewrite !elem_of_app, !elem_of_flat_map.
  assert (V1 := fun q => expandDarwinPathVariants_spec execs q X). setoid_rewrite V1. clear V1.
  assert (V2 := fun q => expandDarwinPathVariants_spec [TrimSpace (dc_WorkDir cfg)] q (proj2 (Forall_singleton _ _) W)). setoid_rewrite V2. clear V2.
  setoid_rewrite E. setoid_rewrite N. setoid_rewrite elem_of_app. setoid_rewrite elem_of_app. setoid_rewrite elem_of_flat_map.
  unfold path_rule. split.
  - intros [R|[(p & P & R)|[(p & (w & ->%list_elem_of_singleton & P) & R)|[(p & P & R)|(n & P & R)]]]]; [by apply grant_runtime|..]; set_unfold in R.
    + destruct R as [[= -> ->]|[]]. by eapply grant_system, path_filter_unquoted.
    + destruct R as [[= -> ->]|[[= -> ->]|[]]]; [by eapply grant_read, path_filter_unquoted|by eapply grant_write, path_filter_unquoted].
    + destruct R as [[[= -> ->]|[]]|[[[= -> ->]|[]]|(dir & _ & [[= -> ->]|[]])]];
        [by eapply grant_exec, path_filter_unquoted|by eapply grant_exec_read, path_filter_unquoted|done].
    + destruct R as [[= -> ->]|[]]. by apply grant_proxy.
  - intros C. destruct C as [op filters R|p f P ->%path_filter_unquoted|p f P ->%path_filter_unquoted|p f P ->%path_filter_unquoted
      |p f P ->%path_filter_unquoted|p f P ->%path_filter_unquoted|n P].
    + by left.
    + right; left. exists p. split; [done|by left].
    + right; right; left. exists p. split; [|by left]. eexists. split; [by left|done].
    + right; right; left. exists p. split; [|by right; left]. eexists. split; [by left|done].
    + right; right; right; left. exists p. split; [done|]. by left; left.
    + right; right; right; left. exists p. split; [done|]. by right; left; left.
    + right; right; right; right. exists n. split; [done|by left].
Qed.

(** C31. A Seatbelt profile grants what was configured and nothing else. Its text is read as a version, a rule
    that denies by default, and allowing rules only; and, metadata of files apart, which is readable
    everywhere, an operation is allowed with a filter exactly when [configured] says so: writing below the
    working directory, in its two spellings when it lies under /tmp, and nowhere else; execution of the given
    executables; outgoing connections to the ports of the configured loopback addresses; reading of these
    paths and the fixed system directories; the fixed runtime services. So no name of a directory or an
    executable, whatever characters it has, adds or changes a rule. The one assumption is that Go's quoting
    yields a string literal. *)
Theorem seatbelt_profile_exact cfg profile :
  generateDarwinSeatbeltProfile cfg = Ok profile ->
  exists rules,
    read_profile profile = Some (Node [Atom "version"; Atom "1"] :: Node [Atom "deny"; Atom "default"] :: map allow rules) /\
    ("file-read-metadata", []) ∈ rules /\
    forall op filters, op <> "file-read-metadata" -> (op, filters) ∈ rules <-> configured cfg op filters.
Proof.
  unfold generateDarwinSeatbeltProfile. destruct (bool_decide (TrimSpace (dc_WorkDir cfg) = "") || negb (filepath_IsAbs (TrimSpace (dc_WorkDir cfg)))) eqn:W; [done|].
  apply orb_false_iff in W as [_ W]. apply negb_false_iff in W. rewrite result_bind_ok. intros (execs & E & P).
  apply result_bind_ok in P as (ports & N & [= <-]). apply result_bind_ok in E as (raw & E & [= <-]). apply result_bind_ok in N as (rawp & N & [= <-]).
  assert (PF : forall n, n ∈ merge_sort Z.le rawp <-> proxy_port (dc_ProxyAddrs cfg) n).
  { intros n. rewrite merge_sort_Permutation, (darwin_ports_spec _ _ _ n N). set_solver. }
  assert (EF : forall p, p ∈ sort_strings raw <-> exists r, r ∈ dc_AllowedExecPaths cfg /\ TrimSpace r <> "" /\ absolute (TrimSpace r) /\ p = path_Clean (TrimSpace r)).
  { intros p. rewrite sort_strings_elem, (darwin_exec_paths_spec _ _ _ p E). set_solver. }
  exists (profile_grants (TrimSpace (dc_WorkDir cfg)) (sort_strings raw) (merge_sort Z.le rawp)). split; [|split].
  - etrans; [refine (f_equal read_profile (Join_lines (profile_rules _ _ _) _)); discriminate|].
    apply (says_read _ (profile_start ++ map allow _)), profile_rules_say, Forall_forall. intros n I%PF. destruct I as [R _]. lia.
  - apply elem_of_app. left. unfold runtime_grants. rewrite !elem_of_cons. tauto.
  - intros op filters M. apply profile_grants_spec; [done| |done| |done].
    + apply Forall_forall. intros p (r & _ & _ & A & ->)%EF. by apply path_Clean_absolute.
    + intros q. unfold exec_path. setoid_rewrite EF. split.
      * intros (p & (r & I & NE & A & ->) & [->|S]); exists r; (split; [done|]); (split; [done|]); [left; by apply path_Clean_idemp|by right].
      * intros (r & I & NE & S). pose proof (darwin_exec_paths_refused _ _ _ _ E I NE) as A. exists (path_Clean (TrimSpace r)).
        split; [by exists r|]. rewrite path_Clean_idemp by done. exact S.
Qed.
End profile.

(** ** The environment and the helper *)

(** Variables of the dynamic loader do not reach the payload, all others do. *)
Lemma sanitizeDarwinEnv_value env key :
  lastEnvValue (sanitizeDarwinEnv env) key = if HasPrefix key "DYLD_" then None else lastEnvValue env key.
Proof.
  unfold lastEnvValue, sanitizeDarwinEnv. induction env as [|e env IH] using rev_ind; [by destruct (HasPrefix key _)|].
  rewrite List.filter_app. simpl. rewrite last_value_snoc. destruct (splitEnv e) as [[k v]|] eqn:S; [|by rewrite app_nil_r].
  destruct (HasPrefix k "DYLD_") eqn:P; simpl.
  - rewrite app_nil_r, IH. destruct (HasPrefix key "DYLD_") eqn:K; [done|]. rewrite bool_decide_eq_false_2; [done|]. intros ->. congruence.
  - rewrite last_value_snoc, S, IH. destruct (decide (k = key)) as [->|N]; [rewrite bool_decide_eq_true_2 by done; by rewrite P|].
    by rewrite bool_decide_eq_false_2.
Qed.

(** A helper that cannot be started leaves nothing behind but a process that outlived
    the waits and a log that could not be removed; one that was started holds its
    process, its end of the bridge and its log. *)
Lemma darwin_helper_balanced env opts :
  match newDarwinSandboxRuntime env opts with
  | (Err _, events) => forall r, r ∈ held events ->
      r = RProcess /\ darwin_helper_gone (da_close env) = false \/ r = RLogFile /\ is_Some (da_removeLog env)
  | (Ok _, events) => held events = [RProcess; RHelperLog; RLogFile; RBridgeParent]
  end.
Proof.
  unfold newDarwinSandboxRuntime. destruct (da_runtimeBinary env); [|by intros r X%not_elem_of_nil].
  destruct (da_bridgePair env); [|by intros r X%not_elem_of_nil].
  destruct (da_helperLog env); [|by intros r X%not_elem_of_nil]. unfold release.
  destruct (da_cmdStart env); [destruct (da_removeLog env); cbn; set_solver|]. destruct (da_clientStart env); [done|].
  destruct (darwin_helper_gone (da_close env)), (da_removeLog env); cbn; set_solver.
Qed.

(** As on Linux, the exit status of a helper that failed is consumed by the first
    wait: what [Close] reports is a timeout. *)
Lemma darwin_exit_status_lost suffix code :
  darwin_Close suffix {| dl_client := None; dl_wait1 := Some (Some (ExitStatus code)); dl_wait2 := None; dl_wait3 := None;
                         dl_SIGTERM := None; dl_SIGKILL := None |} =
    ["wait for darwin proxy helper: timeout waiting for darwin proxy helper exit" +:+ suffix].
Proof. reflexivity. Qed.

Section command.
Context `{GoLib} `{HostFS}.

(** The command runs under the profile of its working directory, the binaries of the sandbox and itself. *)
Lemma darwin_command_ok h r argv optWorkDir env cmd :
  darwin_command h r argv optWorkDir env = Ok cmd ->
  exists profile path args execs,
    dn_argv cmd = ["sandbox-exec"; "-p"; profile; path] ++ args /\ dn_env cmd = sanitizeDarwinEnv env /\
    generateDarwinSeatbeltProfile {| dc_WorkDir := dn_dir cmd; dc_AllowedExecPaths := execs; dc_ProxyAddrs := [dw_proxyAddr r] |} = Ok profile /\
    Forall2 (fun p e => resolveDarwinExecutable h p env (dn_dir cmd) = Ok e) (dw_binaries r ++ [path]) execs.
Proof.
  unfold darwin_command. destruct argv as [|name args]; [done|]. rewrite result_bind_ok. intros (path & P & C).
  apply result_bind_ok in C as (execs & E & C). apply result_bind_ok in C as (profile & G & [= <-]).
  exists profile, path, args, execs. split; [done|]. split; [done|]. split; [done|]. by apply result_map_ok.
Qed.
End command.

(** ** Samples *)

Module SampleDarwin.
(** As [sampleLib], with quoting that escapes every control character. *)
Definition quotingLib : GoLib := {|
  unicode_ToLower := string_map lower_char;
  unicode_ToUpper := string_map upper_char;
  unicode_Quote s := str1 34 +:+ quote_body s +:+ str1 34;
  regexp := Sample.pattern;
  regexp_Compile := Sample.sample_compile;
  regexp_MatchString := Sample.sample_match;
|}.
Lemma quoting_literal s : exists body, @unicode_Quote quotingLib s = quoted body /\ literal_body body.
Proof. exists (quote_body s). split; [reflexivity|apply quote_body_literal]. Qed.
(** A working directory whose name looks like a rule. *)
Definition workdir : string := "/tmp/w))(allow file-write* (subpath " +:+ quoted "/" +:+ "))".
Definition cfg : darwinProfileConfig := {|
  dc_WorkDir := workdir; dc_AllowedExecPaths := ["/bin/sh"; "/bin/../bin/sh"; " /usr/bin/git"]; dc_ProxyAddrs := ["127.0.0.1:4000"; ""] |}.
End SampleDarwin.

Lemma seatbelt_profile_exact_witness :
  exists profile rules, @generateDarwinSeatbeltProfile SampleDarwin.quotingLib SampleDarwin.cfg = Ok profile /\
    read_profile profile = Some (Node [Atom "version"; Atom "1"] :: Node [Atom "deny"; Atom "default"] :: map allow rules) /\
    ("file-write*", [Node [Atom "subpath"; Str (quote_body SampleDarwin.workdir)]]) ∈ rules.
Proof.
  destruct (@generateDarwinSeatbeltProfile SampleDarwin.quotingLib SampleDarwin.cfg) as [profile|e] eqn:E; [|vm_compute in E; discriminate E].
  destruct (@seatbelt_profile_exact SampleDarwin.quotingLib SampleDarwin.quoting_literal SampleDarwin.cfg profile E) as (rules & R & _ & S).
  exists profile, rules. split; [reflexivity|]. split; [exact R|]. apply S; [discriminate|].
  apply (@grant_write SampleDarwin.quotingLib SampleDarwin.cfg (path_Clean SampleDarwin.workdir)); [left; reflexivity|].
  exists (quote_body SampleDarwin.workdir). split; reflexivity.
Defined.
