(* ===== verification/Config.v ===== *)
(** The command line's configuration: config.go, config_file.go, config_merge.go,
    effective_config.go and mounts.go of src/cmd/bbox.

    The YAML decoder is the parameter [yaml_decode]. A value of the configuration
    and its flag [has...] form one [setting]; slices and their clones are lists. *)
From S2P Require Import Prelude GoStrings GoPath HostFS Policy Access Manager Docker Seccomp Staging Mounts Assembly.

(** ** Data: config.go *)

Record cliPolicyRuleConfig := {
  cr_HostPatterns : list string; cr_IPCIDRs : list string; cr_HTTPMethods : list string; cr_ConnectPorts : list string;
  cr_PathPatterns : list string; cr_HeaderPatterns : list (string * list string); cr_BodyPatterns : list string }.
Record cliDockerSocketHTTPConfig := { ch_Methods : list string; ch_PathPatterns : list string }.
Record cliDockerSocketBuildConfig := { cb_Context : string; cb_DockerfilePaths : list string }.
Record cliDockerSocketRuleConfig := {
  cs_Action : string; cs_Operations : list string;
  cs_HTTP : option cliDockerSocketHTTPConfig; cs_Build : option cliDockerSocketBuildConfig }.
Record cliMountConfig := { cm_Type : string; cm_Source : string; cm_Target : string; cm_ReadOnly : bool; cm_Mode : Z }.

Record setting (A : Type) := { sv : A; has : bool }.
Arguments sv {A} _.
Arguments has {A} _.
Definition unset {A} (zero : A) : setting A := {| sv := zero; has := false |}.
Definition set_to {A} (v : A) : setting A := {| sv := v; has := true |}.
(** [if p != nil { cfg.X = *p; cfg.hasX = true }] on a zero value. *)
Definition from_pointer {A} (zero : A) (p : option A) : setting A :=
  match p with Some v => set_to v | None => unset zero end.

Record cliDockerSocketConfig := {
  cd_Enabled : setting bool; cd_MountPath : setting string; cd_TargetSocketPath : setting string;
  cd_DefaultAction : setting string; cd_Rules : setting (list cliDockerSocketRuleConfig) }.
Record cliDockerBuildConfig := {
  ck_Enabled : setting bool; ck_BuildkitdPath : setting string; ck_BuildctlPath : setting string; ck_RuncPath : setting string;
  ck_PodmanPath : setting string; ck_NewuidmapPath : setting string; ck_NewgidmapPath : setting string }.
Record cliFileConfig := {
  cf_Name : setting string; cf_WorkDir : setting string; cf_Bin : setting (list string); cf_Mounts : setting (list cliMountConfig);
  cf_Env : setting (list string); cf_CopyEnv : setting (list string); cf_TrafficMode : setting string;
  cf_PolicyMode : setting string; cf_MaxRequestBodyBytes : setting Z; cf_AccessLog : setting string;
  cf_ReportPolicyViolations : setting bool; cf_ReportAccessSummary : setting bool; cf_ReportRequestSummary : setting bool;
  cf_PolicyRules : setting (list cliPolicyRuleConfig);
  cf_DockerSocket : cliDockerSocketConfig;
  cf_DockerBuild : cliDockerBuildConfig }.

Definition empty_socket : cliDockerSocketConfig := {|
  cd_Enabled := unset false; cd_MountPath := unset ""; cd_TargetSocketPath := unset ""; cd_DefaultAction := unset "";
  cd_Rules := unset [] |}.
Definition empty_build : cliDockerBuildConfig := {|
  ck_Enabled := unset false; ck_BuildkitdPath := unset ""; ck_BuildctlPath := unset ""; ck_RuncPath := unset "";
  ck_PodmanPath := unset ""; ck_NewuidmapPath := unset ""; ck_NewgidmapPath := unset "" |}.
(** The zero value of the struct. *)
Definition empty_config : cliFileConfig := {|
  cf_Name := unset ""; cf_WorkDir := unset ""; cf_Bin := unset []; cf_Mounts := unset []; cf_Env := unset []; cf_CopyEnv := unset [];
  cf_TrafficMode := unset ""; cf_PolicyMode := unset ""; cf_MaxRequestBodyBytes := unset 0; cf_AccessLog := unset "";
  cf_ReportPolicyViolations := unset false; cf_ReportAccessSummary := unset false; cf_ReportRequestSummary := unset false;
  cf_PolicyRules := unset []; cf_DockerSocket := empty_socket; cf_DockerBuild := empty_build |}.

(** What the YAML decoder fills in: every field may be absent. *)
Record rawCLIDockerSocketRuleConfig := {
  rr_Action : option string; rr_Operations : option (list string);
  rr_HTTP : option (option (list string) * option (list string));
  rr_Build : option (option string * option (list string)) }.
Record rawCLIDockerSocketConfig := {
  rd_Enabled : option bool; rd_MountPath : option string; rd_TargetSocketPath : option string;
  rd_DefaultAction : option string; rd_Rules : option (list rawCLIDockerSocketRuleConfig) }.
Record rawCLIDockerBuildConfig := {
  rk_Enabled : option bool; rk_BuildkitdPath : option string; rk_BuildctlPath : option string; rk_RuncPath : option string;
  rk_PodmanPath : option string; rk_NewuidmapPath : option string; rk_NewgidmapPath : option string }.
Record rawCLIFileConfig := {
  rf_Name : option string; rf_WorkDir : option string; rf_Bin : option (list string); rf_Mounts : option (list cliMountConfig);
  rf_Env : option (list string); rf_CopyEnv : option (list string); rf_TrafficMode : option string; rf_PolicyMode : option string;
  rf_MaxRequestBodyBytes : option Z; rf_AccessLog : option string; rf_ReportPolicyViolations : option bool;
  rf_ReportAccessSummary : option bool; rf_ReportRequestSummary : option bool;
  rf_Policy : option (option (list cliPolicyRuleConfig));
  rf_DockerSocket : option rawCLIDockerSocketConfig;
  rf_DockerBuild : option rawCLIDockerBuildConfig }.
Record cliFlagOverrides := {
  fl_TrafficMode : option string; fl_PolicyMode : option string; fl_ReportPolicy : option bool;
  fl_ReportAccessSummary : option bool; fl_ReportRequestSummary : option bool; fl_AccessLog : option string }.

Definition toCLIDockerSocketRule (rule : rawCLIDockerSocketRuleConfig) : cliDockerSocketRuleConfig := {|
  cs_Action := default "" (rr_Action rule);
  cs_Operations := default [] (rr_Operations rule);
  cs_HTTP := option_map (fun h => {| ch_Methods := default [] h.1; ch_PathPatterns := default [] h.2 |}) (rr_HTTP rule);
  cs_Build := option_map (fun b => {| cb_Context := default "" b.1; cb_DockerfilePaths := default [] b.2 |}) (rr_Build rule) |}.
Definition toCLIDockerSocketRules (rules : list rawCLIDockerSocketRuleConfig) : list cliDockerSocketRuleConfig :=
  map toCLIDockerSocketRule rules.

(** ** The file: config_file.go *)

Definition toCLIDockerSocketConfig (raw : rawCLIDockerSocketConfig) : cliDockerSocketConfig := {|
  cd_Enabled := from_pointer false (rd_Enabled raw);
  cd_MountPath := from_pointer "" (rd_MountPath raw);
  cd_TargetSocketPath := from_pointer "" (rd_TargetSocketPath raw);
  cd_DefaultAction := from_pointer "" (rd_DefaultAction raw);
  cd_Rules := from_pointer [] (option_map toCLIDockerSocketRules (rd_Rules raw)) |}.
Definition toCLIDockerBuildConfig (raw : rawCLIDockerBuildConfig) : cliDockerBuildConfig := {|
  ck_Enabled := from_pointer false (rk_Enabled raw);
  ck_BuildkitdPath := from_pointer "" (rk_BuildkitdPath raw);
  ck_BuildctlPath := from_pointer "" (rk_BuildctlPath raw);
  ck_RuncPath := from_pointer "" (rk_RuncPath raw);
  ck_PodmanPath := from_pointer "" (rk_PodmanPath raw);
  ck_NewuidmapPath := from_pointer "" (rk_NewuidmapPath raw);
  ck_NewgidmapPath := from_pointer "" (rk_NewgidmapPath raw) |}.
Definition toCLIFileConfig (raw : rawCLIFileConfig) : cliFileConfig := {|
  cf_Name := from_pointer "" (rf_Name raw);
  cf_WorkDir := from_pointer "" (rf_WorkDir raw);
  cf_Bin := from_pointer [] (rf_Bin raw);
  cf_Mounts := from_pointer [] (rf_Mounts raw);
  cf_Env := from_pointer [] (rf_Env raw);
  cf_CopyEnv := from_pointer [] (rf_CopyEnv raw);
  cf_TrafficMode := from_pointer "" (rf_TrafficMode raw);
  cf_PolicyMode := from_pointer "" (rf_PolicyMode raw);
  cf_MaxRequestBodyBytes := from_pointer 0 (rf_MaxRequestBodyBytes raw);
  cf_AccessLog := from_pointer "" (rf_AccessLog raw);
  cf_ReportPolicyViolations := from_pointer false (rf_ReportPolicyViolations raw);
  cf_ReportAccessSummary := from_pointer false (rf_ReportAccessSummary raw);
  cf_ReportRequestSummary := from_pointer false (rf_ReportRequestSummary raw);
  cf_PolicyRules := from_pointer [] (match rf_Policy raw with Some rules => rules | None => None end);
  cf_DockerSocket := match rf_DockerSocket raw with Some d => toCLIDockerSocketConfig d | None => empty_socket end;
  cf_DockerBuild := match rf_DockerBuild raw with Some d => toCLIDockerBuildConfig d | None => empty_build end |}.

Definition resolveConfigPath (value baseDir : string) : string :=
  let value := TrimSpace value in
  if bool_decide (value = "") || filepath_IsAbs value then value else path_Clean (filepath_Join [baseDir; value]).

(** [if cfg.hasX { cfg.X = f(cfg.X) }] *)
Definition map_setting {A} (f : A -> A) (s : setting A) : setting A := if has s then set_to (f (sv s)) else s.

Section config.
Context `{GoLib} `{HostFS}.

(** [strings.EqualFold] with a lower-case ASCII word, on its own ASCII letters. *)
Definition fold_equal (s word : string) : bool := bool_decide (string_map lower_char s = word).

Definition resolveConfigMount (m : cliMountConfig) (baseDir : string) : cliMountConfig := {|
  cm_Type := cm_Type m;
  cm_Source := if fold_equal (TrimSpace (cm_Type m)) MountTypeBind then resolveConfigPath (cm_Source m) baseDir else cm_Source m;
  cm_Target := resolveConfigPath (cm_Target m) baseDir;
  cm_ReadOnly := cm_ReadOnly m; cm_Mode := cm_Mode m |}.

Definition resolveCLIFileConfigPaths (cfg : cliFileConfig) (configDir : string) : cliFileConfig :=
  let path := map_setting (fun p => resolveConfigPath p configDir) in
  let d := cf_DockerBuild cfg in {|
  cf_Name := cf_Name cfg;
  cf_WorkDir := path (cf_WorkDir cfg);
  cf_Bin := cf_Bin cfg;
  cf_Mounts := map_setting (map (fun m => resolveConfigMount m configDir)) (cf_Mounts cfg);
  cf_Env := cf_Env cfg; cf_CopyEnv := cf_CopyEnv cfg; cf_TrafficMode := cf_TrafficMode cfg; cf_PolicyMode := cf_PolicyMode cfg;
  cf_MaxRequestBodyBytes := cf_MaxRequestBodyBytes cfg; cf_AccessLog := cf_AccessLog cfg;
  cf_ReportPolicyViolations := cf_ReportPolicyViolations cfg; cf_ReportAccessSummary := cf_ReportAccessSummary cfg;
  cf_ReportRequestSummary := cf_ReportRequestSummary cfg; cf_PolicyRules := cf_PolicyRules cfg;
  cf_DockerSocket := cf_DockerSocket cfg;
  cf_DockerBuild := {|
    ck_Enabled := ck_Enabled d; ck_BuildkitdPath := path (ck_BuildkitdPath d); ck_BuildctlPath := path (ck_BuildctlPath d);
    ck_RuncPath := path (ck_RuncPath d); ck_PodmanPath := path (ck_PodmanPath d);
    ck_NewuidmapPath := path (ck_NewuidmapPath d); ck_NewgidmapPath := path (ck_NewgidmapPath d) |} |}.

(** Whether the error of [os_Stat] is ErrNotExist. *)
Context (stat_missing : fsState -> string -> bool).
(** One decoding: the end of the stream, an error, or a document and whether another one follows. *)
Inductive yamlResult := YEOF | YError (e : string) | YDocument (raw : rawCLIFileConfig) (more : bool).
Context (yaml_decode : string -> yamlResult).

(** The walk up the directories: [fuel] bounds the number of steps; the depth of
    the start plus one is enough ([find_config_total]). [None] is a loop that has
    not ended. *)
Fixpoint find_config_go (h : fsState) (fuel : nat) (current : string) : option (result string) :=
  match fuel with
  | O => None
  | S fuel =>
      let candidate := filepath_Join [current; "bbox.yaml"] in
      let continue := let parent := filepath_Dir current in
                      if bool_decide (parent = current) then Some (Ok "") else find_config_go h fuel parent in
      match os_Stat h candidate with
      | Ok info => if negb (fi_IsDir info) then Some (Ok candidate) else continue
      | Err e =>
          if negb (stat_missing h candidate) then Some (Err ("stat config file " +:+ Quote candidate +:+ ": " +:+ e)) else continue
      end
  end.
Definition path_depth (path : string) : nat := length (SplitByte path "/").
Definition findConfigFile (h : fsState) (startDir : string) : option (result string) :=
  match filepath_Abs startDir with
  | Err e => Some (Err ("resolve config search directory " +:+ Quote startDir +:+ ": " +:+ e))
  | Ok current => find_config_go h (S (path_depth current)) current
  end.

Definition loadCLIFileConfig (h : fsState) (path : string) : result cliFileConfig :=
  content <-! result_wrap (fun e => "read config file " +:+ Quote path +:+ ": " +:+ e) (os_ReadFile h path);
  match yaml_decode content with
  | YEOF => Ok empty_config
  | YError e => Err ("decode config file " +:+ Quote path +:+ ": " +:+ e)
  | YDocument raw more =>
      if more then Err ("decode config file " +:+ Quote path +:+ ": multiple YAML documents are not supported")
      else Ok (resolveCLIFileConfigPaths (toCLIFileConfig raw) (filepath_Dir path))
  end.

(** ** Layers: config_merge.go *)

Definition defaultCLIFileConfig : cliFileConfig := {|
  cf_Name := unset ""; cf_WorkDir := unset ""; cf_Bin := unset []; cf_Mounts := unset []; cf_Env := unset []; cf_CopyEnv := unset [];
  cf_TrafficMode := set_to "proxy"; cf_PolicyMode := set_to "enforce"; cf_MaxRequestBodyBytes := unset 0;
  cf_AccessLog := set_to "json"; cf_ReportPolicyViolations := set_to true; cf_ReportAccessSummary := set_to true;
  cf_ReportRequestSummary := set_to true;
  cf_PolicyRules := set_to [{| cr_HostPatterns := []; cr_IPCIDRs := []; cr_HTTPMethods := []; cr_ConnectPorts := ["443"];
    cr_PathPatterns := []; cr_HeaderPatterns := []; cr_BodyPatterns := [] |}];
  cf_DockerSocket := empty_socket; cf_DockerBuild := empty_build |}.

(** [if overlay.hasX { base.X = overlay.X; base.hasX = true }] *)
Definition over {A} (base overlay : setting A) : setting A := if has overlay then set_to (sv overlay) else base.

Definition mergeCLIConfigLayer (base overlay : cliFileConfig) : cliFileConfig :=
  let bs := cf_DockerSocket base in let os := cf_DockerSocket overlay in
  let bb := cf_DockerBuild base in let ob := cf_DockerBuild overlay in {|
  cf_Name := over (cf_Name base) (cf_Name overlay);
  cf_WorkDir := over (cf_WorkDir base) (cf_WorkDir overlay);
  cf_Bin := over (cf_Bin base) (cf_Bin overlay);
  cf_Mounts := over (cf_Mounts base) (cf_Mounts overlay);
  cf_Env := over (cf_Env base) (cf_Env overlay);
  cf_CopyEnv := over (cf_CopyEnv base) (cf_CopyEnv overlay);
  cf_TrafficMode := over (cf_TrafficMode base) (cf_TrafficMode overlay);
  cf_PolicyMode := over (cf_PolicyMode base) (cf_PolicyMode overlay);
  cf_MaxRequestBodyBytes := over (cf_MaxRequestBodyBytes base) (cf_MaxRequestBodyBytes overlay);
  cf_AccessLog := over (cf_AccessLog base) (cf_AccessLog overlay);
  cf_ReportPolicyViolations := over (cf_ReportPolicyViolations base) (cf_ReportPolicyViolations overlay);
  cf_ReportAccessSummary := over (cf_ReportAccessSummary base) (cf_ReportAccessSummary overlay);
  cf_ReportRequestSummary := over (cf_ReportRequestSummary base) (cf_ReportRequestSummary overlay);
  cf_PolicyRules := over (cf_PolicyRules base) (cf_PolicyRules overlay);
  cf_DockerSocket := {|
    cd_Enabled := over (cd_Enabled bs) (cd_Enabled os);
    cd_MountPath := over (cd_MountPath bs) (cd_MountPath os);
    cd_TargetSocketPath := over (cd_TargetSocketPath bs) (cd_TargetSocketPath os);
    cd_DefaultAction := over (cd_DefaultAction bs) (cd_DefaultAction os);
    cd_Rules := over (cd_Rules bs) (cd_Rules os) |};
  cf_DockerBuild := {|
    ck_Enabled := over (ck_Enabled bb) (ck_Enabled ob);
    ck_BuildkitdPath := over (ck_BuildkitdPath bb) (ck_BuildkitdPath ob);
    ck_BuildctlPath := over (ck_BuildctlPath bb) (ck_BuildctlPath ob);
    ck_RuncPath := over (ck_RuncPath bb) (ck_RuncPath ob);
    ck_PodmanPath := over (ck_PodmanPath bb) (ck_PodmanPath ob);
    ck_NewuidmapPath := over (ck_NewuidmapPath bb) (ck_NewuidmapPath ob);
    ck_NewgidmapPath := over (ck_NewgidmapPath bb) (ck_NewgidmapPath ob) |} |}.

(** [if flag != nil { merged.X = *flag; merged.hasX = true }] *)
Definition over_flag {A} (base : setting A) (flag : option A) : setting A :=
  match flag with Some v => set_to v | None => base end.
Definition mergeCLIConfig (defaults fileCfg : cliFileConfig) (flags : cliFlagOverrides) : cliFileConfig :=
  let merged := mergeCLIConfigLayer defaults fileCfg in {|
  cf_Name := cf_Name merged; cf_WorkDir := cf_WorkDir merged; cf_Bin := cf_Bin merged; cf_Mounts := cf_Mounts merged;
  cf_Env := cf_Env merged; cf_CopyEnv := cf_CopyEnv merged;
  cf_TrafficMode := over_flag (cf_TrafficMode merged) (fl_TrafficMode flags);
  cf_PolicyMode := over_flag (cf_PolicyMode merged) (fl_PolicyMode flags);
  cf_MaxRequestBodyBytes := cf_MaxRequestBodyBytes merged;
  cf_AccessLog := over_flag (cf_AccessLog merged) (fl_AccessLog flags);
  cf_ReportPolicyViolations := over_flag (cf_ReportPolicyViolations merged) (fl_ReportPolicy flags);
  cf_ReportAccessSummary := over_flag (cf_ReportAccessSummary merged) (fl_ReportAccessSummary flags);
  cf_ReportRequestSummary := over_flag (cf_ReportRequestSummary merged) (fl_ReportRequestSummary flags);
  cf_PolicyRules := cf_PolicyRules merged; cf_DockerSocket := cf_DockerSocket merged; cf_DockerBuild := cf_DockerBuild merged |}.
End config.
