(* ===== verification/RunConfig.v ===== *)
(** From the configuration to the options of the library: effective_config.go,
    mounts.go and run_config.go of src/cmd/bbox. The queries about links that
    [HostFS] does not have are the class [HostLinks]. *)
From S2P Require Import Prelude GoStrings GoPath HostFS Policy Access Manager Docker Seccomp Staging Mounts Assembly Config.

(** ** Mount specifications: mounts.go *)

(** [strconv.ParseBool] *)
Definition ParseBool (s : string) : option bool :=
  if bool_decide (s ∈ ["1"; "t"; "T"; "TRUE"; "true"; "True"]) then Some true
  else if bool_decide (s ∈ ["0"; "f"; "F"; "FALSE"; "false"; "False"]) then Some false
  else None.

(** [strconv.ParseUint(s, 0, 32)]: the base is taken from the prefix, underscores
    may separate digits. *)
Definition digit_value (c : Ascii.ascii) : option Z :=
  let c := lower_char c in
  if is_digit c then Some (byte_of c - 48) else if is_lower c then Some (byte_of c - 87) else None.
Fixpoint uint_digits (base : Z) (s : string) (n : Z) : option Z :=
  match s with
  | "" => Some n
  | String c s =>
      if bool_decide (c = "_"%char) then uint_digits base s n else
      d ← digit_value c;
      if base <=? d then None else
      let n := n * base + d in
      if 2 ^ 32 <=? n then None else uint_digits base s n
  end.
Inductive last_seen := LStart | LDigit | LUnderscore | LOther.
Fixpoint underscores_ok (hex : bool) (prev : last_seen) (s : string) : bool :=
  match s with
  | "" => match prev with LUnderscore => false | _ => true end
  | String c s =>
      let lc := lower_char c in
      if is_digit c || (hex && (97 <=? byte_of lc) && (byte_of lc <=? 102)) then underscores_ok hex LDigit s
      else if bool_decide (c = "_"%char) then match prev with LDigit => underscores_ok hex LUnderscore s | _ => false end
      else match prev with LUnderscore => false | _ => underscores_ok hex LOther s end
  end.
Definition base_prefix (s : string) : option (Z * string) :=
  match s with
  | String "0" (String c rest) =>
      let lc := lower_char c in
      if bool_decide (lc = "b"%char) then Some (2, rest) else if bool_decide (lc = "o"%char) then Some (8, rest)
      else if bool_decide (lc = "x"%char) then Some (16, rest) else None
  | _ => None
  end.
Definition underscoreOK (s : string) : bool :=
  let s := match s with String "+" r | String "-" r => r | _ => s end in
  match base_prefix s with
  | Some (base, rest) => underscores_ok (base =? 16) LDigit rest
  | None => underscores_ok false LStart s
  end.
Definition ParseUint32 (s : string) : option Z :=
  match s with
  | "" => None
  | String c tail =>
      let '(base, digits) :=
        if bool_decide (c = "0"%char) then
          match base_prefix s with
          | Some (base, rest) => if bool_decide (rest = "") then (8, tail) else (base, rest)
          | None => (8, tail)
          end
        else (10, s) in
      n ← uint_digits base digits 0;
      if Contains digits "_" && negb (underscoreOK s) then None else Some n
  end.

Section specs.
Context `{GoLib}.

Definition empty_mount : cliMountConfig := {| cm_Type := ""; cm_Source := ""; cm_Target := ""; cm_ReadOnly := false; cm_Mode := 0 |}.

Definition toBBoxMount (m : cliMountConfig) : result Mount :=
  let mountType := ToLower (TrimSpace (cm_Type m)) in
  let target := TrimSpace (cm_Target m) in
  let source := TrimSpace (cm_Source m) in
  if bool_decide (mountType = MountTypeBind) then
    if bool_decide (target = "") then Err "bind mount target is required" else
    if bool_decide (source = "") then Err "bind mount source is required" else
    if negb (filepath_IsAbs target) then Err ("bind mount target " +:+ Quote target +:+ " must be absolute") else
    if negb (filepath_IsAbs source) then Err ("bind mount source " +:+ Quote source +:+ " must be absolute") else
    if negb (cm_Mode m =? 0) then Err "bind mount mode is not supported" else
    Ok {| mt_Type := MountTypeBind; mt_Source := path_Clean source; mt_Target := path_Clean target;
          mt_ReadOnly := cm_ReadOnly m; mt_Mode := 0 |}
  else if bool_decide (mountType = MountTypeEmptyDir) then
    if bool_decide (target = "") then Err "empty_dir mount target is required" else
    if negb (bool_decide (source = "")) then Err "empty_dir mount must not set source" else
    if negb (filepath_IsAbs target) then Err ("empty_dir mount target " +:+ Quote target +:+ " must be absolute") else
    Ok {| mt_Type := MountTypeEmptyDir; mt_Source := ""; mt_Target := path_Clean target; mt_ReadOnly := false;
          mt_Mode := if cm_Mode m =? 0 then mode_755 else cm_Mode m |}
  else Err ("unknown mount type " +:+ Quote (cm_Type m)).

Definition toCLIMountConfig (m : Mount) : cliMountConfig := {|
  cm_Type := mt_Type m; cm_Source := mt_Source m; cm_Target := mt_Target m; cm_ReadOnly := mt_ReadOnly m; cm_Mode := mt_Mode m |}.

(** One comma-separated field of a specification. *)
Definition mount_field (spec part : string) (cfg : cliMountConfig) : result cliMountConfig :=
  let part := TrimSpace part in
  if bool_decide (part = "") then Ok cfg else
  if bool_decide (part = "read-only") then
    Ok {| cm_Type := cm_Type cfg; cm_Source := cm_Source cfg; cm_Target := cm_Target cfg; cm_ReadOnly := true; cm_Mode := cm_Mode cfg |}
  else
  match CutByte part "=" with
  | None => Err ("invalid mount field " +:+ Quote part +:+ " in " +:+ Quote spec +:+ ", want key=value")
  | Some (key, value) =>
      let key := ReplaceByte (ToLower (TrimSpace key)) "-" "_" in
      let value := TrimSpace value in
      if bool_decide (key = "type") then
        Ok {| cm_Type := value; cm_Source := cm_Source cfg; cm_Target := cm_Target cfg; cm_ReadOnly := cm_ReadOnly cfg; cm_Mode := cm_Mode cfg |}
      else if bool_decide (key = "source") then
        Ok {| cm_Type := cm_Type cfg; cm_Source := value; cm_Target := cm_Target cfg; cm_ReadOnly := cm_ReadOnly cfg; cm_Mode := cm_Mode cfg |}
      else if bool_decide (key = "target") then
        Ok {| cm_Type := cm_Type cfg; cm_Source := cm_Source cfg; cm_Target := value; cm_ReadOnly := cm_ReadOnly cfg; cm_Mode := cm_Mode cfg |}
      else if bool_decide (key = "read_only") then
        match ParseBool value with
        | None => Err ("invalid read_only value " +:+ Quote value +:+ " in " +:+ Quote spec)
        | Some b => Ok {| cm_Type := cm_Type cfg; cm_Source := cm_Source cfg; cm_Target := cm_Target cfg; cm_ReadOnly := b; cm_Mode := cm_Mode cfg |}
        end
      else if bool_decide (key = "mode") then
        match ParseUint32 value with
        | None => Err ("invalid mode value " +:+ Quote value +:+ " in " +:+ Quote spec)
        | Some n => Ok {| cm_Type := cm_Type cfg; cm_Source := cm_Source cfg; cm_Target := cm_Target cfg; cm_ReadOnly := cm_ReadOnly cfg; cm_Mode := n |}
        end
      else Err ("unknown mount key " +:+ Quote key +:+ " in " +:+ Quote spec)
  end.
Fixpoint mount_fields (spec : string) (parts : list string) (cfg : cliMountConfig) : result cliMountConfig :=
  match parts with
  | [] => Ok cfg
  | part :: parts => cfg <-! mount_field spec part cfg; mount_fields spec parts cfg
  end.
Definition parseCLIMountSpec (spec : string) : result Mount :=
  cfg <-! mount_fields spec (SplitByte spec ",") empty_mount; toBBoxMount cfg.
End specs.

(** ** The effective configuration: effective_config.go *)

Record cliOptions := {
  co_configPath : string; co_name : string; co_workDir : string; co_binaries : list string; co_mounts : list string;
  co_env : list string; co_copyEnv : list string; co_copyEnvSet : bool; co_trafficMode : string; co_policyMode : string;
  co_maxRequestBodyBytes : Z; co_maxBodySizeSet : bool; co_printPolicy : bool; co_reportPolicy : bool; co_reportAccess : bool;
  co_reportRequests : bool; co_accessLog : string; co_flagOverrides : cliFlagOverrides }.
Record effectiveCLIConfig := {
  ec_Name : string; ec_WorkDir : string; ec_Binaries : list string; ec_Mounts : list cliMountConfig; ec_Env : list string;
  ec_CopyEnv : list string; ec_TrafficMode : string; ec_PolicyMode : string; ec_MaxRequestBodyBytes : Z;
  ec_PolicyRules : list cliPolicyRuleConfig; ec_Reporting : ReportingOptions; ec_AccessLog : string;
  ec_DockerBuild : cliDockerBuildConfig; ec_DockerSocket : cliDockerSocketConfig }.

Section effective.
Context `{GoLib} `{HostFS} (stat_missing : fsState -> string -> bool) (yaml_decode : string -> yamlResult).

Definition absPathFromCWD (path cwd : string) : result string :=
  if filepath_IsAbs path then Ok (path_Clean path) else
  base <-! (if bool_decide (TrimSpace cwd = "") then os_Getwd else Ok cwd);
  Ok (path_Clean (filepath_Join [base; path])).

(** [None]: the search for a file has not ended (see [find_config_total]). *)
Definition loadSelectedCLIFileConfig (h : fsState) (configPath absCWD : string) : option (result cliFileConfig) :=
  let configPath := TrimSpace configPath in
  if negb (bool_decide (configPath = "")) then
    Some (resolvedPath <-! result_wrap (fun e => "resolve config file " +:+ Quote configPath +:+ ": " +:+ e) (absPathFromCWD configPath absCWD);
          loadCLIFileConfig yaml_decode h resolvedPath)
  else
    match findConfigFile stat_missing h absCWD with
    | None => None
    | Some (Err e) => Some (Err e)
    | Some (Ok discovered) =>
        Some (if bool_decide (discovered = "") then Ok empty_config else loadCLIFileConfig yaml_decode h discovered)
    end.

(** [if cond { layer.X = v; layer.hasX = true }] *)
Definition when {A} (cond : bool) (zero v : A) : setting A := if cond then set_to v else unset zero.

Definition buildRuntimeCLIConfigLayer (opts : cliOptions) : result cliFileConfig :=
  mounts <-! result_map (fun spec => mount <-! parseCLIMountSpec spec; Ok (toCLIMountConfig mount)) (co_mounts opts);
  Ok {| cf_Name := when (negb (bool_decide (TrimSpace (co_name opts) = ""))) "" (co_name opts);
        cf_WorkDir := when (negb (bool_decide (TrimSpace (co_workDir opts) = ""))) "" (co_workDir opts);
        cf_Bin := when (0 <? length (co_binaries opts))%nat [] (co_binaries opts);
        cf_Mounts := when (0 <? length (co_mounts opts))%nat [] mounts;
        cf_Env := when (0 <? length (co_env opts))%nat [] (co_env opts);
        cf_CopyEnv := when (co_copyEnvSet opts) [] (co_copyEnv opts);
        cf_TrafficMode := unset ""; cf_PolicyMode := unset "";
        cf_MaxRequestBodyBytes := when (co_maxBodySizeSet opts) 0 (co_maxRequestBodyBytes opts);
        cf_AccessLog := unset ""; cf_ReportPolicyViolations := unset false; cf_ReportAccessSummary := unset false;
        cf_ReportRequestSummary := unset false; cf_PolicyRules := unset []; cf_DockerSocket := empty_socket; cf_DockerBuild := empty_build |}.

Definition toEffectiveCLIConfig (merged : cliFileConfig) (absCWD : string) : effectiveCLIConfig :=
  let workDir := TrimSpace (sv (cf_WorkDir merged)) in {|
  ec_Name := sv (cf_Name merged);
  ec_WorkDir := if bool_decide (workDir = "") then absCWD else if negb (filepath_IsAbs workDir) then filepath_Join [absCWD; workDir] else workDir;
  ec_Binaries := sv (cf_Bin merged); ec_Mounts := sv (cf_Mounts merged); ec_Env := sv (cf_Env merged); ec_CopyEnv := sv (cf_CopyEnv merged);
  ec_TrafficMode := sv (cf_TrafficMode merged); ec_PolicyMode := sv (cf_PolicyMode merged);
  ec_MaxRequestBodyBytes := sv (cf_MaxRequestBodyBytes merged); ec_PolicyRules := sv (cf_PolicyRules merged);
  ec_Reporting := {| ro_PolicyViolations := sv (cf_ReportPolicyViolations merged); ro_AccessSummary := sv (cf_ReportAccessSummary merged);
                     ro_RequestSummary := sv (cf_ReportRequestSummary merged) |};
  ec_AccessLog := sv (cf_AccessLog merged); ec_DockerBuild := cf_DockerBuild merged; ec_DockerSocket := cf_DockerSocket merged |}.

(** The defaults of the command line: those of the file and a body limit. *)
Definition cli_defaults : cliFileConfig :=
  mergeCLIConfigLayer defaultCLIFileConfig {|
    cf_Name := unset ""; cf_WorkDir := unset ""; cf_Bin := unset []; cf_Mounts := unset []; cf_Env := unset []; cf_CopyEnv := unset [];
    cf_TrafficMode := unset ""; cf_PolicyMode := unset ""; cf_MaxRequestBodyBytes := set_to (Z.shiftl 64 10); cf_AccessLog := unset "";
    cf_ReportPolicyViolations := unset false; cf_ReportAccessSummary := unset false; cf_ReportRequestSummary := unset false;
    cf_PolicyRules := unset []; cf_DockerSocket := empty_socket; cf_DockerBuild := empty_build |}.

Definition loadEffectiveCLIConfig (h : fsState) (opts : cliOptions) (absCWD : string) : option (result effectiveCLIConfig) :=
  match loadSelectedCLIFileConfig h (co_configPath opts) absCWD with
  | None => None
  | Some loaded =>
      Some (fileCfg <-! loaded;
            let mergedCfg := mergeCLIConfig cli_defaults fileCfg (co_flagOverrides opts) in
            runtimeLayer <-! buildRuntimeCLIConfigLayer opts;
            Ok (toEffectiveCLIConfig (mergeCLIConfigLayer mergedCfg runtimeLayer) absCWD))
  end.
End effective.

(** ** Options of a run: run_config.go *)

Record runConfig := {
  rc_manager : ProxyOptions; rc_sandbox : SandboxOptions; rc_argv : list string; rc_printPolicy : bool;
  rc_reporting : ReportingOptions; rc_accessLogMode : string }.

Definition defaultCLISeccompOptions (dockerBuildEnabled : bool) : SeccompOptions :=
  if dockerBuildEnabled then {| so_Disabled := true; so_Profile := ""; so_Rules := [] |}
  else {| so_Disabled := false; so_Profile := SeccompProfileRestricted; so_Rules := [] |}.

Definition mountTargetsOverlap (a b : string) : bool :=
  let a := path_Clean a in
  let b := path_Clean b in
  if bool_decide (a = b) then true else
  if bool_decide (a = "/") || bool_decide (b = "/") then true else
  HasPrefix a (b +:+ "/") || HasPrefix b (a +:+ "/").
Definition mountOverlapsAny (want : Mount) (existing : list Mount) : bool :=
  existsb (fun mount => mountTargetsOverlap (mt_Target mount) (mt_Target want)) existing.
#[global] Instance Mount_eq_dec : EqDecision Mount.
Proof. solve_decision. Defined.
Definition containsMountSpec (values : list Mount) (want : Mount) : bool := existsb (fun value => bool_decide (value = want)) values.
Definition hasMount (source target : string) (mounts : list Mount) : bool :=
  let wantSource := path_Clean source in
  let wantTarget := path_Clean target in
  existsb (fun mount =>
    bool_decide (mt_Type mount = MountTypeBind) &&
    (bool_decide (path_Clean (TrimSpace (mt_Source mount)) = wantSource) &&
     bool_decide (path_Clean (TrimSpace (mt_Target mount)) = wantTarget))) mounts.
Definition contains (values : list string) (want : string) : bool := existsb (fun value => bool_decide (value = want)) values.

Definition pathMountTarget (dir resolved : string) : string :=
  let fallback := if negb (bool_decide (TrimSpace resolved = "")) then resolved else dir in
  if bool_decide (resolved = "/usr") || HasPrefix resolved "/usr/" then "/usr"
  else if bool_decide (filepath_Base resolved = "bin") || bool_decide (filepath_Base resolved = "sbin") then
    let parent := filepath_Dir resolved in
    if negb (bool_decide (parent = "/")) && negb (bool_decide (parent = ".")) then parent else fallback
  else fallback.

(** The loop over the environment from its end. *)
Fixpoint copied_entry (key : string) (environ : list string) : option string :=
  match environ with
  | [] => None
  | entry :: environ =>
      match copied_entry key environ with
      | Some e => Some e
      | None => match CutByte entry "=" with
                | Some (entryKey, _) => if bool_decide (entryKey = key) then Some entry else None
                | None => None
                end
      end
  end.

(** Queries about links. [host_links] are the paths that name one: path names are
    bounded, so there are finitely many. *)
Class HostLinks `{HostFS} := {
  (** whether the path is a symbolic link *)
  os_Lstat : fsState -> string -> result bool;
  lstat_missing : fsState -> string -> bool;
  os_Readlink : fsState -> string -> result string;
  EvalSymlinks : fsState -> string -> result string;
  (** names of the entries of a directory and whether each is a symbolic link *)
  os_ReadDirLinks : fsState -> string -> result (list (string * bool));
  stat_missing : fsState -> string -> bool;
  host_links : fsState -> list string;
  host_links_spec h p : os_Lstat h p = Ok true -> p ∈ host_links h;
}.

(** Code that may fail to end: [None] is a loop that ran out of steps. *)
Declare Scope loop_scope.
Delimit Scope loop_scope with loop.
Definition loop_bind {A B} (c : option (result A)) (k : A -> option (result B)) : option (result B) :=
  match c with
  | None => None
  | Some (Err e) => Some (Err e)
  | Some (Ok a) => k a
  end.
Notation "x <-% c ; k" := (loop_bind c (fun x => k))
  (at level 100, c at next level, k at level 200, right associativity, format "'[v' x  <-%  c ; '/' k ']'") : loop_scope.
Open Scope loop_scope.

Section run.
Context `{GoLib} `{HostLinks} (h : fsState) (cliPlatform : string) (yaml_decode : string -> yamlResult).

Definition normalizeCLIPolicyMode (mode : string) : result string :=
  let m := ToLower (TrimSpace mode) in
  if bool_decide (m = "") || bool_decide (m = PolicyModeEnforce) then Ok PolicyModeEnforce
  else if bool_decide (m = PolicyModeAudit) then Ok PolicyModeAudit
  else Err ("unsupported policy mode " +:+ Quote mode).

Definition normalizeAccessLogMode (mode : string) : result string :=
  let mode := ToLower (TrimSpace mode) in
  let mode := if bool_decide (mode = "") then "json" else mode in
  if bool_decide (mode ∈ ["json"; "off"]) then Ok mode else Err ("unsupported access log mode " +:+ Quote mode).

Definition copyHostEnv (key : string) (environ : list string) : result string :=
  let key := TrimSpace key in
  if bool_decide (key = "") then Err "copy env key is required" else
  match copied_entry key environ with
  | Some entry => Ok entry
  | None => Err ("copy env " +:+ Quote key +:+ ": host environment variable is not set")
  end.
Definition buildSandboxEnv (effective : effectiveCLIConfig) (environ : list string) : result (list string) :=
  copied <-! result_map (fun key => copyHostEnv key environ) (ec_CopyEnv effective);
  given <-! result_map (fun entry => match CutByte entry "=" with
                                     | None => Err ("invalid env spec " +:+ Quote entry +:+ ", want KEY=VALUE")
                                     | Some _ => Ok entry
                                     end) (ec_Env effective);
  Ok (copied ++ given).

Definition withDockerBuildPATHEnv (envEntries : list string) (dockerBuildEnabled : bool) : list string :=
  if negb dockerBuildEnabled then envEntries else
  let pathValue := default "/usr/bin" (lastEnvValue envEntries "PATH") in
  envEntries ++ ["PATH=" +:+ PrependPATHDir pathValue DefaultSandboxBinDir].

Definition normalizePATHDir (dir cwd : string) : result string :=
  let dir := TrimSpace dir in
  if bool_decide (dir = "") then absPathFromCWD "." cwd else absPathFromCWD dir cwd.
(** A part that does not resolve is skipped. *)
Definition splitPATH (pathValue cwd : string) : list string :=
  if bool_decide (TrimSpace pathValue = "") then [] else
  omap (fun part => match normalizePATHDir part cwd with Ok dir => Some dir | Err _ => None end) (SplitByte pathValue ":").

Fixpoint search_path (nameOrPath : string) (dirs : list string) : option string :=
  match dirs with
  | [] => None
  | dir :: dirs =>
      let candidate := filepath_Join [dir; nameOrPath] in
      match os_Stat h candidate with
      | Err _ => search_path nameOrPath dirs
      | Ok info =>
          if negb (fi_IsRegular info) || (Z.land (fi_Perm info) 73 =? 0) then search_path nameOrPath dirs
          else Some candidate
      end
  end.
Definition resolveBinaryForPATH (nameOrPath pathValue cwd : string) : result string :=
  if bool_decide (TrimSpace nameOrPath = "") then Err "binary path is required" else
  if Contains nameOrPath "/" then
    absPath <-! result_wrap (fun e => "resolve absolute binary path " +:+ Quote nameOrPath +:+ ": " +:+ e) (absPathFromCWD nameOrPath cwd);
    _ <-! result_wrap (fun e => "binary " +:+ Quote absPath +:+ ": " +:+ e) (os_Stat h absPath);
    Ok absPath
  else
  match search_path nameOrPath (splitPATH pathValue cwd) with
  | Some candidate => Ok candidate
  | None => Err ("resolve binary " +:+ Quote nameOrPath +:+ " in PATH " +:+ Quote pathValue +:+ ": executable not found")
  end.

Fixpoint resolve_binaries (requested : list string) (path : option string) (cwd : string) (dockerBuild : DockerBuildOptions)
    (binaries : list string) : result (list string) :=
  match requested with
  | [] => Ok binaries
  | binary :: requested =>
      if do_Enabled dockerBuild && bool_decide (binary = "docker") then resolve_binaries requested path cwd dockerBuild binaries else
      resolved <-! (if bool_decide (is_Some path) || Contains binary "/"
                    then resolveBinaryForPATH binary (default "" path) cwd else Ok binary);
      resolve_binaries requested path cwd dockerBuild (if contains binaries resolved then binaries else binaries ++ [resolved])
  end.
Definition resolveRequestedBinaries (requested envEntries : list string) (cwd : string) (dockerBuild : DockerBuildOptions)
    : result (list string) :=
  resolve_binaries requested (lastEnvValue envEntries "PATH") cwd dockerBuild [].

(** The walk along a chain of links; [fuel] bounds the number of steps. *)
Fixpoint symlink_chain (fuel : nat) (path current : string) (seen : gset string) (dirs : list string)
    : option (result (list string)) :=
  match fuel with
  | O => None
  | S fuel =>
      if bool_decide (current ∈ seen) then Some (Err ("resolve symlink chain " +:+ Quote path +:+ ": cycle detected")) else
      match os_Lstat h current with
      | Err e => if lstat_missing h current then Some (Ok dirs) else Some (Err ("lstat PATH entry " +:+ Quote current +:+ ": " +:+ e))
      | Ok false => Some (Ok (dirs ++ [filepath_Dir current]))
      | Ok true =>
          match os_Readlink h current with
          | Err e => Some (Err ("readlink PATH entry " +:+ Quote current +:+ ": " +:+ e))
          | Ok target =>
              let target := if negb (filepath_IsAbs target) then filepath_Join [filepath_Dir current; target] else target in
              let next := path_Clean target in
              symlink_chain fuel path next ({[current]} ∪ seen) (dirs ++ [filepath_Dir next])
          end
      end
  end.
Definition symlinkChainParentDirs (path : string) : option (result (list string)) :=
  symlink_chain (S (length (host_links h))) path (path_Clean path) ∅ [].

(** [if eval, err := filepath.EvalSymlinks(dir); err == nil && strings.TrimSpace(eval) != "" { ... }] *)
Definition resolved_dir (dir : string) : string :=
  match EvalSymlinks h dir with
  | Ok eval => if negb (bool_decide (TrimSpace eval = "")) then path_Clean eval else dir
  | Err _ => dir
  end.
Definition mount_root (dir : string) : string := pathMountTarget dir (resolved_dir dir).

Fixpoint link_targets (dir : string) (entries : list (string * bool)) : option (result (list string)) :=
  match entries with
  | [] => Some (Ok [])
  | (name, symlink) :: entries =>
      if negb symlink then link_targets dir entries else
      chainDirs <-% symlinkChainParentDirs (filepath_Join [dir; name]);
      rest <-% link_targets dir entries;
      Some (Ok (map mount_root chainDirs ++ rest))
  end.

Definition read_only_bind (target : string) : Mount := {|
  mt_Type := MountTypeBind; mt_Source := target; mt_Target := target; mt_ReadOnly := true; mt_Mode := 0 |}.
Fixpoint target_mounts (targets : list string) : result (list Mount) :=
  match targets with
  | [] => Ok []
  | target :: targets =>
      match os_Stat h target with
      | Err e => if stat_missing h target then target_mounts targets
                 else Err ("stat PATH mount root " +:+ Quote target +:+ ": " +:+ e)
      | Ok info =>
          if negb (fi_IsDir info) then target_mounts targets else
          mounts <-! target_mounts targets; Ok (read_only_bind target :: mounts)
      end
  end.
Definition pathMountsForDir (dir : string) : option (result (list Mount)) :=
  match os_Stat h dir with
  | Err e => Some (if stat_missing h dir then Ok [] else Err ("stat PATH dir " +:+ Quote dir +:+ ": " +:+ e))
  | Ok info =>
      if negb (fi_IsDir info) then Some (Ok []) else
      entries <-% Some (result_wrap (fun e => "read PATH dir " +:+ Quote dir +:+ ": " +:+ e) (os_ReadDirLinks h dir));
      links <-% link_targets dir entries;
      Some (target_mounts (Compact (sort_strings (mount_root dir :: links))))
  end.

(** One mount of a directory: kept when it meets none of those there already. *)
Definition add_path_mount (existing : list Mount) (mounts : list Mount) (mount : Mount) : list Mount :=
  if mountOverlapsAny mount (existing ++ mounts) then mounts else
  if negb (containsMountSpec mounts mount) then mounts ++ [mount] else mounts.
Fixpoint path_mounts (existing : list Mount) (dirs : list string) (mounts : list Mount) : option (result (list Mount)) :=
  match dirs with
  | [] => Some (Ok mounts)
  | dir :: dirs =>
      dirMounts <-% pathMountsForDir dir;
      path_mounts existing dirs (foldl (add_path_mount existing) mounts dirMounts)
  end.
Definition pathAvailabilityMounts (envEntries : list string) (cwd : string) (existing : list Mount) : option (result (list Mount)) :=
  match lastEnvValue envEntries "PATH" with
  | None => Some (Ok [])
  | Some pathValue => path_mounts existing (splitPATH pathValue cwd) []
  end.

(** ** Policies and Docker options *)

Definition normalizeHTTPMethods (values : list string) : list string :=
  filter (fun value => value <> "") (map (fun value => ToUpper (TrimSpace value)) values).
Definition normalizeDockerOperations (values : list string) : list string :=
  filter (fun value => value <> "") (map (fun value => ToLower (TrimSpace value)) values).
Definition build_rule (rule : cliPolicyRuleConfig) : PolicyRule := {|
  HostPatterns := cr_HostPatterns rule; IPCIDRs := cr_IPCIDRs rule; HTTPMethods := normalizeHTTPMethods (cr_HTTPMethods rule);
  ConnectPorts := cr_ConnectPorts rule; PathPatterns := cr_PathPatterns rule; HeaderPatterns := cr_HeaderPatterns rule;
  BodyPatterns := cr_BodyPatterns rule |}.
Definition buildNetworkPolicy (rules : list cliPolicyRuleConfig) : NetworkPolicy := {| Rules := map build_rule rules |}.

Definition build_socket_rule (rule : cliDockerSocketRuleConfig) : DockerSocketRule := {|
  dr_Action := ToLower (TrimSpace (cs_Action rule));
  dr_Operations := normalizeDockerOperations (cs_Operations rule);
  dr_HTTP := option_map (fun http => {| dh_Methods := normalizeHTTPMethods (ch_Methods http); dh_PathPatterns := ch_PathPatterns http |}) (cs_HTTP rule);
  dr_Build := option_map (fun b => {| db_Context := ToLower (TrimSpace (cb_Context b)); db_DockerfilePaths := cb_DockerfilePaths b |}) (cs_Build rule) |}.
Definition buildDockerSocketOptions (cfg : cliDockerSocketConfig) : DockerSocketOptions := {|
  dk_Enabled := sv (cd_Enabled cfg);
  dk_MountPath := TrimSpace (sv (cd_MountPath cfg));
  dk_TargetSocketPath := TrimSpace (sv (cd_TargetSocketPath cfg));
  dk_Policy := {| dp_DefaultAction := ToLower (TrimSpace (sv (cd_DefaultAction cfg))); dp_Rules := map build_socket_rule (sv (cd_Rules cfg)) |} |}.
Definition buildDockerBuildOptions (cfg : cliDockerBuildConfig) : DockerBuildOptions := {|
  do_Enabled := sv (ck_Enabled cfg); do_BuildkitdPath := TrimSpace (sv (ck_BuildkitdPath cfg));
  do_BuildctlPath := TrimSpace (sv (ck_BuildctlPath cfg)); do_RuncPath := TrimSpace (sv (ck_RuncPath cfg));
  do_PodmanPath := TrimSpace (sv (ck_PodmanPath cfg)); do_NewuidmapPath := TrimSpace (sv (ck_NewuidmapPath cfg));
  do_NewgidmapPath := TrimSpace (sv (ck_NewgidmapPath cfg)) |}.

(** ** The run *)

Definition buildRunConfig (effective : effectiveCLIConfig) (payload : list string) (cwd : string) (environ : list string)
    : option (result runConfig) :=
  match payload with
  | [] => Some (Err "payload command required after --")
  | command :: _ =>
  absCWD <-% Some (result_wrap (fun e => "resolve current working directory: " +:+ e) (filepath_Abs cwd));
  explicitMounts <-% Some (result_map toBBoxMount (ec_Mounts effective));
  let mounts := (if negb (bool_decide (cliPlatform = "darwin")) && negb (hasMount absCWD absCWD explicitMounts)
                 then [read_only_bind absCWD] else []) ++ explicitMounts in
  let mode := ToLower (TrimSpace (ec_TrafficMode effective)) in
  let trafficMode := if bool_decide (mode = "") then TrafficModeProxy else mode in
  if negb (bool_decide (trafficMode = TrafficModeProxy)) && negb (bool_decide (trafficMode = TrafficModeTransparent))
  then Some (Err ("unsupported traffic mode " +:+ Quote (ec_TrafficMode effective))) else
  policyMode <-% Some (normalizeCLIPolicyMode (ec_PolicyMode effective));
  env <-% Some (buildSandboxEnv effective environ);
  let buildEnabled := sv (ck_Enabled (ec_DockerBuild effective)) in
  let envEntries := withDockerBuildPATHEnv env buildEnabled in
  pathMounts <-% (if negb (bool_decide (cliPlatform = "darwin")) then pathAvailabilityMounts envEntries absCWD mounts else Some (Ok []));
  let dockerBuild := buildDockerBuildOptions (ec_DockerBuild effective) in
  binaries <-% Some (resolveRequestedBinaries (command :: ec_Binaries effective) envEntries absCWD dockerBuild);
  accessLogMode <-% Some (normalizeAccessLogMode (ec_AccessLog effective));
  Some (Ok {|
    rc_manager := {| po_ListenAddr := ""; po_MaxRequestBodyBytes := ec_MaxRequestBodyBytes effective; po_MaxResponseBodyBytes := 0;
                     po_NetworkPolicy := {| Rules := [] |}; po_PolicyMode := policyMode; po_Reporting := ec_Reporting effective;
                     po_MITM_Enabled := bool_decide (trafficMode = TrafficModeTransparent);
                     po_DockerSocket := buildDockerSocketOptions (ec_DockerSocket effective) |};
    rc_sandbox := {| op_Name := TrimSpace (ec_Name effective); op_Binaries := binaries; op_Mounts := mounts ++ pathMounts;
                     op_Env := envEntries; op_TrafficMode := trafficMode; op_Policy := buildNetworkPolicy (ec_PolicyRules effective);
                     op_PolicyMode := ""; op_Reporting := no_reporting; op_WorkDir := ec_WorkDir effective;
                     op_Seccomp := defaultCLISeccompOptions buildEnabled;
                     op_DockerSocket := buildDockerSocketOptions (ec_DockerSocket effective); op_DockerBuild := dockerBuild |};
    rc_argv := payload; rc_printPolicy := false; rc_reporting := ec_Reporting effective; rc_accessLogMode := accessLogMode |})
  end.

Definition buildConfig (opts : cliOptions) (payload : list string) (cwd : string) (environ : list string) : option (result runConfig) :=
  if bool_decide (payload = []) then Some (Err "payload command required after --") else
  absCWD <-% Some (result_wrap (fun e => "resolve current working directory: " +:+ e) (filepath_Abs cwd));
  effectiveCfg <-% loadEffectiveCLIConfig stat_missing yaml_decode h opts absCWD;
  cfg <-% buildRunConfig effectiveCfg payload absCWD environ;
  Some (Ok {| rc_manager := rc_manager cfg; rc_sandbox := rc_sandbox cfg; rc_argv := rc_argv cfg; rc_printPolicy := co_printPolicy opts;
              rc_reporting := rc_reporting cfg; rc_accessLogMode := rc_accessLogMode cfg |}).

(** ** The command: command_exec.go. [changed] are the flags given on the command
    line and [atDash] is the number of arguments before the two dashes. *)

Definition deriveFlagOverrides (changed : list string) (opts : cliOptions) : cliFlagOverrides :=
  let given {A} (flag : string) (v : A) : option A := if bool_decide (flag ∈ changed) then Some v else None in {|
  fl_TrafficMode := given "traffic-mode" (co_trafficMode opts);
  fl_PolicyMode := given "policy-mode" (co_policyMode opts);
  fl_ReportPolicy := given "report-policy-violations" (co_reportPolicy opts);
  fl_ReportAccessSummary := given "report-access-summary" (co_reportAccess opts);
  fl_ReportRequestSummary := given "report-request-summary" (co_reportRequests opts);
  fl_AccessLog := given "access-log" (co_accessLog opts) |}.

(** The configuration that [executeRootCommand] hands to [run]. *)
Definition executeRootCommand (changed : list string) (atDash : Z) (args : list string) (getwd : result string)
    (environ : list string) (opts : cliOptions) : option (result runConfig) :=
  if (atDash <? 0) || bool_decide (args = []) then Some (Err "payload command required after --") else
  cwd <-% Some (result_wrap (fun e => "resolve current working directory: " +:+ e) getwd);
  let opts := {|
    co_configPath := co_configPath opts; co_name := co_name opts; co_workDir := co_workDir opts; co_binaries := co_binaries opts;
    co_mounts := co_mounts opts; co_env := co_env opts; co_copyEnv := co_copyEnv opts;
    co_copyEnvSet := co_copyEnvSet opts || bool_decide ("copy-env" ∈ changed);
    co_trafficMode := co_trafficMode opts; co_policyMode := co_policyMode opts;
    co_maxRequestBodyBytes := co_maxRequestBodyBytes opts;
    co_maxBodySizeSet := co_maxBodySizeSet opts || bool_decide ("max-request-body-bytes" ∈ changed);
    co_printPolicy := co_printPolicy opts; co_reportPolicy := co_reportPolicy opts; co_reportAccess := co_reportAccess opts;
    co_reportRequests := co_reportRequests opts; co_accessLog := co_accessLog opts;
    co_flagOverrides := deriveFlagOverrides changed opts |} in
  buildConfig opts args cwd environ.

Definition validateRunConfigPlatform (cfg : runConfig) : result unit :=
  if negb (bool_decide (cliPlatform = "darwin")) then Ok tt else
  if bool_decide (op_TrafficMode (rc_sandbox cfg) = TrafficModeTransparent)
  then Err "transparent traffic mode is not supported on darwin" else
  if (0 <? length (op_Mounts (rc_sandbox cfg)))%nat then Err "mounts are not supported on darwin" else Ok tt.
End run.
