(* ===== verification/ConfigTheorems.v ===== *)
(** Theorems about the configuration of the command line: which layer decides a
    setting, that the search for a file ends at the nearest one, and that mount
    specifications survive their second normalisation. *)
From S2P Require Import Prelude GoStrings StringLemmas GoPath PathLemmas HostFS Policy Access Manager Docker Seccomp Staging StagingTheorems Mounts Assembly Config RunConfig Sample.

(** ** Layers

    [field A] names a setting of the configuration; [get] reads it and [zero] is
    the zero value of its type. *)

Inductive field : Type -> Type :=
| FName : field string | FWorkDir : field string | FBin : field (list string) | FMounts : field (list cliMountConfig)
| FEnv : field (list string) | FCopyEnv : field (list string) | FTrafficMode : field string | FPolicyMode : field string
| FMaxBody : field Z | FAccessLog : field string | FViolations : field bool | FAccessSummary : field bool
| FRequestSummary : field bool | FRules : field (list cliPolicyRuleConfig)
| FSocketEnabled : field bool | FSocketMount : field string | FSocketTarget : field string | FSocketAction : field string
| FSocketRules : field (list cliDockerSocketRuleConfig)
| FBuildEnabled : field bool | FBuildkitd : field string | FBuildctl : field string | FRunc : field string
| FPodman : field string | FNewuidmap : field string | FNewgidmap : field string.

Definition get {A} (f : field A) : cliFileConfig -> setting A :=
  match f with
  | FName => cf_Name | FWorkDir => cf_WorkDir | FBin => cf_Bin | FMounts => cf_Mounts | FEnv => cf_Env | FCopyEnv => cf_CopyEnv
  | FTrafficMode => cf_TrafficMode | FPolicyMode => cf_PolicyMode | FMaxBody => cf_MaxRequestBodyBytes
  | FAccessLog => cf_AccessLog | FViolations => cf_ReportPolicyViolations | FAccessSummary => cf_ReportAccessSummary
  | FRequestSummary => cf_ReportRequestSummary | FRules => cf_PolicyRules
  | FSocketEnabled => fun c => cd_Enabled (cf_DockerSocket c) | FSocketMount => fun c => cd_MountPath (cf_DockerSocket c)
  | FSocketTarget => fun c => cd_TargetSocketPath (cf_DockerSocket c) | FSocketAction => fun c => cd_DefaultAction (cf_DockerSocket c)
  | FSocketRules => fun c => cd_Rules (cf_DockerSocket c)
  | FBuildEnabled => fun c => ck_Enabled (cf_DockerBuild c) | FBuildkitd => fun c => ck_BuildkitdPath (cf_DockerBuild c)
  | FBuildctl => fun c => ck_BuildctlPath (cf_DockerBuild c) | FRunc => fun c => ck_RuncPath (cf_DockerBuild c)
  | FPodman => fun c => ck_PodmanPath (cf_DockerBuild c) | FNewuidmap => fun c => ck_NewuidmapPath (cf_DockerBuild c)
  | FNewgidmap => fun c => ck_NewgidmapPath (cf_DockerBuild c)
  end.
Definition zero {A} (f : field A) : A :=
  match f in field A return A with
  | FBin | FEnv | FCopyEnv => [] | FMounts => [] | FRules => [] | FSocketRules => [] | FMaxBody => 0
  | FViolations | FAccessSummary | FRequestSummary | FSocketEnabled | FBuildEnabled => false
  | FName | FWorkDir | FTrafficMode | FPolicyMode | FAccessLog | FSocketMount | FSocketTarget | FSocketAction
  | FBuildkitd | FBuildctl | FRunc | FPodman | FNewuidmap | FNewgidmap => ""
  end.
(** The setting as the rest of the program sees it; the working directory is
    resolved against [cwd]. *)
Definition in_effect {A} (f : field A) (cwd : string) (e : effectiveCLIConfig) (v : A) : Prop :=
  match f in field A return A -> Prop with
  | FName => fun v => ec_Name e = v
  | FWorkDir => fun v => ec_WorkDir e = let w := TrimSpace v in
                         if bool_decide (w = "") then cwd else if filepath_IsAbs w then w else filepath_Join [cwd; w]
  | FBin => fun v => ec_Binaries e = v | FMounts => fun v => ec_Mounts e = v | FEnv => fun v => ec_Env e = v
  | FCopyEnv => fun v => ec_CopyEnv e = v | FTrafficMode => fun v => ec_TrafficMode e = v
  | FPolicyMode => fun v => ec_PolicyMode e = v | FMaxBody => fun v => ec_MaxRequestBodyBytes e = v
  | FAccessLog => fun v => ec_AccessLog e = v
  | FViolations => fun v => ro_PolicyViolations (ec_Reporting e) = v
  | FAccessSummary => fun v => ro_AccessSummary (ec_Reporting e) = v
  | FRequestSummary => fun v => ro_RequestSummary (ec_Reporting e) = v
  | FRules => fun v => ec_PolicyRules e = v
  | FSocketEnabled => fun v => sv (cd_Enabled (ec_DockerSocket e)) = v
  | FSocketMount => fun v => sv (cd_MountPath (ec_DockerSocket e)) = v
  | FSocketTarget => fun v => sv (cd_TargetSocketPath (ec_DockerSocket e)) = v
  | FSocketAction => fun v => sv (cd_DefaultAction (ec_DockerSocket e)) = v
  | FSocketRules => fun v => sv (cd_Rules (ec_DockerSocket e)) = v
  | FBuildEnabled => fun v => sv (ck_Enabled (ec_DockerBuild e)) = v
  | FBuildkitd => fun v => sv (ck_BuildkitdPath (ec_DockerBuild e)) = v
  | FBuildctl => fun v => sv (ck_BuildctlPath (ec_DockerBuild e)) = v
  | FRunc => fun v => sv (ck_RuncPath (ec_DockerBuild e)) = v
  | FPodman => fun v => sv (ck_PodmanPath (ec_DockerBuild e)) = v
  | FNewuidmap => fun v => sv (ck_NewuidmapPath (ec_DockerBuild e)) = v
  | FNewgidmap => fun v => sv (ck_NewgidmapPath (ec_DockerBuild e)) = v
  end v.

(** The value of the first layer that sets the field. *)
Fixpoint first_set {A} (f : field A) (layers : list cliFileConfig) : A :=
  match layers with
  | [] => zero f
  | layer :: layers => if has (get f layer) then sv (get f layer) else first_set f layers
  end.
(** A field that is not set has the zero value. *)
Definition well_formed (c : cliFileConfig) : Prop := forall A (f : field A), has (get f c) = false -> sv (get f c) = zero f.

(** The command line's flags of this group as a layer. *)
Definition flag_layer (flags : cliFlagOverrides) : cliFileConfig := {|
  cf_Name := unset ""; cf_WorkDir := unset ""; cf_Bin := unset []; cf_Mounts := unset []; cf_Env := unset []; cf_CopyEnv := unset [];
  cf_TrafficMode := from_pointer "" (fl_TrafficMode flags); cf_PolicyMode := from_pointer "" (fl_PolicyMode flags);
  cf_MaxRequestBodyBytes := unset 0; cf_AccessLog := from_pointer "" (fl_AccessLog flags);
  cf_ReportPolicyViolations := from_pointer false (fl_ReportPolicy flags);
  cf_ReportAccessSummary := from_pointer false (fl_ReportAccessSummary flags);
  cf_ReportRequestSummary := from_pointer false (fl_ReportRequestSummary flags);
  cf_PolicyRules := unset []; cf_DockerSocket := empty_socket; cf_DockerBuild := empty_build |}.

Lemma get_merge {A} (f : field A) base overlay : get f (mergeCLIConfigLayer base overlay) = over (get f base) (get f overlay).
Proof. by destruct f. Qed.
Lemma over_flag_pointer {A} (base : setting A) zero flag : over_flag base flag = over base (from_pointer zero flag).
Proof. by destruct flag. Qed.
Lemma get_flags {A} (f : field A) defaults file flags :
  get f (mergeCLIConfig defaults file flags) = over (over (get f defaults) (get f file)) (get f (flag_layer flags)).
Proof. by destruct f; cbn; try apply over_flag_pointer. Qed.

Lemma over_sv {A} (base overlay : setting A) : sv (over base overlay) = if has overlay then sv overlay else sv base.
Proof. unfold over. by destruct (has overlay). Qed.
Lemma cli_defaults_wf : well_formed cli_defaults.
Proof. intros A f. by destruct f. Qed.

Section layers.
Context `{GoLib} `{HostFS} (stat_missing : fsState -> string -> bool) (yaml_decode : string -> yamlResult).

(** C33. Precedence of the configuration (README, merge precedence). When the effective configuration is
    built, every one of its settings has the value of the first layer that sets it: the options given at run
    time, then the overriding flags, then the selected file, then the defaults; the working directory is in
    addition resolved against the current one. *)
Theorem config_precedence h opts cwd eff :
  loadEffectiveCLIConfig stat_missing yaml_decode h opts cwd = Some (Ok eff) ->
  exists file runtime,
    loadSelectedCLIFileConfig stat_missing yaml_decode h (co_configPath opts) cwd = Some (Ok file) /\
    buildRuntimeCLIConfigLayer opts = Ok runtime /\
    forall A (f : field A), in_effect f cwd eff (first_set f [runtime; flag_layer (co_flagOverrides opts); file; cli_defaults]).
Proof.
  unfold loadEffectiveCLIConfig. destruct (loadSelectedCLIFileConfig _ _ _ _ _) as [loaded|] eqn:L; [|done].
  intros [= E]. apply result_bind_ok in E as (file & -> & E). apply result_bind_ok in E as (runtime & R & [= <-]).
  exists file, runtime. split; [done|]. split; [done|].
  intros A f.
  set (merged := mergeCLIConfigLayer _ runtime).
  assert (V : sv (get f merged) = first_set f [runtime; flag_layer (co_flagOverrides opts); file; cli_defaults]).
  { unfold merged. rewrite get_merge, get_flags, !over_sv. simpl. do 3 (destruct (has _); [done|]).
    destruct (has (get f cli_defaults)) eqn:D; [done|]. by apply cli_defaults_wf. }
  rewrite <- V. destruct f; try reflexivity. cbn. by destruct (filepath_IsAbs _).
Qed.

(** ** The search for a file *)

Lemma clean_go_length rooted out parts : (length (clean_go rooted out parts) <= length out + length parts)%nat.
Proof.
  revert out. induction parts as [|p parts IH]; intros out; cbn [clean_go length]; [rewrite length_rev; lia|].
  destruct (_ || _); [specialize (IH out); lia|]. case_bool_decide.
  - destruct out as [|b out']; [destruct rooted; [specialize (IH []); simpl in IH; lia|specialize (IH [p]); simpl in IH; lia]|].
    case_bool_decide; [specialize (IH (p :: b :: out'))|specialize (IH out')]; simpl in *; lia.
  - specialize (IH (p :: out)). simpl in IH. lia.
Qed.
Lemma path_depth_of l : Forall element l -> (length l <= path_depth (of_elements l))%nat.
Proof.
  intros F. rewrite <- (elements_of_elements l F) at 1. unfold elements, path_depth.
  etrans; [apply clean_go_length|]. simpl. lia.
Qed.
Lemma removelast_length {A} (l : list A) : length (removelast l) = pred (length l).
Proof.
  destruct (decide (l = [])) as [->|N]; [done|]. destruct (exists_last N) as (k & e & ->). rewrite removelast_last, length_app.
  simpl. lia.
Qed.

(** A directory and the directories above it, the nearest first. *)
Fixpoint ancestors_rev (r : list string) : list (list string) :=
  match r with
  | [] => [[]]
  | e :: r' => rev r :: ancestors_rev r'
  end.
Definition ancestors (dir : string) : list string := map of_elements (ancestors_rev (rev (elements dir))).
(** What one directory contributes to the search: a file, an error, or nothing. *)
Definition config_in (h : fsState) (dir : string) : option (result string) :=
  let candidate := filepath_Join [dir; "bbox.yaml"] in
  match os_Stat h candidate with
  | Ok info => if fi_IsDir info then None else Some (Ok candidate)
  | Err e => if stat_missing h candidate then None else Some (Err ("stat config file " +:+ Quote candidate +:+ ": " +:+ e))
  end.

Lemma find_config_go_spec h l fuel :
  Forall element l -> (length l < fuel)%nat ->
  find_config_go stat_missing h fuel (of_elements l) =
    Some (default (Ok "") (head (omap (config_in h) (map of_elements (ancestors_rev (rev l)))))).
Proof.
  revert fuel. induction l as [|e l IH] using rev_ind; intros fuel F L; (destruct fuel as [|fuel]; [simpl in L; lia|]).
  - cbn [find_config_go rev ancestors_rev map omap list_omap]. unfold config_in.
    rewrite filepath_Dir_clean by done. cbn [removelast]. rewrite bool_decide_eq_true_2 by done.
    destruct (os_Stat _ _) as [info|e]; [by destruct (fi_IsDir info)|by destruct (stat_missing _ _)].
  - rewrite rev_app_distr. simpl rev. cbn [app ancestors_rev map omap list_omap find_config_go]. rewrite filepath_Dir_clean, removelast_last by done.
    assert (R : rev (e :: rev l) = l ++ [e]) by (simpl; by rewrite rev_involutive). rewrite R.
    assert (G : Forall element l) by (by apply Forall_app in F as [F _]).
    assert (N : of_elements l <> of_elements (l ++ [e])).
    { intros X%of_elements_inj; [|done|done]. apply (f_equal length) in X. rewrite length_app in X. simpl in X. lia. }
    rewrite (bool_decide_eq_false_2 _ N). rewrite IH; [|done|rewrite length_app in L; simpl in L; lia].
    destruct (config_in h (of_elements (l ++ [e]))) as [r|] eqn:C; unfold config_in in C;
      (destruct (os_Stat _ _) as [info|e']; [destruct (fi_IsDir info)|destruct (stat_missing _ _)]); by simplify_eq.
Qed.

(** The search for a configuration file ends, and with the nearest one. From any directory, the walk up
    to the root always returns: the first directory on the way, the starting one included, whose [bbox.yaml]
    is not a directory gives the result; an error other than a missing file stops the search there; without
    either the result is empty. *)
Theorem config_found_nearest h startDir :
  (forall wd, os_Getwd = Ok wd -> absolute wd) ->
  findConfigFile stat_missing h startDir =
    Some (match filepath_Abs startDir with
          | Err e => Err ("resolve config search directory " +:+ Quote startDir +:+ ": " +:+ e)
          | Ok dir => default (Ok "") (head (omap (config_in h) (ancestors dir)))
          end).
Proof.
  intros WD. unfold findConfigFile. destruct (filepath_Abs startDir) as [dir|e] eqn:D; [|done].
  apply abs_clean in D as (l & F & ->); [|done]. rewrite find_config_go_spec; [|done|].
  - unfold ancestors. by rewrite elements_of_elements.
  - pose proof (path_depth_of l F). lia.
Qed.

(** ** Mount specifications *)

(** A path that is trimmed and cleaned. *)
Definition settled (p : string) : Prop := TrimSpace p = p /\ path_Clean p = p.

(** Mounts survive the second normalisation. A mount given on the command line is checked and normalised
    when its specification is parsed, stored again as a configured mount, and normalised once more for the
    run. When its cleaned paths have no surrounding spaces the second pass accepts it and changes nothing, so
    the sandbox gets the mount that was checked. *)
Theorem mount_spec_roundtrip spec m :
  parseCLIMountSpec spec = Ok m -> settled (mt_Target m) -> (mt_Source m = "" \/ settled (mt_Source m)) ->
  toBBoxMount (toCLIMountConfig m) = Ok m.
Proof.
  intros P [TT TC] S. apply result_bind_ok in P as (cfg & _ & P). revert P. unfold toBBoxMount at 1.
  assert (LB : ToLower (TrimSpace MountTypeBind) = MountTypeBind) by reflexivity.
  assert (LE : ToLower (TrimSpace MountTypeEmptyDir) = MountTypeEmptyDir) by reflexivity.
  case_bool_decide as B; [|case_bool_decide as E; [|done]].
  - case_bool_decide as T0; [done|]. case_bool_decide as S0; [done|].
    destruct (filepath_IsAbs (TrimSpace (cm_Target cfg))) eqn:TA; [|done]. destruct (filepath_IsAbs (TrimSpace (cm_Source cfg))) eqn:SA; [|done].
    destruct (cm_Mode cfg =? 0); [|done]. cbn. intros [= <-]. cbn [mt_Target mt_Source] in *.
    apply path_Clean_absolute in TA as TA'. apply path_Clean_absolute in SA as SA'.
    destruct S as [S|[ST SC]]; [by rewrite S in SA'|]. unfold toBBoxMount, toCLIMountConfig.
    cbn [cm_Type cm_Source cm_Target cm_ReadOnly cm_Mode mt_Type mt_Source mt_Target mt_ReadOnly mt_Mode].
    rewrite LB, bool_decide_eq_true_2 by done. rewrite TT, ST.
    rewrite !bool_decide_eq_false_2 by (intros X; first [by rewrite X in TA'|by rewrite X in SA']).
    unfold absolute in *. rewrite TA', SA'. cbn. by rewrite TC, SC.
  - case_bool_decide as T0; [done|]. case_bool_decide as S0; [|done].
    destruct (filepath_IsAbs (TrimSpace (cm_Target cfg))) eqn:TA; [|done]. cbn. intros [= <-]. cbn [mt_Target mt_Source] in *.
    apply path_Clean_absolute in TA as TA'. unfold toBBoxMount, toCLIMountConfig.
    cbn [cm_Type cm_Source cm_Target cm_ReadOnly cm_Mode mt_Type mt_Source mt_Target mt_ReadOnly mt_Mode].
    rewrite LE. rewrite bool_decide_eq_false_2 by done. rewrite bool_decide_eq_true_2 by done. rewrite TT.
    rewrite bool_decide_eq_false_2 by (intros X; by rewrite X in TA'). rewrite bool_decide_eq_true_2 by done.
    unfold absolute in *. rewrite TA'. cbn. rewrite TC. destruct (cm_Mode cfg =? 0) eqn:M; [done|by rewrite M].
Qed.
End layers.

(** ** Samples *)

Module SampleCLI.
Definition dirs : list string := ["/"; "/w"; "/w/a"; "/opt/t"; "/opt/t/bin"; "/usr"; "/usr/bin"; "/etc/alternatives"; "/src"].
Definition files : list string := ["/w/bbox.yaml"; "/usr/bin/vim"; "/opt/t/bin/tool"; "/opt/t/bin/vi"].
#[export] Instance fs : HostFS := {|
  os_Stat := fun _ p => if bool_decide (p ∈ dirs) then Ok {| fi_IsDir := true; fi_IsRegular := false; fi_Perm := 493 |}
                        else if bool_decide (p ∈ files) then Ok {| fi_IsDir := false; fi_IsRegular := true; fi_Perm := 493 |}
                        else Err "not found";
  os_ReadFile := fun _ p => if String.eqb p "/w/bbox.yaml" then Ok "doc" else Err "not found";
  os_ReadDir := fun _ _ => Err "not found";
  os_MkdirTemp := Ok "/tmp/root";
  os_Getwd := Ok "/w/a";
  os_Geteuid := 1000;
  user_Current := Ok "u";
  exec_LookPath := fun name => Ok ("/bin/" +:+ name);
  ldd := fun _ => ("not a dynamic executable", Some "exit status 1");
  fs_error := fun _ _ => None |}.
Definition absent (_ : fsState) (_ : string) : bool := true.
Definition raw : rawCLIFileConfig := {|
  rf_Name := None; rf_WorkDir := Some "sub"; rf_Bin := None; rf_Mounts := None; rf_Env := Some ["A=1"; "PATH=/opt/t/bin:/usr/bin"];
  rf_CopyEnv := Some ["PATH"]; rf_TrafficMode := None; rf_PolicyMode := Some "audit"; rf_MaxRequestBodyBytes := None;
  rf_AccessLog := Some "off"; rf_ReportPolicyViolations := None; rf_ReportAccessSummary := None; rf_ReportRequestSummary := None;
  rf_Policy := None; rf_DockerSocket := None; rf_DockerBuild := None |}.
Definition decode (s : string) : yamlResult := if String.eqb s "doc" then YDocument raw false else YError "bad document".
Definition no_flags : cliFlagOverrides := {|
  fl_TrafficMode := None; fl_PolicyMode := None; fl_ReportPolicy := None; fl_ReportAccessSummary := None;
  fl_ReportRequestSummary := None; fl_AccessLog := Some "json" |}.
Definition opts : cliOptions := {|
  co_configPath := ""; co_name := "box"; co_workDir := ""; co_binaries := []; co_mounts := ["type=bind,source=/src,target=/dst,read-only"];
  co_env := []; co_copyEnv := []; co_copyEnvSet := false; co_trafficMode := "proxy"; co_policyMode := "enforce";
  co_maxRequestBodyBytes := 65536; co_maxBodySizeSet := false; co_printPolicy := false; co_reportPolicy := true;
  co_reportAccess := true; co_reportRequests := true; co_accessLog := "json"; co_flagOverrides := no_flags |}.
Lemma getwd_absolute : forall wd, os_Getwd = Ok wd -> absolute wd.
Proof. by intros wd [= <-]. Qed.
End SampleCLI.

#[local] Existing Instance sampleLib.
Import SampleCLI.

Lemma config_precedence_witness :
  exists eff, loadEffectiveCLIConfig absent decode [] opts "/w/a" = Some (Ok eff) /\
    ec_PolicyMode eff = "audit" /\ ec_AccessLog eff = "json" /\ ec_Name eff = "box" /\ ec_WorkDir eff = "/w/sub" /\
    ec_TrafficMode eff = "proxy".
Proof.
  destruct (loadEffectiveCLIConfig absent decode [] opts "/w/a") as [[eff|e]|] eqn:E; [|vm_compute in E; discriminate E..].
  exists eff. split; [reflexivity|].
  destruct (config_precedence absent decode [] opts "/w/a" eff E) as (file & runtime & F & R & P).
  vm_compute in F. injection F as <-. vm_compute in R. injection R as <-.
  exact (conj (P _ FPolicyMode) (conj (P _ FAccessLog) (conj (P _ FName) (conj (P _ FWorkDir) (P _ FTrafficMode))))).
Defined.

Lemma config_found_nearest_witness : findConfigFile absent [] "b" = Some (Ok "/w/bbox.yaml").
Proof. rewrite (config_found_nearest absent [] "b" getwd_absolute). vm_compute. reflexivity. Defined.

Lemma mount_spec_roundtrip_witness :
  exists m, parseCLIMountSpec "type=bind,source=/src/,target=/dst,read-only" = Ok m /\ toBBoxMount (toCLIMountConfig m) = Ok m.
Proof.
  destruct (parseCLIMountSpec "type=bind,source=/src/,target=/dst,read-only") as [m|e] eqn:E; [|vm_compute in E; discriminate E].
  exists m. split; [reflexivity|]. apply (mount_spec_roundtrip _ m E); vm_compute in E; injection E as <-.
  - split; vm_compute; reflexivity.
  - right. split; vm_compute; reflexivity.
Defined.
