(* ===== verification/RunConfigTheorems.v ===== *)
(** Theorems about the options of a run ([RunConfig]): they are always computed,
    the mounts the program adds by itself cannot widen what the sandbox sees, the
    environment, and when the library accepts the result. *)
From S2P Require Import Prelude GoStrings StringLemmas GoPath PathLemmas HostFS Policy PolicySpec Access Manager Docker Seccomp Staging StagingTheorems Mounts Assembly Config RunConfig ConfigTheorems.
From S2P Require Import Sample SampleNet MountTheorems.

Lemma loop_bind_ok {A B} (c : option (result A)) (k : A -> option (result B)) r :
  loop_bind c k = Some (Ok r) <-> exists a, c = Some (Ok a) /\ k a = Some (Ok r).
Proof. destruct c as [[a|e]|]; simpl; naive_solver. Qed.
(** Code that ends. *)
Definition ends {A} (c : option (result A)) : Prop := exists r, c = Some r.
Lemma ends_some {A} (r : result A) : ends (Some r).
Proof. by exists r. Qed.
Lemma ends_bind {A B} (c : option (result A)) (k : A -> option (result B)) :
  ends c -> (forall a, c = Some (Ok a) -> ends (k a)) -> ends (loop_bind c k).
Proof. intros [[a|e] ->] K; simpl; [by apply K|by exists (Err e)]. Qed.
Create HintDb loop.
#[export] Hint Resolve ends_some : loop.

Section run.
Context `{GoLib} `{HostLinks} (h : fsState) (cliPlatform : string) (yaml_decode : string -> yamlResult).

(** ** Termination *)

(** The links met so far are distinct links of the host. *)
Lemma symlink_chain_ends fuel path current seen dirs :
  (forall p, p ∈ seen -> p ∈ host_links h) -> (length (host_links h) < fuel + size seen)%nat ->
  ends (symlink_chain h fuel path current seen dirs).
Proof.
  revert current seen dirs. induction fuel as [|fuel IH]; intros current seen dirs S L.
  - exfalso. assert (size seen <= length (host_links h))%nat; [|simpl in L; lia].
    unfold size, set_size. apply submseteq_length, NoDup_submseteq; [apply NoDup_elements|]. intros p P%elem_of_elements. by apply S.
  - cbn [symlink_chain]. case_bool_decide as C; [by eauto with loop|].
    destruct (os_Lstat h current) as [[|]|e] eqn:T; [|by eauto with loop|destruct (lstat_missing _ _); by eauto with loop].
    destruct (os_Readlink h current) as [target|e]; [|by eauto with loop]. apply IH.
    + intros p [P%elem_of_singleton|P]%elem_of_union; [subst; by apply host_links_spec|by apply S].
    + rewrite size_union by set_solver. rewrite size_singleton. lia.
Qed.
Lemma link_targets_ends dir entries : ends (link_targets h dir entries).
Proof.
  induction entries as [|[name symlink] entries IH]; cbn [link_targets]; [by eauto with loop|]. destruct (negb symlink); [done|].
  apply ends_bind; [|intros chain _; apply ends_bind; [done|by eauto with loop]].
  apply symlink_chain_ends; [set_solver|]. rewrite size_empty. lia.
Qed.
Lemma pathMountsForDir_ends dir : ends (pathMountsForDir h dir).
Proof.
  unfold pathMountsForDir. destruct (os_Stat h dir) as [info|e]; [|by eauto with loop]. destruct (negb _); [by eauto with loop|].
  apply ends_bind; [by eauto with loop|]. intros entries _. apply ends_bind; [apply link_targets_ends|by eauto with loop].
Qed.
Lemma path_mounts_ends existing dirs mounts : ends (path_mounts h existing dirs mounts).
Proof.
  revert mounts. induction dirs as [|dir dirs IH]; intros mounts; cbn [path_mounts]; [by eauto with loop|].
  apply ends_bind; [apply pathMountsForDir_ends|done].
Qed.
Lemma pathAvailabilityMounts_ends env cwd existing : ends (pathAvailabilityMounts h env cwd existing).
Proof. unfold pathAvailabilityMounts. destruct (lastEnvValue _ _); [apply path_mounts_ends|by eauto with loop]. Qed.
Lemma buildRunConfig_ends eff payload cwd environ : ends (buildRunConfig h cliPlatform eff payload cwd environ).
Proof.
  unfold buildRunConfig. destruct payload as [|command args]; [by eauto with loop|].
  do 2 (apply ends_bind; [by eauto with loop|intros ? _]). destruct (_ && _); [by eauto with loop|].
  do 2 (apply ends_bind; [by eauto with loop|intros ? _]).
  apply ends_bind; [destruct (negb _); [apply pathAvailabilityMounts_ends|by eauto with loop]|intros ? _].
  do 2 (apply ends_bind; [by eauto with loop|intros ? _]). by eauto with loop.
Qed.
Lemma selected_ends path cwd :
  (forall wd, os_Getwd = Ok wd -> absolute wd) -> ends (loadSelectedCLIFileConfig stat_missing yaml_decode h path cwd).
Proof.
  intros WD. unfold loadSelectedCLIFileConfig. destruct (negb _); [by eauto with loop|].
  destruct (findConfigFile stat_missing h cwd) as [[d|e]|] eqn:F; [by eauto with loop..|].
  unfold findConfigFile in F. destruct (filepath_Abs cwd) as [dir|e] eqn:D; [|done].
  apply (abs_clean _ _ WD) in D as (l & E & ->). rewrite find_config_go_spec in F; [done|done|].
  pose proof (path_depth_of l E). lia.
Qed.

(** The options of a run are always computed. Whatever the files, the links and the environment of the
    host are, the program ends with a configuration or an error: the walk up to a configuration file stops at
    the root, and following a chain of symbolic links in a directory of PATH stops at a file, at a missing
    name or, by the cycle check, at a link seen before. *)
Theorem run_config_total opts payload cwd environ :
  (forall wd, os_Getwd = Ok wd -> absolute wd) ->
  exists r, buildConfig h cliPlatform yaml_decode opts payload cwd environ = Some r.
Proof.
  intros WD. change (ends (buildConfig h cliPlatform yaml_decode opts payload cwd environ)). unfold buildConfig.
  case_bool_decide; [by eauto with loop|]. apply ends_bind; [by eauto with loop|intros dir _].
  apply ends_bind; [|intros eff _; apply ends_bind; [apply buildRunConfig_ends|by eauto with loop]].
  unfold loadEffectiveCLIConfig. destruct (selected_ends (co_configPath opts) dir WD) as [r ->]. by eauto with loop.
Qed.
(** ** Mounts *)

Section found.
(** The working directory of the process is absolute, and what an absolute path
    resolves to is absolute. *)
Hypothesis getwd_absolute : forall wd, os_Getwd = Ok wd -> absolute wd.
Hypothesis links_absolute : forall p q, absolute p -> EvalSymlinks h p = Ok q -> absolute q.

Lemma filepath_Dir_absolute p : absolute p -> absolute (filepath_Dir p).
Proof.
  intros A. unfold absolute, filepath_IsAbs in A. apply HasPrefix_iff in A as [t ->]. unfold filepath_Dir.
  destruct (LastIndexByte ("/" +:+ t) "/") as [i|] eqn:L.
  - apply path_Clean_absolute. rewrite string_app_cons. cbn. by destruct (string_take i _).
  - exfalso. rewrite string_app_cons in L. cbn in L. by destruct (LastIndexByte _ _).
Qed.
Lemma absPathFromCWD_absolute path cwd p : absolute cwd -> absPathFromCWD path cwd = Ok p -> absolute p.
Proof.
  intros C A. unfold absPathFromCWD in A. destruct (filepath_IsAbs path) eqn:E; [injection A as <-; by apply path_Clean_absolute|].
  apply result_bind_ok in A as (base & B & [= <-]). apply path_Clean_absolute, filepath_Join_absolute.
  case_bool_decide; [by apply getwd_absolute|by injection B as <-].
Qed.
Lemma splitPATH_absolute value cwd : absolute cwd -> Forall absolute (splitPATH value cwd).
Proof.
  intros C. unfold splitPATH. case_bool_decide; [constructor|]. apply Forall_forall. intros dir (part & _ & N)%list_elem_of_omap.
  destruct (normalizePATHDir part cwd) as [d|] eqn:E; [|done]. injection N as ->. unfold normalizePATHDir in E.
  case_bool_decide; by eapply absPathFromCWD_absolute.
Qed.
Lemma mount_root_absolute dir : absolute dir -> absolute (mount_root h dir).
Proof.
  intros A. assert (R : absolute (resolved_dir h dir)).
  { unfold resolved_dir. destruct (EvalSymlinks h dir) as [q|] eqn:E; [|done]. destruct (negb _); [|done]. by eapply path_Clean_absolute, links_absolute. }
  unfold mount_root, pathMountTarget. destruct (_ || _); [done|].
  repeat match goal with |- absolute (if ?b then _ else _) => destruct b end; try done; by apply filepath_Dir_absolute.
Qed.
Lemma symlink_chain_absolute fuel path current seen dirs result :
  absolute current -> Forall absolute dirs -> symlink_chain h fuel path current seen dirs = Some (Ok result) -> Forall absolute result.
Proof.
  revert current seen dirs. induction fuel as [|fuel IH]; intros current seen dirs C D S; cbn [symlink_chain] in S; [done|].
  destruct (bool_decide (current ∈ seen)); [done|]. destruct (os_Lstat h current) as [[]|e].
  - destruct (os_Readlink h current) as [target|e]; [|done].
    assert (T : absolute (path_Clean (if negb (filepath_IsAbs target) then filepath_Join [filepath_Dir current; target] else target))).
    { apply path_Clean_absolute. destruct (filepath_IsAbs target) eqn:E; cbn [negb]; [done|]. by apply filepath_Join_absolute, filepath_Dir_absolute. }
    apply IH in S; [done|exact T|]. apply Forall_app. split; [done|]. apply Forall_singleton. by apply filepath_Dir_absolute.
  - injection S as <-. apply Forall_app. split; [done|]. apply Forall_singleton. by apply filepath_Dir_absolute.
  - destruct (lstat_missing h current); [|done]. by injection S as <-.
Qed.
Lemma link_targets_absolute dir entries targets :
  absolute dir -> link_targets h dir entries = Some (Ok targets) -> Forall absolute targets.
Proof.
  intros A. revert targets. induction entries as [|[name symlink] entries IH]; intros targets L; cbn [link_targets] in L; [injection L as <-; constructor|].
  destruct (negb symlink); [by apply IH|]. apply loop_bind_ok in L as (chain & C & L). apply loop_bind_ok in L as (rest & R & [= <-]).
  apply Forall_app. split; [|by apply IH]. apply symlink_chain_absolute in C; [|by apply path_Clean_absolute, filepath_Join_absolute|constructor].
  apply Forall_map. eapply Forall_impl; [exact C|]. intros d. apply mount_root_absolute.
Qed.

(** A mount the program may add by itself: a directory of the host, bound read-only onto itself. *)
Definition identity_bind (m : Mount) : Prop :=
  m = read_only_bind (mt_Target m) /\ absolute (mt_Target m) /\ exists info, os_Stat h (mt_Target m) = Ok info /\ fi_IsDir info = true.
(** Mounts neither of which is at or below the other's target ([disjoint] compares the elements of the two paths). *)
Definition apart (a b : Mount) : Prop := disjoint (mt_Target a) (mt_Target b).
(** The mounts found so far: harmless, and apart from the given ones and from each other. *)
Definition additions (existing mounts : list Mount) : Prop :=
  Forall identity_bind mounts /\ (forall e m, e ∈ existing -> m ∈ mounts -> apart e m) /\
  forall i j a b, (i < j)%nat -> mounts !! i = Some a -> mounts !! j = Some b -> apart a b.

Lemma target_mounts_binds targets mounts : Forall absolute targets -> target_mounts h targets = Ok mounts -> Forall identity_bind mounts.
Proof.
  intros A. revert mounts. induction A as [|t targets A _ IH]; intros mounts T; cbn [target_mounts] in T; [injection T as <-; constructor|].
  destruct (os_Stat h t) as [info|e] eqn:S; [|destruct (stat_missing _ _); [by apply IH|done]].
  destruct (fi_IsDir info) eqn:D; [|by apply IH]. apply result_bind_ok in T as (rest & R & [= <-]).
  constructor; [|by apply IH]. split; [done|]. split; [done|]. by exists info.
Qed.
Lemma pathMountsForDir_binds dir mounts : absolute dir -> pathMountsForDir h dir = Some (Ok mounts) -> Forall identity_bind mounts.
Proof.
  intros A. unfold pathMountsForDir. destruct (os_Stat h dir) as [info|e].
  - destruct (negb _); [intros [= <-]; constructor|]. rewrite loop_bind_ok. intros (entries & _ & T).
    apply loop_bind_ok in T as (links & L & [= T]). eapply target_mounts_binds; [|exact T]. apply Forall_forall. intros t.
    rewrite (proj2 (staged_once _)), elem_of_cons. intros [->|E]; [by apply mount_root_absolute|].
    apply link_targets_absolute in L; [|done]. rewrite Forall_forall in L. by apply L.
  - destruct (stat_missing _ _); [intros [= <-]; constructor|done].
Qed.
(** The test of the program decides disjointness of absolute paths. *)
Lemma mountTargetsOverlap_false a b : absolute a -> absolute b -> mountTargetsOverlap a b = false <-> disjoint a b.
Proof. apply targetsOverlap_false. Qed.
Lemma mountOverlapsAny_false want existing :
  absolute (mt_Target want) -> Forall (fun e => absolute (mt_Target e)) existing ->
  mountOverlapsAny want existing = false -> forall e, e ∈ existing -> apart e want.
Proof.
  unfold mountOverlapsAny, apart. rewrite Forall_forall. intros W A N e E. apply mountTargetsOverlap_false; [by apply A|done|].
  apply not_true_iff_false. intros X. apply not_true_iff_false in N. apply N, existsb_exists. exists e. by rewrite <- list_elem_of_In.
Qed.
Lemma add_path_mount_additions existing mounts m :
  Forall (fun e => absolute (mt_Target e)) existing ->
  identity_bind m -> additions existing mounts -> additions existing (add_path_mount existing mounts m).
Proof.
  intros X I (F & D & P). unfold add_path_mount. destruct (mountOverlapsAny m (existing ++ mounts)) eqn:O; [done|].
  destruct (negb _); [|done]. assert (A : forall e, e ∈ existing ++ mounts -> apart e m).
  { apply mountOverlapsAny_false; [apply I| |done]. apply Forall_app. split; [done|]. eapply Forall_impl; [exact F|]. intros x Ix. apply Ix. }
  split; [|split].
  - apply Forall_app. split; [done|by constructor].
  - intros e m' E [M| ->%list_elem_of_singleton]%elem_of_app; [by apply D|]. apply A, elem_of_app. by left.
  - intros i j a b L La Lb. apply lookup_snoc_Some in Lb as [[Lj Lb]|[-> ->]].
    + apply lookup_snoc_Some in La as [[_ La]|[-> _]]; [exact (P i j a b L La Lb)|lia].
    + apply lookup_snoc_Some in La as [[_ La]|[-> _]]; [|lia]. apply A, elem_of_app. right. by eapply list_elem_of_lookup_2.
Qed.
Lemma path_mounts_additions existing dirs mounts final :
  Forall (fun e => absolute (mt_Target e)) existing -> Forall absolute dirs ->
  additions existing mounts -> path_mounts h existing dirs mounts = Some (Ok final) -> additions existing final.
Proof.
  intros X AD. revert mounts. induction AD as [|dir dirs AD _ IH]; intros mounts A P; cbn [path_mounts] in P; [by injection P as <-|].
  apply loop_bind_ok in P as (found & F & P). apply pathMountsForDir_binds in F; [|done]. revert P. apply IH. revert mounts A.
  induction F as [|m found M _ IHf]; intros mounts A; simpl; [done|]. by apply IHf, add_path_mount_additions.
Qed.
Lemma pathAvailabilityMounts_additions env cwd existing mounts :
  Forall (fun e => absolute (mt_Target e)) existing -> absolute cwd ->
  pathAvailabilityMounts h env cwd existing = Some (Ok mounts) -> additions existing mounts.
Proof.
  intros X C. assert (E : additions existing []). { split; [constructor|]. split; [intros ? ? _ M; by apply not_elem_of_nil in M|by intros ? ? ? ? _ L]. }
  unfold pathAvailabilityMounts. destruct (lastEnvValue _ _); [by apply path_mounts_additions; [|apply splitPATH_absolute|]|by intros [= <-]].
Qed.
Lemma toBBoxMount_absolute m mount : toBBoxMount m = Ok mount -> absolute (mt_Target mount).
Proof.
  unfold toBBoxMount. intros T.
  repeat (destruct (filepath_IsAbs (TrimSpace (cm_Target m))) eqn:A || match type of T with (if ?b then _ else _) = _ => destruct b end; try done);
    injection T as <-; cbn; by apply path_Clean_absolute.
Qed.

(** Everything a successful [buildRunConfig] fixes, on a platform with mounts. *)
Lemma buildRunConfig_inv eff payload cwd environ rc :
  cliPlatform <> "darwin" -> buildRunConfig h cliPlatform eff payload cwd environ = Some (Ok rc) ->
  exists absCWD explicit first found env,
    filepath_Abs cwd = Ok absCWD /\
    result_map toBBoxMount (ec_Mounts eff) = Ok explicit /\
    first = (if hasMount absCWD absCWD explicit then [] else [read_only_bind absCWD]) /\
    op_Mounts (rc_sandbox rc) = first ++ explicit ++ found /\
    buildSandboxEnv eff environ = Ok env /\
    op_Env (rc_sandbox rc) = withDockerBuildPATHEnv env (sv (ck_Enabled (ec_DockerBuild eff))) /\
    pathAvailabilityMounts h (op_Env (rc_sandbox rc)) absCWD (first ++ explicit) = Some (Ok found).
Proof.
  intros L B. unfold buildRunConfig in B. destruct payload as [|command args]; [done|].
  apply loop_bind_ok in B as (absCWD & A & B). injection A as A. apply result_wrap_ok in A.
  apply loop_bind_ok in B as (explicit & M & B). injection M as M. destruct (_ && negb (bool_decide _)) in B; [done|].
  apply loop_bind_ok in B as (pm & _ & B). apply loop_bind_ok in B as (env & E & B). injection E as E.
  rewrite (bool_decide_eq_false_2 _ L) in B. cbn [negb andb] in B.
  apply loop_bind_ok in B as (found & P & B). apply loop_bind_ok in B as (bins & _ & B). apply loop_bind_ok in B as (am & _ & B).
  injection B as <-. cbn [rc_sandbox op_Mounts op_Env]. do 5 eexists. do 3 (split; [eassumption || reflexivity|]).
  rewrite app_assoc. destruct (hasMount absCWD absCWD explicit); (split; [reflexivity|]); (split; [eassumption|]); by split.
Qed.
(** C32. The mounts the program adds by itself are harmless. On Linux the mounts of a run are those configured,
    possibly the working directory, and those found along PATH. Every mount that was not configured binds a
    path read-only onto itself; one found along PATH binds an existing directory, and its path is neither at,
    nor above, nor below (element by element) the path of a mount that was configured, of the working directory,
    or of another one found: it can neither hide nor reach into them, and a configured read-only or empty
    directory stays what it is. *)
Theorem run_mounts_harmless eff payload cwd environ rc :
  cliPlatform <> "darwin" -> buildRunConfig h cliPlatform eff payload cwd environ = Some (Ok rc) ->
  exists given first found,
    result_map toBBoxMount (ec_Mounts eff) = Ok given /\ op_Mounts (rc_sandbox rc) = first ++ given ++ found /\
    (forall m, m ∈ op_Mounts (rc_sandbox rc) -> m ∈ given \/ m = read_only_bind (mt_Target m)) /\
    Forall identity_bind found /\ (forall e m, e ∈ first ++ given -> m ∈ found -> apart e m) /\
    (forall i j a b, (i < j)%nat -> found !! i = Some a -> found !! j = Some b -> apart a b).
Proof.
  intros L B. apply buildRunConfig_inv in B as (absCWD & given & first & found & env & C & G & FE & M & _ & _ & P); [|done].
  apply (abs_clean _ _ getwd_absolute) in C as (l & _ & C). assert (AC : absolute absCWD) by (subst; apply of_elements_absolute).
  apply pathAvailabilityMounts_additions in P as (F & D & O); [| |done].
  2: { apply Forall_app. split; [subst first; destruct (hasMount _ _ _); [constructor|by apply Forall_singleton]|].
       apply result_map_ok in G. eapply Forall2_Forall_r; [exact G|]. apply Forall_true. intros m mount. apply toBBoxMount_absolute. }
  exists given, first, found. rewrite M.
  split; [done|]. split; [done|]. split; [|done]. intros m [X|[X|X]%elem_of_app]%elem_of_app; [|by left|].
  - right. subst first. destruct (hasMount _ _ _); [by apply not_elem_of_nil in X|]. apply list_elem_of_singleton in X. by subst.
  - right. rewrite Forall_forall in F. by destruct (F m X).
Qed.
End found.

(** ** The environment *)

Lemma last_value_app a b key : last_value (a ++ b) key = match last_value b key with Some v => Some v | None => last_value a key end.
Proof.
  induction a as [|e a IH]; simpl; [by destruct (last_value b key)|]. rewrite IH. by destruct (last_value b key).
Qed.
Lemma copied_entry_spec key environ entry :
  copied_entry key environ = Some entry -> exists v, splitEnv entry = Some (key, v) /\ last_value environ key = Some v.
Proof.
  induction environ as [|e environ IH]; [done|]. cbn [copied_entry last_value]. destruct (copied_entry key environ) as [c|] eqn:C.
  - intros [= ->]. destruct (IH eq_refl) as (v & S & L). exists v. by rewrite L.
  - destruct (CutByte e "=") as [[k v]|] eqn:S; [|done]. case_bool_decide as K; [|done]. intros [= ->]. subst. exists v.
    split; [done|]. assert (N : last_value environ key = None); [|by rewrite N; unfold splitEnv; rewrite S, bool_decide_eq_true_2].
    clear -C. induction environ as [|e environ IH]; [done|]. cbn [copied_entry] in C.
    destruct (copied_entry key environ); [done|]. cbn [last_value]. rewrite IH by done. unfold splitEnv.
    destruct (CutByte e "=") as [[k v]|]; [|done]. by case_bool_decide.
Qed.
Lemma copied_values keys environ entries key :
  result_map (fun k => copyHostEnv k environ) keys = Ok entries ->
  last_value entries key = if bool_decide (key ∈ map TrimSpace keys) then last_value environ key else None.
Proof.
  rewrite result_map_ok. intros F. induction F as [|k e keys entries C F IH]; [done|]. cbn [map last_value]. rewrite IH.
  unfold copyHostEnv in C. destruct (bool_decide (TrimSpace k = "")); [done|]. destruct (copied_entry (TrimSpace k) environ) as [c|] eqn:X; [|done].
  injection C as ->. destruct (copied_entry_spec _ _ _ X) as (v & S & LV). rewrite S.
  destruct (decide (key = TrimSpace k)) as [->|N].
  - rewrite (bool_decide_eq_true_2 (_ ∈ _ :: _)) by (by left). rewrite LV.
    rewrite (bool_decide_eq_true_2 (TrimSpace k = TrimSpace k)) by done. by case_bool_decide.
  - rewrite (bool_decide_eq_false_2 (TrimSpace k = key)) by done.
    destruct (decide (key ∈ map TrimSpace keys)) as [I|I].
    + rewrite (bool_decide_eq_true_2 (key ∈ map TrimSpace keys)) by done. rewrite (bool_decide_eq_true_2 (key ∈ TrimSpace k :: map TrimSpace keys)) by (by right). by destruct (last_value environ key).
    + rewrite (bool_decide_eq_false_2 (key ∈ map TrimSpace keys)) by done. rewrite bool_decide_eq_false_2; [done|].
      by intros [|]%elem_of_cons.
Qed.

(** Where the environment of a run comes from. A variable has the value configured for it; a variable
    that is not configured but listed to be copied has the last value the host's environment gives it, which
    exists; every other variable is absent, so nothing of the host's environment gets in unasked. *)
Theorem run_env_sources eff environ env key :
  buildSandboxEnv eff environ = Ok env ->
  lastEnvValue env key = (match lastEnvValue (ec_Env eff) key with
                          | Some v => Some v
                          | None => if bool_decide (key ∈ map TrimSpace (ec_CopyEnv eff)) then lastEnvValue environ key else None
                          end) /\
  (key ∈ map TrimSpace (ec_CopyEnv eff) -> is_Some (lastEnvValue environ key)).
Proof.
  unfold buildSandboxEnv, lastEnvValue. rewrite result_bind_ok. intros (copied & C & E). apply result_bind_ok in E as (given & G & [= <-]).
  assert (given = ec_Env eff) as ->.
  { apply result_map_ok in G. induction G as [|x y l k X _ IH]; [done|]. destruct (CutByte x "="); [|done]. by simplify_eq. }
  split; [by rewrite last_value_app, (copied_values _ _ _ _ C)|].
  apply result_map_ok in C. intros (k & -> & K)%list_elem_of_fmap. apply list_elem_of_lookup in K as [i K].
  destruct (Forall2_lookup_l _ _ _ _ _ C K) as (e & _ & X). unfold copyHostEnv in X. case_bool_decide; [done|].
  destruct (copied_entry _ _) as [c|] eqn:Y; [|done]. destruct (copied_entry_spec _ _ _ Y) as (v & _ & ->). by eauto.
Qed.
End run.

(** ** What the library makes of the options *)

Section accepted.
Context `{GoLib} `{HostLinks} `{Net} `{MapOrder} (h : fsState) (yaml_decode : string -> yamlResult).

Lemma buildRunConfig_options platform eff payload cwd environ rc :
  buildRunConfig h platform eff payload cwd environ = Some (Ok rc) ->
  op_Seccomp (rc_sandbox rc) = defaultCLISeccompOptions (sv (ck_Enabled (ec_DockerBuild eff))) /\
  op_WorkDir (rc_sandbox rc) = ec_WorkDir eff /\ op_PolicyMode (rc_sandbox rc) = "" /\
  (op_TrafficMode (rc_sandbox rc) = TrafficModeProxy \/ op_TrafficMode (rc_sandbox rc) = TrafficModeTransparent) /\
  po_MITM_Enabled (rc_manager rc) = bool_decide (op_TrafficMode (rc_sandbox rc) = TrafficModeTransparent).
Proof.
  intros B. unfold buildRunConfig in B. destruct payload as [|command args]; [done|].
  do 2 (apply loop_bind_ok in B as (? & _ & B)).
  set (mode := if bool_decide (ToLower (TrimSpace (ec_TrafficMode eff)) = "") then _ else _) in B.
  destruct (negb (bool_decide (mode = TrafficModeProxy)) && negb (bool_decide (mode = TrafficModeTransparent))) eqn:T; [done|].
  do 5 (apply loop_bind_ok in B as (? & _ & B)). injection B as <-. cbn. split; [done|]. split; [done|]. split; [done|]. split; [|done].
  apply andb_false_iff in T. rewrite !negb_false_iff, !bool_decide_eq_true in T. exact T.
Qed.

Lemma effective_workdir opts absCWD eff :
  absolute absCWD -> loadEffectiveCLIConfig stat_missing yaml_decode h opts absCWD = Some (Ok eff) -> absolute (ec_WorkDir eff).
Proof.
  intros A. unfold loadEffectiveCLIConfig. destruct (loadSelectedCLIFileConfig _ _ _ _ _) as [loaded|]; [|done]. intros [= E].
  apply result_bind_ok in E as (file & _ & E). apply result_bind_ok in E as (runtime & _ & [= <-]).
  unfold toEffectiveCLIConfig. cbn [ec_WorkDir]. set (w := TrimSpace _). case_bool_decide; [done|].
  destruct (filepath_IsAbs w) eqn:W; cbn [negb]; [done|]. by apply filepath_Join_absolute.
Qed.
Lemma buildConfig_inv platform opts payload cwd environ rc :
  buildConfig h platform yaml_decode opts payload cwd environ = Some (Ok rc) ->
  exists absCWD eff rc', filepath_Abs cwd = Ok absCWD /\
    loadEffectiveCLIConfig stat_missing yaml_decode h opts absCWD = Some (Ok eff) /\
    buildRunConfig h platform eff payload absCWD environ = Some (Ok rc') /\
    rc_manager rc = rc_manager rc' /\ rc_sandbox rc = rc_sandbox rc'.
Proof.
  unfold buildConfig. case_bool_decide; [done|]. rewrite loop_bind_ok. intros (absCWD & A & B). injection A as A.
  apply result_wrap_ok in A. apply loop_bind_ok in B as (eff & E & B). apply loop_bind_ok in B as (rc' & R & [= <-]).
  by exists absCWD, eff, rc'.
Qed.

Definition blank_or_absolute (path : string) : Prop := TrimSpace path = "" \/ absolute (TrimSpace path).
Lemma blank_or_absolute_check path :
  negb (bool_decide (TrimSpace path = "")) && not_absolute (TrimSpace path) = false <-> blank_or_absolute path.
Proof.
  unfold blank_or_absolute, not_absolute, absolute. case_bool_decide; simpl; [tauto|]. rewrite negb_false_iff. tauto.
Qed.
Lemma default_seccomp_valid b : validateSeccompOptions (defaultCLISeccompOptions b) = Ok tt.
Proof. by destruct b. Qed.

(** On Linux the options of a run can only be refused for its mounts or the Docker socket paths. For
    every run the command line builds, the library's validation succeeds exactly when the mounts are accepted
    and each Docker socket path is blank or absolute: the working directory is absolute, the traffic and
    policy modes are ones it supports, transparent mode comes with interception enabled, and the seccomp
    profile is valid. *)
Theorem run_options_accepted opts payload cwd environ rc :
  (forall wd, os_Getwd = Ok wd -> absolute wd) ->
  buildConfig h "linux" yaml_decode opts payload cwd environ = Some (Ok rc) ->
  validateSandboxOptions "linux" h (rc_sandbox rc) (po_MITM_Enabled (rc_manager rc)) = Ok tt <->
  blank_or_absolute (dk_MountPath (op_DockerSocket (rc_sandbox rc))) /\
  blank_or_absolute (dk_TargetSocketPath (op_DockerSocket (rc_sandbox rc))) /\
  validateMounts h (op_Mounts (rc_sandbox rc)) = Ok tt.
Proof.
  intros WD B. apply buildConfig_inv in B as (absCWD & eff & rc' & A & E & B & RM & RS).
  apply (abs_clean _ _ WD) in A as (l & _ & AE). assert (W := effective_workdir _ _ _ (eq_ind_r absolute (of_elements_absolute l) AE) E).
  apply buildRunConfig_options in B as (SC & WK & PM & TM & MI). rewrite <- RS in *. rewrite <- RM in *. rewrite <- WK in W.
  unfold validateSandboxOptions. rewrite SC, PM, MI.
  unfold not_absolute at 1. unfold absolute in W. rewrite W, andb_false_r.
  rewrite <- !blank_or_absolute_check.
  destruct (negb (bool_decide (TrimSpace (dk_MountPath _) = "")) && _); [naive_solver|].
  destruct (negb (bool_decide (TrimSpace (dk_TargetSocketPath _) = "")) && _); [naive_solver|].
  assert (N : normalizeTrafficMode (op_TrafficMode (rc_sandbox rc)) = op_TrafficMode (rc_sandbox rc)) by (destruct TM as [-> | ->]; reflexivity).
  rewrite N. rewrite (bool_decide_eq_false_2 ("linux" = "darwin")) by done.
  assert (T : negb (bool_decide (op_TrafficMode (rc_sandbox rc) = TrafficModeProxy)) && negb (bool_decide (op_TrafficMode (rc_sandbox rc) = TrafficModeTransparent)) = false)
    by (destruct TM as [-> | ->]; reflexivity).
  rewrite T, andb_negb_r, default_seccomp_valid. cbn [result_bind normalizePolicyMode bool_decide].
  destruct (validateMounts h _) as [[]|e]; simpl; naive_solver.
Qed.

(** The command line cannot start a sandbox on macOS. It always asks for a seccomp profile or disables
    seccomp, and on that platform the library refuses any seccomp option, so whatever configuration the
    program builds there is rejected. *)
Theorem darwin_run_rejected opts payload cwd environ rc mitm :
  buildConfig h "darwin" yaml_decode opts payload cwd environ = Some (Ok rc) ->
  exists e, validateSandboxOptions "darwin" h (rc_sandbox rc) mitm = Err e.
Proof.
  intros B. apply buildConfig_inv in B as (absCWD & eff & rc' & _ & _ & B & _ & RS).
  apply buildRunConfig_options in B as (SC & _). rewrite <- RS in SC. unfold validateSandboxOptions. rewrite SC.
  assert (Z : isZeroSeccompOptions (defaultCLISeccompOptions (sv (ck_Enabled (ec_DockerBuild eff)))) = false) by by destruct (sv _).
  rewrite Z. rewrite (bool_decide_eq_true_2 ("darwin" = "darwin")) by done.
  do 4 (destruct (_ && _); [by eauto|]). destruct (normalizePolicyMode _) as [p|e]; simpl; [|by eauto].
  case_bool_decide; [by eauto|]. destruct (_ <? _)%nat; by eauto.
Qed.

(** A blank method widens a rule. The library refuses a rule with a blank HTTP method; the command line
    drops blank methods before the rule gets there, so a rule whose methods are all blank becomes the rule
    without a restriction on the method. *)
Theorem blank_methods_widen idx rule :
  cr_HTTPMethods rule <> [] -> Forall (fun m => TrimSpace m = "") (cr_HTTPMethods rule) ->
  HTTPMethods (build_rule rule) = [] /\
  exists e, compilePolicyRule idx {|
    HostPatterns := cr_HostPatterns rule; IPCIDRs := cr_IPCIDRs rule; HTTPMethods := cr_HTTPMethods rule;
    ConnectPorts := cr_ConnectPorts rule; PathPatterns := cr_PathPatterns rule; HeaderPatterns := cr_HeaderPatterns rule;
    BodyPatterns := cr_BodyPatterns rule |} = Err e.
Proof.
  intros N F. split.
  - cbn. unfold normalizeHTTPMethods. clear N. induction F as [|m l M _ IH]; [done|]. cbn [map]. rewrite M.
    change (ToUpper "") with "". rewrite filter_cons_False by (by intros X; apply X). exact IH.
  - destruct (cr_HTTPMethods rule) as [|m l] eqn:E; [done|]. inversion F as [|? ? M F']; subst.
    unfold compilePolicyRule. cbn [HTTPMethods]. assert (X : exists e, compileMethods idx (m :: l) = Err e); [|by destruct X as [e ->]; exists e].
    unfold compileMethods. cbn [foldl result_bind]. unfold normalize_method. rewrite M. rewrite bool_decide_eq_true_2 by done.
    exists ("rule " +:+ Itoa idx +:+ " HTTP method cannot be empty"). generalize ("rule " +:+ Itoa idx +:+ " HTTP method cannot be empty"). clear. intros e. induction l as [|m' l IH]; [done|]. exact IH.
Qed.
End accepted.

(** ** Samples *)

Module SampleRun.
#[local] Existing Instance SampleCLI.fs.
Definition link (p : string) : option string :=
  if String.eqb p "/opt/t/bin/vi" then Some "/etc/alternatives/vi"
  else if String.eqb p "/etc/alternatives/vi" then Some "../../usr/bin/vim" else None.
Definition lstat (h : fsState) (p : string) : result bool :=
  match link p with Some _ => Ok true | None => match @os_Stat SampleCLI.fs h p with Ok _ => Ok false | Err e => Err e end end.
Lemma lstat_links h p : lstat h p = Ok true -> p ∈ ["/opt/t/bin/vi"; "/etc/alternatives/vi"].
Proof.
  unfold lstat, link. intros L. destruct (String.eqb p "/opt/t/bin/vi") eqn:E; [apply String.eqb_eq in E; subst; by left|].
  destruct (String.eqb p "/etc/alternatives/vi") eqn:E'; [apply String.eqb_eq in E'; subst; by right; left|].
  by destruct (os_Stat h p).
Qed.
#[export] Instance links : HostLinks (H := SampleCLI.fs) := {|
  os_Lstat := lstat;
  lstat_missing := fun _ _ => true;
  os_Readlink := fun _ p => match link p with Some t => Ok t | None => Err "not a link" end;
  EvalSymlinks := fun _ p => Ok p;
  os_ReadDirLinks := fun _ p => if String.eqb p "/opt/t/bin" then Ok [("tool", false); ("vi", true)] else Ok [];
  stat_missing := SampleCLI.absent;
  host_links := fun _ => ["/opt/t/bin/vi"; "/etc/alternatives/vi"];
  host_links_spec := lstat_links |}.
Definition environ : list string := ["PATH=/bin"; "HOME=/root"].
Definition build (platform : string) : option (result runConfig) :=
  buildConfig (H := sampleLib) [] platform SampleCLI.decode SampleCLI.opts ["vi"; "x"] "." environ.
Definition blank_rule : cliPolicyRuleConfig := {|
  cr_HostPatterns := ["a"]; cr_IPCIDRs := []; cr_HTTPMethods := [" "]; cr_ConnectPorts := []; cr_PathPatterns := [];
  cr_HeaderPatterns := []; cr_BodyPatterns := [] |}.
Definition with_mounts (mounts : list string) : cliOptions := {|
  co_configPath := ""; co_name := "box"; co_workDir := ""; co_binaries := []; co_mounts := mounts;
  co_env := []; co_copyEnv := []; co_copyEnvSet := false; co_trafficMode := "proxy"; co_policyMode := "enforce";
  co_maxRequestBodyBytes := 65536; co_maxBodySizeSet := false; co_printPolicy := false; co_reportPolicy := true;
  co_reportAccess := true; co_reportRequests := true; co_accessLog := "json"; co_flagOverrides := SampleCLI.no_flags |}.
End SampleRun.

#[local] Existing Instance sampleLib.
#[local] Existing Instance sampleNet.
#[local] Existing Instance SampleHost.order.
Import SampleCLI SampleRun.

Lemma run_config_total_witness : exists r, build "linux" = Some r.
Proof. exact (run_config_total [] "linux" decode opts ["vi"; "x"] "." environ getwd_absolute). Defined.

Lemma eval_absolute p q : absolute p -> EvalSymlinks [] p = Ok q -> absolute q.
Proof. intros A E. by injection E as <-. Qed.
Lemma run_mounts_harmless_witness :
  exists eff rc, loadEffectiveCLIConfig stat_missing decode [] opts "/w/a" = Some (Ok eff) /\
    buildRunConfig [] "linux" eff ["vi"; "x"] "/w/a" environ = Some (Ok rc) /\
    map mt_Target (op_Mounts (rc_sandbox rc)) = ["/w/a"; "/dst"; "/etc/alternatives"; "/opt/t"; "/usr"] /\
    forall m, m ∈ op_Mounts (rc_sandbox rc) -> mt_ReadOnly m = false -> mt_Target m = "/dst".
Proof.
  destruct (loadEffectiveCLIConfig stat_missing decode [] opts "/w/a") as [[eff|e]|] eqn:E; [|vm_compute in E; discriminate E..].
  destruct (buildRunConfig [] "linux" eff ["vi"; "x"] "/w/a" environ) as [[rc|e]|] eqn:R;
    [|vm_compute in E; injection E as <-; vm_compute in R; discriminate R..].
  exists eff, rc. split; [reflexivity|]. split; [exact R|].
  destruct (run_mounts_harmless [] "linux" getwd_absolute eval_absolute eff ["vi"; "x"] "/w/a" environ rc ltac:(discriminate) R) as (given & first & found & G & _ & O & _).
  split; [vm_compute in E; injection E as <-; vm_compute in R; injection R as <-; reflexivity|].
  intros m M W. destruct (O m M) as [I|I].
  - vm_compute in E. injection E as <-. vm_compute in G. injection G as <-. apply list_elem_of_singleton in I as ->. reflexivity.
  - rewrite I in W. discriminate W.
Defined.

Lemma run_env_sources_witness :
  exists eff env, loadEffectiveCLIConfig stat_missing decode [] opts "/w/a" = Some (Ok eff) /\ buildSandboxEnv eff environ = Ok env /\
    lastEnvValue env "PATH" = Some "/opt/t/bin:/usr/bin" /\ lastEnvValue env "HOME" = None.
Proof.
  destruct (loadEffectiveCLIConfig stat_missing decode [] opts "/w/a") as [[eff|e]|] eqn:E; [|vm_compute in E; discriminate E..].
  destruct (buildSandboxEnv eff environ) as [env|e] eqn:B; [|vm_compute in E; injection E as <-; vm_compute in B; discriminate B].
  exists eff, env. split; [reflexivity|]. split; [exact B|].
  split; [rewrite (proj1 (run_env_sources eff environ env "PATH" B))|rewrite (proj1 (run_env_sources eff environ env "HOME" B))];
    vm_compute in E; injection E as <-; vm_compute; reflexivity.
Defined.

Lemma linux_built : exists rc,
  buildConfig [] "linux" decode opts ["vi"; "x"] "." environ = Some (Ok rc) /\
  TrimSpace (dk_MountPath (op_DockerSocket (rc_sandbox rc))) = "" /\
  TrimSpace (dk_TargetSocketPath (op_DockerSocket (rc_sandbox rc))) = "" /\
  validateMounts [] (op_Mounts (rc_sandbox rc)) = Ok tt.
Proof. eexists. split; [vm_compute; reflexivity|]. repeat split; vm_compute; reflexivity. Qed.
Lemma run_options_accepted_witness :
  exists rc, buildConfig [] "linux" decode opts ["vi"; "x"] "." environ = Some (Ok rc) /\
    validateSandboxOptions "linux" [] (rc_sandbox rc) (po_MITM_Enabled (rc_manager rc)) = Ok tt.
Proof.
  destruct linux_built as (rc & B & M & T & V). exists rc. split; [exact B|].
  apply (run_options_accepted [] decode opts ["vi"; "x"] "." environ rc getwd_absolute B).
  exact (conj (or_introl M) (conj (or_introl T) V)).
Defined.

Lemma darwin_run_rejected_witness :
  exists rc e, buildConfig [] "darwin" decode (with_mounts []) ["vi"] "." environ = Some (Ok rc) /\ op_Mounts (rc_sandbox rc) = [] /\
    validateSandboxOptions "darwin" [] (rc_sandbox rc) false = Err e /\ e = "seccomp is not supported on darwin".
Proof.
  destruct (buildConfig [] "darwin" decode (with_mounts []) ["vi"] "." environ) as [[rc|e]|] eqn:B; [|vm_compute in B; discriminate B..].
  destruct (darwin_run_rejected [] decode (with_mounts []) ["vi"] "." environ rc false B) as [e X].
  exists rc, e. split; [reflexivity|]. vm_compute in B. injection B as <-. split; [reflexivity|]. split; [exact X|].
  vm_compute in X. injection X as <-. reflexivity.
Defined.

Lemma blank_methods_widen_witness : HTTPMethods (build_rule blank_rule) = [].
Proof. apply (blank_methods_widen 0 blank_rule); [discriminate|]. repeat constructor. Defined.
