(* ===== verification/RuntimeBinary.v ===== *)
(** The helper binary: src/runtime_binary.go. It is found beside the
    running executable or built from the module's sources, once per resolver. *)
From S2P Require Import Prelude GoStrings StringLemmas GoPath PathLemmas HostFS Staging StagingTheorems Config ConfigTheorems Sample.

Definition runtimeBinaryName : string := "bbox".

Section resolver.
Context `{GoLib} `{HostFS}.

(** What the system answers: the path of the executable, the source file of the
    caller, the directory for the build, and the output and error of the build. *)
Record resolverEnv := {
  rv_executablePath : result string;
  rv_caller : option string;
  rv_makeTempDir : result string;
  rv_build : string -> string -> string * option string;
}.

Definition regularFileExists (h : fsState) (path : string) : bool :=
  match os_Stat h path with Ok info => fi_IsRegular info | Err _ => false end.
Definition isBBoxBinaryName (path : string) : bool :=
  let name := ToLower (filepath_Base path) in
  bool_decide (name = runtimeBinaryName) || bool_decide (name = runtimeBinaryName +:+ ".exe").
Definition packagedBBox (env : resolverEnv) (h : fsState) : option string :=
  match rv_executablePath env with
  | Err _ => None
  | Ok exePath =>
      if bool_decide (TrimSpace exePath = "") then None else
      let exePath := path_Clean exePath in
      if regularFileExists h exePath && isBBoxBinaryName exePath then Some exePath else
      let siblingPath := filepath_Join [filepath_Dir exePath; runtimeBinaryName] in
      if regularFileExists h siblingPath then Some siblingPath else None
  end.

Definition isPackageRoot (h : fsState) (dir : string) : bool :=
  match os_Stat h (filepath_Join [dir; "go.mod"]) with
  | Err _ => false
  | Ok _ => is_ok (os_Stat h (filepath_Join [dir; "cmd"; "bbox"; "main.go"]))
  end.
(** The walk up the directories; the outer [None] is a loop that has not ended. *)
Fixpoint package_root_go (h : fsState) (fuel : nat) (dir : string) : option (option string) :=
  match fuel with
  | O => None
  | S fuel =>
      if isPackageRoot h dir then Some (Some dir) else
      let parent := filepath_Dir dir in
      if bool_decide (parent = dir) then Some None else package_root_go h fuel parent
  end.
Definition findPackageRoot (h : fsState) (start : string) : option (option string) :=
  if bool_decide (start = "") then Some None else
  match filepath_Abs start with
  | Err _ => Some None
  | Ok dir => package_root_go h (S (path_depth dir)) dir
  end.
Definition packageRoot (env : resolverEnv) (h : fsState) : option (result string) :=
  match (match rv_caller env with Some file => findPackageRoot h (filepath_Dir file) | None => Some None end) with
  | None => None
  | Some (Some root) => Some (Ok root)
  | Some None =>
      match os_Getwd with
      | Err e => Some (Err ("determine package root: " +:+ e))
      | Ok cwd =>
          match findPackageRoot h cwd with
          | None => None
          | Some (Some root) => Some (Ok root)
          | Some None => Some (Err ("locate package root from working directory " +:+ Quote cwd))
          end
      end
  end.

Definition buildBBoxBinary (outcome : string * option string) : result unit :=
  match outcome with
  | (_, None) => Ok tt
  | (output, Some e) =>
      let msg := TrimSpace output in
      if negb (bool_decide (msg = "")) then Err ("build bbox runtime binary: " +:+ e +:+ ": " +:+ msg)
      else Err ("build bbox runtime binary: " +:+ e)
  end.

(** The fields that the first call sets; [rs_done] is the flag of [sync.Once]. *)
Record runtimeBinaryResolver := { rs_done : bool; rs_path : string; rs_dir : string; rs_err : option string }.
Definition newRuntimeBinaryResolver : runtimeBinaryResolver := {| rs_done := false; rs_path := ""; rs_dir := ""; rs_err := None |}.

(** The function given to [Once.Do]. *)
Definition resolve_once (env : resolverEnv) (h : fsState) : option (runtimeBinaryResolver * fsState) :=
  let failed e := {| rs_done := true; rs_path := ""; rs_dir := ""; rs_err := Some e |} in
  match packagedBBox env h with
  | Some path => Some ({| rs_done := true; rs_path := path; rs_dir := ""; rs_err := None |}, h)
  | None =>
      match packageRoot env h with
      | None => None
      | Some (Err e) => Some (failed e, h)
      | Some (Ok moduleRoot) =>
          match rv_makeTempDir env with
          | Err e => Some (failed ("create runtime build dir: " +:+ e), h)
          | Ok buildDir =>
              let bboxPath := filepath_Join [buildDir; runtimeBinaryName] in
              match buildBBoxBinary (rv_build env moduleRoot bboxPath) with
              | Err e => Some (failed e, (fm_do (OpRemoveAll buildDir) h).2)
              | Ok _ => Some ({| rs_done := true; rs_path := bboxPath; rs_dir := buildDir; rs_err := None |}, h)
              end
          end
      end
  end.
Definition resolver_result (r : runtimeBinaryResolver) : result string :=
  match rs_err r with
  | Some e => Err e
  | None => if bool_decide (rs_path r = "") then Err "runtime binary path is empty" else Ok (rs_path r)
  end.
Definition RuntimeBinary (env : resolverEnv) (r : runtimeBinaryResolver) (h : fsState)
    : option (result string * runtimeBinaryResolver * fsState) :=
  if rs_done r then Some (resolver_result r, r, h) else
  match resolve_once env h with
  | None => None
  | Some (r, h) => Some (resolver_result r, r, h)
  end.
Definition Cleanup (r : runtimeBinaryResolver) : FM unit :=
  if bool_decide (rs_dir r = "") then fm_ret tt else fm_do (OpRemoveAll (rs_dir r)).

(** ** The walk *)

Lemma package_root_go_spec h l fuel :
  Forall element l -> (length l < fuel)%nat ->
  package_root_go h fuel (of_elements l) = Some (List.find (isPackageRoot h) (map of_elements (ancestors_rev (rev l)))).
Proof.
  revert fuel. induction l as [|e l IH] using rev_ind; intros fuel F L; (destruct fuel as [|fuel]; [simpl in L; lia|]).
  - cbn [package_root_go rev ancestors_rev map List.find]. destruct (isPackageRoot h _); [done|].
    rewrite filepath_Dir_clean by done. by rewrite bool_decide_eq_true_2.
  - rewrite rev_app_distr. simpl rev. cbn [app ancestors_rev map List.find package_root_go].
    assert (R : rev (e :: rev l) = l ++ [e]) by (simpl; by rewrite rev_involutive). rewrite R.
    destruct (isPackageRoot h (of_elements (l ++ [e]))); [done|]. rewrite filepath_Dir_clean, removelast_last by done.
    assert (G : Forall element l) by (by apply Forall_app in F as [F _]).
    rewrite bool_decide_eq_false_2.
    + apply IH; [done|]. rewrite length_app in L. simpl in L. lia.
    + intros X%of_elements_inj; [|done|done]. apply (f_equal length) in X. rewrite length_app in X. simpl in X. lia.
Qed.
(** The nearest directory with the module's sources, or none: the walk always ends. *)
Lemma findPackageRoot_nearest h start :
  (forall wd, os_Getwd = Ok wd -> absolute wd) ->
  findPackageRoot h start = Some (if bool_decide (start = "") then None else
                                  match filepath_Abs start with
                                  | Err _ => None
                                  | Ok dir => List.find (isPackageRoot h) (ancestors dir)
                                  end).
Proof.
  intros WD. unfold findPackageRoot. case_bool_decide; [done|]. destruct (filepath_Abs start) as [dir|e] eqn:D; [|done].
  apply abs_clean in D as (l & F & ->); [|done]. rewrite package_root_go_spec; [|done|].
  - unfold ancestors. by rewrite elements_of_elements.
  - pose proof (path_depth_of l F). lia.
Qed.

(** ** One resolution *)

(** The helper binary is resolved once and always. The first call ends with a path or an error; later calls
    return the same and change nothing. The only change it may make on the host is to remove the directory of
    a failed build, and a built binary lies in the directory that the clean-up removes. *)
Theorem runtime_binary_once env h :
  (forall wd, os_Getwd = Ok wd -> absolute wd) ->
  exists res r h', RuntimeBinary env newRuntimeBinaryResolver h = Some (res, r, h') /\
    (forall h2, RuntimeBinary env r h2 = Some (res, r, h2)) /\
    (h' = h \/ exists dir e, rv_makeTempDir env = Ok dir /\ res = Err e /\ h' = h ++ [OpRemoveAll dir]) /\
    (rs_dir r <> "" -> rv_makeTempDir env = Ok (rs_dir r) /\ (absolute (rs_dir r) -> below (rs_dir r) (rs_path r))).
Proof.
  intros WD. unfold RuntimeBinary at 1. cbn [rs_done newRuntimeBinaryResolver].
  assert (P : exists root, packageRoot env h = Some root).
  { unfold packageRoot. destruct (rv_caller env) as [file|].
    - rewrite findPackageRoot_nearest by done. destruct (if bool_decide _ then _ else _); [by eauto|].
      destruct os_Getwd as [cwd|e] eqn:G; [|by eauto]. rewrite findPackageRoot_nearest; [by destruct (if bool_decide _ then _ else _); eauto|].
      rewrite G. intros wd [= <-]. by apply WD.
    - destruct os_Getwd as [cwd|e] eqn:G; [|by eauto]. rewrite findPackageRoot_nearest; [by destruct (if bool_decide _ then _ else _); eauto|].
      rewrite G. intros wd [= <-]. by apply WD. }
  unfold resolve_once. destruct (packagedBBox env h) as [path|].
  { do 3 eexists. split; [reflexivity|]. split; [done|]. split; [by left|done]. }
  destruct P as [[root|e] ->]; [|do 3 eexists; split; [reflexivity|]; split; [done|]; split; [by left|done]].
  destruct (rv_makeTempDir env) as [dir|e]; [|do 3 eexists; split; [reflexivity|]; split; [done|]; split; [by left|done]].
  destruct (buildBBoxBinary _) as [[]|e]; (do 3 eexists; split; [reflexivity|]; split; [done|]).
  - split; [by left|]. intros _. split; [done|]. intros A. apply Join_below; [done|]. left. by repeat split.
  - split; [|done]. right. exists dir, e. done.
Qed.
End resolver.
