(* ===== verification/GoFlag.v ===== *)
(** Package [flag] of Go, as far as bbox uses it: a set of integer, string and
    boolean flags and [FlagSet.Parse] with [flag.ContinueOnError], together with
    [strconv.ParseInt] in base 0 and [strconv.ParseBool], which read the values.
    The usage text printed on an error is not modelled. *)
From S2P Require Import Prelude GoStrings StringLemmas.

(** ** Numbers: [strconv.ParseInt] with base 0 and 64 bits *)

Definition lower_byte (c : Ascii.ascii) : Z := Z.lor (byte_of c) 32.
Definition digit_of (c : Ascii.ascii) : option Z :=
  if is_digit c then Some (byte_of c - 48) else
  let l := lower_byte c in if (97 <=? l) && (l <=? 122) then Some (l - 87) else None.
Definition parse_error : string := "parse error".
Definition range_error : string := "value out of range".
(** The loop over the digits; an underscore is skipped here and checked later. *)
Fixpoint parse_digits (base n : Z) (s : string) : result Z :=
  match s with
  | "" => Ok n
  | String c s =>
      if bool_decide (c = "_"%char) then parse_digits base n s else
      match digit_of c with
      | None => Err parse_error
      | Some d =>
          if base <=? d then Err parse_error else
          if 2 ^ 64 <=? n * base + d then Err range_error else parse_digits base (n * base + d) s
      end
  end.

(** [underscoreOK]: what was seen last is nothing, a digit, an underscore or else. *)
Inductive lastSeen := SawStart | SawDigit | SawUnderscore | SawOther.
Fixpoint underscore_go (hex : bool) (saw : lastSeen) (s : string) : bool :=
  match s with
  | "" => match saw with SawUnderscore => false | _ => true end
  | String c s =>
      if is_digit c || (hex && (97 <=? lower_byte c) && (lower_byte c <=? 102)) then underscore_go hex SawDigit s
      else if bool_decide (c = "_"%char) then
        match saw with SawDigit => underscore_go hex SawUnderscore s | _ => false end
      else match saw with SawUnderscore => false | _ => underscore_go hex SawOther s end
  end.
Definition base_letter (l : Z) : bool := (l =? 98) || (l =? 111) || (l =? 120).
Definition underscoreOK (s : string) : bool :=
  match s with
  | String z (String l rest) =>
      if bool_decide (z = "0"%char) && base_letter (lower_byte l)
      then underscore_go (lower_byte l =? 120) SawDigit rest else underscore_go false SawStart s
  | _ => underscore_go false SawStart s
  end.

(** The base of the digits and the digits: 0b, 0o, 0x with something after it, a
    leading 0, or decimal. *)
Definition number_base (s : string) : Z * string :=
  match s with
  | String z rest =>
      if bool_decide (z = "0"%char) then
        match rest with
        | String l (String c ds) =>
            if lower_byte l =? 98 then (2, String c ds)
            else if lower_byte l =? 111 then (8, String c ds)
            else if lower_byte l =? 120 then (16, String c ds)
            else (8, rest)
        | _ => (8, rest)
        end
      else (10, s)
  | "" => (10, s)
  end.
Definition ParseUint0 (s : string) : result Z :=
  if bool_decide (s = "") then Err parse_error else
  let '(base, ds) := number_base s in
  n <-! parse_digits base 0 ds;
  if Contains ds "_" && negb (underscoreOK s) then Err parse_error else Ok n.
Definition ParseInt0 (s : string) : result Z :=
  match s with
  | "" => Err parse_error
  | String c rest =>
      let '(neg, ds) :=
        if bool_decide (c = "+"%char) then (false, rest)
        else if bool_decide (c = "-"%char) then (true, rest) else (false, s) in
      n <-! ParseUint0 ds;
      if negb neg && (2 ^ 63 <=? n) then Err range_error
      else if neg && (2 ^ 63 <? n) then Err range_error
      else Ok (if neg : bool then - n else n)
  end.

(** [strconv.ParseBool]. *)
Definition ParseBool (s : string) : option bool :=
  if bool_decide (s ∈ ["1"; "t"; "T"; "TRUE"; "true"; "True"]) then Some true
  else if bool_decide (s ∈ ["0"; "f"; "F"; "FALSE"; "false"; "False"]) then Some false else None.

(** ** The flag set *)

Inductive flagValue := FInt (n : Z) | FString (s : string) | FBool (b : bool).
(** The defined flags with their current values. *)
Definition FlagSet : Type := list (string * flagValue).
Fixpoint flag_lookup (fs : FlagSet) (name : string) : option flagValue :=
  match fs with
  | [] => None
  | (key, v) :: fs => if String.eqb key name then Some v else flag_lookup fs name
  end.
Fixpoint flag_assign (fs : FlagSet) (name : string) (v : flagValue) : FlagSet :=
  match fs with
  | [] => []
  | (key, old) :: fs => if String.eqb key name then (key, v) :: fs else (key, old) :: flag_assign fs name v
  end.
Definition flag_int (fs : FlagSet) (name : string) : Z := match flag_lookup fs name with Some (FInt n) => n | _ => 0 end.
Definition flag_string (fs : FlagSet) (name : string) : string := match flag_lookup fs name with Some (FString s) => s | _ => "" end.
Definition flag_bool (fs : FlagSet) (name : string) : bool := match flag_lookup fs name with Some (FBool b) => b | _ => false end.

(** The method [Set] of the value of a flag. *)
Definition flag_set (old : flagValue) (text : string) : result flagValue :=
  match old with
  | FInt _ => n <-! ParseInt0 text; Ok (FInt n)
  | FString _ => Ok (FString text)
  | FBool _ => match ParseBool text with Some b => Ok (FBool b) | None => Err parse_error end
  end.

(** What an argument is: no flag, the end of the flags, malformed, or a flag with
    the value after its first equals sign. *)
Inductive argKind := NotFlag | EndOfFlags | BadFlag | IsFlag (name : string) (value : option string).
Definition flag_name (name : string) : argKind :=
  match name with
  | "" => BadFlag
  | String c rest =>
      if bool_decide (c = "-"%char) || bool_decide (c = "="%char) then BadFlag else
      match IndexByte rest "=" with
      | Some i => IsFlag (String c (string_take i rest)) (Some (string_drop (S i) rest))
      | None => IsFlag name None
      end
  end.
Definition flag_argument (s : string) : argKind :=
  match s with
  | String a (String b rest) =>
      if negb (bool_decide (a = "-"%char)) then NotFlag else
      if bool_decide (b = "-"%char) then (if bool_decide (rest = "") then EndOfFlags else flag_name rest)
      else flag_name (String b rest)
  | _ => NotFlag
  end.

Section parse.
Context `{GoLib}.

(** [FlagSet.Parse]: the flags with their new values, and the arguments after them. *)
Fixpoint flag_Parse (fs : FlagSet) (args : list string) : result (FlagSet * list string) :=
  match args with
  | [] => Ok (fs, [])
  | s :: rest =>
      match flag_argument s with
      | NotFlag => Ok (fs, args)
      | EndOfFlags => Ok (fs, rest)
      | BadFlag => Err ("bad flag syntax: " +:+ s)
      | IsFlag name value =>
          match flag_lookup fs name with
          | None => Err (if bool_decide (name = "help") || bool_decide (name = "h") then "flag: help requested"
                         else "flag provided but not defined: -" +:+ name)
          | Some (FBool old) =>
              match flag_set (FBool old) (default "true" value) with
              | Ok v => flag_Parse (flag_assign fs name v) rest
              | Err e => Err ("invalid boolean value " +:+ Quote (default "true" value) +:+ " for -" +:+ name +:+ ": " +:+ e)
              end
          | Some old =>
              let invalid text e := Err ("invalid value " +:+ Quote text +:+ " for flag -" +:+ name +:+ ": " +:+ e) in
              match value, rest with
              | Some text, _ =>
                  match flag_set old text with Ok v => flag_Parse (flag_assign fs name v) rest | Err e => invalid text e end
              | None, text :: rest =>
                  match flag_set old text with Ok v => flag_Parse (flag_assign fs name v) rest | Err e => invalid text e end
              | None, [] => Err ("flag needs an argument: -" +:+ name)
              end
          end
      end
  end.
End parse.

(** ** What is printed is read back *)

Lemma digits_value_le s n k : 0 <= n -> digits_value s n = Some k -> n <= k.
Proof.
  revert n. induction s as [|c s IH]; intros n Hn; [intros [= ->]; lia|]. cbn [digits_value].
  destruct (is_digit c) eqn:D; [|done]. intros V. unfold is_digit in D. apply IH in V; lia.
Qed.
Lemma parse_digits_decimal s n k :
  0 <= n -> digits_value s n = Some k -> k < 2 ^ 64 -> parse_digits 10 n s = Ok k.
Proof.
  revert n. induction s as [|c s IH]; intros n Hn; [by intros [= ->]|].
  cbn [digits_value parse_digits]. destruct (is_digit c) eqn:D; [|done]. intros V K.
  assert (c <> "_"%char) by (by intros ->). rewrite bool_decide_eq_false_2 by done.
  unfold digit_of. rewrite D. unfold is_digit in D. apply andb_true_iff in D as [D1 D2].
  replace (10 <=? byte_of c - 48) with false by lia.
  assert (M : 10 * n + (byte_of c - 48) <= k) by (eapply digits_value_le; [|exact V]; lia).
  replace (2 ^ 64 <=? n * 10 + (byte_of c - 48)) with false by lia.
  replace (n * 10) with (10 * n) by lia. apply IH; [lia|done|done].
Qed.

(** A positive number is written without a leading zero. *)
Lemma itoa_go_head fuel n acc :
  0 < n < 10 ^ Z.of_nat fuel -> exists d s, itoa_go fuel n acc = String (digit_char d) s /\ 1 <= d <= 9.
Proof.
  revert n acc. induction fuel as [|fuel IH]; intros n acc Hn; [simpl in Hn; lia|]. cbn [itoa_go].
  destruct (n <? 10) eqn:E.
  - exists (n mod 10), acc. split; [done|]. rewrite Z.mod_small; lia.
  - apply IH. rewrite Nat2Z.inj_succ, Z.pow_succ_r in Hn by lia.
    split; [apply Z.div_str_pos; lia|apply Z.div_lt_upper_bound; lia].
Qed.
Lemma digits_no_underscore s : string_all is_digit s = true -> Contains s "_" = false.
Proof.
  induction s as [|c s IH]; [done|]. cbn [string_all Contains]. intros [D R]%andb_true_iff. rewrite IH by done.
  rewrite orb_false_r. cbn [String.prefix]. by destruct (Ascii.ascii_dec "_" c) as [<-|].
Qed.
Lemma ParseUint0_itoa n : 0 <= n < 2 ^ 64 -> ParseUint0 (itoa_nat n) = Ok n.
Proof.
  intros R. destruct (decide (n = 0)) as [->|NZ]; [done|]. unfold ParseUint0, itoa_nat.
  pose proof (itoa_fuel n (proj1 R)) as F. assert (P : 0 < n) by lia.
  destruct (itoa_go_head _ n "" (conj P F)) as (d & s & E & D). pose proof (digits_value_itoa _ n "" (conj (proj1 R) F)) as V.
  pose proof (itoa_digits (S (Z.to_nat (Z.log2 n))) n "" ltac:(lia) eq_refl) as A. rewrite E in V, A |- *.
  rewrite bool_decide_eq_false_2 by done. unfold number_base.
  rewrite bool_decide_eq_false_2.
  - rewrite (parse_digits_decimal _ _ n); [|lia|exact V|lia]. cbn [result_bind]. by rewrite digits_no_underscore.
  - intros X%(f_equal byte_of). unfold digit_char in X. rewrite byte_of_char in X by lia. change (byte_of "0") with 48 in X. lia.
Qed.
Lemma itoa_nat_head n c s : 0 <= n -> itoa_nat n = String c s -> is_digit c = true.
Proof.
  intros Hn E. pose proof (itoa_digits (S (Z.to_nat (Z.log2 n))) n "" Hn eq_refl) as A. unfold itoa_nat in E. rewrite E in A.
  simpl in A. by apply andb_true_iff in A as [A _].
Qed.
Lemma ParseInt0_Itoa n : min_int <= n <= max_int -> ParseInt0 (Itoa n) = Ok n.
Proof.
  unfold min_int, max_int. intros R. unfold Itoa. destruct (n <? 0) eqn:N.
  - change ("-" +:+ itoa_nat (- n)) with (String "-" (itoa_nat (- n))). unfold ParseInt0.
    rewrite bool_decide_eq_false_2, bool_decide_eq_true_2 by done. rewrite ParseUint0_itoa by lia. cbn [result_bind negb andb].
    replace (2 ^ 63 <? - n) with false by lia. f_equal. lia.
  - destruct (itoa_nat n) as [|c s] eqn:E.
    + exfalso. pose proof (Itoa_digits n ltac:(lia)) as [_ X]. unfold Itoa in X. by rewrite N, E in X.
    + pose proof (itoa_nat_head n c s ltac:(lia) E) as D. unfold ParseInt0.
      assert (c <> "+"%char) by (by intros ->). assert (c <> "-"%char) by (by intros ->).
      rewrite !bool_decide_eq_false_2 by done. rewrite <- E, ParseUint0_itoa by lia. cbn [result_bind negb andb].
      by replace (2 ^ 63 <=? n) with false by lia.
Qed.

(** One flag with its value, as the code writes them: [--name value] and [--name=value]. *)
Section steps.
Context `{GoLib}.
Lemma flag_Parse_value fs arg name old text v rest :
  flag_argument arg = IsFlag name None -> flag_lookup fs name = Some old -> (forall b, old <> FBool b) -> flag_set old text = Ok v ->
  flag_Parse fs (arg :: text :: rest) = flag_Parse (flag_assign fs name v) rest.
Proof. intros A L B S. cbn [flag_Parse]. rewrite A, L. by destruct old; [rewrite S..|destruct (B b)]. Qed.
Lemma flag_Parse_bool fs arg name old text b rest :
  flag_argument arg = IsFlag name (Some text) -> flag_lookup fs name = Some (FBool old) -> ParseBool text = Some b ->
  flag_Parse fs (arg :: rest) = flag_Parse (flag_assign fs name (FBool b)) rest.
Proof. intros A L B. cbn [flag_Parse]. rewrite A, L. change (default "true" (Some text)) with text. unfold flag_set. by rewrite B. Qed.
Lemma flag_set_int old n : min_int <= n <= max_int -> flag_set (FInt old) (Itoa n) = Ok (FInt n).
Proof. intros R. cbn [flag_set]. by rewrite ParseInt0_Itoa. Qed.
End steps.
