(* ===== verification/Launcher.v ===== *)
(** How a command is started under supervision.

    The helper prepares the command (seccompnotify/lifecycle_linux.go, [Prepare];
    helperruntime/payload_seccomp_exec_linux.go in the proxy mode) so that it runs
    through two launchers: the entry point [internal-launcher] of the bbox binary
    (launcherentrypoint/entrypoint.go), which executes the embedded image
    (embeddedlauncher/memfd_linux.go), and the C program of that image
    (cmd/bbox-seccomp-launcher/main.c), which installs the filters, hands the
    notification descriptor to the helper and executes the command. The helper
    receives the descriptor ([Start]), serves notifications and cleans up
    ([Close]). Descriptors that are opened and closed are recorded as events. *)
From S2P Require Import Prelude GoStrings StringLemmas GoFlag Sys Sockaddr Kernel FDRegistry ProcMem Supervisor Turns Messages Exec Assembly.

(** ** Files and descriptors *)

Inductive lfile := NotifyParent | NotifyChild | LauncherImage | ExtraFile (n : nat).
(** The ends of the pipes and of the terminal of a session: the helper's ends are the read ends of the
    outputs, the write end of the input and the master of the terminal. *)
Inductive sessionEnd := OutRead | OutWrite | ErrRead | ErrWrite | InRead | InWrite | PtyMaster.
Inductive lfd := OfFile (f : lfile) | OfFD (n : Z) | OfEnd (e : sessionEnd).
#[global] Instance lfile_eq_dec : EqDecision lfile.
Proof. solve_decision. Defined.
#[global] Instance sessionEnd_eq_dec : EqDecision sessionEnd.
Proof. solve_decision. Defined.
#[global] Instance lfd_eq_dec : EqDecision lfd.
Proof. solve_decision. Defined.
Inductive lifeEvent := LOpen (d : lfd) | LClose (d : lfd).
(** What is open after a sequence of events. *)
Definition apply_event (opened : list lfd) (e : lifeEvent) : list lfd :=
  match e with
  | LOpen d => d :: opened
  | LClose d => List.filter (fun x => negb (bool_decide (x = d))) opened
  end.
Definition still_open (events : list lifeEvent) : list lfd := foldl apply_event [] events.

(** ** The embedded image: embeddedlauncher *)

(** [et_Close] lists what the function [Close] of the target closes, if it is set. *)
Record ExecTarget := { et_Path : string; et_File : option lfile; et_Args : list string; et_Close : option (list lfd) }.
(** [closeLauncherTarget]. *)
Definition closeLauncherTarget (target : ExecTarget) : list lfd :=
  match et_Close target with
  | Some ds => ds
  | None => match et_File target with Some f => [OfFile f] | None => [] end
  end.

Section image.
Context `{GoLib}.
(** The generated images, by architecture. *)
Context (launcherImage : string -> list Z).

Definition payloadForArch (goarch : string) (payload : list Z) : result (list Z) :=
  match payload with [] => Err ("unsupported launcher arch " +:+ Quote goarch) | _ => Ok payload end.
Definition ForArch (goarch : string) : result (list Z) :=
  if bool_decide (goarch = "amd64") then payloadForArch goarch (launcherImage "amd64")
  else if bool_decide (goarch = "arm64") then payloadForArch goarch (launcherImage "arm64")
  else Err ("unsupported launcher arch " +:+ Quote goarch).

Record memfdEnv := {
  mf_GOARCH : string;
  mf_create : result Z;
  mf_wrapped : bool;
  mf_Write : list Z -> result Z;
  mf_fchmod : option string;
  mf_seal : option string }.
(** [writeExecMemfd]: the bytes written; the outer [None] is a loop that has not ended. *)
Fixpoint writeExecMemfd (write : list Z -> result Z) (fuel : nat) (payload : list Z) : option (result (list Z)) :=
  match payload with
  | [] => Some (Ok [])
  | _ =>
      match fuel with
      | O => None
      | S fuel =>
          match write payload with
          | Err e => Some (Err e)
          | Ok n =>
              if n <=? 0 then Some (Err "short write") else
              match writeExecMemfd write fuel (drop (Z.to_nat n) payload) with
              | Some (Ok written) => Some (Ok (take (Z.to_nat n) payload ++ written))
              | failed => failed
              end
          end
      end
  end.
(** The target with the content of its image, and the events. *)
Definition OpenExecTarget (env : memfdEnv) : option (result (ExecTarget * list Z) * list lifeEvent) :=
  match ForArch (mf_GOARCH env) with
  | Err e => Some (Err e, [])
  | Ok payload =>
  match mf_create env with
  | Err e => Some (Err ("memfd_create launcher: " +:+ e), [])
  | Ok _ =>
  let opened := [LOpen (OfFile LauncherImage)] in
  let closed := opened ++ [LClose (OfFile LauncherImage)] in
  if negb (mf_wrapped env) then Some (Err "wrap launcher memfd", closed) else
  match writeExecMemfd (mf_Write env) (length payload) payload with
  | None => None
  | Some (Err e) => Some (Err ("write launcher memfd: " +:+ e), closed)
  | Some (Ok written) =>
  match mf_fchmod env with
  | Some e => Some (Err ("chmod launcher memfd: " +:+ e), closed)
  | None =>
  match mf_seal env with
  | Some e => Some (Err ("seal launcher memfd: " +:+ e), closed)
  | None =>
      Some (Ok ({| et_Path := ""; et_File := Some LauncherImage; et_Args := [];
                   et_Close := Some [OfFile LauncherImage] |}, written), opened)
  end end end end end.
End image.

(** ** Preparing the command: lifecycle_linux.go *)

(** A command: [cm_Env] is [None] for a nil environment; the extra file [i] is
    descriptor [3 + i] of the process. *)
Record Cmd := { cm_Path : string; cm_Args : list string; cm_Env : option (list string); cm_ExtraFiles : list lfile }.
Definition launcherSockFDEnv : string := "BBOX_SECCOMP_NOTIFY_SOCK_FD".
Definition sandboxBBoxPath : string := "/app/bbox".
Definition next_fd (files : list lfile) : Z := 3 + Z.of_nat (length files).

Definition filterLauncherEnv (env : list string) : list string :=
  List.filter (fun entry => negb (HasPrefix entry (launcherSockFDEnv +:+ "="))) env.

(** The part of [Supervisor] that its life cycle uses. *)
Record superLife := {
  su_notifySock : option lfile;
  su_notifyChild : option lfile;
  su_notifyReceiveFD : Z;
  su_notifyFD : Z;
  su_launcherError : option string;
  su_launcherClose : option (list lfd);
  su_payloadSeccompBPFPath : string;
  su_closing : bool }.
Definition NewSupervisor : superLife := {|
  su_notifySock := None; su_notifyChild := None; su_notifyReceiveFD := 0; su_notifyFD := 0; su_launcherError := None;
  su_launcherClose := None; su_payloadSeccompBPFPath := ""; su_closing := false |}.
Definition SetPayloadSeccompBPFPath (path : string) (s : superLife) : superLife := {|
  su_notifySock := su_notifySock s; su_notifyChild := su_notifyChild s; su_notifyReceiveFD := su_notifyReceiveFD s;
  su_notifyFD := su_notifyFD s; su_launcherError := su_launcherError s; su_launcherClose := su_launcherClose s;
  su_payloadSeccompBPFPath := path; su_closing := su_closing s |}.
Definition setLauncherError (err : string) (s : superLife) : superLife := {|
  su_notifySock := su_notifySock s; su_notifyChild := su_notifyChild s; su_notifyReceiveFD := su_notifyReceiveFD s;
  su_notifyFD := su_notifyFD s;
  su_launcherError := match su_launcherError s with None => Some err | old => old end;
  su_launcherClose := su_launcherClose s; su_payloadSeccompBPFPath := su_payloadSeccompBPFPath s; su_closing := su_closing s |}.

(** What the system answers: the socket pair and the wrapping of its two ends, the
    target (opened by the call), the bootstrap program, the environment of the helper. *)
Record prepareEnv := {
  pr_socketpair : option string;
  pr_parent : bool;
  pr_child : bool;
  pr_target : result ExecTarget;
  pr_bootstrap : result (string * list string);
  pr_environ : list string }.
Definition target_opens (target : ExecTarget) : list lifeEvent := map LOpen (closeLauncherTarget target).
Definition target_closes (target : ExecTarget) : list lifeEvent := map LClose (closeLauncherTarget target).

(** The arguments and the extra files for a target with an image and for one with a path. *)
Definition image_command (bootstrapPath : string) (bootstrapArgs : list string) (payloadPath : string) (target : ExecTarget)
    (image : lfile) (files : list lfile) (targetPath : string) (originalArgs : list string) : list string * list lfile :=
  let launcherFD := next_fd files in
  let launcherArgv :=
    ["bbox-seccomp-launcher"] ++ (if bool_decide (payloadPath = "") then [] else ["--payload-seccomp-bpf"; payloadPath]) ++
    et_Args target ++ [targetPath; "--"] ++ originalArgs in
  (([bootstrapPath] ++ bootstrapArgs ++ ["--launcher-fd"; Itoa launcherFD; "--"]) ++ launcherArgv, files ++ [image]).
Definition path_command (payloadPath : string) (target : ExecTarget) (targetPath : string) (originalArgs : list string) : list string :=
  let launcherArgs := et_Args target ++ (if bool_decide (payloadPath = "") then [] else ["--payload-seccomp-bpf"; payloadPath]) in
  [et_Path target] ++ launcherArgs ++ [targetPath; "--"] ++ originalArgs.

Definition Prepare (env : prepareEnv) (s : superLife) (cmd : Cmd) : result (Cmd * superLife) * list lifeEvent :=
  match pr_socketpair env with
  | Some e => (Err ("open launcher socketpair: " +:+ e), [])
  | None =>
  let ends := (if pr_parent env then [OfFile NotifyParent] else []) ++ (if pr_child env then [OfFile NotifyChild] else []) in
  let opened := map LOpen ends in
  let close_ends := map LClose ends in
  if negb (pr_parent env && pr_child env) then (Err "wrap launcher socketpair", opened ++ close_ends) else
  match pr_target env with
  | Err e => (Err e, opened ++ close_ends)
  | Ok target =>
  let opened := opened ++ target_opens target in
  let undo := target_closes target ++ close_ends in
  let targetPath := cm_Path cmd in
  if bool_decide (targetPath = "") then (Err "command path is required", opened ++ undo) else
  let originalArgs := match cm_Args cmd with [] => [targetPath] | args => args end in
  let environ := filterLauncherEnv (default (pr_environ env) (cm_Env cmd)) in
  let prepared launcherPath args files :=
    let extraFD := next_fd files in
    (Ok ({| cm_Path := launcherPath; cm_Args := args;
            cm_Env := Some (environ ++ [launcherSockFDEnv +:+ "=" +:+ Itoa extraFD]); cm_ExtraFiles := files ++ [NotifyChild] |},
         {| su_notifySock := Some NotifyParent; su_notifyChild := Some NotifyChild; su_notifyReceiveFD := -1; su_notifyFD := -1;
            su_launcherError := su_launcherError s; su_launcherClose := Some (closeLauncherTarget target);
            su_payloadSeccompBPFPath := su_payloadSeccompBPFPath s; su_closing := su_closing s |}), opened) in
  match et_File target with
  | Some image =>
      match pr_bootstrap env with
      | Err e => (Err e, opened ++ undo)
      | Ok (bootstrapPath, bootstrapArgs) =>
          let '(args, files) := image_command bootstrapPath bootstrapArgs (su_payloadSeccompBPFPath s) target image
                                  (cm_ExtraFiles cmd) targetPath originalArgs in
          prepared bootstrapPath args files
      end
  | None => prepared (et_Path target) (path_command (su_payloadSeccompBPFPath s) target targetPath originalArgs) (cm_ExtraFiles cmd)
  end end end.

(** The proxy mode: the command, what the clean-up closes (none without a filter), the events. *)
Definition preparePayloadSeccompExec (target : result ExecTarget) (bootstrap : result (string * list string)) (cmd : Cmd)
    (payloadPath : string) : result (Cmd * option (list lfd)) * list lifeEvent :=
  if bool_decide (payloadPath = "") then (Ok (cmd, None), []) else
  let originalPath := cm_Path cmd in
  if bool_decide (originalPath = "") then (Err "command path is required", []) else
  match target with
  | Err e => (Err e, [])
  | Ok target =>
  let originalArgs := match cm_Args cmd with [] => [originalPath] | args => args end in
  let closeTarget := closeLauncherTarget target in
  match et_File target with
  | Some image =>
      match bootstrap with
      | Err e => (Err e, target_opens target ++ target_closes target)
      | Ok (bootstrapPath, bootstrapArgs) =>
          let '(args, files) := image_command bootstrapPath bootstrapArgs payloadPath target image (cm_ExtraFiles cmd) originalPath originalArgs in
          (Ok ({| cm_Path := bootstrapPath; cm_Args := args; cm_Env := cm_Env cmd; cm_ExtraFiles := files |}, Some closeTarget),
           target_opens target)
      end
  | None =>
      (Ok ({| cm_Path := et_Path target; cm_Args := path_command payloadPath target originalPath originalArgs;
              cm_Env := cm_Env cmd; cm_ExtraFiles := cm_ExtraFiles cmd |}, Some closeTarget), target_opens target)
  end end.

(** ** Receiving the notification descriptor *)

(** A message of the launcher: its bytes and its control messages, each with the
    descriptors it carries. *)
Record launcherMessage := { lm_bytes : list Z; lm_rights : result (list (result (list Z))) }.
Fixpoint string_bytes (s : string) : list Z := match s with "" => [] | String c s => byte_of c :: string_bytes s end.
Definition bytes_string (bs : list Z) : string := foldr (fun b s => String (char_of b) s) "" bs.
Fixpoint first_rights (msgs : list (result (list Z))) : option Z :=
  match msgs with
  | Ok (fd :: _) :: _ => Some fd
  | _ :: msgs => first_rights msgs
  | [] => None
  end.
Definition recvLauncherNotifyFD (received : result launcherMessage) : result Z :=
  match received with
  | Err e => Err ("recv launcher message: " +:+ e)
  | Ok m =>
      match lm_bytes m with
      | [] => Err "EOF"
      | status :: rest =>
          if status =? 0 then Err ("launcher failed: " +:+ bytes_string rest) else
          if negb (status =? 1) then Err ("unexpected launcher status " +:+ Itoa status) else
          match lm_rights m with
          | Err e => Err ("parse launcher rights: " +:+ e)
          | Ok msgs => match first_rights msgs with Some fd => Ok fd | None => Err "launcher did not pass notify fd" end
          end
      end
  end.
(** The descriptors that the kernel opens when a message is received. *)
Definition message_fds (received : result launcherMessage) : list Z :=
  match received with
  | Ok m => match lm_rights m with Ok msgs => flat_map (fun r => match r with Ok fds => fds | Err _ => [] end) msgs | Err _ => [] end
  | Err _ => []
  end.
Definition message_opens (received : result launcherMessage) : list lifeEvent := map (fun fd => LOpen (OfFD fd)) (message_fds received).

(** [receiveLauncherNotifyFD]: the message comes first, or the context ends first
    and a goroutine receives the message later, if there is one. *)
Inductive recvOutcome := Received (m : result launcherMessage) | Cancelled (err : string) (late : option (result launcherMessage)).
Definition receiveLauncherNotifyFD (o : recvOutcome) : result Z * list lifeEvent :=
  match o with
  | Received m => (recvLauncherNotifyFD m, message_opens m)
  | Cancelled e late => (Err e, match late with Some m => message_opens m | None => [] end)
  end.

Definition started (child : option lfile) (receiveFD fd : Z) (close : option (list lfd)) (closing : bool) (s : superLife) : superLife := {|
  su_notifySock := su_notifySock s; su_notifyChild := child; su_notifyReceiveFD := receiveFD; su_notifyFD := fd;
  su_launcherError := su_launcherError s; su_launcherClose := close; su_payloadSeccompBPFPath := su_payloadSeccompBPFPath s;
  su_closing := closing |}.
Definition close_option (f : option lfile) : list lifeEvent := match f with Some f => [LClose (OfFile f)] | None => [] end.
Definition close_list (ds : option (list lfd)) : list lifeEvent := map LClose (default [] ds).

Definition Start (recv : recvOutcome) (dup : result Z) (pid : Z) (s : superLife) : result unit * superLife * list lifeEvent :=
  if pid <=? 0 then (Err "pid must be positive", s, []) else
  match su_notifySock s with
  | None => (Err "supervisor is not prepared", s, [])
  | Some _ =>
  let released := close_option (su_notifyChild s) ++ close_list (su_launcherClose s) in
  let s := started None (su_notifyReceiveFD s) (su_notifyFD s) None (su_closing s) s in
  let '(received, opened) := receiveLauncherNotifyFD recv in
  match received with
  | Err e => (Err e, setLauncherError e s, released ++ opened)
  | Ok controlFD =>
      match dup with
      | Err e => (Err e, setLauncherError e s, released ++ opened ++ [LClose (OfFD controlFD)])
      | Ok receiveFD => (Ok tt, started None receiveFD controlFD None false s, released ++ opened ++ [LOpen (OfFD receiveFD)])
      end
  end end.

(** [Close]; the wait for the serving goroutine is not a step of it here. *)
Definition close_fd (fd : Z) : list lifeEvent := if minManagedHelperFD <=? fd then [LClose (OfFD fd)] else [].
Definition closed_fd (fd : Z) : Z := if minManagedHelperFD <=? fd then -1 else fd.
Definition Close_events (s : superLife) : list lifeEvent :=
  close_option (su_notifyChild s) ++ close_option (su_notifySock s) ++ close_fd (su_notifyReceiveFD s) ++ close_fd (su_notifyFD s) ++
  close_list (su_launcherClose s).
Definition Supervisor_Close (s : superLife) : superLife := {|
  su_notifySock := None; su_notifyChild := None; su_notifyReceiveFD := closed_fd (su_notifyReceiveFD s);
  su_notifyFD := closed_fd (su_notifyFD s); su_launcherError := su_launcherError s; su_launcherClose := None;
  su_payloadSeccompBPFPath := su_payloadSeccompBPFPath s; su_closing := true |}.

(** ** Serving notifications *)

(** What one round of the loop sees: the flag [closing], the answer of [poll], the
    flag again, and what [NotifReceive] returns. *)
Inductive pollAnswer := PollError (errno : Z) | PollReady (n : Z).
Record serveRound := { sv_closing : bool; sv_poll : pollAnswer; sv_closing2 : bool; sv_receive : Z + ScmpNotifReq }.
Inductive serveExit := ServeClosing | ServeBadFD | ServeFailed (err : string).
Definition EINTR : Z := 4.
Definition ENOENT : Z := 2.
Definition ECANCELED : Z := 125.
Section serve.
(** The texts of the error numbers. *)
Context (errnoText : Z -> string).
Definition errno_text (what : string) (errno : Z) : string := what +:+ ": " +:+ errnoText errno.
(** One round: the loop ends, goes on, or goes on with a notification. *)
Definition serve_round (r : serveRound) : serveExit + option ScmpNotifReq :=
  if sv_closing r then inl ServeClosing else
  match sv_poll r with
  | PollError errno =>
      if errno =? EINTR then inr None else
      if sv_closing2 r then inl ServeClosing else inl (ServeFailed (errno_text "poll" errno))
  | PollReady n =>
      if n =? 0 then inr None else
      match sv_receive r with
      | inr req => inr (Some req)
      | inl errno =>
          if (errno =? EINTR) || (errno =? ENOENT) || (errno =? ECANCELED) then inr None else
          if errno =? EBADF then inl ServeBadFD else inl (ServeFailed (errno_text "receive" errno))
      end
  end.
(** The loop over the rounds it sees: the queue of turns, and how it ended ([None]: it is still running). *)
Fixpoint serve_loop (pid : Z) (rounds : list serveRound) (q : turns) : turns * option serveExit :=
  match rounds with
  | [] => (q, None)
  | r :: rounds =>
      match serve_round r with
      | inl e => (q, Some e)
      | inr None => serve_loop pid rounds q
      | inr (Some req) => serve_loop pid rounds (enqueueNotificationTurn pid req q)
      end
  end.
Definition serve_error (e : serveExit) (s : superLife) : superLife :=
  match e with ServeFailed err => setLauncherError err s | _ => s end.
Definition serveNotifications (pid : Z) (rounds : list serveRound) (s : superLife) (q : turns) : superLife * turns * option serveExit :=
  if su_notifyReceiveFD s <? minManagedHelperFD then (s, q, Some ServeBadFD) else
  let '(q, exit) := serve_loop pid rounds q in
  (match exit with Some e => serve_error e s | None => s end, q, exit).
(** The end of [respondNotification]: what an error of [NotifRespond] leaves behind. *)
Definition respond_error (errno : option Z) (s : superLife) : superLife :=
  match errno with
  | None => s
  | Some n => if (n =? ENOENT) || (n =? EBADF) || (n =? EINTR) then s else setLauncherError (errno_text "respond" n) s
  end.
End serve.

(** ** The descriptors of a session: session.go, [StartSession] and [Close] *)

(** What fails: the terminal with the process in it ([pty.StartWithSize], which keeps nothing when it fails),
    the three pipes, the start of the process. *)
Record sessionEnv := {
  st_pty : option string; st_stdout : option string; st_stderr : option string; st_stdin : option string; st_start : option string }.
Definition opens (ends : list sessionEnd) : list lifeEvent := map (fun e => LOpen (OfEnd e)) ends.
Definition closes (ends : list sessionEnd) : list lifeEvent := map (fun e => LClose (OfEnd e)) ends.
Definition asks_terminal (req : ExecRequest) : bool := xq_Interactive req && xq_Terminal req.
(** [cmd.Start] of os/exec: the ends of the child are closed in every case, those of the helper too when the
    process does not start. *)
Definition cmd_Start_events (req : ExecRequest) (failed : bool) : list lifeEvent :=
  closes ([OutWrite; ErrWrite] ++ if xq_Interactive req then [InRead] else []) ++
  (if failed then closes ([OutRead; ErrRead] ++ if xq_Interactive req then [InWrite] else []) else []).
(** [cmd.Wait] of os/exec closes the helper's ends of the pipes. *)
Definition cmd_Wait_events (req : ExecRequest) : list lifeEvent :=
  if asks_terminal req then [] else closes ([OutRead; ErrRead] ++ if xq_Interactive req then [InWrite] else []).
Definition StartSession_events (env : sessionEnv) (req : ExecRequest) : option string * list lifeEvent :=
  if asks_terminal req then
    match st_pty env with Some e => (Some e, []) | None => (None, opens [PtyMaster]) end
  else
  match st_stdout env with
  | Some e => (Some e, [])
  | None =>
  let events := opens [OutRead; OutWrite] in
  match st_stderr env with
  | Some e => (Some e, events)
  | None =>
  let events := events ++ opens [ErrRead; ErrWrite] in
  match (if xq_Interactive req then st_stdin env else None) with
  | Some e => (Some e, events)
  | None =>
  let events := events ++ (if xq_Interactive req then opens [InRead; InWrite] else []) in
  match st_start env with
  | Some e => (Some e, events ++ cmd_Start_events req true ++ (if xq_Interactive req then closes [InWrite] else []))
  | None => (None, events ++ cmd_Start_events req false)
  end end end end.
(** [Session.Close]: the session of a command without input is nil and closes nothing. *)
Definition Session_Close_events (req : ExecRequest) : list lifeEvent :=
  if asks_terminal req then closes [PtyMaster] else if xq_Interactive req then closes [InWrite] else [].

(** ** A supervised command: exec_manager.go, [runSupervisedExec] *)

Record supervisedEnv := {
  se_prepare : prepareEnv;
  se_session : sessionEnv;
  se_process : option Z;   (* [cmd.Process] after the start: the process id *)
  se_recv : recvOutcome;
  se_dup : result Z }.
Definition runSupervisedExec (env : supervisedEnv) (payloadPath : string) (req : ExecRequest) (cmd : Cmd) :
    result superLife * list lifeEvent :=
  let supervisor := SetPayloadSeccompBPFPath payloadPath NewSupervisor in
  match Prepare (se_prepare env) supervisor cmd with
  | (Err e, events) => (Err e, events ++ Close_events supervisor)
  | (Ok (_, supervisor), events) =>
  match StartSession_events (se_session env) req with
  | (Some e, sessionEvents) => (Err e, events ++ sessionEvents ++ Close_events supervisor)
  | (None, sessionEvents) =>
  let events := events ++ sessionEvents in
  match se_process env with
  | None => (Err "supervised exec started without child process", events ++ Session_Close_events req ++ Close_events supervisor)
  | Some pid =>
  match Start (se_recv env) (se_dup env) pid supervisor with
  | (Err e, supervisor, startEvents) => (Err e, events ++ startEvents ++ Session_Close_events req ++ Close_events supervisor)
  | (Ok _, supervisor, startEvents) => (Ok supervisor, events ++ startEvents)
  end end end end.
(** How [handleExec] ends a supervised command: the process is waited for, the supervisor is closed, then the session. *)
Definition handleExec_end_events (req : ExecRequest) (supervisor : superLife) : list lifeEvent :=
  cmd_Wait_events req ++ Close_events supervisor ++ Session_Close_events req.

(** ** The entry points: cmd/bbox/main.go, launcherentrypoint, helperentrypoint *)

Inductive entryPoint := EntryHelper (args : list string) | EntryLauncher (args : list string)
  | EntryDockerBuild (args : list string) | EntryRoot (args : list string).
(** [dispatch] with the entry points that [main] gives it. *)
Definition dispatch (args : list string) : entryPoint :=
  match args with
  | first :: rest =>
      if bool_decide (first = "internal-helper") then EntryHelper rest
      else if bool_decide (first = "internal-launcher") then EntryLauncher rest
      else if bool_decide (first = "internal-docker-build") then EntryDockerBuild rest
      else EntryRoot args
  | [] => EntryRoot args
  end.

Section entry.
Context `{GoLib}.

Definition launcher_parseFlags (args : list string) : result (Z * list string) :=
  parsed <-! flag_Parse [("launcher-fd", FInt 3)] args;
  let launcherFD := flag_int parsed.1 "launcher-fd" in
  if launcherFD <? 0 then Err "launcher fd must be non-negative" else
  match parsed.2 with
  | [] => Err "launcher argv is required after --"
  | launcherArgv => Ok (launcherFD, launcherArgv)
  end.

Record helperFlags := {
  hf_bridgeFD : Z; hf_proxyAddr : string; hf_mitmEnabled : bool; hf_maxRequestBodyBytes : Z; hf_trafficMode : string;
  hf_payloadSeccompBPF : string }.
Definition helper_flags : FlagSet :=
  [("bridge-fd", FInt 3); ("proxy-addr", FString DefaultProxyAddr); ("mitm-enabled", FBool false); ("max-request-body-bytes", FInt 0);
   ("traffic-mode", FString "proxy"); ("payload-seccomp-bpf", FString "")].
Definition helper_parseFlags (args : list string) : result helperFlags :=
  parsed <-! flag_Parse helper_flags args;
  let fs := parsed.1 in
  let flags := {|
    hf_bridgeFD := flag_int fs "bridge-fd"; hf_proxyAddr := flag_string fs "proxy-addr"; hf_mitmEnabled := flag_bool fs "mitm-enabled";
    hf_maxRequestBodyBytes := flag_int fs "max-request-body-bytes"; hf_trafficMode := flag_string fs "traffic-mode";
    hf_payloadSeccompBPF := flag_string fs "payload-seccomp-bpf" |} in
  match parsed.2 with
  | subcommand :: _ => if bool_decide (subcommand = "child-proxy") then Ok flags else Err ("unexpected subcommand " +:+ Quote subcommand)
  | [] => Ok flags
  end.
End entry.

(** ** The launcher in C: cmd/bbox-seccomp-launcher/main.c *)

Definition PAYLOAD_SECCOMP_BPF_FLAG : string := "--payload-seccomp-bpf".
Fixpoint find_separator_from (idx : nat) (rest : list string) : option nat :=
  match rest with
  | [] => None
  | a :: rest => if bool_decide (a = "--") then Some idx else find_separator_from (S idx) rest
  end.
Definition find_separator (argv : list string) : option nat := find_separator_from 1 (tail argv).
(** The loop of [parse_launcher_args]: the index it stops at and the filter. *)
Fixpoint launcher_options (idx : nat) (payload : option string) (rest : list string) : option (nat * option string) :=
  match rest with
  | [] => None
  | a :: rest =>
      if bool_decide (a = PAYLOAD_SECCOMP_BPF_FLAG) then
        match rest with
        | [] => None
        | path :: rest => launcher_options (S (S idx)) (Some path) rest
        end
      else Some (idx, payload)
  end.
Record launcherArgs := { la_target : nat; la_separator : nat; la_payload : option string }.
Definition parse_launcher_args (argv : list string) : option launcherArgs :=
  match launcher_options 1 None (tail argv) with
  | None => None
  | Some (target_index, payload) =>
      match find_separator argv with
      | None => None
      | Some separator =>
          if (length argv <=? S separator)%nat || (separator <=? target_index)%nat then None
          else Some {| la_target := target_index; la_separator := separator; la_payload := payload |}
      end
  end.

(** [getenv]: the value of the first entry of that name. *)
Fixpoint getenv (environ : list string) (name : string) : option string :=
  match environ with
  | [] => None
  | entry :: environ =>
      if HasPrefix entry (name +:+ "=") then Some (string_drop (String.length name + 1) entry) else getenv environ name
  end.
Fixpoint skip_space (s : string) : string :=
  match s with
  | "" => ""
  | String c rest => if ascii_space c then skip_space rest else s
  end.
(** [parse_sock_fd]: whether the variable is set, and its value if it is valid; what
    [strtol] accepts up to the end of the string is white space, a sign and digits. *)
Definition parse_sock_fd (environ : list string) : bool * option Z :=
  match getenv environ launcherSockFDEnv with
  | None | Some "" => (false, None)
  | Some value =>
      (true, match Atoi (skip_space value) with
             | Some fd => if (fd <? 0) || (2 ^ 31 - 1 <? fd) then None else Some fd
             | None => None
             end)
  end.
Definition filtered_envp (environ : list string) : list string :=
  List.filter (fun entry => negb (HasPrefix entry (launcherSockFDEnv +:+ "="))) environ.

(** What the launcher does, in order; it ends with the execution or an exit. *)
Inductive launchAct :=
| ADuplicate (fd : Z)                            (* F_DUPFD_CLOEXEC, then close *)
| ANotifyFilter (allowed_sendmsg_fd : Z)
| ASend (status : Z) (fd : option Z) (text : string)
| APayloadFilter (path : string)
| AExecve (path : string) (argv envp : list string)
| AExit (code : Z).
Record launcherSys := {
  ls_dupfd : option Z; ls_calloc : bool; ls_filter : option Z; ls_send : bool; ls_cloexec : bool; ls_payload : bool }.
(** The part after the notification filter: the payload filter and the execution. *)
Definition launcher_exec (sys : launcherSys) (argv : list string) (args : launcherArgs) (envp : list string) : list launchAct :=
  let exec := [AExecve (default "" (argv !! la_target args)) (drop (S (la_separator args)) argv) envp] in
  match la_payload args with
  | None => exec
  | Some path => APayloadFilter path :: (if ls_payload sys then exec else [AExit 1])
  end.
Definition launcher_main (sys : launcherSys) (argv environ : list string) : list launchAct :=
  if (length argv <? 4)%nat then [AExit 1] else
  match parse_launcher_args argv with
  | None => [AExit 1]
  | Some args =>
      match parse_sock_fd environ, la_payload args with
      | (false, _), None => [AExit 1]
      | (false, _), Some _ => if ls_calloc sys then launcher_exec sys argv args (filtered_envp environ) else [AExit 1]
      | (true, None), _ => [AExit 1]
      | (true, Some inherited), _ =>
          ADuplicate inherited ::
          match ls_dupfd sys with
          | None => [AExit 1]
          | Some sock =>
              if negb (ls_calloc sys) then [ASend 0 None "allocate launcher environment"; AExit 1] else
              ANotifyFilter sock ::
              match ls_filter sys with
              | None => [ASend 0 None "install seccomp notify filter"; AExit 1]
              | Some notify =>
                  ASend 1 (Some notify) "" ::
                  (if negb (ls_send sys) then [AExit 1] else
                   if negb (ls_cloexec sys) then [AExit 1] else launcher_exec sys argv args (filtered_envp environ))
              end
          end
      end
  end.
(** What the helper receives of a status message; the descriptor gets a number of its own there. *)
Definition send_launcher_status (status : Z) (fd : option Z) (text : string) (received_as : Z) : launcherMessage :=
  {| lm_bytes := status :: string_bytes text;
     lm_rights := Ok (match fd with Some _ => [Ok [received_as]] | None => [] end) |}.
