(* ===== verification/NotifyFilter.v ===== *)
(** The notification filter of the launcher (cmd/bbox-seccomp-launcher/main.c,
    [install_notify_filter]) on x86-64, as the instructions of classic BPF that it
    installs and the machine of the kernel that runs them on a system call. *)
From S2P Require Import Prelude GoStrings Sys Sockaddr Kernel FDRegistry ProcMem Supervisor.

(** ** The machine *)

(** The words of [struct seccomp_data] that the filter loads: the call, the
    architecture and the low half of the first argument. *)
Inductive field := FieldNr | FieldArch | FieldArg0.
Inductive verdict := KillProcess | UserNotif | Allow.
#[global] Instance verdict_eq_dec : EqDecision verdict.
Proof. solve_decision. Defined.
Inductive insn := Ld (f : field) | Jeq (k : Z) (jt jf : nat) | Jge (k : Z) (jt jf : nat) | RetK (v : verdict).
(** A call; the numbers are unsigned words of 32, 32 and 64 bits. *)
Record seccompData := { sd_nr : Z; sd_arch : Z; sd_arg0 : Z }.
Definition load (d : seccompData) (f : field) : Z :=
  match f with FieldNr => sd_nr d | FieldArch => sd_arch d | FieldArg0 => sd_arg0 d mod 2 ^ 32 end.
(** Jumps are relative and forward; [None] is a program that does not return a verdict. *)
Fixpoint bpf_run (fuel : nat) (d : seccompData) (acc : Z) (prog : list insn) : option verdict :=
  match fuel, prog with
  | S fuel, Ld f :: prog => bpf_run fuel d (load d f) prog
  | S fuel, Jeq k jt jf :: prog => bpf_run fuel d acc (drop (if acc =? k then jt else jf) prog)
  | S fuel, Jge k jt jf :: prog => bpf_run fuel d acc (drop (if k <=? acc then jt else jf) prog)
  | S _, RetK v :: _ => Some v
  | _, _ => None
  end.
Definition bpf_decide (prog : list insn) (d : seccompData) : option verdict := bpf_run (length prog) d 0 prog.

(** ** The program *)

Definition AUDIT_ARCH_NATIVE : Z := 0xC000003E.
Definition X32_SYSCALL_BIT : Z := 0x40000000.
Definition MIN_LAUNCHER_CONTROL_FD : Z := 64.
Definition MIN_MANAGED_TCP_CHILD_FD : Z := 256.
Definition MIN_MANAGED_CHILD_FD : Z := 512.

Definition notify_filter (allowed_sendmsg_fd : Z) : list insn := [
  Ld FieldArch;
  Jeq AUDIT_ARCH_NATIVE 1 0;
  RetK KillProcess;
  Ld FieldNr;
  Jge X32_SYSCALL_BIT 0 1;
  RetK KillProcess;
  Jeq SYS_SOCKET 0 1;
  RetK UserNotif;
  Jeq SYS_CONNECT 0 1;
  RetK UserNotif;
  Jeq SYS_GETPEERNAME 0 1;
  RetK UserNotif;
  Jeq SYS_READ 0 4;
  Ld FieldArg0;
  Jge MIN_MANAGED_CHILD_FD 0 1;
  RetK UserNotif;
  RetK Allow;
  Jeq SYS_SENDTO 0 1;
  RetK UserNotif;
  Jeq SYS_WRITE 0 4;
  Ld FieldArg0;
  Jge MIN_MANAGED_CHILD_FD 0 1;
  RetK UserNotif;
  RetK Allow;
  Jeq SYS_RECVFROM 0 1;
  RetK UserNotif;
  Jeq SYS_SENDMSG 0 4;
  Ld FieldArg0;
  Jeq (to_uint32 allowed_sendmsg_fd) 1 0;
  RetK UserNotif;
  RetK Allow;
  Jeq SYS_RECVMSG 0 1;
  RetK UserNotif;
  Jeq SYS_SENDMMSG 0 1;
  RetK UserNotif;
  Jeq SYS_RECVMMSG 0 1;
  RetK UserNotif;
  Jeq SYS_POLL 0 1;
  RetK UserNotif;
  Jeq SYS_PPOLL 0 1;
  RetK UserNotif;
  Jeq SYS_IOCTL 0 1;
  RetK UserNotif;
  Jeq SYS_CLOSE 0 4;
  Ld FieldArg0;
  Jge MIN_MANAGED_TCP_CHILD_FD 0 1;
  RetK UserNotif;
  RetK Allow;
  Jeq SYS_DUP 0 1;
  RetK UserNotif;
  Jeq SYS_DUP2 0 1;
  RetK UserNotif;
  Jeq SYS_DUP3 0 1;
  RetK UserNotif;
  Jeq SYS_FCNTL 0 4;
  Ld FieldArg0;
  Jge MIN_MANAGED_TCP_CHILD_FD 0 1;
  RetK UserNotif;
  RetK Allow;
  RetK Allow ].

(** The calls named by [managedNotifySyscallNames] (syscall_numbers_linux.go), with their numbers. *)
Definition managedNotifySyscallNames (poll dup2 : bool) : list string :=
  let names := ["socket"; "connect"; "getpeername"; "read"; "sendto"; "write"; "recvfrom"; "sendmsg"; "recvmsg"; "sendmmsg";
                "recvmmsg"; "ppoll"; "ioctl"; "close"; "dup"; "dup3"; "fcntl"] in
  let names := if poll then take 8 names ++ ["poll"] ++ drop 8 names else names in
  if dup2 then take 12 names ++ ["dup2"] ++ drop 12 names else names.
Definition syscall_number (name : string) : option Z :=
  List.find (fun _ => true) (map snd (List.filter (fun p => String.eqb p.1 name) [
    ("socket", SYS_SOCKET); ("connect", SYS_CONNECT); ("getpeername", SYS_GETPEERNAME); ("read", SYS_READ); ("sendto", SYS_SENDTO);
    ("write", SYS_WRITE); ("recvfrom", SYS_RECVFROM); ("sendmsg", SYS_SENDMSG); ("recvmsg", SYS_RECVMSG); ("sendmmsg", SYS_SENDMMSG);
    ("recvmmsg", SYS_RECVMMSG); ("poll", SYS_POLL); ("ppoll", SYS_PPOLL); ("ioctl", SYS_IOCTL); ("close", SYS_CLOSE); ("dup", SYS_DUP);
    ("dup2", SYS_DUP2); ("dup3", SYS_DUP3); ("fcntl", SYS_FCNTL)])).

(** ** What it means *)

(** The lowest descriptor for which a call is handed over, for the calls that the
    filter tells apart by their descriptor. *)
Definition lowest_managed (nr : Z) : option Z :=
  if (nr =? SYS_READ) || (nr =? SYS_WRITE) then Some MIN_MANAGED_CHILD_FD
  else if (nr =? SYS_CLOSE) || (nr =? SYS_FCNTL) then Some MIN_MANAGED_TCP_CHILD_FD else None.
Definition always_notified : list Z :=
  [SYS_SOCKET; SYS_CONNECT; SYS_GETPEERNAME; SYS_SENDTO; SYS_RECVFROM; SYS_RECVMSG; SYS_SENDMMSG; SYS_RECVMMSG; SYS_POLL; SYS_PPOLL;
   SYS_IOCTL; SYS_DUP; SYS_DUP2; SYS_DUP3].
Definition notify_spec (sock : Z) (d : seccompData) : verdict :=
  let fd := sd_arg0 d mod 2 ^ 32 in
  if negb (sd_arch d =? AUDIT_ARCH_NATIVE) || (X32_SYSCALL_BIT <=? sd_nr d) then KillProcess else
  if existsb (Z.eqb (sd_nr d)) always_notified then UserNotif else
  if sd_nr d =? SYS_SENDMSG then (if fd =? to_uint32 sock then Allow else UserNotif) else
  match lowest_managed (sd_nr d) with
  | Some low => if low <=? fd then UserNotif else Allow
  | None => Allow
  end.

(** A test of one call, and a test of a call and its descriptor. *)
Lemma run_notify fuel d nr rest :
  bpf_run (S (S fuel)) d (sd_nr d) (Jeq nr 0 1 :: RetK UserNotif :: rest) =
  if sd_nr d =? nr then Some UserNotif else bpf_run (S fuel) d (sd_nr d) rest.
Proof. cbn [bpf_run]. by destruct (sd_nr d =? nr). Qed.
Lemma run_low fuel d nr low rest :
  bpf_run (S (S (S (S fuel)))) d (sd_nr d) (Jeq nr 0 4 :: Ld FieldArg0 :: Jge low 0 1 :: RetK UserNotif :: RetK Allow :: rest) =
  if sd_nr d =? nr then Some (if low <=? sd_arg0 d mod 2 ^ 32 then UserNotif else Allow)
  else bpf_run (S (S (S fuel))) d (sd_nr d) rest.
Proof.
  cbn [bpf_run]. destruct (sd_nr d =? nr); [|reflexivity]. cbn [drop bpf_run load]. by destruct (low <=? _).
Qed.
Lemma run_except fuel d nr k rest :
  bpf_run (S (S (S (S fuel)))) d (sd_nr d) (Jeq nr 0 4 :: Ld FieldArg0 :: Jeq k 1 0 :: RetK UserNotif :: RetK Allow :: rest) =
  if sd_nr d =? nr then Some (if sd_arg0 d mod 2 ^ 32 =? k then Allow else UserNotif)
  else bpf_run (S (S (S fuel))) d (sd_nr d) rest.
Proof.
  cbn [bpf_run]. destruct (sd_nr d =? nr); [|reflexivity]. cbn [drop bpf_run load]. by destruct (_ =? k).
Qed.

Lemma run_prologue fuel d acc arch x32 rest :
  bpf_run (S (S (S (S (S fuel))))) d acc (Ld FieldArch :: Jeq arch 1 0 :: RetK KillProcess :: Ld FieldNr :: Jge x32 0 1 :: RetK KillProcess :: rest) =
  if negb (sd_arch d =? arch) || (x32 <=? sd_nr d) then Some KillProcess else bpf_run (S fuel) d (sd_nr d) rest.
Proof.
  cbn [bpf_run load]. destruct (sd_arch d =? arch); [|reflexivity]. cbn [drop bpf_run load negb orb].
  by destruct (x32 <=? sd_nr d).
Qed.

(** The installed program decides as [notify_spec] says. *)
Lemma notify_filter_spec sock d : bpf_decide (notify_filter sock) d = Some (notify_spec sock d).
Proof.
  unfold bpf_decide. change (length (notify_filter sock)) with 60%nat. unfold notify_filter, notify_spec.
  rewrite run_prologue. destruct (negb _ || _); [done|].
  repeat first [rewrite run_notify | rewrite run_low | rewrite run_except].
  cbn [bpf_run]. generalize (sd_arg0 d mod 2 ^ 32). generalize (sd_nr d). clear d. intros nr fd.
  repeat match goal with
  | |- context [if nr =? ?k then Some _ else _] => destruct (Z.eqb_spec nr k) as [->|?]; [reflexivity|]
  end.
  unfold always_notified, lowest_managed. cbn [existsb].
  by repeat match goal with N : nr <> ?k |- _ => apply Z.eqb_neq in N; rewrite ?N; clear N end.
Qed.

(** ** What is handed to the supervisor *)

(** The calls that the supervisor manages on this architecture. *)
Definition managed_calls : list Z := omap syscall_number (managedNotifySyscallNames (0 <=? optionalPollSyscall) (0 <=? optionalDup2Syscall)).
Definition managed_call (nr : Z) : bool := existsb (Z.eqb nr) managed_calls.
(** The calls for which [processNotification] has a branch of its own. *)
Definition handled_call (nr : Z) : bool :=
  existsb (Z.eqb nr) [SYS_SOCKET; SYS_CONNECT; SYS_GETPEERNAME; SYS_READ; SYS_SENDTO; SYS_WRITE; SYS_RECVFROM; SYS_SENDMSG; SYS_RECVMSG;
                      SYS_SENDMMSG; SYS_RECVMMSG; SYS_PPOLL; SYS_IOCTL; SYS_CLOSE; SYS_DUP; SYS_DUP3; SYS_FCNTL] ||
  isPollSyscall nr || isDupLikeSyscall nr.

Lemma managed_call_numbers nr :
  managed_call nr = existsb (Z.eqb nr) always_notified || (nr =? SYS_SENDMSG) || bool_decide (is_Some (lowest_managed nr)).
Proof.
  unfold managed_call. replace managed_calls with
    [SYS_SOCKET; SYS_CONNECT; SYS_GETPEERNAME; SYS_READ; SYS_SENDTO; SYS_WRITE; SYS_RECVFROM; SYS_SENDMSG; SYS_POLL; SYS_RECVMSG; SYS_SENDMMSG;
     SYS_RECVMMSG; SYS_DUP2; SYS_PPOLL; SYS_IOCTL; SYS_CLOSE; SYS_DUP; SYS_DUP3; SYS_FCNTL] by reflexivity.
  unfold always_notified, lowest_managed. cbn [existsb].
  repeat match goal with |- context [nr =? ?k] => destruct (Z.eqb_spec nr k) as [->|?]; [reflexivity|] end. reflexivity.
Qed.

(** Every handled call is a managed one, and the reverse: nothing that is handed
    over falls through the supervisor's dispatch. *)
Lemma handled_managed nr : handled_call nr = managed_call nr.
Proof.
  rewrite managed_call_numbers. unfold handled_call, isPollSyscall, isDupLikeSyscall, optionalPollSyscall, optionalDup2Syscall, always_notified, lowest_managed.
  cbn [existsb]. repeat match goal with |- context [nr =? ?k] => destruct (Z.eqb_spec nr k) as [->|?]; [reflexivity|] end. reflexivity.
Qed.
