(* ===== verification/NotifyTheorems.v ===== *)
(** The notification filter and the supervisor together: what reaches the
    supervisor, and what does not. *)
From S2P Require Import Prelude GoStrings Sys Sockaddr Kernel FDRegistry ProcMem Supervisor Sample SampleKernel SupervisorTheorems NotifyFilter.

(** C29. The notification filter always reaches a verdict. Calls of another architecture, and x32 calls, end the
    process. What it hands over is a call that the supervisor handles. A handled call that it lets pass to the
    kernel is a read or write of a descriptor below 512, a close or fcntl of one below 256, or a sendmsg on the
    descriptor that the launcher used for its own message. *)
Theorem notify_filter_exact sock d :
  exists v, bpf_decide (notify_filter sock) d = Some v /\
    (v = KillProcess <-> sd_arch d <> AUDIT_ARCH_NATIVE \/ X32_SYSCALL_BIT <= sd_nr d) /\
    (v = UserNotif -> handled_call (sd_nr d) = true) /\
    (v = Allow -> handled_call (sd_nr d) = true ->
       (sd_nr d = SYS_READ \/ sd_nr d = SYS_WRITE) /\ sd_arg0 d mod 2 ^ 32 < 512 \/
       (sd_nr d = SYS_CLOSE \/ sd_nr d = SYS_FCNTL) /\ sd_arg0 d mod 2 ^ 32 < 256 \/
       sd_nr d = SYS_SENDMSG /\ sd_arg0 d mod 2 ^ 32 = to_uint32 sock).
Proof.
  eexists. split; [apply notify_filter_spec|]. rewrite handled_managed, managed_call_numbers. unfold notify_spec.
  destruct (Z.eqb_spec (sd_arch d) AUDIT_ARCH_NATIVE) as [A|A]; [|cbn [negb orb]; by split; [split; [by left|done]|]].
  destruct (X32_SYSCALL_BIT <=? sd_nr d) eqn:X; cbn [negb orb]; [split; [split; [right; lia|done]|done]|].
  assert (K : forall P : Prop, (P <-> sd_arch d <> AUDIT_ARCH_NATIVE \/ X32_SYSCALL_BIT <= sd_nr d) <-> ~ P) by (intros P; split; [intros E P1; apply E in P1; lia|intros N; split; [done|lia]]).
  rewrite K. destruct (existsb _ always_notified); [done|]. destruct (Z.eqb_spec (sd_nr d) SYS_SENDMSG) as [S|S].
  - destruct (Z.eqb_spec (sd_arg0 d mod 2 ^ 32) (to_uint32 sock)); [|done]. split; [done|]. split; [done|]. auto.
  - unfold lowest_managed, MIN_MANAGED_CHILD_FD, MIN_MANAGED_TCP_CHILD_FD.
    destruct (Z.eqb_spec (sd_nr d) SYS_READ), (Z.eqb_spec (sd_nr d) SYS_WRITE), (Z.eqb_spec (sd_nr d) SYS_CLOSE), (Z.eqb_spec (sd_nr d) SYS_FCNTL);
      cbn [orb]; try (split; [done|split; done]);
      match goal with |- context [?low <=? ?fd] => destruct (Z.leb_spec low fd) end; (split; [done|split; [done|]]); intros; try done; auto.
Qed.

(** *** A duplicate below the limits *)

#[local] Existing Instance sampleLib.
#[local] Existing Instance sampleKernel.
Definition native (nr arg0 : Z) : seccompData := {| sd_nr := nr; sd_arch := AUDIT_ARCH_NATIVE; sd_arg0 := arg0 |}.
(** A socket duplicated to a low number by dup2 is registered under it, but its
    close, its reads and its writes pass by the supervisor: the entry outlives the
    descriptor, and whatever is opened there next is taken for that socket. *)
Definition call_dup2_low : ScmpNotifReq := call SYS_DUP2 [512; 5].
Definition w_low : @world sampleKernel := sample_run [call_socket_udp; call_sendto; call_dup2_low] sample_start.
Lemma low_duplicate_outlives_close :
  Kind <$> w_reg w_low !! (7, 5) = Some KindUDP /\
  bpf_decide (notify_filter 64) (native SYS_CLOSE 5) = Some Allow /\
  bpf_decide (notify_filter 64) (native SYS_READ 5) = Some Allow /\
  bpf_decide (notify_filter 64) (native SYS_SENDTO 5) = Some UserNotif /\
  (processNotification sampleTargets 3 0 (call SYS_SENDTO [5; 2000; 4; 0; 1000; 16]) w_low).1 = Ret (Success 1 4).
Proof.
  by repeat split; vm_compute.
Qed.
