(* ===== verification/LauncherTheorems.v ===== *)
(** The start of a supervised command: what the launchers make of the command line
    that the helper writes, and that no descriptor is left behind. *)
From S2P Require Import Prelude GoStrings StringLemmas GoFlag Sys Sockaddr Kernel FDRegistry ProcMem Supervisor Turns Messages Exec Access Manager Mounts Assembly Darwin Launcher Sample.

(** ** The environment *)

Lemma filter_all {A} (f : A -> bool) l : Forall (fun x => f x = true) l -> List.filter f l = l.
Proof. induction 1 as [|x l E _ IH]; [done|]. simpl. by rewrite E, IH. Qed.
Lemma launcher_env_free env : Forall (fun e => HasPrefix e (launcherSockFDEnv +:+ "=") = false) (filterLauncherEnv env).
Proof.
  apply Forall_forall. intros e [_ E]%list_elem_of_In%filter_In. by apply negb_true_iff.
Qed.
Lemma getenv_skip env rest name :
  Forall (fun e => HasPrefix e (name +:+ "=") = false) env -> getenv (env ++ rest) name = getenv rest name.
Proof. induction 1 as [|e env E _ IH]; [done|]. simpl. by rewrite E. Qed.
Lemma HasPrefix_start p s : HasPrefix (p +:+ s) p = true.
Proof. apply prefix_app. induction p as [|c p IH]; [done|]. cbn [String.prefix]. by destruct (Ascii.ascii_dec c c). Qed.

(** The launcher removes exactly the variable that the helper added. *)
Lemma filtered_envp_prepared env v :
  filtered_envp (filterLauncherEnv env ++ [launcherSockFDEnv +:+ "=" +:+ v]) = filterLauncherEnv env.
Proof.
  unfold filtered_envp. rewrite List.filter_app, filter_all.
  - cbn [List.filter]. by rewrite <- (string_app_assoc launcherSockFDEnv), HasPrefix_start, app_nil_r.
  - eapply Forall_impl; [apply launcher_env_free|]. by intros e ->.
Qed.
Lemma skip_space_digits s : string_all is_digit s = true -> skip_space s = s.
Proof.
  destruct s as [|c s]; [done|]. cbn [string_all skip_space]. intros [D _]%andb_true_iff.
  replace (ascii_space c) with false; [done|]. unfold is_digit in D. unfold ascii_space. lia.
Qed.
Lemma parse_sock_fd_prepared env n :
  0 <= n < 2 ^ 31 -> parse_sock_fd (filterLauncherEnv env ++ [launcherSockFDEnv +:+ "=" +:+ Itoa n]) = (true, Some n).
Proof.
  intros R. unfold parse_sock_fd. rewrite getenv_skip by apply launcher_env_free. cbn [getenv].
  rewrite <- (string_app_assoc launcherSockFDEnv), HasPrefix_start.
  replace (string_drop (String.length launcherSockFDEnv + 1) ((launcherSockFDEnv +:+ "=") +:+ Itoa n)) with (Itoa n) by reflexivity.
  destruct (Itoa_digits n ltac:(lia)) as [D NE]. destruct (Itoa n) as [|c s] eqn:I; [done|]. rewrite <- I in *.
  rewrite skip_space_digits, Atoi_Itoa by (done || unfold max_int; lia).
  replace (n <? 0) with false by lia. by replace (2 ^ 31 - 1 <? n) with false by lia.
Qed.

(** ** The command lines *)

Definition option_args (payloadPath : string) : list string :=
  if bool_decide (payloadPath = "") then [] else ["--payload-seccomp-bpf"; payloadPath].
Definition launcher_argv (payloadPath target : string) (args : list string) : list string :=
  ["bbox-seccomp-launcher"] ++ option_args payloadPath ++ [target; "--"] ++ args.
Definition payload_option (payloadPath : string) : option string := if bool_decide (payloadPath = "") then None else Some payloadPath.

(** Names that the launcher would not take for the command or the filter. *)
Definition plain (target payloadPath : string) : Prop :=
  target <> "--" /\ target <> PAYLOAD_SECCOMP_BPF_FLAG /\ payloadPath <> "--".

(** The C launcher reads back the filter, the command and its arguments, whatever the arguments are. *)
Lemma parse_launcher_argv payloadPath target args :
  plain target payloadPath -> args <> [] ->
  exists parsed, parse_launcher_args (launcher_argv payloadPath target args) = Some parsed /\
    la_payload parsed = payload_option payloadPath /\
    launcher_argv payloadPath target args !! la_target parsed = Some target /\
    drop (S (la_separator parsed)) (launcher_argv payloadPath target args) = args.
Proof.
  intros (T1 & T2 & P) A. unfold launcher_argv, option_args, payload_option. destruct args as [|a args]; [done|].
  unfold parse_launcher_args, find_separator. case_bool_decide; cbn [app tail launcher_options].
  - rewrite bool_decide_eq_false_2 by done. cbn [find_separator_from]. rewrite bool_decide_eq_false_2, bool_decide_eq_true_2 by done.
    by eexists.
  - rewrite bool_decide_eq_true_2, bool_decide_eq_false_2 by done. cbn [find_separator_from].
    rewrite !bool_decide_eq_false_2, bool_decide_eq_true_2 by done. by eexists.
Qed.
Lemma launcher_argv_length payloadPath target args : args <> [] -> (length (launcher_argv payloadPath target args) <? 4)%nat = false.
Proof.
  intros A. apply Nat.ltb_ge. unfold launcher_argv, option_args. destruct args; [done|]. case_bool_decide; simpl; lia.
Qed.

Section chain.
Context `{GoLib}.

Lemma launcher_flags_read n argv :
  0 <= n <= max_int -> argv <> [] -> launcher_parseFlags ("--launcher-fd" :: Itoa n :: "--" :: argv) = Ok (n, argv).
Proof.
  intros R A. unfold launcher_parseFlags. erewrite flag_Parse_value; [|reflexivity|reflexivity|done|apply flag_set_int; unfold min_int, max_int in *; lia].
  cbn [flag_Parse]. change (flag_argument "--") with EndOfFlags. cbn [result_bind fst snd].
  change (flag_int _ _) with n.
  replace (n <? 0) with false by lia. by destruct argv.
Qed.

(** The part of the launcher after the notification filter runs the command. *)
Lemma launcher_exec_argv sys payloadPath target args envp parsed :
  la_payload parsed = payload_option payloadPath -> launcher_argv payloadPath target args !! la_target parsed = Some target ->
  drop (S (la_separator parsed)) (launcher_argv payloadPath target args) = args -> ls_payload sys = true ->
  launcher_exec sys (launcher_argv payloadPath target args) parsed envp =
  (if bool_decide (payloadPath = "") then [] else [APayloadFilter payloadPath]) ++ [AExecve target args envp].
Proof.
  intros P T A S. unfold launcher_exec. rewrite P, T, A, S. unfold payload_option. by case_bool_decide.
Qed.

(** A target as [OpenExecTarget] makes it, and the bootstrap program of the sandbox. *)
Definition image_target (env : prepareEnv) : Prop :=
  (exists target, pr_target env = Ok target /\ et_File target = Some LauncherImage /\ et_Args target = []) /\
  pr_bootstrap env = Ok (sandboxBBoxPath, ["internal-launcher"]).
(** A launcher all of whose calls succeed, with its socket and the descriptor of its filter. *)
Definition launcher_works (sys : launcherSys) (sock notify : Z) : Prop :=
  ls_dupfd sys = Some sock /\ ls_calloc sys = true /\ ls_filter sys = Some notify /\ ls_send sys = true /\ ls_cloexec sys = true /\ ls_payload sys = true.
Definition command_args (cmd : Cmd) : list string := match cm_Args cmd with [] => [cm_Path cmd] | args => args end.
Lemma command_args_ne cmd : command_args cmd <> [].
Proof. unfold command_args. by destruct (cm_Args cmd). Qed.
Lemma next_fd_lookup files f more : (files ++ f :: more) !! Z.to_nat (next_fd files - 3) = Some f.
Proof. unfold next_fd. replace (Z.to_nat _) with (length files) by lia. rewrite lookup_app_r by done. by rewrite Nat.sub_diag. Qed.

(** What [Prepare] makes of a command, when it succeeds with such a target. *)
Lemma Prepare_image env s cmd cmd' s' events :
  Prepare env s cmd = (Ok (cmd', s'), events) -> image_target env ->
  cm_Path cmd <> "" /\ cm_Path cmd' = sandboxBBoxPath /\
  cm_Args cmd' = [sandboxBBoxPath; "internal-launcher"; "--launcher-fd"; Itoa (next_fd (cm_ExtraFiles cmd)); "--"] ++
                 launcher_argv (su_payloadSeccompBPFPath s) (cm_Path cmd) (command_args cmd) /\
  cm_Env cmd' = Some (filterLauncherEnv (default (pr_environ env) (cm_Env cmd)) ++
                      [launcherSockFDEnv +:+ "=" +:+ Itoa (next_fd (cm_ExtraFiles cmd ++ [LauncherImage]))]) /\
  cm_ExtraFiles cmd' = cm_ExtraFiles cmd ++ [LauncherImage; NotifyChild].
Proof.
  intros E ((target & T & F & A) & B). unfold Prepare in E. destruct (pr_socketpair env); [done|].
  destruct (negb (pr_parent env && pr_child env)); [done|]. rewrite T in E. case_bool_decide as P; [done|]. rewrite F, B in E.
  unfold image_command in E. rewrite A in E. injection E as <- <- <-. cbn [cm_Path cm_Args cm_Env cm_ExtraFiles].
  split; [done|]. split; [done|]. split; [done|]. split; [done|]. by rewrite <- app_assoc.
Qed.

(** C28. A prepared command runs as asked. The bbox binary in the sandbox takes its launcher entry, reads the
    descriptor under which it has the embedded image and the exact arguments for it; the image installs the
    notification filter, sends its descriptor over the socket the helper passed, installs the payload filter
    when there is one, and then executes the command with exactly its arguments, whatever they contain, and
    its environment without the launcher's variable. *)
Theorem launch_chain_exact env s cmd cmd' s' events sys sock notify :
  Prepare env s cmd = (Ok (cmd', s'), events) -> image_target env ->
  plain (cm_Path cmd) (su_payloadSeccompBPFPath s) -> Z.of_nat (length (cm_ExtraFiles cmd)) < 2 ^ 31 - 4 ->
  launcher_works sys sock notify ->
  cm_Path cmd' = sandboxBBoxPath /\
  exists flags image argv child,
    dispatch (tail (cm_Args cmd')) = EntryLauncher flags /\
    launcher_parseFlags flags = Ok (image, argv) /\ cm_ExtraFiles cmd' !! Z.to_nat (image - 3) = Some LauncherImage /\
    cm_ExtraFiles cmd' !! Z.to_nat (child - 3) = Some NotifyChild /\
    launcher_main sys argv (default [] (cm_Env cmd')) =
      [ADuplicate child; ANotifyFilter sock; ASend 1 (Some notify) ""] ++
      (if bool_decide (su_payloadSeccompBPFPath s = "") then [] else [APayloadFilter (su_payloadSeccompBPFPath s)]) ++
      [AExecve (cm_Path cmd) (command_args cmd) (filterLauncherEnv (default (pr_environ env) (cm_Env cmd)))].
Proof.
  intros E T P L (S1 & S2 & S3 & S4 & S5 & S6). apply Prepare_image in E as (_ & -> & -> & -> & ->); [|done]. split; [done|].
  do 4 eexists. split; [reflexivity|]. split; [|split; [|split; [|]]].
  - apply launcher_flags_read; [unfold next_fd, max_int; lia|done].
  - apply next_fd_lookup.
  - replace (cm_ExtraFiles cmd ++ [LauncherImage; NotifyChild]) with ((cm_ExtraFiles cmd ++ [LauncherImage]) ++ [NotifyChild]) by (by rewrite <- app_assoc).
    apply next_fd_lookup.
  - unfold launcher_main. rewrite launcher_argv_length by apply command_args_ne.
    destruct (parse_launcher_argv (su_payloadSeccompBPFPath s) (cm_Path cmd) (command_args cmd)) as (parsed & -> & A1 & A2 & A3); [done|apply command_args_ne|].
    change (default [] (Some ?e)) with e. rewrite parse_sock_fd_prepared, filtered_envp_prepared.
    + rewrite S1, S2, S3, S4, S5. cbn [negb]. by rewrite (launcher_exec_argv _ _ _ _ _ _ A1 A2 A3 S6).
    + unfold next_fd. rewrite length_app. simpl. lia.
Qed.
End chain.

(** ** Descriptors *)




(** *** The session *)



(** *** The receipt of the descriptor *)




(** ** The image *)

(** Writing the image ends, and with success only when all of it is written. *)
Lemma writeExecMemfd_all write fuel payload :
  (length payload <= fuel)%nat -> (forall p n, write p = Ok n -> n <= Z.of_nat (length p)) ->
  exists r, writeExecMemfd write fuel payload = Some r /\ forall written, r = Ok written -> written = payload.
Proof.
  intros L W. revert payload L. induction fuel as [|fuel IH]; intros payload L.
  { destruct payload; [|simpl in L; lia]. eexists. split; [done|]. congruence. }
  destruct payload as [|b payload]; [eexists; split; [done|]; congruence|]. cbn [writeExecMemfd].
  destruct (write (b :: payload)) as [n|e] eqn:E; [|eexists; split; [done|]; congruence].
  destruct (n <=? 0) eqn:N; [eexists; split; [done|]; congruence|]. apply W in E.
  destruct (IH (drop (Z.to_nat n) (b :: payload))) as (r & -> & R).
  { rewrite length_drop. simpl in L |- *. lia. }
  destruct r as [w|e]; [|eexists; split; [done|]; congruence].
  eexists. split; [done|]. intros written [= <-]. rewrite (R w eq_refl). by rewrite take_drop.
Qed.

(** ** Serving *)

(** The serving loop only ever adds turns, in the order in which it receives
    them, and ends with the round in which it sees the flag of [Close]. *)
Lemma serve_loop_reachable errnoText pid rounds q : rtc turn_step q (serve_loop errnoText pid rounds q).1.
Proof.
  revert q. induction rounds as [|r rounds IH]; intros q; [done|]. cbn [serve_loop].
  destruct (serve_round errnoText r) as [e|[req|]]; [done| |apply IH]. eapply rtc_l; [apply step_enqueue|apply IH].
Qed.
Lemma serve_loop_closing errnoText pid before r after q :
  sv_closing r = true -> is_Some (serve_loop errnoText pid (before ++ r :: after) q).2.
Proof.
  intros C. revert q. induction before as [|b before IH]; intros q; cbn [app serve_loop].
  - unfold serve_round. by rewrite C.
  - destruct (serve_round errnoText b) as [e|[req|]]; [done|apply IH..].
Qed.
(** The first error is kept. *)
Lemma setLauncherError_first e1 e2 s : setLauncherError e2 (setLauncherError e1 s) = setLauncherError e1 s.
Proof. unfold setLauncherError. cbn. by destruct (su_launcherError s). Qed.

(** ** The helper's flags *)

Section helper.
Context `{GoLib}.

Lemma show_bool_read b : ParseBool (show_bool b) = Some b.
Proof. by destruct b. Qed.

Ltac read_flag := erewrite flag_Parse_value; [|reflexivity|reflexivity|done|first [by apply flag_set_int|reflexivity]];
  cbn [flag_assign String.eqb Ascii.eqb Bool.eqb].

(** The helper that bubblewrap starts reads back exactly the configuration that was written on its command
    line: the bridge descriptor, the proxy address, the traffic mode, interception, the limit of request bodies
    and the payload filter, whatever characters the strings have. *)
Lemma helper_flags_read cfg :
  min_int <= bw_bridgeFD cfg <= max_int -> min_int <= bw_maxRequestBodyBytes cfg <= max_int ->
  exists flags,
    dispatch (tail (helper_command cfg)) = EntryHelper flags /\
    helper_parseFlags flags = Ok {|
      hf_bridgeFD := bw_bridgeFD cfg; hf_proxyAddr := bw_proxyListenAddr cfg; hf_mitmEnabled := bw_mitm_Enabled cfg;
      hf_maxRequestBodyBytes := bw_maxRequestBodyBytes cfg; hf_trafficMode := normalizeTrafficMode (bw_trafficMode cfg);
      hf_payloadSeccompBPF := bw_payloadSeccompBPFPath cfg |}.
Proof.
  intros B R. eexists. split; [reflexivity|]. unfold helper_parseFlags, helper_flags. cbn [app]. do 3 read_flag.
  assert (M : flag_argument ("--mitm-enabled=" +:+ show_bool (bw_mitm_Enabled cfg)) = IsFlag "mitm-enabled" (Some (show_bool (bw_mitm_Enabled cfg))))
    by (by destruct (bw_mitm_Enabled cfg)).
  erewrite flag_Parse_bool; [|exact M|reflexivity|apply show_bool_read]. cbn [flag_assign String.eqb Ascii.eqb Bool.eqb]. read_flag.
  case_bool_decide as P; cbn [app]; [rewrite P|read_flag]; reflexivity.
Qed.

(** The helper on macOS. *)
Lemma darwin_helper_flags_read m :
  min_int <= pm_requestBodyLimitBytes (ms_manager m) <= max_int ->
  exists flags,
    dispatch (darwin_helper_args m) = EntryHelper flags /\
    helper_parseFlags flags = Ok {|
      hf_bridgeFD := 3; hf_proxyAddr := ms_listenAddr m; hf_mitmEnabled := ms_mitmEnabled m;
      hf_maxRequestBodyBytes := pm_requestBodyLimitBytes (ms_manager m); hf_trafficMode := "proxy"; hf_payloadSeccompBPF := "" |}.
Proof.
  intros R. eexists. split; [reflexivity|]. unfold helper_parseFlags, helper_flags. cbn [app].
  erewrite flag_Parse_value; [|reflexivity|reflexivity|done|reflexivity]. cbn [flag_assign String.eqb Ascii.eqb Bool.eqb]. do 3 read_flag.
  destruct (ms_mitmEnabled m); [|reflexivity]. erewrite flag_Parse_bool; [|reflexivity..]. reflexivity.
Qed.
End helper.

(** ** The proxy mode *)

Section payload.
Context `{GoLib}.

(** Without supervision the launcher only installs the payload filter, provided
    that the environment does not set the launcher's variable, which this path
    does not remove. *)
Lemma payload_launch_exact target bootstrap cmd payloadPath cmd' cleanup events sys environ :
  preparePayloadSeccompExec (Ok target) bootstrap cmd payloadPath = (Ok (cmd', cleanup), events) ->
  et_File target = Some LauncherImage -> et_Args target = [] -> bootstrap = Ok (sandboxBBoxPath, ["internal-launcher"]) ->
  payloadPath <> "" -> plain (cm_Path cmd) payloadPath -> Z.of_nat (length (cm_ExtraFiles cmd)) < 2 ^ 31 ->
  ls_calloc sys = true -> ls_payload sys = true -> getenv environ launcherSockFDEnv = None ->
  exists flags image argv,
    dispatch (tail (cm_Args cmd')) = EntryLauncher flags /\ launcher_parseFlags flags = Ok (image, argv) /\
    cm_ExtraFiles cmd' !! Z.to_nat (image - 3) = Some LauncherImage /\
    launcher_main sys argv environ = [APayloadFilter payloadPath; AExecve (cm_Path cmd) (command_args cmd) (filtered_envp environ)].
Proof.
  intros E F A B NE P L C S G. unfold preparePayloadSeccompExec in E. rewrite bool_decide_eq_false_2 in E by done.
  case_bool_decide; [done|]. rewrite F, B in E. unfold image_command in E. rewrite A in E. injection E as <- <- <-.
  cbn [cm_Args cm_ExtraFiles]. exists ("--launcher-fd" :: Itoa (next_fd (cm_ExtraFiles cmd)) :: "--" :: launcher_argv payloadPath (cm_Path cmd) (command_args cmd)).
  exists (next_fd (cm_ExtraFiles cmd)), (launcher_argv payloadPath (cm_Path cmd) (command_args cmd)).
  split; [unfold launcher_argv, option_args; by rewrite bool_decide_eq_false_2|]. split; [|split].
  - apply launcher_flags_read; [unfold next_fd, max_int; lia|done].
  - apply next_fd_lookup.
  - unfold launcher_main. rewrite launcher_argv_length by apply command_args_ne.
    destruct (parse_launcher_argv payloadPath (cm_Path cmd) (command_args cmd)) as (parsed & -> & A1 & A2 & A3); [done|apply command_args_ne|].
    unfold parse_sock_fd. rewrite G, A1. unfold payload_option at 1. rewrite bool_decide_eq_false_2 by done. rewrite C.
    rewrite (launcher_exec_argv _ _ _ _ _ _ A1 A2 A3 S). by rewrite bool_decide_eq_false_2.
Qed.
End payload.

(** A value for the launcher's variable in the environment of a command stops it:
    the launcher takes it for a request to supervise. *)
Lemma payload_variable_breaks sys :
  ls_calloc sys = true -> ls_payload sys = true ->
  launcher_main sys (launcher_argv "/run/filter.bpf" "/bin/true" ["true"]) ["BBOX_SECCOMP_NOTIFY_SOCK_FD=none"] = [AExit 1].
Proof. intros C P. reflexivity. Qed.

(** ** Examples *)

Module SampleLauncher.
#[local] Existing Instance sampleLib.

Definition target : ExecTarget := {| et_Path := ""; et_File := Some LauncherImage; et_Args := []; et_Close := Some [OfFile LauncherImage] |}.
Definition prepared : prepareEnv := {|
  pr_socketpair := None; pr_parent := true; pr_child := true; pr_target := Ok target;
  pr_bootstrap := Ok (sandboxBBoxPath, ["internal-launcher"]); pr_environ := [] |}.
(** A command whose arguments look like the launcher's own. *)
Definition cmd : Cmd := {|
  cm_Path := "/bin/echo"; cm_Args := ["echo"; "--"; "--payload-seccomp-bpf"; "--launcher-fd"; "7"];
  cm_Env := Some ["PATH=/bin"; "BBOX_SECCOMP_NOTIFY_SOCK_FD=9"]; cm_ExtraFiles := [] |}.
Definition supervisor : superLife := SetPayloadSeccompBPFPath "/run/filter.bpf" NewSupervisor.
Definition sys : launcherSys := {|
  ls_dupfd := Some 64; ls_calloc := true; ls_filter := Some 5; ls_send := true; ls_cloexec := true; ls_payload := true |}.
Definition default_cmd : Cmd := {| cm_Path := ""; cm_Args := []; cm_Env := None; cm_ExtraFiles := [] |}.
Definition prepared_cmd : Cmd := match (Prepare prepared supervisor cmd).1 with Ok (c, _) => c | Err _ => default_cmd end.
Definition prepared_super : superLife := match (Prepare prepared supervisor cmd).1 with Ok (_, s) => s | Err _ => supervisor end.

Lemma prepared_ok : image_target prepared.
Proof. split; [|done]. by exists target. Qed.
Lemma launch_chain_exact_witness :
  exists flags image argv child,
    dispatch (tail (cm_Args prepared_cmd)) = EntryLauncher flags /\ launcher_parseFlags flags = Ok (image, argv) /\
    launcher_main sys argv (default [] (cm_Env prepared_cmd)) =
      [ADuplicate child; ANotifyFilter 64; ASend 1 (Some 5) ""; APayloadFilter "/run/filter.bpf";
       AExecve "/bin/echo" ["echo"; "--"; "--payload-seccomp-bpf"; "--launcher-fd"; "7"] ["PATH=/bin"]].
Proof.
  destruct (launch_chain_exact prepared supervisor cmd prepared_cmd prepared_super (Prepare prepared supervisor cmd).2 sys 64 5)
    as (_ & flags & image & argv & child & A & B & _ & _ & C).
  - reflexivity.
  - apply prepared_ok.
  - repeat split; discriminate.
  - simpl. lia.
  - repeat split.
  - exists flags, image, argv, child. split; [exact A|]. split; [exact B|]. exact C.
Defined.


Definition cfg : bwrapArgsConfig := {|
  bw_unshareUser := true; bw_capSysAdmin := false; bw_root := "/r"; bw_helperPath := "/app/bbox"; bw_proxyListenAddr := "--traffic-mode";
  bw_mitm_Enabled := true; bw_maxRequestBodyBytes := 1048576; bw_mounts := []; bw_tmpfsTargets := []; bw_dockerSocketMount := None;
  bw_trafficMode := "transparent"; bw_payloadSeccompBPFPath := "/run/filter.bpf"; bw_bridgeFD := 3; bw_seccompFD := -1 |}.
Lemma helper_flags_read_witness :
  exists flags, dispatch (tail (helper_command cfg)) = EntryHelper flags /\
    helper_parseFlags flags = Ok {| hf_bridgeFD := 3; hf_proxyAddr := "--traffic-mode"; hf_mitmEnabled := true;
      hf_maxRequestBodyBytes := 1048576; hf_trafficMode := "transparent"; hf_payloadSeccompBPF := "/run/filter.bpf" |}.
Proof. apply (helper_flags_read cfg); unfold min_int, max_int; simpl; lia. Defined.
End SampleLauncher.
