(* ===== verification/Summary.v ===== *)
(** The report of a run: src/cmd/bbox/summary.go and the end of [runSandbox]
    (command_exec.go). A writer is given by the error, if any, of its next write
    after the texts written so far; a nil writer is [None]. Nil slices and empty
    ones print differently, so the rows of a summary are optional here. *)
From S2P Require Import Prelude GoStrings StringLemmas Policy Access AccessProofs Manager HostClient Staging StagingTheorems Assembly.

Definition LF1 : string := str1 10.

(** ** Writing *)

Definition Writer : Type := list string -> option string.
(** Texts written one after the other; the first error ends it. *)
Fixpoint write_all (w : Writer) (done texts : list string) : list string * option string :=
  match texts with
  | [] => (done, None)
  | t :: texts => match w done with Some e => (done, Some e) | None => write_all w (done ++ [t]) texts end
  end.

(** ** The log *)

Record cliAccessLogger := { al_entries : list AccessLogEntry; al_emitJSON : bool }.
Definition newCLIAccessLogger (emitJSON : bool) : cliAccessLogger := {| al_entries := []; al_emitJSON := emitJSON |}.
Definition LogAccess (entry : AccessLogEntry) (l : cliAccessLogger) : cliAccessLogger :=
  {| al_entries := al_entries l ++ [entry]; al_emitJSON := al_emitJSON l |}.
Definition Entries (l : cliAccessLogger) : list AccessLogEntry := al_entries l.

(** ** The texts *)

Definition emptyValue (value : string) : string := if bool_decide (value = "") then "-" else value.
Definition host_line (h : AccessedHostSummary) : string :=
  "  " +:+ hs_Host h +:+ ": attempts=" +:+ Itoa (hs_Attempts h) +:+ " last_result=" +:+ emptyValue (hs_LastResult h) +:+
  " last_port=" +:+ Itoa (hs_LastPort h) +:+ " violations=" +:+ Itoa (hs_PolicyViolations h) +:+ LF1.
Definition request_line (r : RequestAggregate) : string :=
  "  " +:+ emptyValue (ra_Kind r) +:+ " " +:+ emptyValue (ra_Method r) +:+ " " +:+ ra_Host r +:+ ":" +:+ Itoa (ra_Port r) +:+ " " +:+
  emptyValue (ra_Path r) +:+ " attempts=" +:+ Itoa (ra_Attempts r) +:+ " allowed=" +:+ Itoa (ra_AllowedCount r) +:+
  " denied=" +:+ Itoa (ra_DeniedCount r) +:+ " policy_allowed=" +:+ Itoa (ra_PolicyAllowedCount r) +:+
  " policy_denied=" +:+ Itoa (ra_PolicyDeniedCount r) +:+ LF1.
(** One section: its title, its rows or a line that there are none. *)
Definition summary_section (title : string) (rows : list string) : list string :=
  (title +:+ LF1) :: match rows with [] => ["  none" +:+ LF1] | _ => rows end.
Record filteredSummary := { fs_Hosts : option (list AccessedHostSummary); fs_Requests : option (list RequestAggregate) }.
Definition summary_texts (s : filteredSummary) : list string :=
  match fs_Hosts s with Some hosts => summary_section "Access summary" (map host_line hosts) | None => [] end ++
  match fs_Requests s with
  | Some requests =>
      match fs_Hosts s with Some _ => [LF1] | None => [] end ++ summary_section "Request summary" (map request_line requests)
  | None => []
  end.
Definition renderAccessSummary (w : option Writer) (s : filteredSummary) (done : list string) : list string * option string :=
  match w with None => (done, None) | Some w => write_all w done (summary_texts s) end.

(** The line of an entry with violations. *)
Definition violation_line (e : AccessLogEntry) : string :=
  "  " +:+ emptyValue (ev_Kind e) +:+ " " +:+ emptyValue (ev_Method e) +:+ " " +:+ ev_Host e +:+ ":" +:+ Itoa (ev_Port e) +:+ " " +:+
  emptyValue (ev_Path e) +:+ " violations=" +:+ Join (sort_strings (ev_PolicyViolations e)) "; ".
Definition violating (e : AccessLogEntry) : bool := negb (bool_decide (ev_PolicyViolations e = [])).
Definition violation_lines (entries : list AccessLogEntry) : list string :=
  sort_strings (map violation_line (List.filter violating entries)).
Definition violation_texts (entries : list AccessLogEntry) : list string :=
  summary_section "Policy violations" (map (fun line => line +:+ LF1) (violation_lines entries)).
Definition renderPolicyViolations (w : option Writer) (entries : list AccessLogEntry) (done : list string) : list string * option string :=
  match w with None => (done, None) | Some w => write_all w done (violation_texts entries) end.

Definition filtered_summary (s : AccessSummary) (reporting : ReportingOptions) : filteredSummary := {|
  fs_Hosts := if ro_AccessSummary reporting then Some (sum_Hosts s) else None;
  fs_Requests := if ro_RequestSummary reporting then Some (sum_Requests s) else None |}.
Definition renderRunSummary (w : option Writer) (s : AccessSummary) (entries : list AccessLogEntry) (reporting : ReportingOptions)
    (done : list string) : list string * option string :=
  match renderAccessSummary w (filtered_summary s reporting) done with
  | (done, Some e) => (done, Some e)
  | (done, None) => if ro_PolicyViolations reporting then renderPolicyViolations w entries done else (done, None)
  end.

Section json.
(** [json.Encoder.Encode]: the line of an entry, or an error. *)
Context (json_Encode : AccessLogEntry -> result string).

Fixpoint encode_all (w : Writer) (entries : list AccessLogEntry) (done : list string) : list string * option string :=
  match entries with
  | [] => (done, None)
  | e :: entries =>
      match json_Encode e with
      | Err err => (done, Some err)
      | Ok line => match w done with Some err => (done, Some err) | None => encode_all w entries (done ++ [line]) end
      end
  end.
Definition renderAccessLogEntries (w : option Writer) (entries : list AccessLogEntry) (done : list string) : list string * option string :=
  match w with None => (done, None) | Some w => encode_all w entries done end.
Definition finalizeRunOutput (w : option Writer) (l : cliAccessLogger) (s : AccessSummary) (reporting : ReportingOptions)
    (done : list string) : list string * option string :=
  let entries := Entries l in
  match (if al_emitJSON l then renderAccessLogEntries w entries done else (done, None)) with
  | (done, Some e) => (done, Some e)
  | (done, None) => renderRunSummary w s entries reporting done
  end.

(** What is written to stdout and stderr after a run, and the exit code or error of
    [runSandbox]; [interactive] runs have written their output already. *)
Definition writeBufferedRunResult (wout werr : Writer) (r : RunResult) : (list string * list string) * option string :=
  let '(out, e) := if bool_decide (rr_Stdout r = "") then ([], None) else write_all wout [] [rr_Stdout r] in
  match e with
  | Some e => ((out, []), Some ("write buffered stdout: " +:+ e))
  | None =>
      let '(err, e) := if bool_decide (rr_Stderr r = "") then ([], None) else write_all werr [] [rr_Stderr r] in
      ((out, err), (fun e => "write buffered stderr: " +:+ e) <$> e)
  end.
Inductive runStatus := RunOk | RunExit (code : Z) | RunFailed (err : string).
Definition finish_run (interactive : bool) (wout werr : Writer) (l : cliAccessLogger) (s : AccessSummary) (reporting : ReportingOptions)
    (r : RunResult) : (list string * list string) * runStatus :=
  let '((out, err), e) := if interactive then (([], []), None) else writeBufferedRunResult wout werr r in
  match e with
  | Some e => ((out, err), RunFailed e)
  | None =>
      let '(err, e) := finalizeRunOutput (Some werr) l s reporting err in
      ((out, err), match e with
                   | Some e => RunFailed e
                   | None => if rr_ExitCode r =? 0 then RunOk else RunExit (rr_ExitCode r)
                   end)
  end.
End json.

(** ** What is printed *)

Lemma write_all_ok w done texts : (forall d, w d = None) -> write_all w done texts = (done ++ texts, None).
Proof.
  intros W. revert done. induction texts as [|t texts IH]; intros done; cbn [write_all]; [by rewrite app_nil_r|].
  by rewrite W, IH, <- app_assoc.
Qed.
(** A failing writer has received a prefix of the report, and nothing after its error. *)
Lemma write_all_prefix w done texts :
  exists n, (write_all w done texts).1 = done ++ take n texts /\ ((write_all w done texts).2 = None -> take n texts = texts).
Proof.
  revert done. induction texts as [|t texts IH]; intros done; cbn [write_all].
  { exists O. by rewrite app_nil_r. }
  destruct (w done) as [e|]; [exists O; by rewrite app_nil_r|]. destruct (IH (done ++ [t])) as (n & E & F).
  exists (S n). rewrite E, <- app_assoc. split; [done|]. intros N. cbn [take]. by rewrite (F N).
Qed.

#[local] Existing Instances path_le_total path_le_transitive.
#[local] Instance path_le_antisym : AntiSymm eq path_le.
Proof. intros a b. apply string_le_antisym. Qed.
Lemma sort_strings_perm l k : l ≡ₚ k -> sort_strings l = sort_strings k.
Proof.
  intros P. unfold sort_strings. apply (StronglySorted_unique path_le); [apply StronglySorted_merge_sort; apply _..|].
  by rewrite !(merge_sort_Permutation path_le).
Qed.
(** The report of violations does not depend on the order in which concurrent
    connections were logged, nor on the order of the reasons within an entry. *)
Lemma violation_texts_perm entries entries' : entries ≡ₚ entries' -> violation_texts entries = violation_texts entries'.
Proof.
  intros P. unfold violation_texts, violation_lines. f_equal. f_equal. apply sort_strings_perm. apply Permutation_map.
  induction P as [|x l k _ IH|x y l|l k m _ IH1 _ IH2]; [done| | |by etrans]; simpl.
  - destruct (violating x); [by constructor|done].
  - destruct (violating x), (violating y); by constructor || done.
Qed.

(** ** A complete report *)

Lemma encode_all_ok json w entries lines done :
  (forall d, w d = None) -> Forall2 (fun e line => json e = Ok line) entries lines ->
  encode_all json w entries done = (done ++ lines, None).
Proof.
  intros W F. revert done. induction F as [|e line entries lines J _ IH]; intros done; cbn [encode_all]; [by rewrite app_nil_r|].
  by rewrite J, W, IH, <- app_assoc.
Qed.
(** With writers that do not fail, a run ends with its output on stdout (unless it
    was interactive and has written it already) and, on stderr, its error output,
    the lines of the JSON log if asked for, the sections asked for and nothing
    else; its exit code is the command's. *)
Lemma finish_run_ok json interactive wout werr l lines s reporting r :
  (forall d, wout d = None) -> (forall d, werr d = None) ->
  (if al_emitJSON l then Forall2 (fun e line => json e = Ok line) (al_entries l) lines else lines = []) ->
  finish_run json interactive wout werr l s reporting r =
    ((if interactive || bool_decide (rr_Stdout r = "") then [] else [rr_Stdout r],
      (if interactive || bool_decide (rr_Stderr r = "") then [] else [rr_Stderr r]) ++ lines ++ summary_texts (filtered_summary s reporting) ++
      (if ro_PolicyViolations reporting then violation_texts (al_entries l) else [])),
     if rr_ExitCode r =? 0 then RunOk else RunExit (rr_ExitCode r)).
Proof.
  intros O E J. unfold finish_run.
  assert (F : forall done, finalizeRunOutput json (Some werr) l s reporting done =
    (done ++ lines ++ summary_texts (filtered_summary s reporting) ++ (if ro_PolicyViolations reporting then violation_texts (al_entries l) else []), None)).
  { intros done. unfold finalizeRunOutput, renderAccessLogEntries, Entries.
    assert ((if al_emitJSON l then encode_all json werr (al_entries l) done else (done, None)) = (done ++ lines, None)) as ->.
    { destruct (al_emitJSON l); [by apply encode_all_ok|subst; by rewrite app_nil_r]. }
    unfold renderRunSummary, renderAccessSummary, renderPolicyViolations. rewrite write_all_ok by done.
    destruct (ro_PolicyViolations reporting); rewrite ?write_all_ok by done; by rewrite ?app_nil_r, <- ?app_assoc. }
  unfold writeBufferedRunResult. rewrite !write_all_ok by done.
  destruct interactive, (bool_decide (rr_Stdout r = "")), (bool_decide (rr_Stderr r = ""));
    cbn [orb app fmap option_fmap option_map]; by rewrite F.
Qed.

(** The host and the path of an entry are printed as they are: a path with a line
    break prints a second line, the very line of another entry. *)
Definition quiet_event (host path : string) : accessEvent := {|
  ev_Time := 0; ev_SandboxID := "s"; ev_TrafficMode := "proxy"; ev_Kind := "http"; ev_Protocol := "http"; ev_ProtocolSource := "";
  ev_ProtocolConfidence := ""; ev_Host := host; ev_Port := 80; ev_Method := "GET"; ev_Path := path; ev_Allowed := false; ev_StatusCode := 403;
  ev_Result := "denied"; ev_Error := ""; ev_PolicyMode := "enforce"; ev_PolicyAllowed := false; ev_PolicyViolations := ["no rule"] |}.
Definition forged_path : string := "/a violations=no rule" +:+ LF1 +:+ "  http GET b.example:80 /b".
Lemma report_line_forged :
  Join (violation_texts [quiet_event "a.example" forged_path]) "" =
  Join (violation_texts [quiet_event "a.example" "/a"; quiet_event "b.example" "/b"]) "".
Proof. by vm_compute. Qed.
