(* ===== verification/DockerBuild.v ===== *)
(** The docker build shim: src/internal/dockerbuild.

    The Dockerfile parser of BuildKit and the PKCS#12 encoder are parameters, as
    are the standard library's URL, PEM and certificate parsers (class
    [BuildTools]). Files are changed in the monad [FM] of [HostFS]; the commands
    the executor starts are a trace of [buildEvent]s. *)
From S2P Require Import Prelude GoStrings GoPath HostFS.

Definition bboxTrustBundleEnvKey : string := "BBOX_TRUST_BUNDLE_PATH".
Definition bboxProxyArgsOnlyEnvKey : string := "BBOX_DOCKER_BUILD_PROXY_ARGS_ONLY".
Definition bboxTrustContextName : string := "bbox_mitm_trust".
Definition bboxTrustBundleFileName : string := "bbox-trust-bundle.pem".
Definition bboxJavaTruststoreFileName : string := "bbox-truststore.p12".
Definition bboxJavaTruststoreType : string := "PKCS12".
Definition bboxMavenSettingsFileName : string := "bbox-maven-settings.xml".
Definition injectedTrustBundleDestinations : list string :=
  ["/etc/ssl/certs/ca-certificates.crt"; "/etc/ssl/cert.pem"; "/etc/pki/tls/certs/ca-bundle.crt"].
Definition injectedTrustBundlePrimaryPath : string := "/etc/ssl/certs/ca-certificates.crt".
Definition injectedJavaTruststorePath : string := "/etc/ssl/certs/bbox-truststore.p12".
Definition injectedMavenSettingsPath : string := "/etc/maven/bbox-settings.xml".
Definition DefaultBuildOutputPath : string := "/var/lib/buildkitd-out/bbox-docker-build.oci.tar".
Definition buildkitSocketPath : string := "/tmp/bbox-buildkitd.sock".
Definition buildkitRootPath : string := "/var/lib/buildkitd".
Definition buildkitLogPath : string := "/tmp/bbox-buildkitd.log".

Class BuildTools := {
  (** the instructions of a Dockerfile with the line each starts at; [None]: no tree *)
  dockerfile_Parse : string -> result (option (list (string * Z)));
  (** the scheme, host name and port of a URL *)
  url_Parse : string -> result (string * string * string);
  (** the type and bytes of the first block and what follows it *)
  pem_Decode : string -> option (string * string * string);
  pem_Decode_rest s kind bytes rest : pem_Decode s = Some (kind, bytes, rest) -> (String.length rest < String.length s)%nat;
  x509_ParseCertificate : string -> result string;
  pkcs12_DefaultPassword : string;
  EncodeTrustStore : list string -> string -> result string;
}.

Definition newline : string := str1 10.

(** ** The environment *)

Fixpoint last_with_prefix (env : list string) (prefix : string) : option string :=
  match env with
  | [] => None
  | entry :: env =>
      match last_with_prefix env prefix with
      | Some v => Some v
      | None => if HasPrefix entry prefix then Some (TrimPrefix entry prefix) else None
      end
  end.
(** The loop runs from the end of the list. *)
Definition lookupEnvValue (env : list string) (key : string) : option string := last_with_prefix env (key +:+ "=").
Definition proxy_arg_keys : list string := ["HTTP_PROXY"; "HTTPS_PROXY"; "NO_PROXY"; "http_proxy"; "https_proxy"; "no_proxy"].
Definition proxyBuildArgsFromEnv (env : list string) : list string :=
  omap (fun key => (fun value => key +:+ "=" +:+ value) <$> lookupEnvValue env key) proxy_arg_keys.

Definition splitEnvEntry (entry : string) : option (string * string) :=
  if bool_decide (entry = "") then None else
  match IndexByte entry "=" with
  | None => Some (entry, "")
  | Some split => Some (string_take split entry, string_drop (S split) entry)
  end.
(** Entries whose key passes; an empty entry is dropped. *)
Definition filter_keys (keep : string -> bool) (env : list string) : list string :=
  List.filter (fun entry => match splitEnvEntry entry with Some (key, _) => keep key | None => false end) env.
Definition filterBuilderProxyEnv (env : list string) : list string :=
  filter_keys (fun key => negb (bool_decide (key ∈ ["HTTP_PROXY"; "http_proxy"; "HTTPS_PROXY"; "https_proxy"; "NO_PROXY"; "no_proxy"]))) env.
Definition filterBuilderControlEnv (env : list string) : list string :=
  filter_keys (fun key => negb (bool_decide (key = bboxProxyArgsOnlyEnvKey))) env.
Definition withBuilderRuntimeEnv (env : list string) : list string :=
  let out := filterBuilderControlEnv env in
  let out := match lookupEnvValue env bboxProxyArgsOnlyEnvKey with
             | Some value => if bool_decide (TrimSpace value = "1") then filterBuilderProxyEnv out else out
             | None => out
             end in
  match lookupEnvValue out "GODEBUG" with
  | None => out ++ ["GODEBUG=netdns=cgo"]
  | Some godebug =>
      if bool_decide (TrimSpace godebug = "") then out ++ ["GODEBUG=netdns=cgo"]
      else if Contains godebug "netdns=" then out
      else out ++ ["GODEBUG=" +:+ godebug +:+ ",netdns=cgo"]
  end.

(** ** Proxy settings: proxyconfig.go *)

Record proxyConfig := {
  px_HTTPHost : string; px_HTTPPort : string; px_HTTPSHost : string; px_HTTPSPort : string; px_NonProxyHosts : list string }.
Definition http_set (cfg : proxyConfig) : bool := negb (bool_decide (px_HTTPHost cfg = "")) && negb (bool_decide (px_HTTPPort cfg = "")).
Definition https_set (cfg : proxyConfig) : bool := negb (bool_decide (px_HTTPSHost cfg = "")) && negb (bool_decide (px_HTTPSPort cfg = "")).
Definition Enabled (cfg : proxyConfig) : bool := http_set cfg || https_set cfg.

Definition preferredProxyEnvValue (env : list string) (uppercase lowercase : string) : option string :=
  let nonblank value := let value := TrimSpace value in if bool_decide (value = "") then None else Some value in
  match lookupEnvValue env uppercase with
  | Some value => nonblank value
  | None => match lookupEnvValue env lowercase with Some value => nonblank value | None => None end
  end.

Definition host_char (c : Ascii.ascii) : bool :=
  is_lower c || is_upper c || is_digit c || bool_decide (c ∈ ["."%char; "-"%char; "_"%char]).
Definition isValidJavaNonProxyHost (host : string) : bool :=
  if bool_decide (host = "") || HasPrefix host "." || HasSuffix host "." then false else
  if Contains host ".." then false else string_all host_char host.
Definition banned_chars : list Ascii.ascii :=
  ["["%char; "]"%char; "/"%char; "|"%char; " "%char; Ascii.ascii_of_nat 9; Ascii.ascii_of_nat 13; Ascii.ascii_of_nat 10].
Definition normalizeJavaNonProxyEntry (raw : string) : option string :=
  let entry := TrimSpace raw in
  if bool_decide (entry = "") then None else
  if bool_decide (entry = "*") then Some entry else
  if negb (string_all (fun c => negb (bool_decide (c ∈ banned_chars))) entry) then None else
  if HasPrefix entry "." then
    let suffix := TrimPrefix entry "." in
    if negb (isValidJavaNonProxyHost suffix) then None else Some ("*." +:+ suffix)
  else if HasPrefix entry "*." then
    let suffix := TrimPrefix entry "*." in
    if negb (isValidJavaNonProxyHost suffix) then None else Some ("*." +:+ suffix)
  else if Contains entry "*" || Contains entry ":" then None
  else if negb (isValidJavaNonProxyHost entry) then None else Some entry.

(** The loop: [seen] has what was kept. *)
Fixpoint normalized_hosts (seen : gset string) (nonProxy : list string) : list string :=
  match nonProxy with
  | [] => []
  | entry :: nonProxy =>
      match normalizeJavaNonProxyEntry entry with
      | None => normalized_hosts seen nonProxy
      | Some parsed =>
          if bool_decide (parsed ∈ seen) then normalized_hosts seen nonProxy
          else parsed :: normalized_hosts ({[parsed]} ∪ seen) nonProxy
      end
  end.
Definition javaNonProxyHosts (nonProxy : list string) : string := Join (normalized_hosts ∅ nonProxy) "|".
Definition splitNonProxyHosts (raw : string) : list string :=
  filter (fun host => host <> "") (map TrimSpace (SplitByte raw ",")).

Definition javaProxyOptions (cfg : proxyConfig) : list string :=
  (if http_set cfg then ["-Dhttp.proxyHost=" +:+ px_HTTPHost cfg; "-Dhttp.proxyPort=" +:+ px_HTTPPort cfg] else []) ++
  (if https_set cfg then ["-Dhttps.proxyHost=" +:+ px_HTTPSHost cfg; "-Dhttps.proxyPort=" +:+ px_HTTPSPort cfg] else []) ++
  let nonProxy := javaNonProxyHosts (px_NonProxyHosts cfg) in
  if negb (bool_decide (nonProxy = "")) then ["-Dhttp.nonProxyHosts=" +:+ nonProxy] else [].

(** [xml.EscapeText] on valid UTF-8: a control character that XML does not have becomes U+FFFD. *)
Definition xml_escape_char (c : Ascii.ascii) : string :=
  let n := byte_of c in
  if n =? 34 then "&#34;" else if n =? 39 then "&#39;" else if n =? 38 then "&amp;" else if n =? 60 then "&lt;"
  else if n =? 62 then "&gt;" else if n =? 9 then "&#x9;" else if n =? 10 then "&#xA;" else if n =? 13 then "&#xD;"
  else if n <? 32 then str1 239 +:+ str1 191 +:+ str1 189 else String c "".
Fixpoint xml_escape (s : string) : string := match s with "" => "" | String c s => xml_escape_char c +:+ xml_escape s end.
Definition xml_element (indent name text : string) : string :=
  newline +:+ indent +:+ "<" +:+ name +:+ ">" +:+ xml_escape text +:+ "</" +:+ name +:+ ">".
Definition maven_proxy (id protocol host port nonProxy : string) : string :=
  newline +:+ "    <proxy>" +:+
  xml_element "      " "id" id +:+ xml_element "      " "active" "true" +:+ xml_element "      " "protocol" protocol +:+
  xml_element "      " "host" host +:+ xml_element "      " "port" port +:+
  (if bool_decide (nonProxy = "") then "" else xml_element "      " "nonProxyHosts" nonProxy) +:+
  newline +:+ "    </proxy>".
Definition renderMavenSettings (cfg : proxyConfig) : result string :=
  if negb (Enabled cfg) then Err "proxy config is empty" else
  let nonProxy := javaNonProxyHosts (px_NonProxyHosts cfg) in
  Ok ("<settings>" +:+ newline +:+ "  <proxies>" +:+
      (if http_set cfg then maven_proxy "bbox-http-proxy" "http" (px_HTTPHost cfg) (px_HTTPPort cfg) nonProxy else "") +:+
      (if https_set cfg then maven_proxy "bbox-https-proxy" "https" (px_HTTPSHost cfg) (px_HTTPSPort cfg) nonProxy else "") +:+
      newline +:+ "  </proxies>" +:+ newline +:+ "</settings>").

Definition normalizeProxyPort `{GoLib} (raw : string) : result string :=
  match Atoi (TrimSpace raw) with
  | None => Err ("proxy port " +:+ Quote raw +:+ " is not numeric")
  | Some port => if (port <=? 0) || (65535 <? port) then Err ("proxy port " +:+ Itoa port +:+ " is out of range") else Ok (Itoa port)
  end.
Definition defaultPortForProxyScheme `{GoLib} (scheme : string) : string :=
  if bool_decide (ToLower (TrimSpace scheme) = "https") then "443" else "80".
Definition parseProxyURL `{GoLib} `{BuildTools} (raw defaultScheme : string) : result (string * string) :=
  let parsedValue := TrimSpace raw in
  if bool_decide (parsedValue = "") then Err "proxy value is empty" else
  let parsedValue := if negb (Contains parsedValue "://") then defaultScheme +:+ "://" +:+ parsedValue else parsedValue in
  u <-! result_wrap (fun e => "invalid proxy URL: " +:+ e) (url_Parse parsedValue);
  let '(u_scheme, u_host, u_port) := u in
  let scheme := ToLower (TrimSpace u_scheme) in
  let scheme := if bool_decide (scheme = "") then defaultScheme else scheme in
  if negb (bool_decide (scheme = "http")) && negb (bool_decide (scheme = "https"))
  then Err ("unsupported proxy scheme " +:+ Quote scheme) else
  let host := TrimSpace u_host in
  if bool_decide (host = "") then Err "proxy host is empty" else
  let port := TrimSpace u_port in
  let port := if bool_decide (port = "") then defaultPortForProxyScheme scheme else port in
  normalizedPort <-! normalizeProxyPort port;
  Ok (host, normalizedPort).
Definition proxyConfigFromEnv `{GoLib} `{BuildTools} (env : list string) : result proxyConfig :=
  http <-! (match preferredProxyEnvValue env "HTTP_PROXY" "http_proxy" with
            | Some raw => result_wrap (fun e => "parse HTTP proxy: " +:+ e) (parseProxyURL raw "http")
            | None => Ok ("", "")
            end);
  https <-! (match preferredProxyEnvValue env "HTTPS_PROXY" "https_proxy" with
             | Some raw => result_wrap (fun e => "parse HTTPS proxy: " +:+ e) (parseProxyURL raw "https")
             | None => Ok ("", "")
             end);
  Ok {| px_HTTPHost := http.1; px_HTTPPort := http.2; px_HTTPSHost := https.1; px_HTTPSPort := https.2;
        px_NonProxyHosts := match preferredProxyEnvValue env "NO_PROXY" "no_proxy" with Some raw => splitNonProxyHosts raw | None => [] end |}.
Definition javaProxyOptionsFromEnv `{GoLib} `{BuildTools} (env : list string) : result (list string) :=
  cfg <-! proxyConfigFromEnv env; Ok (javaProxyOptions cfg).

(** ** Rewriting a Dockerfile: rewrite.go *)

Record generatedTruststore := { ts_Path : string; ts_Password : string; ts_Type : string }.
Definition no_truststore : generatedTruststore := {| ts_Path := ""; ts_Password := ""; ts_Type := "" |}.
Record trustInjectionOptions := {
  ti_pemPath : string; ti_javaTruststorePath : string; ti_javaToolOptions : list string; ti_mavenSettingsPath : string }.

Definition blank (s : string) : bool := bool_decide (TrimSpace s = "").
Definition javaTruststoreOptions (t : generatedTruststore) : list string :=
  if blank (ts_Path t) || blank (ts_Type t) || blank (ts_Password t) then [] else
  ["-Djavax.net.ssl.trustStore=" +:+ injectedJavaTruststorePath; "-Djavax.net.ssl.trustStoreType=" +:+ ts_Type t;
   "-Djavax.net.ssl.trustStorePassword=" +:+ ts_Password t].

Definition copy_line (file dest : string) : string :=
  "COPY --from=" +:+ bboxTrustContextName +:+ " /" +:+ file +:+ " " +:+ dest +:+ newline.
Definition env_line (key value : string) : string := "ENV " +:+ key +:+ "=" +:+ value +:+ newline.
Definition string_concat (l : list string) : string := Join l "".
Definition trustBundlePerRunInjectionSnippet (injection : trustInjectionOptions) : string :=
  let pemPath := ti_pemPath injection in
  if blank pemPath then "" else
  string_concat (map (copy_line bboxTrustBundleFileName) injectedTrustBundleDestinations ++
    map (fun key => env_line key pemPath)
      ["SSL_CERT_FILE"; "NODE_EXTRA_CA_CERTS"; "NPM_CONFIG_CAFILE"; "CURL_CA_BUNDLE"; "REQUESTS_CA_BUNDLE"; "PIP_CERT"; "GIT_SSL_CAINFO"]).
Definition trustStageBootstrapSnippet (injection : trustInjectionOptions) : string :=
  (if blank (ti_javaTruststorePath injection) then "" else copy_line bboxJavaTruststoreFileName (ti_javaTruststorePath injection)) +:+
  (match ti_javaToolOptions injection with
   | [] => ""
   | opts => "ENV JAVA_TOOL_OPTIONS " +:+ Join opts " " +:+ " ${JAVA_TOOL_OPTIONS}" +:+ newline
   end) +:+
  (if blank (ti_mavenSettingsPath injection) then "" else
   copy_line bboxMavenSettingsFileName (ti_mavenSettingsPath injection) +:+
   "ENV MAVEN_ARGS --settings " +:+ ti_mavenSettingsPath injection +:+ " ${MAVEN_ARGS}" +:+ newline).

(** [strings.SplitAfter] at one byte. *)
Fixpoint SplitAfterByte (s : string) (c : Ascii.ascii) : list string :=
  match s with
  | "" => [""]
  | String d s =>
      if bool_decide (d = c) then String d "" :: SplitAfterByte s c
      else match SplitAfterByte s c with w :: ws => String d w :: ws | [] => [String d ""] end
  end.

(** The lines to inject before: those of every RUN and those of the first RUN of each stage. *)
Fixpoint inject_lines `{GoLib} (perRun bootstrap : bool) (children : list (string * Z)) (sawRun : bool) (lines stageLines : gset Z)
    : gset Z * gset Z :=
  match children with
  | [] => (lines, stageLines)
  | (value, startLine) :: children =>
      let instruction := ToLower (TrimSpace value) in
      let sawRun := if bool_decide (instruction = "from") then false else sawRun in
      if bool_decide (instruction = "run") && (0 <? startLine) then
        inject_lines perRun bootstrap children true
          (if perRun then {[startLine]} ∪ lines else lines)
          (if bootstrap && negb sawRun then {[startLine]} ∪ stageLines else stageLines)
      else inject_lines perRun bootstrap children sawRun lines stageLines
  end.
Fixpoint write_lines (perRunSnippet bootstrapSnippet : string) (lines stageLines : gset Z) (lineNo : Z) (text : list string) : string :=
  match text with
  | [] => ""
  | line :: text =>
      (if bool_decide (lineNo ∈ stageLines) then bootstrapSnippet else "") +:+
      (if bool_decide (lineNo ∈ lines) then perRunSnippet else "") +:+
      line +:+ write_lines perRunSnippet bootstrapSnippet lines stageLines (lineNo + 1) text
  end.
Definition rewriteDockerfileWithTrustBundle `{GoLib} `{BuildTools} (content : string) (opts : trustInjectionOptions) : result string :=
  parsed <-! dockerfile_Parse content;
  match parsed with
  | None => Ok content
  | Some children =>
      let perRunSnippet := trustBundlePerRunInjectionSnippet opts in
      let stageBootstrapSnippet := trustStageBootstrapSnippet opts in
      if bool_decide (perRunSnippet = "") && bool_decide (stageBootstrapSnippet = "") then Ok content else
      let '(lines, stageLines) := inject_lines (negb (bool_decide (perRunSnippet = ""))) (negb (bool_decide (stageBootstrapSnippet = "")))
                                    children false ∅ ∅ in
      if bool_decide (lines = ∅) && bool_decide (stageLines = ∅) then Ok content else
      Ok (write_lines perRunSnippet stageBootstrapSnippet lines stageLines 1 (SplitAfterByte content (char_of 10)))
  end.

(** ** The build's inputs: truststore.go and inputs.go *)

Record buildInputs := {
  bi_ContextDir : string; bi_DockerfileDir : string; bi_DockerfileName : string; bi_ExtraLocals : list string;
  bi_FrontendOpts : list string; bi_CleanupPaths : list string; bi_TrustBundle : string; bi_Truststore : generatedTruststore;
  bi_JavaToolOpts : list string; bi_MavenSettings : string }.

Section inputs.
Context `{GoLib} `{HostFS} `{BuildTools} (stat_missing : fsState -> string -> bool).

(** The loop over the blocks: one step per block, so the length of the bundle bounds it
    ([parse_certificates_fuel]). *)
Fixpoint parse_certificates (fuel : nat) (remaining : string) (certs : list string) : result (list string) :=
  match fuel with
  | O => Ok certs
  | S fuel =>
      if bool_decide (remaining = "") then Ok certs else
      match pem_Decode remaining with
      | None => if blank remaining then Ok certs else Err "parse PEM trust bundle: invalid PEM data"
      | Some (kind, bytes, rest) =>
          if negb (bool_decide (kind = "CERTIFICATE")) then parse_certificates fuel rest certs else
          cert <-! result_wrap (fun e => "parse PEM certificate: " +:+ e) (x509_ParseCertificate bytes);
          parse_certificates fuel rest (certs ++ [cert])
      end
  end.
Definition parseTrustBundleCertificates (pemBundle : string) : result (list string) :=
  certs <-! parse_certificates (S (String.length pemBundle)) pemBundle [];
  if bool_decide (certs = []) then Err "parse PEM trust bundle: no certificates found" else Ok certs.

Definition input_mode : Z := 420.
Definition writePKCS12Truststore (stageDir pemBundle : string) : FM generatedTruststore :=
  certs <-@ fm_lift (parseTrustBundleCertificates pemBundle);
  encoded <-@ fm_lift (result_wrap (fun e => "encode PKCS#12 truststore: " +:+ e) (EncodeTrustStore certs pkcs12_DefaultPassword));
  let path := filepath_Join [stageDir; bboxJavaTruststoreFileName] in
  fm_wrap (fun e => "write PKCS#12 truststore " +:+ path +:+ ": " +:+ e) (fm_do (OpWriteFile path encoded input_mode)) ;;@
  fm_ret {| ts_Path := path; ts_Password := pkcs12_DefaultPassword; ts_Type := bboxJavaTruststoreType |}.

Definition resolveTrustBundlePath (h : fsState) (env : list string) : option string :=
  match lookupEnvValue env bboxTrustBundleEnvKey with
  | Some value =>
      let value := TrimSpace value in
      if bool_decide (value = "") then None else if is_ok (os_Stat h value) then Some value else None
  | None => if is_ok (os_Stat h "/etc/ssl/certs/ca-certificates.crt") then Some "/etc/ssl/certs/ca-certificates.crt" else None
  end.

Definition trustInjectionOptionsFromStagedAssets (h : fsState) (inputs : buildInputs) : trustInjectionOptions :=
  let t := bi_Truststore inputs in {|
  ti_pemPath := if negb (blank (bi_TrustBundle inputs)) && is_ok (os_Stat h (bi_TrustBundle inputs)) then injectedTrustBundlePrimaryPath else "";
  ti_javaTruststorePath := if negb (blank (ts_Path t)) && negb (blank (ts_Type t)) && negb (blank (ts_Password t)) && is_ok (os_Stat h (ts_Path t))
                           then injectedJavaTruststorePath else "";
  ti_javaToolOptions := bi_JavaToolOpts inputs;
  ti_mavenSettingsPath := if negb (blank (bi_MavenSettings inputs)) && is_ok (os_Stat h (bi_MavenSettings inputs))
                          then injectedMavenSettingsPath else "" |}.

(** [if err != nil { _ = os.RemoveAll(stageDir); return ..., err }] *)
Definition or_remove {A} (stageDir : string) (c : FM A) : FM A := fun h =>
  match c h with
  | (Ok a, h') => (Ok a, h')
  | (Err e, h') => (Err e, (fm_do (OpRemoveAll stageDir) h').2)
  end.

(** The files of the staging directory and the inputs that name them. *)
Definition stage_inputs (stageDir contextAbs dockerfileAbs original : string) (proxyCfg : proxyConfig) (trustBundlePath : option string)
    : FM buildInputs :=
  let rewrittenPath := filepath_Join [stageDir; filepath_Base dockerfileAbs] in
  trust <-@ match trustBundlePath with
            | None => fm_ret ("", no_truststore)
            | Some bundlePath =>
                trustBundle <-@ fm_wrap (fun e => "read trust bundle " +:+ bundlePath +:+ ": " +:+ e) (fm_ask (fun h => os_ReadFile h bundlePath));
                fm_wrap (fun e => "write staged trust bundle: " +:+ e)
                  (fm_do (OpWriteFile (filepath_Join [stageDir; bboxTrustBundleFileName]) trustBundle input_mode)) ;;@
                truststore <-@ (if bool_decide (trustBundle = "") then fm_ret no_truststore else
                                fm_wrap (fun e => "write staged JVM truststore: " +:+ e) (writePKCS12Truststore stageDir trustBundle));
                fm_ret (filepath_Join [stageDir; bboxTrustBundleFileName], truststore)
            end;
  mavenSettings <-@ (if negb (Enabled proxyCfg) then fm_ret "" else
                     settingsXML <-@ fm_lift (result_wrap (fun e => "render Maven settings: " +:+ e) (renderMavenSettings proxyCfg));
                     let settingsPath := filepath_Join [stageDir; bboxMavenSettingsFileName] in
                     fm_wrap (fun e => "write staged Maven settings: " +:+ e) (fm_do (OpWriteFile settingsPath settingsXML input_mode)) ;;@
                     fm_ret settingsPath);
  let staged := {|
    bi_ContextDir := contextAbs; bi_DockerfileDir := stageDir; bi_DockerfileName := filepath_Base rewrittenPath;
    bi_ExtraLocals := [bboxTrustContextName +:+ "=" +:+ stageDir];
    bi_FrontendOpts := ["context:" +:+ bboxTrustContextName +:+ "=local:" +:+ bboxTrustContextName];
    bi_CleanupPaths := [stageDir]; bi_TrustBundle := trust.1; bi_Truststore := trust.2;
    bi_JavaToolOpts := javaTruststoreOptions trust.2 ++ javaProxyOptions proxyCfg; bi_MavenSettings := mavenSettings |} in
  rewritten <-@ fm_wrap (fun e => "rewrite dockerfile " +:+ dockerfileAbs +:+ " for trust injection: " +:+ e)
                  (fm_ask (fun h => rewriteDockerfileWithTrustBundle original (trustInjectionOptionsFromStagedAssets h staged)));
  fm_wrap (fun e => "write rewritten dockerfile " +:+ rewrittenPath +:+ ": " +:+ e) (fm_do (OpWriteFile rewrittenPath rewritten input_mode)) ;;@
  fm_ret staged.

Definition prepareBuildInputs (contextAbs dockerfileAbs : string) (env : list string) : FM buildInputs := fun h =>
  let inputs := {|
    bi_ContextDir := contextAbs; bi_DockerfileDir := filepath_Dir dockerfileAbs; bi_DockerfileName := filepath_Base dockerfileAbs;
    bi_ExtraLocals := []; bi_FrontendOpts := []; bi_CleanupPaths := []; bi_TrustBundle := ""; bi_Truststore := no_truststore;
    bi_JavaToolOpts := []; bi_MavenSettings := "" |} in
  match os_Stat h dockerfileAbs with
  | Err e => if stat_missing h dockerfileAbs then (Ok inputs, h) else (Err ("stat dockerfile " +:+ dockerfileAbs +:+ ": " +:+ e), h)
  | Ok _ =>
      (original <-@ fm_wrap (fun e => "read dockerfile " +:+ dockerfileAbs +:+ ": " +:+ e) (fm_ask (fun h => os_ReadFile h dockerfileAbs));
       proxyCfg <-@ fm_lift (result_wrap (fun e => "parse proxy config from env: " +:+ e) (proxyConfigFromEnv env));
       trustBundlePath <-@ fm_ask (fun h => Ok (resolveTrustBundlePath h env));
       let previewInjection := {|
         ti_pemPath := if bool_decide (is_Some trustBundlePath) then injectedTrustBundlePrimaryPath else "";
         ti_javaTruststorePath := ""; ti_javaToolOptions := javaProxyOptions proxyCfg;
         ti_mavenSettingsPath := if Enabled proxyCfg then injectedMavenSettingsPath else "" |} in
       previewRewritten <-@ fm_lift (result_wrap (fun e => "rewrite dockerfile " +:+ dockerfileAbs +:+ " for trust injection: " +:+ e)
                                      (rewriteDockerfileWithTrustBundle original previewInjection));
       if bool_decide (previewRewritten = original) then fm_ret inputs else
       stageDir <-@ fm_lift (result_wrap (fun e => "create build input staging dir: " +:+ e) os_MkdirTemp);
       or_remove stageDir (stage_inputs stageDir contextAbs dockerfileAbs original proxyCfg trustBundlePath)) h
  end.

Definition cleanupPaths (paths : list string) : FM unit := fun h =>
  (Ok tt, foldl (fun h path => if blank path then h else (fm_do (OpRemoveAll path) h).2) h paths).

(** ** The plan: plan.go *)

Record Plan := { pl_BuildctlArgs : list string; pl_OutputPath : string; pl_CleanupPaths : list string }.
Record buildFlags := { bf_context : string; bf_dockerfile : string; bf_target : string; bf_tags : list string; bf_buildArgs : list string }.
Definition default_flags : buildFlags := {| bf_context := "."; bf_dockerfile := "Dockerfile"; bf_target := ""; bf_tags := []; bf_buildArgs := [] |}.

(** The loop over the arguments after the subcommand. *)
Fixpoint plan_flags (args : list string) (f : buildFlags) : result buildFlags :=
  match args with
  | [] => Ok f
  | arg :: args =>
      if bool_decide (arg ∈ ["-f"; "--file"]) then
        match args with
        | [] => Err (arg +:+ " requires a value")
        | v :: args => plan_flags args {| bf_context := bf_context f; bf_dockerfile := v; bf_target := bf_target f; bf_tags := bf_tags f; bf_buildArgs := bf_buildArgs f |}
        end
      else if bool_decide (arg ∈ ["-t"; "--tag"]) then
        match args with
        | [] => Err (arg +:+ " requires a value")
        | v :: args => plan_flags args {| bf_context := bf_context f; bf_dockerfile := bf_dockerfile f; bf_target := bf_target f; bf_tags := bf_tags f ++ [v]; bf_buildArgs := bf_buildArgs f |}
        end
      else if bool_decide (arg = "--build-arg") then
        match args with
        | [] => Err "--build-arg requires a value"
        | v :: args => plan_flags args {| bf_context := bf_context f; bf_dockerfile := bf_dockerfile f; bf_target := bf_target f; bf_tags := bf_tags f; bf_buildArgs := bf_buildArgs f ++ [v] |}
        end
      else if bool_decide (arg = "--target") then
        match args with
        | [] => Err "--target requires a value"
        | v :: args => plan_flags args {| bf_context := bf_context f; bf_dockerfile := bf_dockerfile f; bf_target := v; bf_tags := bf_tags f; bf_buildArgs := bf_buildArgs f |}
        end
      else if HasPrefix arg "--build-arg=" then
        plan_flags args {| bf_context := bf_context f; bf_dockerfile := bf_dockerfile f; bf_target := bf_target f; bf_tags := bf_tags f;
                           bf_buildArgs := bf_buildArgs f ++ [TrimPrefix arg "--build-arg="] |}
      else if HasPrefix arg "--target=" then
        let v := TrimPrefix arg "--target=" in
        if blank v then Err "--target requires a value" else
        plan_flags args {| bf_context := bf_context f; bf_dockerfile := bf_dockerfile f; bf_target := v; bf_tags := bf_tags f; bf_buildArgs := bf_buildArgs f |}
      else if HasPrefix arg "-" then Err ("unsupported docker build flag " +:+ Quote arg)
      else plan_flags args {| bf_context := arg; bf_dockerfile := bf_dockerfile f; bf_target := bf_target f; bf_tags := bf_tags f; bf_buildArgs := bf_buildArgs f |}
  end.

Definition absFromCWD (cwd path : string) : result string :=
  if filepath_IsAbs path then Ok (path_Clean path) else filepath_Abs (filepath_Join [cwd; path]).

Definition with_flag (flag : string) (values : list string) : list string := flat_map (fun v => [flag; v]) values.
Definition PlanForArgs (args env : list string) (cwd : string) : FM Plan :=
  match args with
  | [] => fm_fail "docker subcommand is required"
  | sub :: args =>
      if negb (bool_decide (sub = "build")) then fm_fail ("unsupported docker subcommand " +:+ Quote sub) else
      f <-@ fm_lift (plan_flags args default_flags);
      contextAbs <-@ fm_lift (result_wrap (fun e => "resolve build context: " +:+ e) (absFromCWD cwd (bf_context f)));
      let dockerfilePath := if bool_decide (bf_dockerfile f = "Dockerfile") then filepath_Join [contextAbs; bf_dockerfile f] else bf_dockerfile f in
      dockerfileAbs <-@ fm_lift (result_wrap (fun e => "resolve dockerfile path: " +:+ e) (absFromCWD cwd dockerfilePath));
      let outputName := match bf_tags f with tag :: _ => tag | [] => "bbox-build" end in
      inputs <-@ prepareBuildInputs contextAbs dockerfileAbs env;
      fm_ret {|
        pl_BuildctlArgs :=
          ["build"; "--progress=plain"; "--frontend"; "dockerfile.v0"; "--local"; "context=" +:+ bi_ContextDir inputs;
           "--local"; "dockerfile=" +:+ bi_DockerfileDir inputs; "--opt"; "filename=" +:+ bi_DockerfileName inputs] ++
          with_flag "--local" (bi_ExtraLocals inputs) ++ with_flag "--opt" (bi_FrontendOpts inputs) ++
          with_flag "--opt" (map (fun a => "build-arg:" +:+ a) (bf_buildArgs f ++ proxyBuildArgsFromEnv env)) ++
          (if bool_decide (bf_target f = "") then [] else ["--opt"; "target=" +:+ bf_target f]) ++
          ["--output"; "type=oci,dest=" +:+ DefaultBuildOutputPath +:+ ",name=" +:+ outputName];
        pl_OutputPath := DefaultBuildOutputPath;
        pl_CleanupPaths := bi_CleanupPaths inputs |}
  end.

(** ** Running it: exec.go and shim.go *)

Inductive buildEvent :=
| BRemove (path : string)
| BMkdirAll (path : string) (mode : Z)
| BOpenLog (path : string)
| BStart (argv env : list string)
| BCloseLog
| BRun (argv env : list string)
| BPrint (text : string).
(** The outcomes of the calls; [ex_polls] are the dials made before the deadline. *)
Record execEnv := {
  ex_ready : bool; ex_mkdir : option string; ex_openLog : option string; ex_start : option string; ex_polls : list bool;
  ex_run : option string }.

Definition ensureBuildkitd (x : execEnv) (env : list string) : result unit * list buildEvent :=
  if ex_ready x then (Ok tt, []) else
  let made := [BRemove buildkitSocketPath; BMkdirAll buildkitRootPath 493] in
  match ex_mkdir x with
  | Some e => (Err ("create buildkit root: " +:+ e), made)
  | None =>
      match ex_openLog x with
      | Some e => (Err ("open buildkit log: " +:+ e), made ++ [BOpenLog buildkitLogPath])
      | None =>
          let started := made ++ [BOpenLog buildkitLogPath;
            BStart ["buildkitd"; "--rootless"; "--addr"; "unix://" +:+ buildkitSocketPath; "--root"; buildkitRootPath;
                    "--oci-worker-snapshotter=native"; "--oci-worker-no-process-sandbox"] env; BCloseLog] in
          match ex_start x with
          | Some e => (Err ("start buildkitd: " +:+ e), started)
          | None => (if existsb id (ex_polls x) then Ok tt else Err ("buildkitd did not become ready; see " +:+ buildkitLogPath), started)
          end
      end
  end.
Definition executor_Run (x : execEnv) (plan : Plan) (env : list string) : result unit * list buildEvent :=
  let builderEnv := withBuilderRuntimeEnv env in
  let '(ready, events) := ensureBuildkitd x builderEnv in
  let events := BRemove (pl_OutputPath plan) :: events in
  match ready with
  | Err e => (Err e, events)
  | Ok _ =>
      let events := events ++ [BRun (["buildctl"; "--addr"; "unix://" +:+ buildkitSocketPath] ++ pl_BuildctlArgs plan) builderEnv] in
      match ex_run x with
      | Some e => (Err e, events ++ [BRemove (pl_OutputPath plan)])
      | None => (Ok tt, events ++ [BPrint ("bbox docker build output: " +:+ pl_OutputPath plan +:+ newline)])
      end
  end.
Definition RunCLI (x : execEnv) (args env : list string) (h : fsState) : result unit * fsState * list buildEvent :=
  match os_Getwd with
  | Err e => (Err ("resolve current working directory: " +:+ e), h, [])
  | Ok cwd =>
      match PlanForArgs args env cwd h with
      | (Err e, h') => (Err e, h', [])
      | (Ok plan, h') =>
          let '(r, events) := executor_Run x plan env in
          (r, (cleanupPaths (pl_CleanupPaths plan) h').2, events)
      end
  end.
End inputs.
