(* ===== verification/DockerBuildTheorems.v ===== *)
(** Theorems about the docker build shim ([DockerBuild]): what rewriting does to a
    Dockerfile, that the proxy settings cannot be used to smuggle options in, that
    staged files are confined and removed, and what the builder's environment is. *)
From S2P Require Import Prelude GoStrings StringLemmas GoPath PathLemmas HostFS Access AccessProofs Staging StagingTheorems DockerBuild Sample.

(** ** Text *)

Lemma string_concat_cons w l : string_concat (w :: l) = w +:+ string_concat l.
Proof. unfold string_concat. destruct l; simpl; [by rewrite string_app_nil_r|done]. Qed.
Lemma SplitAfterByte_concat s c : string_concat (SplitAfterByte s c) = s.
Proof.
  induction s as [|d s IH]; [done|]. simpl. case_bool_decide.
  - rewrite string_concat_cons, IH. done.
  - destruct (SplitAfterByte s c) as [|w ws]; [by rewrite <- IH|]. rewrite string_concat_cons in *. by rewrite string_app_cons, IH.
Qed.

(** ** Rewriting *)

Section rewriting.
Context `{GoLib} `{BuildTools}.

Definition instruction_is (name : string) (child : string * Z) : Prop := ToLower (TrimSpace child.1) = name.
(** The [i]th instruction is a RUN at line [n]. *)
Definition run_at (children : list (string * Z)) (i : nat) (n : Z) : Prop :=
  exists v, children !! i = Some (v, n) /\ instruction_is "run" (v, n) /\ 0 < n.
(** No RUN lies between the [i]th instruction and the FROM before it. *)
Definition opens_stage (children : list (string * Z)) (i : nat) : Prop :=
  forall j n, (j < i)%nat -> run_at children j n -> exists k c, (j < k < i)%nat /\ children !! k = Some c /\ instruction_is "from" c.

Lemma run_at_cons c children i n : run_at (c :: children) (S i) n <-> run_at children i n.
Proof. done. Qed.
Lemma run_at_zero v m children n : run_at ((v, m) :: children) 0 n <-> m = n /\ instruction_is "run" (v, m) /\ 0 < m.
Proof.
  split; [|intros (-> & R & P); by exists v]. intros (w & [= -> ->] & R & P). done.
Qed.

(** As [opens_stage], after [sawRun]. *)
Definition opens_after (sawRun : bool) (children : list (string * Z)) (i : nat) : Prop :=
  opens_stage children i /\ (sawRun = true -> exists k c, (k < i)%nat /\ children !! k = Some c /\ instruction_is "from" c).

Lemma opens_after_cons saw v m children i :
  opens_after saw ((v, m) :: children) (S i) <->
  opens_after (if bool_decide (ToLower (TrimSpace v) = "run") && (0 <? m) then true
               else if bool_decide (ToLower (TrimSpace v) = "from") then false else saw) children i.
Proof.
  assert (X : instruction_is "run" (v, m) -> ~ instruction_is "from" (v, m)) by (unfold instruction_is; intros ->; done).
  unfold opens_after. split.
  - intros [Op W]. split.
    + intros j n L R. destruct (Op (S j) n ltac:(lia) R) as (k & c & K & C & F). destruct k as [|k]; [lia|]. exists k, c. split; [lia|]. done.
    + intros B. destruct (bool_decide (ToLower (TrimSpace v) = "run") && (0 <? m)) eqn:R.
      * apply andb_true_iff in R as [R%bool_decide_eq_true P]. apply Z.ltb_lt in P.
        destruct (Op O m ltac:(lia)) as (k & c & K & C & F); [by apply run_at_zero|]. destruct k as [|k]; [lia|]. exists k, c. split; [lia|]. done.
      * case_bool_decide as FR; [done|]. destruct (W B) as (k & c & K & C & F). destruct k as [|k]; [by injection C as <-|].
        exists k, c. split; [lia|]. done.
  - intros [Op W]. split.
    + intros [|j] n L R.
      * apply run_at_zero in R as (<- & R & P). rewrite bool_decide_eq_true_2, (proj2 (Z.ltb_lt _ _) P) in W by done.
        destruct (W eq_refl) as (k & c & K & C & F). exists (S k), c. split; [lia|]. done.
      * destruct (Op j n ltac:(lia) R) as (k & c & K & C & F). exists (S k), c. split; [lia|]. done.
    + intros ->. destruct (decide (ToLower (TrimSpace v) = "from")) as [FR|FR]; [exists O, (v, m); split; [lia|done]|].
      rewrite (bool_decide_eq_false_2 (ToLower (TrimSpace v) = "from")) in W by done.
      destruct W as (k & c & K & C & F); [by destruct (_ && _)|]. exists (S k), c. split; [lia|]. done.
Qed.

Lemma inject_lines_spec perRun bootstrap children saw lines stageLines n :
  let r := inject_lines perRun bootstrap children saw lines stageLines in
  (n ∈ r.1 <-> n ∈ lines \/ (perRun = true /\ exists i, run_at children i n)) /\
  (n ∈ r.2 <-> n ∈ stageLines \/ (bootstrap = true /\ exists i, run_at children i n /\ opens_after saw children i)).
Proof.
  revert saw lines stageLines. induction children as [|[v m] children IH]; intros saw lines stageLines; simpl.
  - assert (N : forall i, ~ run_at [] i n) by (intros i (w & L & _); done).
    split; (split; [by left|]); [intros [I|(_ & i & R)]|intros [I|(_ & i & R & _)]]; try done; by apply N in R.
  - set (saw' := if bool_decide (ToLower (TrimSpace v) = "from") then false else saw).
    destruct (bool_decide (ToLower (TrimSpace v) = "run") && (0 <? m)) eqn:R.
    + pose proof (IH true (if perRun then {[m]} ∪ lines else lines) (if bootstrap && negb saw' then {[m]} ∪ stageLines else stageLines)) as [I1 I2].
      rewrite I1, I2. clear IH I1 I2. pose proof R as R'. apply andb_true_iff in R' as [RR%bool_decide_eq_true P%Z.ltb_lt].
      assert (F : bool_decide (ToLower (TrimSpace v) = "from") = false) by (rewrite RR; done).
      split.
      * split.
        -- intros [I|(-> & i & X)]; [|right; split; [done|]; by exists (S i)]. destruct perRun; [|by left].
           apply elem_of_union in I as [->%elem_of_singleton|I]; [|by left]. right. split; [done|]. exists O. by apply run_at_zero.
        -- intros [I|(-> & [|i] & X)]; [left; destruct perRun; [by apply elem_of_union_r|done]| |right; split; [done|]; by exists i].
           apply run_at_zero in X as (<- & _). left. apply elem_of_union_l. by apply elem_of_singleton.
      * split.
        -- intros [I|(-> & i & X & Op)].
           ++ destruct bootstrap; [|by left]. simpl in I. unfold saw' in I. rewrite F in I. destruct saw; [by left|].
              apply elem_of_union in I as [->%elem_of_singleton|I]; [|by left]. right. split; [done|]. exists O.
              split; [by apply run_at_zero|]. split; [intros j ? L; lia|done].
           ++ right. split; [done|]. exists (S i). split; [done|]. apply opens_after_cons. by rewrite R.
        -- intros [I|(-> & [|i] & X & Op)].
           ++ left. destruct (bootstrap && negb saw'); [by apply elem_of_union_r|done].
           ++ apply run_at_zero in X as (<- & _). left. unfold saw'. rewrite F. destruct saw; [|simpl; apply elem_of_union_l; by apply elem_of_singleton].
              destruct Op as [_ Op]. destruct (Op eq_refl) as (k & ? & K & _). lia.
           ++ right. split; [done|]. exists i. split; [done|]. apply opens_after_cons in Op. by rewrite R in Op.
    + pose proof (IH saw' lines stageLines) as [I1 I2]. rewrite I1, I2. clear IH I1 I2.
      assert (N : forall k, ~ run_at ((v, m) :: children) 0 k).
      { intros k (<- & X & Y)%run_at_zero. apply andb_false_iff in R as [R|R]; [by apply bool_decide_eq_false in R|apply Z.ltb_ge in R; lia]. }
      split; (split; [intros [I|(-> & i & X)]; [by left|right; split; [done|]]|intros [I|(-> & [|i] & X)]; [by left| |right; split; [done|]]]).
      * by exists (S i).
      * by apply N in X.
      * by exists i.
      * exists (S i). destruct X as [X Op]. split; [done|]. apply opens_after_cons. by rewrite R.
      * destruct X as [X _]. by apply N in X.
      * exists i. destruct X as [X Op]. split; [done|]. apply opens_after_cons in Op. by rewrite R in Op.
Qed.
Definition snippet_at (perRun bootstrap : string) (lines stageLines : gset Z) (n : Z) : string :=
  (if bool_decide (n ∈ stageLines) then bootstrap else "") +:+ (if bool_decide (n ∈ lines) then perRun else "").
Fixpoint snippets (perRun bootstrap : string) (lines stageLines : gset Z) (n : Z) (text : list string) : list string :=
  match text with
  | [] => []
  | _ :: text => snippet_at perRun bootstrap lines stageLines n :: snippets perRun bootstrap lines stageLines (n + 1) text
  end.
Lemma snippets_length per boot lines stage n text : length (snippets per boot lines stage n text) = length text.
Proof. revert n. induction text as [|w text IH]; intros n; simpl; [done|]. by rewrite IH. Qed.
Lemma snippets_lookup per boot lines stage n text i s :
  snippets per boot lines stage n text !! i = Some s -> s = snippet_at per boot lines stage (n + Z.of_nat i).
Proof.
  revert n i. induction text as [|w text IH]; intros n [|i]; simpl; try done.
  - intros [= <-]. by rewrite Z.add_0_r.
  - intros L%IH. rewrite L. f_equal. lia.
Qed.
Lemma write_lines_concat per boot lines stage n text :
  write_lines per boot lines stage n text = string_concat (zip_with String.append (snippets per boot lines stage n text) text).
Proof.
  revert n. induction text as [|w text IH]; intros n; [done|]. cbn [write_lines snippets zip_with]. rewrite string_concat_cons, IH.
  unfold snippet_at. by rewrite !string_app_assoc.
Qed.
Lemma write_lines_nothing per boot lines stage n text :
  (per = "" /\ boot = "") \/ (lines = ∅ /\ stage = ∅) -> write_lines per boot lines stage n text = string_concat text.
Proof.
  intros E. revert n. induction text as [|w text IH]; intros n; [done|]. cbn [write_lines]. rewrite string_concat_cons, IH.
  destruct E as [[-> ->]|[-> ->]]; [|rewrite !bool_decide_eq_false_2 by apply not_elem_of_empty; done].
  destruct (bool_decide (n ∈ lines)), (bool_decide (n ∈ stage)); done.
Qed.

(** What the parser found; a missing tree has no instructions. *)
Definition parsed_as (content : string) (children : list (string * Z)) : Prop :=
  exists tree, dockerfile_Parse content = Ok tree /\ children = default [] tree.

(** All branches of the code agree with writing out the lines and the snippets due before them. *)
Lemma rewrite_uniform content opts out :
  rewriteDockerfileWithTrustBundle content opts = Ok out ->
  exists children, parsed_as content children /\
    let per := trustBundlePerRunInjectionSnippet opts in
    let boot := trustStageBootstrapSnippet opts in
    let r := inject_lines (negb (bool_decide (per = ""))) (negb (bool_decide (boot = ""))) children false ∅ ∅ in
    out = write_lines per boot r.1 r.2 1 (SplitAfterByte content (char_of 10)).
Proof.
  unfold rewriteDockerfileWithTrustBundle. rewrite result_bind_ok. intros (tree & P & R).
  exists (default [] tree). split; [by exists tree|]. cbv zeta. set (per := trustBundlePerRunInjectionSnippet opts) in *.
  set (boot := trustStageBootstrapSnippet opts) in *. destruct tree as [children|].
  - destruct (bool_decide (per = "") && bool_decide (boot = "")) eqn:E.
    + injection R as <-. apply andb_true_iff in E as [E1%bool_decide_eq_true E2%bool_decide_eq_true].
      rewrite write_lines_nothing by (by left). by rewrite SplitAfterByte_concat.
    + simpl. destruct (inject_lines _ _ _ _ _ _) as [lines stage]. simpl.
      destruct (bool_decide (lines = ∅) && bool_decide (stage = ∅)) eqn:N; injection R as <-; [|done].
      apply andb_true_iff in N as [N1%bool_decide_eq_true N2%bool_decide_eq_true].
      rewrite write_lines_nothing by (by right). by rewrite SplitAfterByte_concat.
  - injection R as <-. simpl. rewrite write_lines_nothing by (by right). by rewrite SplitAfterByte_concat.
Qed.

(** A choice between a snippet and nothing. *)
Definition due (P : Prop) (snippet s : string) : Prop := (P -> s = snippet) /\ (~ P -> s = "").

Lemma due_in (P : Prop) snippet n (lines : gset Z) :
  (n ∈ lines <-> n ∈ (∅ : gset Z) \/ (negb (bool_decide (snippet = "")) = true /\ P)) ->
  due P snippet (if bool_decide (n ∈ lines) then snippet else "").
Proof.
  intros I. split.
  - intros p. destruct (decide (n ∈ lines)) as [N|N]; [by rewrite bool_decide_eq_true_2|rewrite bool_decide_eq_false_2 by done]. destruct (decide (snippet = "")) as [->|S]; [done|]. destruct N. apply I. right.
    split; [|done]. by rewrite bool_decide_eq_false_2.
  - intros p. destruct (decide (n ∈ lines)) as [N|N]; [rewrite bool_decide_eq_true_2 by done|by rewrite bool_decide_eq_false_2]. apply I in N as [N|[_ N]]; [by apply not_elem_of_empty in N|done].
Qed.

(** C40. Rewriting a Dockerfile only inserts lines. The result is the original text, line by line, where the
    lines of the trust bundle stand before the first line of every RUN instruction, preceded, at the first RUN
    of each stage, by the lines of the Java and Maven settings; nothing else is added and no line of the
    original is changed, moved or lost, also on the paths that return the text unchanged. *)
Theorem rewrite_only_inserts content opts out :
  rewriteDockerfileWithTrustBundle content opts = Ok out ->
  exists children inserted, parsed_as content children /\
    let text := SplitAfterByte content (char_of 10) in
    string_concat text = content /\ length inserted = length text /\ out = string_concat (zip_with String.append inserted text) /\
    forall i s, inserted !! i = Some s -> exists boot per, s = boot +:+ per /\
      due (exists k, run_at children k (1 + Z.of_nat i) /\ opens_stage children k) (trustStageBootstrapSnippet opts) boot /\
      due (exists k, run_at children k (1 + Z.of_nat i)) (trustBundlePerRunInjectionSnippet opts) per.
Proof.
  intros (children & P & R)%rewrite_uniform. cbv zeta in R. rewrite write_lines_concat in R.
  set (r := inject_lines _ _ _ _ _ _) in R. eexists children, _. split; [done|]. cbv zeta.
  split; [apply SplitAfterByte_concat|]. split; [|split; [exact R|]]; [by rewrite snippets_length|].
  intros i s L%snippets_lookup. rewrite L. eexists _, _. split; [reflexivity|].
  destruct (inject_lines_spec (negb (bool_decide (trustBundlePerRunInjectionSnippet opts = ""))) (negb (bool_decide (trustStageBootstrapSnippet opts = "")))
              children false ∅ ∅ (1 + Z.of_nat i)) as [I1 I2].
  split; apply due_in; [|exact I1]. etrans; [exact I2|]. unfold opens_after. naive_solver.
Qed.
End rewriting.

(** ** Proxy settings *)

Definition option_char (c : Ascii.ascii) : bool := host_char c || bool_decide (c = "*"%char).

Lemma option_char_visible c : option_char c = true -> visible c = true.
Proof.
  unfold option_char, host_char. rewrite !orb_true_iff, !bool_decide_eq_true, !elem_of_cons, elem_of_nil.
  unfold is_lower, is_upper, is_digit, visible. intros D. destruct_or!; try (by subst); lia.
Qed.
Lemma option_char_no_bar c : option_char c = true -> c <> "|"%char.
Proof. intros E ->. discriminate E. Qed.
Lemma valid_host_chars host : isValidJavaNonProxyHost host = true -> host <> "" /\ string_all option_char host = true.
Proof.
  unfold isValidJavaNonProxyHost. destruct (bool_decide (host = "")) eqn:E; [done|]. apply bool_decide_eq_false in E. simpl.
  destruct (_ || _); [done|]. destruct (Contains _ _); [done|]. intros A. split; [done|].
  eapply string_all_impl; [|exact A]. intros c C. unfold option_char. by rewrite C.
Qed.
Lemma normalized_entry raw entry :
  normalizeJavaNonProxyEntry raw = Some entry -> entry <> "" /\ string_all option_char entry = true.
Proof.
  unfold normalizeJavaNonProxyEntry. set (e := TrimSpace raw). case_bool_decide; [done|]. case_bool_decide as S; [intros [= <-]; by rewrite S|].
  destruct (negb (string_all _ e)); [done|].
  destruct (HasPrefix e "."); [|destruct (HasPrefix e "*."); [|destruct (_ || _); [done|]]];
    match goal with |- context [isValidJavaNonProxyHost ?x] => destruct (isValidJavaNonProxyHost x) eqn:V; [|done] end;
    apply valid_host_chars in V as [N V]; intros [= <-]; [| |done]; split; [done| |done|]; rewrite string_all_app, V; done.
Qed.
Lemma normalized_hosts_spec seen l :
  NoDup (normalized_hosts seen l) /\ Forall (fun e => e ∉ seen /\ e <> "" /\ string_all option_char e = true) (normalized_hosts seen l).
Proof.
  revert seen. induction l as [|raw l IH]; intros seen; simpl; [split; constructor|].
  destruct (normalizeJavaNonProxyEntry raw) as [entry|] eqn:E; [|apply IH]. case_bool_decide as S; [apply IH|].
  destruct (IH ({[entry]} ∪ seen)) as [N F]. split.
  - constructor; [|done]. intros I. rewrite Forall_forall in F. destruct (F _ I) as [X _]. apply X. apply elem_of_union_l. by apply elem_of_singleton.
  - constructor; [by split; [|apply (normalized_entry raw)]|]. eapply Forall_impl; [exact F|]. intros e [X ?]. split; [|done].
    intros Y. apply X. by apply elem_of_union_r.
Qed.
Lemma java_hosts_split l : normalized_hosts ∅ l <> [] -> SplitByte (javaNonProxyHosts l) "|" = normalized_hosts ∅ l.
Proof.
  intros N. apply SplitByte_Join; [|done]. destruct (normalized_hosts_spec ∅ l) as [_ F]. eapply Forall_impl; [exact F|].
  intros e (_ & _ & A). by eapply free_of_impl; [apply option_char_no_bar|].
Qed.
Lemma Join_all p l sep : Forall (fun w => string_all p w = true) l -> string_all p sep = true -> string_all p (Join l sep) = true.
Proof.
  intros F S. induction F as [|w l W _ IH]; [done|]. destruct l as [|v l]; [done|].
  change (string_all p (w +:+ sep +:+ Join (v :: l) sep) = true). by rewrite !string_all_app, W, S, IH.
Qed.
Lemma java_hosts_visible l : string_all visible (javaNonProxyHosts l) = true.
Proof.
  apply Join_all; [|done]. destruct (normalized_hosts_spec ∅ l) as [_ F]. eapply Forall_impl; [exact F|].
  intros e (_ & _ & A). by eapply string_all_impl; [apply option_char_visible|].
Qed.

Section proxy.
Context `{GoLib} `{BuildTools}.

(** A port number in decimal. *)
Definition port_number (s : string) : Prop := exists n, s = Itoa n /\ 1 <= n <= 65535.
Lemma port_number_visible s : port_number s -> string_all visible s = true.
Proof. intros (n & -> & R). apply digit_visible. by apply Itoa_digits; lia. Qed.

Lemma parseProxyURL_port raw scheme host port : parseProxyURL raw scheme = Ok (host, port) -> port_number port.
Proof.
  unfold parseProxyURL. case_bool_decide; [done|]. rewrite result_bind_ok. intros ([[sch h] p] & U & R).
  destruct (_ && _) in R; [done|]. case_bool_decide; [done|]. apply result_bind_ok in R as (port' & N & [= <- <-]).
  unfold normalizeProxyPort in N. destruct (Atoi _) as [n|]; [|done]. destruct ((n <=? 0) || (65535 <? n)) eqn:B; [done|].
  injection N as <-. exists n. split; [done|]. lia.
Qed.

(** Proxy settings keep to their options. Whatever the proxy variables of the environment hold, when they
    are accepted the ports are decimal numbers from 1 to 65535, and the hosts that bypass the proxy are
    distinct and come back by splitting at the bars. Unless a proxy host itself contains a space, which a URL
    allows only in the zone of an IPv6 address, every option for the Java tools is one word: the options come
    back by splitting at spaces, so no variable can add an option to the build. *)
Theorem proxy_options_intact env cfg :
  proxyConfigFromEnv env = Ok cfg -> free_of " " (px_HTTPHost cfg) -> free_of " " (px_HTTPSHost cfg) ->
  (px_HTTPHost cfg <> "" -> port_number (px_HTTPPort cfg)) /\ (px_HTTPSHost cfg <> "" -> port_number (px_HTTPSPort cfg)) /\
  (let hosts := normalized_hosts ∅ (px_NonProxyHosts cfg) in
   NoDup hosts /\ (hosts <> [] -> SplitByte (javaNonProxyHosts (px_NonProxyHosts cfg)) "|" = hosts)) /\
  (javaProxyOptions cfg <> [] -> SplitByte (Join (javaProxyOptions cfg) " ") " " = javaProxyOptions cfg).
Proof.
  intros C Vh Vs. unfold proxyConfigFromEnv in C. apply result_bind_ok in C as ([hh hp] & Ch & C).
  apply result_bind_ok in C as ([sh sp] & Cs & [= <-]). cbn [px_HTTPHost px_HTTPPort px_HTTPSHost px_HTTPSPort px_NonProxyHosts fst snd] in *.
  assert (V : forall o scheme f h p,
    match o with Some raw => result_wrap f (parseProxyURL raw scheme) | None => Ok ("", "") end = Ok (h, p) -> h <> "" -> port_number p).
  { intros [raw|] scheme f h p X; [|by injection X as <- <-]. by apply result_wrap_ok, parseProxyURL_port in X. }
  pose proof (V _ _ _ _ _ Ch) as Ph. pose proof (V _ _ _ _ _ Cs) as Ps.
  split; [done|]. split; [done|]. split; [split; [apply normalized_hosts_spec|apply java_hosts_split]|].
  intros N. apply SplitByte_Join; [|done]. unfold javaProxyOptions, http_set, https_set. cbn [px_HTTPHost px_HTTPPort px_HTTPSHost px_HTTPSPort px_NonProxyHosts].
  assert (W : forall w, string_all visible w = true -> free_of " " w).
  { intros w. apply free_of_impl. intros d X ->. discriminate X. }
  assert (A : forall p w, string_all visible p = true -> free_of " " w -> free_of " " (p +:+ w)).
  { intros p w P Q. apply free_of_app. split; [by apply W|done]. }
  repeat apply Forall_app_2.
  - destruct (decide (hh = "")) as [->|]; [constructor|]. rewrite (bool_decide_eq_false_2 (hh = "")) by done. simpl. case_bool_decide; [constructor|].
    repeat constructor; (apply A; [done|]); [done|by apply W, port_number_visible, Ph].
  - destruct (decide (sh = "")) as [->|]; [constructor|]. rewrite (bool_decide_eq_false_2 (sh = "")) by done. simpl. case_bool_decide; [constructor|].
    repeat constructor; (apply A; [done|]); [done|by apply W, port_number_visible, Ps].
  - case_bool_decide; [constructor|]. repeat constructor. apply A; [done|]. apply W, java_hosts_visible.
Qed.
End proxy.

(** ** Staged files *)

Lemma TrimRightByte_keep p e c : free_of c e -> e <> "" -> TrimRightByte (p +:+ e) c = p +:+ e.
Proof.
  intros F N. unfold TrimRightByte. rewrite string_rev_append.
  assert (F' : free_of c (String.rev e)) by (unfold free_of in *; by rewrite string_all_rev).
  destruct (String.rev e) as [|d r] eqn:E.
  - destruct N. rewrite <- (string_rev_rev e), E. done.
  - apply free_of_cons in F' as [D _]. rewrite string_app_cons. cbn [TrimLeftByte]. rewrite bool_decide_eq_false_2 by done.
    rewrite <- string_app_cons, <- E, <- string_rev_append. apply string_rev_rev.
Qed.
Lemma filepath_Base_of l : Forall element l -> filepath_Base (of_elements l) = default "/" (last l).
Proof.
  intros F. destruct (decide (l = [])) as [->|N]; [reflexivity|].
  destruct (exists_last N) as (k & e & ->). apply Forall_app in F as [_ E]. inversion E as [|? ? (NE & _ & _ & FE) _]; subst.
  rewrite last_snoc. simpl. unfold filepath_Base.
  assert (X : exists q, of_elements (k ++ [e]) = q +:+ String "/" e).
  { destruct (decide (k = [])) as [->|NK]; [by exists ""|]. exists (of_elements k). unfold of_elements. rewrite Join_app by done.
    by rewrite !string_app_assoc. }
  destruct X as [q ->]. rewrite bool_decide_eq_false_2 by (by destruct q).
  change (String "/" e) with ("/" +:+ e). rewrite <- string_app_assoc. rewrite TrimRightByte_keep by done. rewrite string_app_assoc.
  change ("/" +:+ e) with (String "/" e). rewrite LastIndexByte_app by done.
  change (String "/" e) with ("/" +:+ e). rewrite <- string_app_assoc.
  replace (S (String.length q)) with (String.length (q +:+ "/")) by (rewrite string_app_length; simpl; lia).
  rewrite string_drop_app_length. by rewrite bool_decide_eq_false_2.
Qed.

Section staging.
Context `{GoLib} `{HostFS} `{BuildTools} (stat_missing : fsState -> string -> bool).

(** The loop over the blocks of a bundle does not run out of steps. *)
Lemma parse_certificates_fuel fuel fuel' s certs :
  (String.length s < fuel)%nat -> (String.length s < fuel')%nat -> parse_certificates fuel s certs = parse_certificates fuel' s certs.
Proof.
  revert fuel' s certs. induction fuel as [|fuel IH]; intros fuel' s certs L L'; [lia|]. destruct fuel' as [|fuel']; [lia|].
  cbn [parse_certificates]. case_bool_decide; [done|]. destruct (pem_Decode s) as [[[kind bytes] rest]|] eqn:P; [|done].
  apply pem_Decode_rest in P. destruct (negb _); [apply IH; lia|]. destruct (result_wrap _ _) as [cert|e]; simpl; [apply IH; lia|done].
Qed.

(** Changes inside the staging directory. *)
Definition staged_in (dir : string) (op : fsOp) : Prop := match op with OpWriteFile path _ _ => below dir path | _ => False end.
Lemma staged_confined dir op : staged_in dir op -> confined dir op.
Proof. by destruct op. Qed.

Lemma file_names : element bboxTrustBundleFileName /\ element bboxJavaTruststoreFileName /\ element bboxMavenSettingsFileName.
Proof. by repeat split. Qed.
Lemma write_staged dir name content mode f :
  absolute dir -> element name \/ name = "/" -> fm_ops (staged_in dir) (fm_wrap f (fm_do (OpWriteFile (filepath_Join [dir; name]) content mode))).
Proof. intros A N. apply fm_ops_wrap, fm_ops_do. by apply Join_below. Qed.

Lemma stage_inputs_ops dir contextAbs l original cfg bundle :
  absolute dir -> Forall element l -> fm_ops (staged_in dir) (stage_inputs dir contextAbs (of_elements l) original cfg bundle).
Proof.
  intros A F. destruct file_names as (N1 & N2 & N3). unfold stage_inputs. apply fm_ops_bind; [|intros trust; apply fm_ops_bind; [|intros maven; apply fm_ops_bind; [by auto with fsops|intros out; apply fm_ops_bind; [|by auto with fsops]]]].
  - destruct bundle as [path|]; [|by auto with fsops]. apply fm_ops_bind; [by auto with fsops|]. intros text.
    apply fm_ops_bind; [by apply write_staged; [|left]|]. intros _. apply fm_ops_bind; [|by auto with fsops].
    case_bool_decide; [by auto with fsops|]. apply fm_ops_wrap. unfold writePKCS12Truststore. do 2 (apply fm_ops_bind; [by auto with fsops|intros ?]).
    apply fm_ops_bind; [by apply write_staged; [|left]|by auto with fsops].
  - destruct (negb _); [by auto with fsops|]. apply fm_ops_bind; [by auto with fsops|]. intros xml.
    apply fm_ops_bind; [by apply write_staged; [|left]|by auto with fsops].
  - apply write_staged; [done|]. rewrite filepath_Base_of by done. destruct (last l) as [e|] eqn:E; [|by right]. left.
    apply last_Some in E as [l' ->]. apply Forall_app in F as [_ F]. by inversion F.
Qed.

Lemma stage_inputs_cleanup dir contextAbs dockerfileAbs original cfg bundle h inputs h' :
  stage_inputs dir contextAbs dockerfileAbs original cfg bundle h = (Ok inputs, h') -> bi_CleanupPaths inputs = [dir].
Proof.
  unfold stage_inputs. rewrite fm_bind_ok. intros (trust & h1 & _ & R). apply fm_bind_ok in R as (maven & h2 & _ & R).
  apply fm_bind_ok in R as (out & h3 & _ & R). apply fm_bind_ok in R as (u & h4 & _ & R). by injection R as <- _.
Qed.

(** What preparing the inputs leaves: nothing, or files in the directory that is to
    be cleaned up, or nothing any more. *)
Definition leaves (dir : string) (h : fsState) (r : result buildInputs) (h' : fsState) : Prop :=
  exists ops, h' = h ++ ops /\ Forall (confined dir) ops /\
    match r with
    | Ok inputs => (bi_CleanupPaths inputs = [] /\ ops = []) \/ bi_CleanupPaths inputs = [dir]
    | Err _ => ops = [] \/ last ops = Some (OpRemoveAll dir)
    end.
Lemma leaves_unchanged dir h r : (forall inputs, r = Ok inputs -> bi_CleanupPaths inputs = []) -> leaves dir h r h.
Proof.
  intros C. exists []. rewrite app_nil_r. split; [done|]. split; [constructor|]. destruct r as [inputs|e]; left; [|done].
  split; [by apply C|done].
Qed.
Lemma prepareBuildInputs_ops dir contextAbs l env h r h' :
  os_MkdirTemp = Ok dir -> absolute dir -> Forall element l ->
  prepareBuildInputs stat_missing contextAbs (of_elements l) env h = (r, h') -> leaves dir h r h'.
Proof.
  intros T A F P. unfold prepareBuildInputs in P.
  destruct (os_Stat h (of_elements l)) as [info|e];
    [|destruct (stat_missing h _); injection P as <- <-; apply leaves_unchanged; [by intros ? [= <-]|done]].
  unfold fm_bind, fm_wrap, fm_ask, fm_lift in P.
  destruct (os_ReadFile h _) as [original|e]; [|injection P as <- <-; by apply leaves_unchanged].
  destruct (result_wrap _ (proxyConfigFromEnv env)) as [cfg|e]; [|injection P as <- <-; by apply leaves_unchanged].
  destruct (result_wrap _ (rewriteDockerfileWithTrustBundle original _)) as [preview|e]; [|injection P as <- <-; by apply leaves_unchanged].
  case_bool_decide; [injection P as <- <-; apply leaves_unchanged; by intros ? [= <-]|].
  rewrite T in P. cbn [result_wrap] in P. unfold or_remove in P.
  destruct (stage_inputs_ops dir contextAbs l original cfg (resolveTrustBundlePath h env) A F h) as (ops & E & S).
  assert (S' : Forall (confined dir) ops) by (eapply Forall_impl; [exact S|apply staged_confined]).
  destruct (stage_inputs _ _ _ _ _ _ h) as [[inputs|e] h1] eqn:G; injection P as <- <-; simpl in E; subst h1.
  - exists ops. split; [done|]. split; [done|]. right. by eapply stage_inputs_cleanup.
  - exists (ops ++ [OpRemoveAll dir]). unfold fm_do. simpl. rewrite app_assoc. split; [done|]. split; [|right; by rewrite last_snoc].
    apply Forall_app_2; [done|]. apply Forall_singleton. by split.
Qed.

Lemma absFromCWD_elements cwd path p :
  (forall wd, os_Getwd = Ok wd -> absolute wd) -> absFromCWD cwd path = Ok p -> exists l, Forall element l /\ p = of_elements l.
Proof.
  intros WD. unfold absFromCWD. destruct (filepath_IsAbs path) eqn:A; [|by apply abs_clean].
  intros [= <-]. exists (elements path). split; [apply elements_ok|by apply path_Clean_abs].
Qed.

(** The shim cleans up after itself. Whatever the arguments, the environment, the Dockerfile and the
    outcome of the build are, the shim changes nothing outside its temporary directory, and if it has written
    anything there its last change is to remove that directory. *)
Theorem build_inputs_removed x args env h r h' events dir :
  (forall wd, os_Getwd = Ok wd -> absolute wd) -> os_MkdirTemp = Ok dir -> absolute dir -> blank dir = false ->
  RunCLI stat_missing x args env h = (r, h', events) ->
  exists ops, h' = h ++ ops /\ Forall (confined dir) ops /\ (ops = [] \/ last ops = Some (OpRemoveAll dir)).
Proof.
  intros WD T A B R. assert (none : forall hh : fsState, exists ops, hh = hh ++ ops /\ Forall (confined dir) ops /\ (ops = [] \/ last ops = Some (OpRemoveAll dir))).
  { intros hh. exists []. rewrite app_nil_r. split; [done|]. split; [constructor|by left]. }
  unfold RunCLI in R. destruct os_Getwd as [cwd|e] in R; [|injection R as <- <- <-; apply none].
  unfold PlanForArgs in R. destruct args as [|sub args]; [injection R as <- <- <-; apply none|].
  case_bool_decide; [|injection R as <- <- <-; apply none]. cbn [negb] in R. unfold fm_bind, fm_lift in R.
  destruct (plan_flags args default_flags) as [f|e]; [|injection R as <- <- <-; apply none].
  destruct (result_wrap _ (absFromCWD cwd (bf_context f))) as [contextAbs|e]; [|injection R as <- <- <-; apply none].
  set (dp := if bool_decide (bf_dockerfile f = "Dockerfile") then _ else _) in R.
  destruct (absFromCWD cwd dp) as [p|e] eqn:D; cbn [result_wrap] in R; [|injection R as <- <- <-; apply none].
  apply absFromCWD_elements in D as (l & F & ->); [|done].
  destruct (prepareBuildInputs _ _ _ env h) as [[inputs|e] h1] eqn:P; apply (prepareBuildInputs_ops dir) in P as (ops & -> & C & L); try done.
  - cbn [fm_ret] in R. destruct (executor_Run x _ env) as [r' ev]. injection R as <- <- <-. cbn [pl_CleanupPaths cleanupPaths snd].
    destruct L as [[-> ->]|L].
    + exists []. rewrite !app_nil_r. split; [done|]. split; [constructor|by left].
    + rewrite L. cbn [foldl]. rewrite B. unfold fm_do. cbn [snd]. exists (ops ++ [OpRemoveAll dir]). rewrite app_assoc. split; [done|].
      split; [|right; by rewrite last_snoc]. apply Forall_app_2; [done|]. apply Forall_singleton. by split.
  - injection R as <- <- <-. by exists ops.
Qed.
End staging.

(** ** The builder's environment *)

Lemma lookupEnvValue_snoc env e key :
  lookupEnvValue (env ++ [e]) key = if HasPrefix e (key +:+ "=") then Some (TrimPrefix e (key +:+ "=")) else lookupEnvValue env key.
Proof.
  unfold lookupEnvValue. induction env as [|x env IH]; [done|]. simpl. rewrite IH. by destruct (HasPrefix e _).
Qed.
Lemma splitEnvEntry_key key t : free_of "=" key -> splitEnvEntry (key +:+ "=" +:+ t) = Some (key, t).
Proof.
  intros F. unfold splitEnvEntry. rewrite bool_decide_eq_false_2 by (by destruct key).
  change (key +:+ "=" +:+ t) with (key +:+ String "=" t). rewrite IndexByte_app by done. rewrite string_take_app_length.
  do 2 f_equal. change (String "=" t) with ("=" +:+ t). rewrite <- string_app_assoc.
  replace (S (String.length key)) with (String.length (key +:+ "=")) by (rewrite string_app_length; simpl; lia).
  apply string_drop_app_length.
Qed.
Lemma filter_keys_lookup keep env key :
  free_of "=" key -> lookupEnvValue (filter_keys keep env) key = if keep key then lookupEnvValue env key else None.
Proof.
  intros F. unfold lookupEnvValue. induction env as [|e env IH]; simpl; [by destruct (keep key)|].
  destruct (HasPrefix e (key +:+ "=")) eqn:P.
  - pose proof P as P'. apply HasPrefix_iff in P' as [t ->]. rewrite string_app_assoc, splitEnvEntry_key by done.
    rewrite <- string_app_assoc. destruct (keep key) eqn:K; [|done]. simpl. rewrite IH, P. done.
  - destruct (match splitEnvEntry e with Some (k, _) => keep k | None => false end); simpl; rewrite ?P, IH;
      destruct (keep key); try done; by destruct (last_with_prefix env _).
Qed.

(** The variables the builder does not see. *)
Definition proxy_args_only (env : list string) : bool :=
  match lookupEnvValue env bboxProxyArgsOnlyEnvKey with Some v => bool_decide (TrimSpace v = "1") | None => false end.
Definition hidden (env : list string) (key : string) : bool :=
  bool_decide (key = bboxProxyArgsOnlyEnvKey) || (proxy_args_only env && bool_decide (key ∈ proxy_arg_keys)).
Definition builder_base (env : list string) : list string :=
  if proxy_args_only env then filterBuilderProxyEnv (filterBuilderControlEnv env) else filterBuilderControlEnv env.
Lemma builder_base_lookup env key :
  free_of "=" key -> lookupEnvValue (builder_base env) key = if hidden env key then None else lookupEnvValue env key.
Proof.
  intros F. unfold builder_base, hidden, filterBuilderProxyEnv, filterBuilderControlEnv. destruct (proxy_args_only env).
  - rewrite !filter_keys_lookup by done. simpl. rewrite (bool_decide_ext (key ∈ proxy_arg_keys) (key ∈ ["HTTP_PROXY"; "http_proxy"; "HTTPS_PROXY"; "https_proxy"; "NO_PROXY"; "no_proxy"]))
      by (unfold proxy_arg_keys; rewrite !elem_of_cons; tauto).
    destruct (bool_decide (key = _)), (bool_decide (key ∈ _)); done.
  - rewrite filter_keys_lookup by done. simpl. by destruct (bool_decide (key = _)).
Qed.

(** The builder's environment. The shim's control variable never reaches the builder, nor do the proxy
    variables when it asks for proxy arguments only; GODEBUG selects a resolver, the one given or cgo; every
    other variable has the value it has in the shim's own environment. *)
Theorem builder_env_sources env key :
  free_of "=" key ->
  (key <> "GODEBUG" -> lookupEnvValue (withBuilderRuntimeEnv env) key = if hidden env key then None else lookupEnvValue env key) /\
  exists v, lookupEnvValue (withBuilderRuntimeEnv env) "GODEBUG" = Some v /\ Contains v "netdns=" = true.
Proof.
  intros F.
  assert (W : withBuilderRuntimeEnv env = builder_base env /\ (exists v, lookupEnvValue (builder_base env) "GODEBUG" = Some v /\ Contains v "netdns=" = true) \/
              exists v, withBuilderRuntimeEnv env = builder_base env ++ ["GODEBUG=" +:+ v] /\ Contains v "netdns=" = true).
  { unfold withBuilderRuntimeEnv, builder_base, proxy_args_only.
    set (base := match lookupEnvValue env bboxProxyArgsOnlyEnvKey with Some value => _ | None => filterBuilderControlEnv env end).
    replace (if match lookupEnvValue env bboxProxyArgsOnlyEnvKey with Some v => bool_decide (TrimSpace v = "1") | None => false end
             then filterBuilderProxyEnv (filterBuilderControlEnv env) else filterBuilderControlEnv env) with base
      by (unfold base; by destruct (lookupEnvValue env bboxProxyArgsOnlyEnvKey)).
    clearbody base. destruct (lookupEnvValue base "GODEBUG") as [g|] eqn:G; [|right; by exists "netdns=cgo"].
    case_bool_decide; [right; by exists "netdns=cgo"|]. destruct (Contains g "netdns=") eqn:C; [left; split; [done|by exists g]|].
    right. exists (g +:+ ",netdns=cgo"). split; [done|]. clear. induction g as [|c g IH]; [done|]. rewrite string_app_cons. cbn [Contains].
    by rewrite IH, orb_true_r. }
  destruct W as [[-> D]|(v & -> & C)].
  - split; [intros _; by apply builder_base_lookup|done].
  - rewrite !lookupEnvValue_snoc. split.
    + intros N. destruct (HasPrefix ("GODEBUG=" +:+ v) (key +:+ "=")) eqn:P; [|by apply builder_base_lookup].
      destruct N. apply HasPrefix_iff in P as [t P]. apply (f_equal splitEnvEntry) in P.
      change ("GODEBUG=" +:+ v) with ("GODEBUG" +:+ "=" +:+ v) in P. rewrite string_app_assoc, !splitEnvEntry_key in P by done. by injection P as <- _.
    + exists v. split; [|done]. cbn [String.append]. by destruct v.
Qed.

(** ** Samples *)

Module SampleBuild.
Definition dockerfile : string := "FROM a" +:+ newline +:+ "RUN x" +:+ newline +:+ "RUN y" +:+ newline.
Definition children : list (string * Z) := [("from", 1); ("run", 2); ("run", 3)].
Definition decode_pem (s : string) : option (string * string * string) :=
  if String.eqb s "PEM" then Some ("CERTIFICATE", "der", "") else None.
Lemma decode_pem_rest s kind bytes rest : decode_pem s = Some (kind, bytes, rest) -> (String.length rest < String.length s)%nat.
Proof. unfold decode_pem. destruct (String.eqb_spec s "PEM") as [->|]; [|done]. intros [= <- <- <-]. simpl. lia. Qed.
#[export] Instance tools : BuildTools := {|
  dockerfile_Parse := fun _ => Ok (Some children);
  url_Parse := fun _ => Ok ("http", "proxy", "3128");
  pem_Decode := decode_pem;
  pem_Decode_rest := decode_pem_rest;
  x509_ParseCertificate := fun b => Ok b;
  pkcs12_DefaultPassword := "changeit";
  EncodeTrustStore := fun _ _ => Ok "p12" |}.
Definition written (h : fsState) (p : string) : bool :=
  existsb (fun op => match op with OpWriteFile q _ _ => String.eqb p q | _ => false end) h.
#[export] Instance fs : HostFS := {|
  os_Stat := fun h p => if bool_decide (p ∈ ["/w/Dockerfile"; "/etc/ssl/certs/ca-certificates.crt"]) || written h p
                        then Ok {| fi_IsDir := false; fi_IsRegular := true; fi_Perm := 420 |} else Err "not found";
  os_ReadFile := fun _ p => if String.eqb p "/w/Dockerfile" then Ok dockerfile else Ok "PEM";
  os_ReadDir := fun _ _ => Err "not found";
  os_MkdirTemp := Ok "/tmp/in";
  os_Getwd := Ok "/w";
  os_Geteuid := 1000;
  user_Current := Ok "u";
  exec_LookPath := fun name => Ok ("/bin/" +:+ name);
  ldd := fun _ => ("", None);
  fs_error := fun _ _ => None |}.
Definition env : list string := ["HTTP_PROXY=proxy:3128"; "NO_PROXY=.internal,localhost, bad|host"; bboxProxyArgsOnlyEnvKey +:+ "=1"; "A=1"].
Definition exec : execEnv := {|
  ex_ready := false; ex_mkdir := None; ex_openLog := None; ex_start := None; ex_polls := [false; true]; ex_run := Some "exit status 1" |}.
Definition opts : trustInjectionOptions := {|
  ti_pemPath := injectedTrustBundlePrimaryPath; ti_javaTruststorePath := ""; ti_javaToolOptions := []; ti_mavenSettingsPath := injectedMavenSettingsPath |}.
Lemma build_getwd : forall wd, os_Getwd = Ok wd -> absolute wd.
Proof. by intros wd [= <-]. Qed.
End SampleBuild.

#[local] Existing Instance sampleLib.
Import SampleBuild.

Lemma rewrite_only_inserts_witness :
  exists out inserted, rewriteDockerfileWithTrustBundle dockerfile opts = Ok out /\ length inserted = 4%nat /\
    out = string_concat (zip_with String.append inserted ["FROM a" +:+ newline; "RUN x" +:+ newline; "RUN y" +:+ newline; ""]).
Proof.
  destruct (rewriteDockerfileWithTrustBundle dockerfile opts) as [out|e] eqn:R; [|vm_compute in R; discriminate R].
  destruct (rewrite_only_inserts dockerfile opts out R) as (ch & inserted & _ & _ & L & E & _).
  exists out, inserted. split; [reflexivity|]. split; [exact L|exact E].
Defined.

Lemma proxy_options_intact_witness :
  exists cfg, proxyConfigFromEnv env = Ok cfg /\
    SplitByte (Join (javaProxyOptions cfg) " ") " " =
      ["-Dhttp.proxyHost=proxy"; "-Dhttp.proxyPort=3128"; "-Dhttp.nonProxyHosts=*.internal|localhost"].
Proof.
  destruct (proxyConfigFromEnv env) as [cfg|e] eqn:C; [|vm_compute in C; discriminate C]. exists cfg. split; [reflexivity|].
  pose proof (proxy_options_intact env cfg C) as I. vm_compute in C. injection C as <-.
  destruct (I eq_refl eq_refl) as (_ & _ & _ & S). etrans; [apply S; vm_compute; discriminate|]. vm_compute. reflexivity.
Defined.

Lemma build_inputs_removed_witness :
  exists ops, (RunCLI (fun _ _ => true) exec ["build"; "-t"; "x"; "."] env []).1.2 = ops /\ Forall (confined "/tmp/in") ops /\
    last ops = Some (OpRemoveAll "/tmp/in").
Proof.
  destruct (RunCLI (fun _ _ => true) exec ["build"; "-t"; "x"; "."] env []) as [[r h'] events] eqn:R.
  destruct (build_inputs_removed (fun _ _ => true) exec _ env [] r h' events "/tmp/in" build_getwd eq_refl eq_refl eq_refl R) as (ops & E & F & L).
  exists ops. split; [exact E|]. split; [exact F|]. destruct L as [-> | L]; [|exact L].
  exfalso. vm_compute in R. injection R as _ <- _. discriminate E.
Defined.

Lemma builder_env_sources_witness :
  lookupEnvValue (withBuilderRuntimeEnv env) "A" = Some "1" /\ lookupEnvValue (withBuilderRuntimeEnv env) "HTTP_PROXY" = None.
Proof.
  split.
  - rewrite (proj1 (builder_env_sources env "A" eq_refl)) by discriminate. vm_compute. reflexivity.
  - rewrite (proj1 (builder_env_sources env "HTTP_PROXY" eq_refl)) by discriminate. vm_compute. reflexivity.
Defined.
