(* ===== verification/DNSUpstream.v ===== *)
(** The DNS servers of the host and the exchange with one of them:
    [systemDNSServers], [roundTrip], [roundTripDNSUDP], [roundTripDNSTCP] and
    [deadlineFromContext] of src/manager_dns_service.go. This is what the manager's
    interface [Net] calls [dns_servers] and [dns_exchange].

    A connection is the error of a write, if any, and what reads return: pieces of
    a stream (TCP) or datagrams (UDP), and the error when there is nothing more. *)
From S2P Require Import Prelude GoStrings StringLemmas GoNet GoPath HostFS TransparentNet Sample.

(** ** The servers *)

Definition default_servers : list string := ["127.0.0.1:53"].
(** The lines up to one that the scanner refuses; its error is not looked at. *)
Fixpoint scanned (lines : list string) : list string :=
  match lines with
  | [] => []
  | line :: lines => if max_scan_token <=? slen line then [] else line :: scanned lines
  end.
Definition resolv_line (text : string) : option string :=
  let line := TrimSpace text in
  if bool_decide (line = "") || HasPrefix line "#" || HasPrefix line ";" then None else
  match Fields line with
  | directive :: server :: _ => if bool_decide (directive = "nameserver") then Some (JoinHostPort server "53") else None
  | _ => None
  end.
(** [file] is the content of /etc/resolv.conf, or [None] if it cannot be opened. *)
Definition systemDNSServers (file : option string) : list string :=
  match file with
  | None => default_servers
  | Some content =>
      match omap resolv_line (scanned (scan_lines content)) with
      | [] => default_servers
      | servers => servers
      end
  end.

(** ** One exchange *)

Definition managerDNSDefaultTimeout : Z := 5 * Second.
Definition deadlineFromContext (clock : Z) (ctxDeadline : option Z) (fallback : Z) : Z :=
  let fallback := if fallback <=? 0 then managerDNSDefaultTimeout else fallback in
  let deadline := clock + fallback in
  match ctxDeadline with
  | Some d => if d <? deadline then d else deadline
  | None => deadline
  end.

(** A connection to a server: the error of a write, and what the server answers to the bytes that were
    written, as the reads return it. *)
Record Conn := { cn_Write : string -> option string; cn_reads : string -> list string; cn_end : string }.
Definition udp_buffer : nat := Z.to_nat (64 * 1024).
Definition roundTripDNSUDP (c : Conn) (payload : string) : result string :=
  match cn_Write c payload with
  | Some e => Err e
  | None => match cn_reads c payload with [] => Err (cn_end c) | datagram :: _ => Ok (string_take udp_buffer datagram) end
  end.

(** [io.ReadFull]: [n] bytes, and what is left to be read. *)
Fixpoint read_full (n : nat) (got : string) (reads : list string) (last : string) : result (string * list string) :=
  match n, reads with
  | O, _ => Ok (got, reads)
  | _, [] => Err (if negb (bool_decide (got = "")) && bool_decide (last = "EOF") then "unexpected EOF" else last)
  | _, r :: reads =>
      if (String.length r <=? n)%nat then read_full (n - String.length r) (got +:+ r) reads last
      else Ok (got +:+ string_take n r, string_drop n r :: reads)
  end.
Definition put_uint16 (n : Z) : string := String (char_of (n / 256 mod 256)) (String (char_of (n mod 256)) "").
Definition get_uint16 (s : string) : Z :=
  match s with
  | String a (String b _) => byte_of a * 256 + byte_of b
  | _ => 0
  end.
Definition tcp_frame (payload : string) : string := put_uint16 (slen payload) +:+ payload.
Definition roundTripDNSTCP (c : Conn) (payload : string) : result string :=
  if 0xffff <? slen payload then
    Err ("dns payload length " +:+ Itoa (slen payload) +:+ " exceeds tcp frame maximum " +:+ Itoa 0xffff) else
  let frame := tcp_frame payload in
  match cn_Write c frame with
  | Some e => Err e
  | None =>
      lengthBuf <-! read_full 2 "" (cn_reads c frame) (cn_end c);
      response <-! read_full (Z.to_nat (get_uint16 lengthBuf.1)) "" lengthBuf.2 (cn_end c);
      Ok response.1
  end.
Definition dns_roundTrip (dial : result Conn) (deadline_error : option string) (network payload : string) : result string :=
  c <-! dial;
  match deadline_error with
  | Some e => Err e
  | None => if bool_decide (network = "tcp") then roundTripDNSTCP c payload else roundTripDNSUDP c payload
  end.

(** ** Frames *)

Lemma put_uint16_get n s : 0 <= n <= 0xffff -> get_uint16 (put_uint16 n +:+ s) = n.
Proof.
  intros R. unfold put_uint16, get_uint16. rewrite !string_app_cons, !byte_of_char by (apply Z.mod_pos_bound; lia).
  rewrite (Z.mod_small (n / 256)) by (split; [apply Z.div_pos|apply Z.div_lt_upper_bound]; lia).
  pose proof (Z.div_mod n 256). lia.
Qed.
Lemma string_app_inv a a' b b' : String.length a = String.length a' -> a +:+ b = a' +:+ b' -> a = a' /\ b = b'.
Proof.
  revert a'. induction a as [|c a IH]; intros [|c' a'] L E; simpl in L; try lia; [done|].
  rewrite !string_app_cons in E. injection E as -> E. apply IH in E as [-> ->]; [done|lia].
Qed.
Lemma Join_cons r reads : Join (r :: reads) "" = r +:+ Join reads "".
Proof. destruct reads; [|done]. symmetry. apply string_app_nil_r. Qed.

(** Reading in full does not depend on how the stream is cut into pieces. *)
Lemma read_full_exact n got reads last out rest :
  read_full n got reads last = Ok (out, rest) ->
  exists taken, String.length taken = n /\ out = got +:+ taken /\ Join reads "" = taken +:+ Join rest "".
Proof.
  revert n got. induction reads as [|r reads IH]; intros n got.
  - destruct n; cbn [read_full]; [|done]. intros [= <- <-]. exists "". by rewrite string_app_nil_r.
  - destruct n as [|n]; [intros [= <- <-]; exists ""; by rewrite string_app_nil_r|]. cbn [read_full].
    destruct (Nat.leb_spec (String.length r) (S n)) as [L|L].
    + intros E. apply IH in E as (taken & TL & -> & J). exists (r +:+ taken).
      rewrite string_app_length, Join_cons, J, !string_app_assoc. split; [lia|done].
    + intros [= <- <-]. exists (string_take (S n) r). rewrite !Join_cons, <- string_app_assoc, string_take_drop, string_take_length.
      split; [lia|done].
Qed.
Lemma read_full_enough n got reads last :
  (n <= String.length (Join reads ""))%nat -> exists out rest, read_full n got reads last = Ok (out, rest).
Proof.
  revert n got. induction reads as [|r reads IH]; intros n got L; [destruct n; [by do 2 eexists|simpl in L; lia]|].
  destruct n as [|n]; [by do 2 eexists|]. cbn [read_full]. destruct (Nat.leb_spec (String.length r) (S n)); [|by do 2 eexists].
  apply IH. rewrite Join_cons, string_app_length in L. lia.
Qed.
Lemma get_uint16_range s : 0 <= get_uint16 s <= 0xffff.
Proof.
  unfold get_uint16. destruct s as [|a [|b s]]; [lia..|]. pose proof (byte_of_range a). pose proof (byte_of_range b). lia.
Qed.
Lemma get_uint16_put s : String.length s = 2%nat -> put_uint16 (get_uint16 s) = s.
Proof.
  intros L. destruct s as [|a [|b [|]]]; [done..| |done]. cbn [get_uint16]. unfold put_uint16.
  pose proof (byte_of_range a). pose proof (byte_of_range b).
  replace ((byte_of a * 256 + byte_of b) / 256) with (byte_of a) by (apply (Z.div_unique_pos _ _ _ (byte_of b)); lia).
  replace ((byte_of a * 256 + byte_of b) mod 256) with (byte_of b) by (apply (Z.mod_unique_pos _ _ (byte_of a)); lia).
  rewrite Z.mod_small by lia. by rewrite !char_of_byte.
Qed.

(** C34. A DNS query over TCP is sent as one frame, its length in two bytes and the query, and the answer is read
    exactly as the server framed it, however the stream is cut into pieces: the exchange returns a message if and only
    if the query fits a frame, the frame was written, and the server's answer to the frame begins with the two-byte
    length of the message and the message; what follows on the stream is not part of the answer. *)
Theorem dns_tcp_framing c payload r :
  roundTripDNSTCP c payload = Ok r <->
  slen payload <= 0xffff /\ cn_Write c (tcp_frame payload) = None /\ slen r <= 0xffff /\
  exists rest, Join (cn_reads c (tcp_frame payload)) "" = tcp_frame r +:+ rest.
Proof.
  unfold roundTripDNSTCP. cbv zeta. generalize (tcp_frame payload). intros frame. unfold tcp_frame. destruct (Z.ltb_spec 0xffff (slen payload)); [split; [done|lia]|].
  destruct (cn_Write c _); [split; [done|]; by intros (_ & ? & _)|]. split.
  - destruct (read_full 2 _ _ _) as [[len more]|] eqn:E1; [|done]. cbn [result_bind fst snd].
    destruct (read_full _ _ more _) as [[r' rest]|] eqn:E2; [|done]. cbn [result_bind fst]. intros [= ->].
    apply read_full_exact in E1 as (l & L1 & -> & J1). apply read_full_exact in E2 as (m & L2 & -> & J2). rewrite !string_app_nil in *.
    pose proof (get_uint16_range l). assert (slen m = get_uint16 l) as S by (unfold slen; lia). rewrite S.
    split; [done|]. split; [done|]. split; [lia|]. exists (Join rest ""). rewrite get_uint16_put by done. by rewrite J1, J2, string_app_assoc.
  - intros (_ & _ & R & rest & J). rewrite string_app_assoc in J.
    destruct (read_full_enough 2 "" (cn_reads c frame) (cn_end c)) as (len & more & E1); [rewrite J, string_app_length; simpl; lia|].
    rewrite E1. apply read_full_exact in E1 as (l & L1 & -> & J1). rewrite J1 in J. apply string_app_inv in J as [-> J]; [|done].
    cbn [result_bind fst snd]. rewrite string_app_nil. rewrite <- (string_app_nil_r (put_uint16 _)), put_uint16_get by (unfold slen in *; lia).
    unfold slen. rewrite Nat2Z.id.
    destruct (read_full_enough (String.length r) "" more (cn_end c)) as (out & rest' & E2); [rewrite J, string_app_length; lia|].
    rewrite E2. cbn [result_bind fst]. apply read_full_exact in E2 as (m & L2 & -> & J2). rewrite J2 in J.
    apply string_app_inv in J as [-> _]; [by rewrite string_app_nil|done].
Qed.

(** There is always a server to ask, and its port is 53. *)
Lemma resolv_line_port text server : resolv_line text = Some server -> exists host, server = JoinHostPort host "53".
Proof. unfold resolv_line. destruct (_ || _ || _); [done|]. destruct (Fields _) as [|d [|h l]]; [done..|]. case_bool_decide; [|done]. intros [= <-]. eauto. Qed.
Lemma dns_servers_usable file :
  systemDNSServers file <> [] /\ forall server, In server (systemDNSServers file) -> exists host, server = JoinHostPort host "53".
Proof.
  assert (forall server, In server default_servers -> exists host, server = JoinHostPort host "53") as D
    by (intros server [<-|[]]; by exists "127.0.0.1").
  destruct file as [content|]; [|done]. cbn [systemDNSServers]. destruct (omap _ _) as [|s l] eqn:E; [done|]. split; [done|].
  intros server I. rewrite <- E in I. apply list_elem_of_In, list_elem_of_omap in I as (line & _ & R). by apply resolv_line_port in R.
Qed.
