(* ===== verification/SeccompStub.v ===== *)
(** The seccomp options on other systems than Linux: src/seccomp_stub.go. The file
    repeats the options, their normalisation and their validation for builds that
    have no libseccomp; only the compilation differs. *)
From S2P Require Import Prelude GoStrings Seccomp SeccompTheorems Sample.

Section stub.
Context `{GoLib}.

(** The two fields of [SandboxOptions] it reads are arguments. *)
Definition stub_effectiveSeccompOptions (dockerBuild_Enabled : bool) (opts : SeccompOptions) : SeccompOptions :=
  if negb dockerBuild_Enabled then opts else
  if so_Disabled opts || negb (bool_decide (so_Profile opts = "")) || (0 <? length (so_Rules opts))%nat then opts else
  {| so_Disabled := true; so_Profile := ""; so_Rules := [] |}.
Definition stub_DenySyscall (syscall : string) : SeccompRule :=
  {| sr_Syscall := syscall; sr_Action := SeccompActionErrno; sr_Errno := 1; sr_Conditions := [] |}.
Definition stub_normalizeSeccompOptions (opts : SeccompOptions) : normalizedSeccompOptions :=
  let normalized := {| no_disabled := so_Disabled opts; no_profile := so_Profile opts; no_rules := so_Rules opts |} in
  if no_disabled normalized then normalized else
  if bool_decide (no_profile normalized = "")
  then {| no_disabled := no_disabled normalized; no_profile := SeccompProfileBaseline; no_rules := no_rules normalized |}
  else normalized.
Definition stub_normalizeSeccompAction (action : string) : string :=
  if bool_decide (TrimSpace action = "") then SeccompActionErrno else ToLower (TrimSpace action).
Definition stub_normalizeSeccompCompareOp (op : string) : string := ToLower (TrimSpace op).

(** The loop over the conditions of a rule. *)
Fixpoint stub_validate_conditions (syscall : string) (conditions : list SeccompCondition) : result unit :=
  match conditions with
  | [] => Ok tt
  | c :: conditions =>
      let op := stub_normalizeSeccompCompareOp (sc_Operation c) in
      if (5 <? sc_Argument c)%N then
        Err ("sandbox seccomp rule for " +:+ Quote syscall +:+ " uses invalid argument index " +:+ Itoa (Z.of_N (sc_Argument c)))
      else if negb (bool_decide (op = SeccompCompareNotEqual) || bool_decide (op = SeccompCompareLessThan) ||
                    bool_decide (op = SeccompCompareLessOrEqual) || bool_decide (op = SeccompCompareEqual) ||
                    bool_decide (op = SeccompCompareGreaterOrEqual) || bool_decide (op = SeccompCompareGreaterThan) ||
                    bool_decide (op = SeccompCompareMaskedEqual)) then
        Err ("sandbox seccomp compare op " +:+ Quote (sc_Operation c) +:+ " is not supported")
      else if bool_decide (op = SeccompCompareMaskedEqual) && (sc_Mask c =? 0) then
        Err ("sandbox seccomp masked-eq rule for " +:+ Quote syscall +:+ " requires a non-zero mask")
      else stub_validate_conditions syscall conditions
  end.
Definition stub_validateSeccompRule (rule : SeccompRule) : result unit :=
  let action := stub_normalizeSeccompAction (sr_Action rule) in
  if bool_decide (TrimSpace (sr_Syscall rule) = "") then Err "sandbox seccomp rule syscall is required"
  else if negb (bool_decide (action = SeccompActionErrno) || bool_decide (action = SeccompActionTrap) || bool_decide (action = SeccompActionKillProcess)) then
    Err ("sandbox seccomp action " +:+ Quote (sr_Action rule) +:+ " is not supported")
  else if negb (bool_decide (action = SeccompActionErrno)) && negb (sr_Errno rule =? 0) then
    Err ("sandbox seccomp rule for " +:+ Quote (sr_Syscall rule) +:+ " sets errno without errno action")
  else if (sr_Errno rule <? 0) || (0x7fff <? sr_Errno rule) then
    Err ("sandbox seccomp errno for " +:+ Quote (sr_Syscall rule) +:+ " must be between 0 and 32767")
  else stub_validate_conditions (sr_Syscall rule) (sr_Conditions rule).
Fixpoint stub_validate_rules (rules : list SeccompRule) : result unit :=
  match rules with
  | [] => Ok tt
  | rule :: rules => match stub_validateSeccompRule rule with Err e => Err e | Ok _ => stub_validate_rules rules end
  end.
Definition stub_validateSeccompOptions (opts : SeccompOptions) : result unit :=
  let normalized := stub_normalizeSeccompOptions opts in
  if no_disabled normalized then Ok tt else
  let profile := no_profile normalized in
  if negb (bool_decide (profile = SeccompProfileBaseline) || bool_decide (profile = SeccompProfileRestricted) || bool_decide (profile = SeccompProfileCustom))
  then Err ("sandbox seccomp profile " +:+ Quote (so_Profile opts) +:+ " is not supported")
  else stub_validate_rules (no_rules normalized).

(** There is nothing to compile: the result is always the nil program or an error. *)
Definition stub_compileSeccompProgram (opts : SeccompOptions) : result unit :=
  _ <-! stub_validateSeccompOptions opts;
  if isZeroSeccompOptions opts then Ok tt else Err "seccomp is only supported on linux".
Definition stub_prepareSeccompProgram (opts : SeccompOptions) : result unit := _ <-! stub_compileSeccompProgram opts; Ok tt.
Definition stub_writeSeccompProgram (opts : SeccompOptions) : result unit := _ <-! stub_compileSeccompProgram opts; Ok tt.
End stub.

Section agree.
Context `{GoLib} `{Libseccomp}.

Lemma in3 (x a b c : string) : bool_decide (x ∈ [a; b; c]) = bool_decide (x = a) || bool_decide (x = b) || bool_decide (x = c).
Proof. apply Bool.eq_iff_eq_true. rewrite !orb_true_iff, !bool_decide_eq_true. set_solver. Qed.
Lemma in7 (x a b c d e f g : string) : bool_decide (x ∈ [a; b; c; d; e; f; g]) =
  bool_decide (x = a) || bool_decide (x = b) || bool_decide (x = c) || bool_decide (x = d) || bool_decide (x = e) || bool_decide (x = f) || bool_decide (x = g).
Proof. apply Bool.eq_iff_eq_true. rewrite !orb_true_iff, !bool_decide_eq_true. set_solver. Qed.

Lemma conditions_agree rule conditions :
  stub_validate_conditions (sr_Syscall rule) conditions = (_ <-! result_map (validate_condition rule) conditions; Ok tt).
Proof.
  induction conditions as [|c l IH]; [done|]. cbn [stub_validate_conditions result_map]. unfold validate_condition at 1, known_ops. rewrite in7.
  destruct (5 <? sc_Argument c)%N; [done|]. unfold stub_normalizeSeccompCompareOp, normalizeSeccompCompareOp.
  destruct (negb _); [done|]. destruct (_ && _); [done|]. rewrite IH. cbn [result_bind]. by destruct (result_map _ l).
Qed.
Lemma rule_agree rule : stub_validateSeccompRule rule = validateSeccompRule rule.
Proof.
  unfold stub_validateSeccompRule, validateSeccompRule, known_actions. rewrite in3, conditions_agree. reflexivity.
Qed.

(** C38. Options mean the same on every system: a build without libseccomp fills in, accepts and rejects exactly the
    options that the Linux build does, with the same errors, and turns the filter off for docker builds alike; it
    compiles only the options that ask for nothing. *)
Theorem seccomp_stub_agrees dockerBuild opts :
  stub_effectiveSeccompOptions dockerBuild opts = effectiveSeccompOptions dockerBuild opts /\
  stub_normalizeSeccompOptions opts = normalizeSeccompOptions opts /\
  stub_validateSeccompOptions opts = validateSeccompOptions opts /\
  (stub_prepareSeccompProgram opts = Ok tt <-> isZeroSeccompOptions opts = true).
Proof.
  split; [|split; [done|split]].
  - unfold stub_effectiveSeccompOptions, effectiveSeccompOptions, isZeroSeccompOptions. destruct dockerBuild; [|done]. cbn [negb andb].
    destruct (so_Disabled opts); [done|]. destruct (bool_decide (so_Profile opts = "")); [|done]. by destruct (so_Rules opts).
  - unfold stub_validateSeccompOptions, validateSeccompOptions. change (stub_normalizeSeccompOptions opts) with (normalizeSeccompOptions opts).
    destruct (no_disabled _); [done|]. rewrite in3. destruct (negb _); [done|].
    induction (no_rules _) as [|r l IH]; [done|]. cbn [stub_validate_rules result_map]. rewrite rule_agree, IH.
    destruct (validateSeccompRule r); [|done]. cbn [result_bind]. by destruct (result_map _ l).
  - unfold stub_prepareSeccompProgram, stub_compileSeccompProgram. split.
    + destruct (stub_validateSeccompOptions opts); [|done]. cbn [result_bind]. by destruct (isZeroSeccompOptions opts).
    + intros Z. rewrite Z. unfold isZeroSeccompOptions in Z. apply andb_true_iff in Z as [Z R]. apply andb_true_iff in Z as [D P].
      apply negb_true_iff in D. apply bool_decide_eq_true in P. apply Nat.eqb_eq, nil_length_inv in R.
      unfold stub_validateSeccompOptions, stub_normalizeSeccompOptions. rewrite D, P, R. done.
Qed.
End agree.
