(* ===== verification/SyscallRequests.v ===== *)
(** The rest of src/internal/helperruntime/seccompnotify/supervisor_linux.go: the
    decoded requests ([handleSyscall] and its handlers, which share the registry
    with the notification handlers of Supervisor.v and which the package's tests
    drive), and the two loops a redirected connect waits in,
    [waitForConnectComplete] and [getsocknameStringWithRetry]. Then, at the level of
    the bytes that the kernel reads, the last step into the launcher's image
    ([Run], [execveatLauncherFromFD] and [cStringArray] of
    src/internal/launcherentrypoint/entrypoint.go) and the structure of a descriptor
    request ([addFDWithResult] of addfd_linux.go).

    A loop is driven by what the kernel and the clock answer in each round; [None]
    is a loop that is still waiting when the list of rounds ends. *)
From S2P Require Import Prelude GoStrings StringLemmas GoNet GoFlag Sys Sockaddr Kernel FDRegistry ProcMem Supervisor SupervisorProofs Egress SampleKernel Sample TransparentNet Launcher.

(** ** Decoded requests *)

Record socketRequest := { skr_ChildFD : Z; skr_Family : Z; skr_SocketType : Z; skr_Protocol : Z }.
Record connectRequest := { cor_ChildFD : Z; cor_Destination : DecodedSockaddr }.
Record closeRequest := { clr_ChildFD : Z }.
Record dupRequest := { dup_FD : Z; dup_OldFD : Z; dup_NewFD : Z; dup_Cmd : Z; dup_Arg : Z }.

Section requests.
Context `{GoLib} `{Kernel} (targets : RuntimeTargets).

Record getpeernameRequest := { gpr_ChildFD : Z; gpr_WritePeername : option (DecodedSockaddr -> M unit) }.
Record syscallRequest := {
  sy_Syscall : Z; sy_Socket : socketRequest; sy_Connect : connectRequest; sy_Close : closeRequest;
  sy_Dup : dupRequest; sy_Getpeername : getpeernameRequest }.

Definition handleSocket (req : socketRequest) : M unit :=
  if skr_ChildFD req <? 0 then mfail (EOther "child fd must be non-negative")
  else
    run! Close (skr_ChildFD req);
    if negb (isManagedSocketFamily (skr_Family req)) then mret tt
    else if negb (targetsSupportFamilyIngress targets (skr_Family req)) then mret tt
    else if negb (baseSocketType (skr_SocketType req) =? SOCK_STREAM) then mret tt
    else
      helperFD <~ mkernel (sys_socket (skr_Family req) (skr_SocketType req) (skr_Protocol req));
      insertState {|
        Kind := KindTCP; ChildPID := 0; ChildFD := skr_ChildFD req; HelperFD := helperFD; Family := skr_Family req;
        SocketType := skr_SocketType req; Protocol := skr_Protocol req;
        Blocking := Z.land (skr_SocketType req) SOCK_NONBLOCK =? 0;
        DNSManaged := false; ConnectedHost := ""; ConnectedPort := 0; PendingDNSResponses := nil_slice;
        OriginalHost := ""; OriginalPort := 0; RedirectAddr := "" |}.
Definition handleClose (req : syscallRequest) : M unit :=
  if clr_ChildFD (sy_Close req) <? 0 then merrno EBADF else Close (clr_ChildFD (sy_Close req)).
(** The descriptors of a duplication, or [None] for another fcntl or call. *)
Definition dup_fds (req : syscallRequest) : option (Z * Z) :=
  let dup := sy_Dup req in
  let old_or_fd := if dup_OldFD dup <? 0 then dup_FD dup else dup_OldFD dup in
  if (sy_Syscall req =? SYS_DUP) || (sy_Syscall req =? SYS_DUP3) then Some (old_or_fd, dup_NewFD dup)
  else if sy_Syscall req =? SYS_FCNTL then
    if (dup_Cmd dup =? F_DUPFD) || (dup_Cmd dup =? F_DUPFD_CLOEXEC) then Some (dup_FD dup, dup_NewFD dup) else None
  else if (0 <=? optionalDup2Syscall) && (sy_Syscall req =? optionalDup2Syscall) then Some (old_or_fd, dup_NewFD dup)
  else None.
Definition handleDupLike (req : syscallRequest) : M unit :=
  match dup_fds req with
  | None => mret tt
  | Some (oldFD, newFD) =>
      if (oldFD <? 0) || (newFD <? 0) then merrno EBADF
      else if oldFD =? newFD then mret tt
      else Dup oldFD newFD
  end.
Definition writeOriginalPeername (req : getpeernameRequest) (host : string) (port fallbackFamily : Z) : M unit :=
  match gpr_WritePeername req with
  | None => mret tt
  | Some write =>
      if bool_decide (host = "") || (port <=? 0) then mret tt
      else write {| sa_Family := peernameFamily host fallbackFamily; sa_Host := host; sa_Port := port |}
  end.
Definition handleGetpeername (req : syscallRequest) : M unit :=
  let req := sy_Getpeername req in
  if gpr_ChildFD req <? 0 then merrno EBADF
  else
    st <~ mget (fun w => Lookup (gpr_ChildFD req) (w_reg w));
    match st with
    | None => mret tt
    | Some state =>
        if bool_decide (RedirectAddr state = "") then mret tt
        else writeOriginalPeername req (OriginalHost state) (OriginalPort state) (Family state)
    end.
Definition handleSyscall (req : syscallRequest) : M unit :=
  let n := sy_Syscall req in
  if n =? SYS_SOCKET then handleSocket (sy_Socket req)
  else if n =? SYS_CONNECT then handleConnect targets (cor_ChildFD (sy_Connect req)) (cor_Destination (sy_Connect req))
  else if n =? SYS_CLOSE then handleClose req
  else if (n =? SYS_DUP) || (n =? SYS_DUP3) || (n =? SYS_FCNTL) then handleDupLike req
  else if n =? SYS_GETPEERNAME then handleGetpeername req
  else if isDupLikeSyscall n then handleDupLike req
  else mret tt.

(** The requests keep the registry's invariant and confine egress as the
    notifications do, if the caller's writer touches the kernel only. *)
Definition writer_frames (req : syscallRequest) : Prop :=
  forall write d, gpr_WritePeername (sy_Getpeername req) = Some write -> kernel_only (write d).

Lemma hoare_handleSocket req : hoare Inv (handleSocket req) (fun _ => Inv).
Proof.
  unfold handleSocket. destruct (_ <? 0); [apply hoare_ko_Inv; eauto with frame|].
  eapply hoare_bind; [apply hoare_CloseForPID|]. intros ?; simpl.
  repeat match goal with |- hoare _ (if ?b then _ else _) _ => destruct b; [by apply hoare_ret_Inv|] end.
  eapply hoare_bind; [apply hoare_ko_Inv; eauto with frame|]. intros fd; simpl.
  eapply hoare_conseq; [|apply hoare_insertState]. intros w I. split; [done|]. split; [|done]. split; simpl; [lia|done].
Qed.
Lemma hoare_handleDupLike req : hoare Inv (handleDupLike req) (fun _ => Inv).
Proof.
  unfold handleDupLike. destruct (dup_fds req) as [[o n]|]; [|by apply hoare_ret_Inv].
  destruct (_ || _); [apply hoare_ko_Inv; eauto with frame|]. destruct (_ =? _); [by apply hoare_ret_Inv|]. apply hoare_DupForPID.
Qed.
Lemma hoare_handleGetpeername req : writer_frames req -> hoare Inv (handleGetpeername req) (fun _ => Inv).
Proof.
  intros W. apply hoare_ko_Inv. unfold handleGetpeername, writeOriginalPeername. apply ko_if; [eauto with frame|].
  apply ko_bind; [eauto with frame|]. intros [s|]; [|eauto with frame]. apply ko_if; [eauto with frame|].
  destruct (gpr_WritePeername _) as [write|] eqn:E; [|eauto with frame]. apply ko_if; [eauto with frame|]. by apply W.
Qed.
Lemma hoare_handleSyscall req : writer_frames req -> hoare Inv (handleSyscall req) (fun _ => Inv).
Proof.
  intros W. unfold handleSyscall, handleClose.
  repeat match goal with |- hoare _ (if ?b then _ else _) _ => destruct b end;
    auto using hoare_handleSocket, hoare_handleConnect, hoare_handleDupLike, hoare_handleGetpeername;
    first [by apply hoare_ret_Inv|apply hoare_CloseForPID|apply hoare_ko_Inv; eauto with frame].
Qed.

Lemma kp_handleSyscall (P : kstate -> Prop) (HK : keeps targets P) req :
  (forall write d, gpr_WritePeername (sy_Getpeername req) = Some write -> kpres P (write d)) -> kpres P (handleSyscall req).
Proof.
  intros W. pose proof (kp_socket targets P HK). pose proof (kp_CloseForPID targets P HK). pose proof (kp_DupForPID targets P HK).
  pose proof (kp_handleConnect targets P HK).
  unfold handleSyscall, handleClose, handleSocket, handleDupLike, handleGetpeername, writeOriginalPeername, Close, Dup, insertState.
  destruct (gpr_WritePeername _) as [write|] eqn:E; [pose proof (fun d => W write d eq_refl)|]; egress_steps.
Qed.
End requests.

(** ** Waiting for a connect *)

Definition EINTR : Z := 4.
Definition EWOULDBLOCK : Z := EAGAIN.
Definition ETIMEDOUT : Z := 110.
(** One round: SO_ERROR, the time left after it is read off the clock, and what
    [poll] answers to the timeout it is given. *)
Record connect_round := { cr_so_error : gerror + Z; cr_clock : Z; cr_poll : Z -> gerror + Z }.
(** What a round does: [Some] ends the loop. *)
Definition so_error_result (r : gerror + Z) : option (option gerror) :=
  match r with
  | inr 0 => Some None
  | inr n => if (n =? EINPROGRESS) || (n =? EALREADY) || (n =? EWOULDBLOCK) then None else Some (Some (EErrno n))
  | inl e => if bool_decide (e = EErrno EINTR) then None else Some (Some e)
  end.
Definition poll_timeout (remaining : Z) : Z :=
  let timeoutMs := remaining / Millisecond in
  if timeoutMs <? 1 then 1 else timeoutMs.
Definition poll_result (deadline : Z) (r : connect_round) : option (option gerror) :=
  let remaining := deadline - cr_clock r in
  if remaining <=? 0 then Some (Some (EErrno ETIMEDOUT)) else
  match cr_poll r (poll_timeout remaining) with
  | inl e => if bool_decide (e = EErrno EINTR) then None else Some (Some e)
  | inr n => if n =? 0 then Some (Some (EErrno ETIMEDOUT)) else None
  end.
Fixpoint connect_loop (deadline : Z) (rounds : list connect_round) : option (option gerror) :=
  match rounds with
  | [] => None
  | r :: rounds =>
      match so_error_result (cr_so_error r) with
      | Some result => Some result
      | None => match poll_result deadline r with Some result => Some result | None => connect_loop deadline rounds end
      end
  end.
Definition waitForConnectComplete (fd timeout clock : Z) (rounds : list connect_round) : option (option gerror) :=
  if fd <? 0 then Some (Some (EErrno EBADF)) else
  let timeout := if timeout <=? 0 then 2 * Second else timeout in
  connect_loop (clock + timeout) rounds.

(** ** The local address of a connected socket *)

(** [unix.Getsockname]: an address of one of the two families, another kind of
    address with its Go type, or an error. *)
Inductive sockname := SockName (sa : Sockaddr) | OtherName (go_type : string).
Definition getsocknameString `{GoLib} (r : gerror + sockname) : gerror + string :=
  match r with
  | inl e => inl e
  | inr (SockName (SockaddrInet4 port addr)) => inr (JoinHostPort (IP_String addr) (Itoa port))
  | inr (SockName (SockaddrInet6 port addr)) => inr (JoinHostPort (IP_String addr) (Itoa port))
  | inr (OtherName t) => inl (EOther ("unsupported getsockname sockaddr " +:+ t))
  end.
Fixpoint sockname_loop `{GoLib} (deadline : Z) (rounds : list ((gerror + sockname) * Z)) : option (gerror + string) :=
  match rounds with
  | [] => None
  | (r, clock) :: rounds =>
      let addr := getsocknameString r in
      match addr with
      | inr a => if bool_decide (a = "") then if deadline <? clock then Some (inr "") else sockname_loop deadline rounds else Some (inr a)
      | inl e => if deadline <? clock then Some (inl e) else sockname_loop deadline rounds
      end
  end.
Definition getsocknameStringWithRetry `{GoLib} (timeout clock : Z) (rounds : list ((gerror + sockname) * Z)) : option (gerror + string) :=
  if timeout <=? 0 then match rounds with [] => None | (r, _) :: _ => Some (getsocknameString r) end
  else sockname_loop (clock + timeout) rounds.

(** ** What the loops return *)

Definition connect_deadline (timeout clock : Z) : Z := clock + (if timeout <=? 0 then 2 * Second else timeout).
(** A round that leaves the question open: the connect is pending or the call was
    interrupted, there is time left, and [poll] saw an event or was interrupted. *)
Definition undecided (deadline : Z) (r : connect_round) : Prop :=
  (cr_so_error r = inl (EErrno EINTR) \/ exists n, cr_so_error r = inr n /\ n ∈ [EINPROGRESS; EALREADY; EAGAIN]) /\
  cr_clock r < deadline /\
  (cr_poll r (poll_timeout (deadline - cr_clock r)) = inl (EErrno EINTR) \/
   exists n, cr_poll r (poll_timeout (deadline - cr_clock r)) = inr n /\ n <> 0).
Lemma so_error_open r : so_error_result r = None <-> r = inl (EErrno EINTR) \/ exists n, r = inr n /\ n ∈ [EINPROGRESS; EALREADY; EAGAIN].
Proof.
  unfold so_error_result. destruct r as [e|n].
  - case_bool_decide; split; try done; [by left; subst|]. intros [[= ->]|(n & [=] & _)]. done.
  - transitivity (n ∈ [EINPROGRESS; EALREADY; EAGAIN]).
    2: { split; [eauto|]. by intros [[=]|(? & [= <-] & ?)]. }
    rewrite !elem_of_cons. destruct (Z.eqb_spec n EINPROGRESS); [subst; vm_compute; intuition congruence|].
    destruct (Z.eqb_spec n EALREADY); [subst; vm_compute; intuition congruence|].
    destruct (Z.eqb_spec n EWOULDBLOCK); [subst; vm_compute; intuition congruence|].
    cbn [orb]. split; [by destruct n|]. intros [?|[?|[?|?]]]; try done. by apply elem_of_nil in H.
Qed.
Lemma so_error_done r : so_error_result r = Some None <-> r = inr 0.
Proof.
  unfold so_error_result. destruct r as [e|n]; [by case_bool_decide|]. destruct n; [done|..]; destruct (_ || _); split; congruence.
Qed.
Lemma poll_open deadline r : poll_result deadline r = None <->
  cr_clock r < deadline /\ (cr_poll r (poll_timeout (deadline - cr_clock r)) = inl (EErrno EINTR) \/
    exists n, cr_poll r (poll_timeout (deadline - cr_clock r)) = inr n /\ n <> 0).
Proof.
  unfold poll_result. destruct (Z.leb_spec (deadline - cr_clock r) 0); [split; [done|lia]|].
  assert (cr_clock r < deadline) by lia. destruct (cr_poll r _) as [e|n].
  - case_bool_decide as E; split; try done; [subst; eauto|]. by intros [_ [[= ->]|(n & [=] & _)]].
  - destruct (Z.eqb_spec n 0); split; try done; [|eauto]. intros [_ [[=]|(m & [= <-] & ?)]]. done.
Qed.
Lemma poll_never_ok deadline r : poll_result deadline r <> Some None.
Proof. unfold poll_result. destruct (_ <=? _); [done|]. destruct (cr_poll r _) as [e|n]; [case_bool_decide|destruct (n =? 0)]; done. Qed.
Lemma undecided_open deadline r : so_error_result (cr_so_error r) = None /\ poll_result deadline r = None <-> undecided deadline r.
Proof. unfold undecided. by rewrite so_error_open, poll_open. Qed.

(** C35. A redirected connect is reported as established only on the kernel's word, and never waits past its deadline:
    the wait returns no error exactly when, after rounds that left the question open, SO_ERROR was read as 0; and once a
    round sees the clock at the deadline the wait has returned. *)
Theorem connect_wait_exact fd timeout clock rounds :
  let deadline := connect_deadline timeout clock in
  (waitForConnectComplete fd timeout clock rounds = Some None <->
     0 <= fd /\ exists before r after,
       rounds = before ++ r :: after /\ Forall (undecided deadline) before /\ cr_so_error r = inr 0) /\
  (Exists (fun r => deadline <= cr_clock r) rounds -> is_Some (waitForConnectComplete fd timeout clock rounds)).
Proof.
  cbv zeta. unfold waitForConnectComplete. change (clock + _) with (connect_deadline timeout clock).
  set (deadline := connect_deadline timeout clock). destruct (Z.ltb_spec fd 0); [split; [split; [done|lia]|eauto]|]. split.
  - transitivity (exists before r after, rounds = before ++ r :: after /\ Forall (undecided deadline) before /\ cr_so_error r = inr 0).
    2: { split; [done|]. by intros [_ ?]. }
    induction rounds as [|r rounds IH]; cbn [connect_loop].
    { split; [done|]. by intros ([|] & ? & ? & ? & _). }
    destruct (so_error_result (cr_so_error r)) as [res|] eqn:S.
    + split.
      * intros [= ->]. apply so_error_done in S. by exists [], r, rounds.
      * intros ([|b before] & r' & after & [= <- ->] & F & E); [by apply so_error_done in E; congruence|].
        apply Forall_cons in F as [F _]. apply undecided_open in F as [F _]. congruence.
    + destruct (poll_result deadline r) as [res|] eqn:Q.
      * split; [intros [= ->]; by apply poll_never_ok in Q|].
        intros ([|b before] & r' & after & [= <- ->] & F & E); [by apply so_error_done in E; congruence|].
        apply Forall_cons in F as [F _]. apply undecided_open in F as [_ F]. congruence.
      * rewrite IH. split.
        -- intros (before & r' & after & -> & F & E). exists (r :: before), r', after. split; [done|]. split; [|done].
           constructor; [by apply undecided_open|done].
        -- intros ([|b before] & r' & after & [= <- ->] & F & E); [by apply so_error_done in E; congruence|].
           apply Forall_cons in F as [_ F]. eauto 6.
  - intros X. induction X as [r rounds X|r rounds X IH]; cbn [connect_loop]; (destruct (so_error_result _); [eauto|]).
    + unfold poll_result. replace (deadline - cr_clock r <=? 0) with true by lia. eauto.
    + destruct (poll_result _ _); eauto.
Qed.
(** The address of a redirected socket is looked for until just past the deadline. *)
Lemma sockname_wait_ends `{GoLib} timeout clock rounds :
  Exists (fun r => clock + timeout < r.2) rounds -> is_Some (getsocknameStringWithRetry timeout clock rounds).
Proof.
  intros X. unfold getsocknameStringWithRetry. destruct (_ <=? _); [destruct X as [[? ?]|[? ?]]; eauto|].
  induction X as [[r t] rounds X|[r t] rounds X IH]; cbn [sockname_loop snd] in *; destruct (getsocknameString r) as [e|a];
    try case_bool_decide; rewrite ?(proj2 (Z.ltb_lt _ _)) by lia; eauto; destruct (_ <? t); eauto.
Qed.
(** A pending connect that the kernel completes in the second round. *)
Definition sample_rounds : list connect_round := [
  {| cr_so_error := inr EINPROGRESS; cr_clock := 1; cr_poll := fun t => if t =? 1999 then inr 1 else inl (EErrno EINVAL) |};
  {| cr_so_error := inr 0; cr_clock := 3 * Second; cr_poll := fun _ => inr 0 |}].
Lemma connect_wait_exact_witness :
  waitForConnectComplete 7 0 0 sample_rounds = Some None /\ is_Some (waitForConnectComplete 7 0 0 sample_rounds).
Proof.
  split; [reflexivity|]. apply (connect_wait_exact 7 0 0 sample_rounds). apply Exists_cons_tl, Exists_cons_hd. vm_compute. discriminate.
Defined.

(** ** Argument vectors *)

Definition NUL : Ascii.ascii := char_of 0.
Fixpoint has_nul (s : string) : bool := match s with "" => false | String c s => bool_decide (c = NUL) || has_nul s end.
(** [unix.BytePtrFromString]: the bytes with a NUL after them. *)
Definition BytePtrFromString (s : string) : result string := if has_nul s then Err "invalid argument" else Ok (s +:+ String NUL "").
(** The memory behind each pointer of the array; [None] is the nil at its end. *)
Fixpoint c_strings (values : list string) : result (list (option string)) :=
  match values with
  | [] => Ok []
  | v :: values => ptr <-! BytePtrFromString v; ptrs <-! c_strings values; Ok (Some ptr :: ptrs)
  end.
Definition cStringArray (values : list string) : result (list (option string)) := ptrs <-! c_strings values; Ok (ptrs ++ [None]).
(** The system call returns only with an error. *)
Record execveatCall := { ex_fd : Z; ex_path : string; ex_argv : list (option string); ex_env : list (option string); ex_emptyPath : bool }.
Definition execveatLauncherFromFD (fd : Z) (argv env : list string) : result execveatCall :=
  if fd <? 0 then Err "launcher fd must be non-negative" else
  if bool_decide (argv = []) then Err "launcher argv is required" else
  argvPtrs <-! cStringArray argv;
  envPtrs <-! cStringArray env;
  Ok {| ex_fd := fd; ex_path := String NUL ""; ex_argv := argvPtrs; ex_env := envPtrs; ex_emptyPath := true |}.
Definition launcher_Run `{GoLib} (args environ : list string) : result execveatCall :=
  parsed <-! launcher_parseFlags args;
  execveatLauncherFromFD parsed.1 parsed.2 environ.

(** What the kernel copies: each string up to its NUL, up to the nil pointer. *)
Fixpoint c_string (memory : string) : string := match memory with "" => "" | String c s => if bool_decide (c = NUL) then "" else String c (c_string s) end.
Fixpoint copy_strings (ptrs : list (option string)) : list string :=
  match ptrs with Some memory :: ptrs => c_string memory :: copy_strings ptrs | _ => [] end.

Lemma c_string_exact s rest : has_nul s = false -> c_string (s +:+ String NUL rest) = s.
Proof.
  induction s as [|c s IH]; [done|]. rewrite string_app_cons. cbn [has_nul c_string]. intros [N E]%orb_false_iff. rewrite N. by rewrite IH.
Qed.
Lemma cStringArray_exact values :
  match cStringArray values with
  | Ok ptrs => existsb has_nul values = false /\ copy_strings ptrs = values /\ length ptrs = S (length values)
  | Err _ => existsb has_nul values = true
  end.
Proof.
  unfold cStringArray. induction values as [|v values IH]; [done|]. cbn [c_strings existsb]. unfold BytePtrFromString.
  destruct (has_nul v) eqn:N; [done|]. cbn [result_bind]. destruct (c_strings values) as [ptrs|e]; cbn [result_bind] in *; [|done].
  destruct IH as (E & C & L). split; [done|]. cbn [app copy_strings length]. rewrite c_string_exact, C, L by done. done.
Qed.
(** The image is entered with exactly the arguments and the environment the
    launcher was given, through the descriptor alone. *)
Lemma launcher_enters_exactly `{GoLib} args environ call : launcher_Run args environ = Ok call ->
  exists fd argv, launcher_parseFlags args = Ok (fd, argv) /\ ex_fd call = fd /\ 0 <= fd /\ argv <> [] /\
    copy_strings (ex_argv call) = argv /\ copy_strings (ex_env call) = environ /\ c_string (ex_path call) = "" /\ ex_emptyPath call = true.
Proof.
  unfold launcher_Run, execveatLauncherFromFD. destruct (launcher_parseFlags args) as [[fd argv]|e]; [|done]. cbn [result_bind fst snd].
  destruct (Z.ltb_spec fd 0); [done|]. case_bool_decide as A; [done|]. pose proof (cStringArray_exact argv) as X. pose proof (cStringArray_exact environ) as Y.
  destruct (cStringArray argv) as [argvPtrs|e]; [|done]. cbn [result_bind]. destruct (cStringArray environ) as [envPtrs|e]; [|done]. cbn [result_bind].
  intros [= <-]. destruct X as (_ & X & _), Y as (_ & Y & _). exists fd, argv. cbn. repeat (split; [done|]). done.
Qed.

(** ** A descriptor request *)

Record seccompNotifAddFD := { af_ID : Z; af_Flags : Z; af_SrcFD : Z; af_NewFD : Z; af_NewFDFlags : Z }.
(** The structure in memory, little-endian. *)
Definition addfd_bytes (r : seccompNotifAddFD) : list Z :=
  le_enc 8 (af_ID r) ++ le_enc 4 (af_Flags r) ++ le_enc 4 (af_SrcFD r) ++ le_enc 4 (af_NewFD r) ++ le_enc 4 (af_NewFDFlags r).
Definition SECCOMP_IOCTL_NOTIF_ADDFD : Z := 0x40182103.
(** [ioctl]: the request and the structure it reads. *)
Definition addfd_result (ioctl : Z -> Z -> list Z -> gerror + Z) (notifyFD reqID srcFD newFD flags newFDFlags : Z) : gerror + Z :=
  if notifyFD <? 0 then inl (EOther "notify fd must be non-negative") else
  if srcFD <? 0 then inl (EOther "source fd must be non-negative") else
  let request := {| af_ID := reqID; af_Flags := flags; af_SrcFD := srcFD mod 2 ^ 32; af_NewFD := newFD; af_NewFDFlags := newFDFlags |} in
  match ioctl notifyFD SECCOMP_IOCTL_NOTIF_ADDFD (addfd_bytes request) with
  | inl errno => inl errno
  | inr r1 => if negb (af_NewFD request =? 0) then inr (af_NewFD request) else inr r1
  end.
Definition AddFD (ioctl : Z -> Z -> list Z -> gerror + Z) (notifyFD reqID srcFD newFD flags newFDFlags : Z) : option gerror :=
  match addfd_result ioctl notifyFD reqID srcFD newFD flags newFDFlags with inl e => Some e | inr _ => None end.
(** The size that the request number carries is that of the structure. *)
Lemma addfd_size r : Z.of_nat (length (addfd_bytes r)) = Z.land (Z.shiftr SECCOMP_IOCTL_NOTIF_ADDFD 16) 0x3fff.
Proof. reflexivity. Qed.
