(* ===== verification/HelperModes.v ===== *)
(** The helper process as a whole: [helperentrypoint.Run], [helperruntime.Run],
    the two traffic modes (src/internal/helperruntime/proxy_mode.go and
    transparent_mode.go) and the [bridge] that ties the message bridge, the command
    execution and the transparent network together (exec_manager.go,
    transparent_net.go).

    [net.Listen] is a parameter: the address a listener is bound to, or an error.
    A mode blocks in a [select]: which of its channels is ready first is an input. *)
From S2P Require Import Prelude GoStrings StringLemmas GoNet Sys Sockaddr Kernel Supervisor Egress TransparentNet Access Manager Messages Bridge Exec Ingress GoPath HostFS Mounts Assembly GoFlag Launcher LauncherTheorems Sample.

(** ** Configuration *)

(** The logger is left out; [hc_Bridge] says that there is a bridge. *)
Record helperConfig := {
  hc_Bridge : bool; hc_TrafficMode : string; hc_ProxyAddr : string; hc_MITMEnabled : bool; hc_MaxRequestBodyBytes : Z;
  hc_PayloadSeccompBPFPath : string }.
Definition withDefaults (cfg : helperConfig) : helperConfig := {|
  hc_Bridge := hc_Bridge cfg;
  hc_TrafficMode := if bool_decide (hc_TrafficMode cfg = "") then TrafficModeProxy else hc_TrafficMode cfg;
  hc_ProxyAddr := hc_ProxyAddr cfg; hc_MITMEnabled := hc_MITMEnabled cfg;
  hc_MaxRequestBodyBytes := hc_MaxRequestBodyBytes cfg; hc_PayloadSeccompBPFPath := hc_PayloadSeccompBPFPath cfg |}.

(** ** The bridge *)

Record bridge := {
  hb_runtime : RuntimeBridge; hb_trafficMode : string; hb_dnsAddr : string; hb_tcpAddr : string;
  hb_rawTCPAddr : string; hb_rawTCPAddrV6 : string; hb_mitmEnabled : bool; hb_maxRequestBodyBytes : Z;
  hb_payloadSeccompBPFPath : string; hb_exec : execManager; hb_transparent : transparentNet }.
Definition newBridge (proxyAddr : string) : bridge := {|
  hb_runtime := new_bridge proxyAddr; hb_trafficMode := ""; hb_dnsAddr := ""; hb_tcpAddr := "";
  hb_rawTCPAddr := ""; hb_rawTCPAddrV6 := ""; hb_mitmEnabled := false; hb_maxRequestBodyBytes := 0;
  hb_payloadSeccompBPFPath := ""; hb_exec := newExecManager; hb_transparent := newTransparentNet |}.
(** [readLoop] before it hands over to the runtime bridge's loop. *)
Definition readLoop (b : bridge) : bridge := {|
  hb_runtime := SetExecHandlers (SetReadyAddrs (hb_dnsAddr b) (hb_tcpAddr b) (hb_runtime b));
  hb_trafficMode := hb_trafficMode b; hb_dnsAddr := hb_dnsAddr b; hb_tcpAddr := hb_tcpAddr b;
  hb_rawTCPAddr := hb_rawTCPAddr b; hb_rawTCPAddrV6 := hb_rawTCPAddrV6 b; hb_mitmEnabled := hb_mitmEnabled b;
  hb_maxRequestBodyBytes := hb_maxRequestBodyBytes b; hb_payloadSeccompBPFPath := hb_payloadSeccompBPFPath b;
  hb_exec := hb_exec b; hb_transparent := hb_transparent b |}.
Definition with_transparent (n : transparentNet) (b : bridge) : bridge := {|
  hb_runtime := hb_runtime b; hb_trafficMode := hb_trafficMode b; hb_dnsAddr := hb_dnsAddr b; hb_tcpAddr := hb_tcpAddr b;
  hb_rawTCPAddr := hb_rawTCPAddr b; hb_rawTCPAddrV6 := hb_rawTCPAddrV6 b; hb_mitmEnabled := hb_mitmEnabled b;
  hb_maxRequestBodyBytes := hb_maxRequestBodyBytes b; hb_payloadSeccompBPFPath := hb_payloadSeccompBPFPath b;
  hb_exec := hb_exec b; hb_transparent := n |}.

(** The callbacks are always set; the notification descriptor is the supervisor's. *)
Definition transparentRuntime (notifyFD : Z) (b : bridge) : RuntimeTargets * string :=
  ({| DNSRoundTrip_set := true; RawTCPAddr := hb_rawTCPAddr b; RawTCPAddrV6 := hb_rawTCPAddrV6 b;
      RecordRawTCPOrigin_set := true; notifyFD := notifyFD |}, hb_payloadSeccompBPFPath b).
(** How [handleExec] runs a command. *)
Inductive exec_route := Supervised (targets : RuntimeTargets) (payloadSeccomp : string) | Launched (payloadSeccomp : string).
Definition handleExec_route (notifyFD : Z) (b : bridge) : exec_route :=
  if bool_decide (hb_trafficMode b = TrafficModeTransparent)
  then let targets := transparentRuntime notifyFD b in Supervised targets.1 targets.2
  else Launched (hb_payloadSeccompBPFPath b).
Definition clearCurrentExec (id : Z) (current : option Z) : option Z :=
  match current with
  | Some current => if negb (current =? id) then Some current else None
  | None => None
  end.

Section net.
Context `{GoLib} `{DNSMessages}.

(** [call]: what the runtime bridge's DNSRoundTrip returned for the request. *)
Definition bridge_dnsRoundTrip (clock : Z) (call : DNSRequest -> result string) (network host : string) (port : Z) (payload : string)
    (b : bridge) : result string * bridge :=
  match call {| dq_Network := network; dq_Host := host; dq_Port := port; dq_Payload := payload |} with
  | Err e => (Err e, b)
  | Ok reply => (Ok reply, with_transparent (rememberDNSResolution clock payload reply (hb_transparent b)) b)
  end.
Definition bridge_recordRawTCPOrigin (clock : Z) (localAddr host : string) (port : Z) (b : bridge) : bridge :=
  with_transparent (recordRawTCPOrigin clock localAddr host port (hb_transparent b)) b.
(** The destination with which an accepted connection is served: the recorded
    one, or none. *)
Definition handleTransparentTCPConn (clock : Z) (remoteAddr : string) (polls : list (Z * (transparentNet -> transparentNet))) (b : bridge)
    : option ((string * Z) * bridge) :=
  match waitRawTCPOrigin clock remoteAddr rawTCPOriginLookupTimeout polls (hb_transparent b) with
  | None => None
  | Some (Some dest, n) => Some ((rd_host dest, rd_port dest), with_transparent n b)
  | Some (None, n) => Some (("", 0), with_transparent n b)
  end.
End net.

(** ** The modes *)

(** An error on the channel; [ce_text] is [None] for a nil error. *)
Record chanError := { ce_text : option string; ce_eof : bool; ce_closed : bool }.
Inductive selected := CtxDone | Reported (e : chanError).
Definition select_result (s : selected) : result unit :=
  match s with
  | CtxDone => Ok tt
  | Reported e => if ce_eof e || ce_closed e then Ok tt else match ce_text e with None => Ok tt | Some t => Err t end
  end.
(** What the goroutine that serves the proxy's listener reports. *)
Definition serve_report (err : chanError) (serverClosed : bool) : option chanError :=
  match ce_text err with
  | None => None
  | Some t => if serverClosed then None
              else Some {| ce_text := Some ("serve proxy listener: " +:+ t); ce_eof := ce_eof err; ce_closed := ce_closed err |}
  end.
Inductive modeEvent := Listening (addr : string) | ListenerClosed (addr : string) | ServingHTTP (addr : string)
  | ServingRaw (addr : string) | ReadingBridge.

Section modes.
Context `{GoLib} (listen : string -> string -> result string).

Definition proxy_bridge (cfg : helperConfig) (addr : string) : bridge :=
  let b := newBridge addr in {|
  hb_runtime := hb_runtime b; hb_trafficMode := TrafficModeProxy; hb_dnsAddr := hb_dnsAddr b; hb_tcpAddr := hb_tcpAddr b;
  hb_rawTCPAddr := hb_rawTCPAddr b; hb_rawTCPAddrV6 := hb_rawTCPAddrV6 b; hb_mitmEnabled := hc_MITMEnabled cfg;
  hb_maxRequestBodyBytes := hc_MaxRequestBodyBytes cfg; hb_payloadSeccompBPFPath := hc_PayloadSeccompBPFPath cfg;
  hb_exec := hb_exec b; hb_transparent := hb_transparent b |}.
(** The bridge while the mode runs, the events, and the result. A goroutine that
    waits for the context shuts the server and the bridge down as well; it ends the
    other goroutines and has no part in the result. *)
Definition runProxyMode (cfg : helperConfig) (sel : selected) : option bridge * list modeEvent * result unit :=
  let addr := if bool_decide (hc_ProxyAddr cfg = "") then DefaultProxyAddr else hc_ProxyAddr cfg in
  match listen "tcp" addr with
  | Err e => (None, [], Err ("listen on proxy address " +:+ Quote addr +:+ ": " +:+ e))
  | Ok bound =>
      (Some (readLoop (proxy_bridge cfg bound)),
       [Listening bound; ServingHTTP bound; ReadingBridge; ListenerClosed bound], select_result sel)
  end.

Definition listenOptionalLoopbackTCP6 : option string :=
  match listen "tcp6" "[::1]:0" with Ok addr => Some addr | Err _ => None end.
Definition transparent_bridge (cfg : helperConfig) (rawTCPAddr : string) (rawTCPAddrV6 : option string) : bridge :=
  let b := newBridge "" in {|
  hb_runtime := hb_runtime b; hb_trafficMode := TrafficModeTransparent; hb_dnsAddr := hb_dnsAddr b; hb_tcpAddr := rawTCPAddr;
  hb_rawTCPAddr := rawTCPAddr; hb_rawTCPAddrV6 := default (hb_rawTCPAddrV6 b) rawTCPAddrV6; hb_mitmEnabled := hc_MITMEnabled cfg;
  hb_maxRequestBodyBytes := hc_MaxRequestBodyBytes cfg; hb_payloadSeccompBPFPath := hc_PayloadSeccompBPFPath cfg;
  hb_exec := hb_exec b; hb_transparent := hb_transparent b |}.
Definition runTransparentMode (cfg : helperConfig) (sel : selected) : option bridge * list modeEvent * result unit :=
  match listen "tcp" "127.0.0.1:0" with
  | Err e => (None, [], Err ("listen on transparent TCP ingress: " +:+ e))
  | Ok raw =>
      let raw6 := listenOptionalLoopbackTCP6 in
      let v6 (f : string -> modeEvent) := match raw6 with Some a => [f a] | None => [] end in
      (Some (readLoop (transparent_bridge cfg raw raw6)),
       [Listening raw] ++ v6 Listening ++ [ServingRaw raw] ++ v6 ServingRaw ++ [ReadingBridge] ++ v6 ListenerClosed ++ [ListenerClosed raw],
       select_result sel)
  end.
(** [serveRawTCPListener]: the accepted connections are handed on one by one, up to
    the error that ends the loop. *)
Fixpoint serveRawTCPListener {C} (accepts : list (result C)) : list C * option string :=
  match accepts with
  | [] => ([], None)
  | Err e :: _ => ([], Some e)
  | Ok conn :: accepts => let '(conns, e) := serveRawTCPListener accepts in (conn :: conns, e)
  end.

Definition Run (cfg : helperConfig) (sel : selected) : option bridge * list modeEvent * result unit :=
  if negb (hc_Bridge cfg) then (None, [], Err "bridge is required") else
  let cfg := withDefaults cfg in
  if bool_decide (hc_TrafficMode cfg = TrafficModeProxy) then runProxyMode cfg sel
  else if bool_decide (hc_TrafficMode cfg = TrafficModeTransparent) then runTransparentMode cfg sel
  else (None, [], Err ("unsupported traffic mode " +:+ Quote (hc_TrafficMode cfg))).

(** ** The process *)

(** [newFile]: whether [os.NewFile] gives a file for the descriptor. *)
Definition OpenBridgeFromFD (newFile : Z -> bool) (fd : Z) : result unit :=
  if fd <? 0 then Err "bridge fd must be non-negative"
  else if negb (newFile fd) then Err ("bridge fd " +:+ Itoa fd +:+ " is invalid") else Ok tt.
Definition helper_Run (newFile : Z -> bool) (args : list string) (sel : selected) : option bridge * list modeEvent * result unit :=
  match helper_parseFlags args with
  | Err e => (None, [], Err e)
  | Ok parsed =>
      match OpenBridgeFromFD newFile (hf_bridgeFD parsed) with
      | Err e => (None, [], Err e)
      | Ok _ =>
          Run {| hc_Bridge := true; hc_TrafficMode := hf_trafficMode parsed; hc_ProxyAddr := hf_proxyAddr parsed;
                 hc_MITMEnabled := hf_mitmEnabled parsed; hc_MaxRequestBodyBytes := hf_maxRequestBodyBytes parsed;
                 hc_PayloadSeccompBPFPath := hf_payloadSeccompBPF parsed |} sel
      end
  end.
End modes.

(** ** Listeners *)

Definition opened_listeners (events : list modeEvent) : list string := omap (fun e => match e with Listening a => Some a | _ => None end) events.
Definition closed_listeners (events : list modeEvent) : list string := omap (fun e => match e with ListenerClosed a => Some a | _ => None end) events.
Definition served_listeners (events : list modeEvent) : list string :=
  omap (fun e => match e with ServingHTTP a | ServingRaw a => Some a | _ => None end) events.
(** However a helper ends, it has served and closed every listener that it opened. *)
Lemma run_listeners `{GoLib} listen cfg sel :
  let events := (Run listen cfg sel).1.2 in
  served_listeners events = opened_listeners events /\ closed_listeners events ≡ₚ opened_listeners events.
Proof.
  cbv zeta. unfold Run, runProxyMode, runTransparentMode. destruct (negb _); [done|].
  case_bool_decide; [by destruct (listen _ _)|]. case_bool_decide; [|done]. destruct (listen "tcp" "127.0.0.1:0"); [|done].
  destruct (listenOptionalLoopbackTCP6 listen); [|done]. split; [done|]. cbn. apply Permutation_swap.
Qed.

(** ** A helper in the transparent mode *)

Definition loopback4 : list Z := [127; 0; 0; 1].
Definition loopback6 : list Z := [0;0;0;0;0;0;0;0;0;0;0;0;0;0;0;1].
(** What [net.Listen] documents: the address of a listener on a loopback address
    with port 0 is that address and a port that was free. *)
Record listen_laws (listen : string -> string -> result string) : Prop := {
  listen_v4 addr : listen "tcp" "127.0.0.1:0" = Ok addr -> exists p, 1 <= p <= 65535 /\ addr = JoinHostPort "127.0.0.1" (Itoa p);
  listen_v6 addr : listen "tcp6" "[::1]:0" = Ok addr -> exists p, 1 <= p <= 65535 /\ addr = JoinHostPort "::1" (Itoa p) }.
Lemma parse_listener `{GoLib} host p ip : free_of "[" host -> free_of "]" host -> ParseIP host = Some ip -> 1 <= p <= 65535 ->
  parseTCPAddr (JoinHostPort host (Itoa p)) =
  match To4 ip, To16 ip with
  | Some ip4, _ => inr (SockaddrInet4 p ip4)
  | None, Some ip16 => inr (SockaddrInet6 p ip16)
  | None, None => inl (EOther ("ingress host " +:+ Quote host +:+ " is not an IP address"))
  end.
Proof.
  intros F1 F2 I R. unfold parseTCPAddr. rewrite SplitHostPort_Join by (done || apply Itoa_digits; lia).
  rewrite Atoi_Itoa by (unfold max_int; lia). replace ((p <? 1) || (65535 <? p)) with false by lia. by rewrite I.
Qed.
Lemma parse_loopback4 `{GoLib} p : 1 <= p <= 65535 -> parseTCPAddr (JoinHostPort "127.0.0.1" (Itoa p)) = inr (SockaddrInet4 p loopback4).
Proof. intros R. by erewrite parse_listener by done. Qed.
Lemma parse_loopback6 `{GoLib} p : 1 <= p <= 65535 -> parseTCPAddr (JoinHostPort "::1" (Itoa p)) = inr (SockaddrInet6 p loopback6).
Proof. intros R. by erewrite parse_listener by done. Qed.

(** The listener of a socket address that the helper serves. *)
Definition own_listener (events : list modeEvent) (sa : Sockaddr) : Prop :=
  exists p, 1 <= p <= 65535 /\
    (sa = SockaddrInet4 p loopback4 /\ In (JoinHostPort "127.0.0.1" (Itoa p)) (served_listeners events) \/
     sa = SockaddrInet6 p loopback6 /\ In (JoinHostPort "::1" (Itoa p)) (served_listeners events)).

(** C5. What the manager asked for is what the helper enforces: started with the command line of a transparent sandbox,
    the helper either fails to listen, or runs every command under a supervisor that hands DNS to the bridge, installs
    the payload's filter, and connects sockets nowhere but to loopback listeners that the helper itself opened and serves. *)
Theorem transparent_helper_confined `{GoLib} listen newFile cfg sel notifyFD :
  listen_laws listen ->
  min_int <= bw_bridgeFD cfg <= max_int -> min_int <= bw_maxRequestBodyBytes cfg <= max_int ->
  OpenBridgeFromFD newFile (bw_bridgeFD cfg) = Ok tt ->
  normalizeTrafficMode (bw_trafficMode cfg) = TrafficModeTransparent ->
  exists flags, dispatch (tail (helper_command cfg)) = EntryHelper flags /\
  let '(helper, events, r) := helper_Run listen newFile flags sel in
  match helper with
  | None => exists e, r = Err e /\ opened_listeners events = []
  | Some b => exists targets,
      handleExec_route notifyFD b = Supervised targets (bw_payloadSeccompBPFPath cfg) /\
      DNSRoundTrip_set targets = true /\ RecordRawTCPOrigin_set targets = true /\
      targetsSupportFamilyIngress targets AF_INET = true /\
      (forall sa, ingress targets sa -> own_listener events sa)
  end.
Proof.
  intros L B R O T. destruct (helper_flags_read cfg B R) as (flags & D & F). exists flags. split; [done|].
  unfold helper_Run. rewrite F. cbn [hf_bridgeFD hf_trafficMode hf_proxyAddr hf_mitmEnabled hf_maxRequestBodyBytes hf_payloadSeccompBPF]. rewrite O, T.
  unfold Run, withDefaults. cbn [hc_Bridge negb hc_TrafficMode]. change (bool_decide (TrafficModeTransparent = "")) with false.
  cbv iota. change (bool_decide (TrafficModeTransparent = TrafficModeProxy)) with false.
  change (bool_decide (TrafficModeTransparent = TrafficModeTransparent)) with true. cbv iota. unfold runTransparentMode, listenOptionalLoopbackTCP6.
  destruct (listen "tcp" "127.0.0.1:0") as [raw|e] eqn:L4; [|eauto]. apply (listen_v4 _ L) in L4 as (p & P & ->).
  eexists. split; [reflexivity|]. split; [done|]. split; [done|]. split.
  { cbn. by rewrite bool_decide_eq_false_2. }
  intros [q a|q a]; cbn [ingress RawTCPAddr RawTCPAddrV6 transparentRuntime fst hb_rawTCPAddr hb_rawTCPAddrV6 readLoop transparent_bridge].
  - rewrite parse_loopback4 by done. intros [= <- <-]. exists p. split; [done|]. left. split; [done|].
    destruct (listen "tcp6" _); simpl; auto.
  - destruct (listen "tcp6" "[::1]:0") as [raw6|e] eqn:L6; [|done]. apply (listen_v6 _ L) in L6 as (p6 & P6 & ->). cbn [from_option id].
    rewrite parse_loopback6 by done. intros [= <- <-]. exists p6. split; [done|]. right. split; [done|]. simpl. auto.
Qed.

Module SampleModes.
#[local] Existing Instance sampleLib.
Definition listen (network addr : string) : result string :=
  if bool_decide (addr = "127.0.0.1:0") then Ok "127.0.0.1:40001" else if bool_decide (addr = "[::1]:0") then Ok "[::1]:40002" else Err "refused".
Lemma listen_ok : listen_laws listen.
Proof. split; intros addr [= <-]; [exists 40001|exists 40002]; (split; [lia|reflexivity]). Qed.
Lemma transparent_helper_confined_witness :
  exists flags, dispatch (tail (helper_command SampleLauncher.cfg)) = EntryHelper flags /\
  exists b events r targets,
    helper_Run listen (fun _ => true) flags CtxDone = (Some b, events, r) /\
    handleExec_route 9 b = Supervised targets "/run/filter.bpf" /\ RawTCPAddrV6 targets = "[::1]:40002" /\
    forall sa, ingress targets sa -> own_listener events sa.
Proof.
  destruct (transparent_helper_confined listen (fun _ => true) SampleLauncher.cfg CtxDone 9 listen_ok) as (flags & D & X);
    [unfold min_int, max_int; simpl; lia..|reflexivity|reflexivity|].
  exists flags. split; [exact D|]. injection D as <-.
  destruct (helper_Run _ _ _ _) as [[[b|] events] r] eqn:E; [|vm_compute in E; discriminate E].
  destruct X as (targets & A1 & A2 & A3 & A4 & A5). exists b, events, r, targets.
  split; [reflexivity|]. split; [exact A1|]. split; [|exact A5].
  vm_compute in E. injection E as <- <- <-. vm_compute in A1. injection A1 as <-. reflexivity.
Defined.
End SampleModes.
