(* ===== verification/Pumps.v ===== *)
(** Input on its way to a command: the options the command line builds from the
    terminal (src/cmd/bbox/command_exec.go), their translation for the helper's
    client (src/helper_client.go), the goroutines that copy the input and the
    terminal's sizes (src/internal/helperclient/run_session.go), and the same on
    macOS (src/sandbox_darwin_runtime.go).

    A reader is the list of what its reads return. [sends] tells, for each message,
    whether it can be sent; a message that was not sent is not in the result. *)
From S2P Require Import Prelude GoStrings StringLemmas GoNet Policy Access Manager Messages MitmCA HostClient Exec Sample.

(** ** Copying the input *)

Inductive readEnd := ReadMore | ReadEOF | ReadError.
Definition data_input (data : string) : ExecInput := {| xi_Data := data; xi_EOF := false; xi_Resize := None; xi_Cancel := false |}.
Definition eof_input : ExecInput := {| xi_Data := ""; xi_EOF := true; xi_Resize := None; xi_Cancel := false |}.
Definition resize_input (size : TerminalSize) : ExecInput := {| xi_Data := ""; xi_EOF := false; xi_Resize := Some size; xi_Cancel := false |}.

(** The inputs that were sent; [k] counts the messages. *)
Fixpoint pump_input (sends : nat -> bool) (k : nat) (reads : list (string * readEnd)) : list ExecInput :=
  match reads with
  | [] => []
  | (data, err) :: reads =>
      let after (k : nat) :=
        match err with
        | ReadEOF => if sends k then [eof_input] else []
        | ReadError => []
        | ReadMore => pump_input sends k reads
        end in
      if bool_decide (data = "") then after k
      else if sends k then data_input data :: after (S k) else []
  end.
Definition pumpRunInput (id : Z) (sends : nat -> bool) (reads : list (string * readEnd)) : list Envelope :=
  map (fun i => envelope id (MExecInput i)) (pump_input sends 0 reads).
Definition zero_size (size : TerminalSize) : bool := (ts_Rows size =? 0) && (ts_Cols size =? 0).
Fixpoint pump_sizes (sends : nat -> bool) (k : nat) (sizes : list TerminalSize) : list ExecInput :=
  match sizes with
  | [] => []
  | size :: sizes =>
      if zero_size size then pump_sizes sends k sizes
      else if sends k then resize_input size :: pump_sizes sends (S k) sizes else []
  end.
Definition pumpRunResize (id : Z) (sends : nat -> bool) (sizes : list TerminalSize) : list Envelope :=
  map (fun i => envelope id (MExecInput i)) (pump_sizes sends 0 sizes).
(** The goroutine copies until the context is done, after [n] sizes. *)
Definition convertResizeChannel (n : nat) (sizes : option (list TerminalSize)) : option (list TerminalSize) :=
  (fun sizes => map (fun s => {| ts_Rows := ts_Rows s; ts_Cols := ts_Cols s |}) (take n sizes)) <$> sizes.

(** On macOS the session is in the same process. *)
Fixpoint pumpDarwinInput (reads : list (string * readEnd)) (session : option Session) : option Session :=
  match reads with
  | [] => session
  | (data, err) :: reads =>
      let session := if bool_decide (data = "") then session else HandleInput false (data_input data) session in
      match err with
      | ReadEOF => HandleInput false eof_input session
      | ReadError => session
      | ReadMore => pumpDarwinInput reads session
      end
  end.
Fixpoint pumpDarwinResize (sizes : list TerminalSize) (session : option Session) : option Session :=
  match sizes with
  | [] => session
  | size :: sizes => pumpDarwinResize sizes (if zero_size size then session else HandleInput false (resize_input size) session)
  end.

(** ** Options *)

(** [buildCLIProcessRunOptions]: whether the input is a terminal, the outcome of
    putting it in raw mode, and its size. *)
Definition uint16 (n : Z) : Z := n mod 2 ^ 16.
Definition cli_size (size : result (Z * Z)) : TerminalSize :=
  let '(width, height) := match size with
                          | Ok (w, h) => if (w <=? 0) || (h <=? 0) then (80, 24) else (w, h)
                          | Err _ => (80, 24)
                          end in
  {| ts_Rows := uint16 height; ts_Cols := uint16 width |}.
Definition buildCLIProcessRunOptions (isTerminal : bool) (makeRaw : result unit) (size : result (Z * Z)) : result (RunOptions * bool) :=
  if negb isTerminal then
    Ok ({| op_Env := []; op_WorkDir := ""; op_Interactive := false; op_Stdin := true; op_Stdout := false; op_Stderr := false;
           op_Terminal := false; op_TerminalSize := {| ts_Rows := 0; ts_Cols := 0 |}; op_Resize := false |}, false)
  else
    match makeRaw with
    | Err e => Err ("configure terminal: " +:+ e)
    | Ok _ =>
        Ok ({| op_Env := []; op_WorkDir := ""; op_Interactive := true; op_Stdin := true; op_Stdout := true; op_Stderr := true;
               op_Terminal := true; op_TerminalSize := cli_size size; op_Resize := true |}, true)
    end.
(** [Sandbox.run]: the options of the runtime; [env] and [workDir] are those of
    [Sandbox_run]. *)
Definition run_options (env : list string) (workDir : string) (interactive : bool) (o : RunOptions) : RunOptions := {|
  op_Env := env; op_WorkDir := workDir; op_Interactive := op_Interactive o || interactive; op_Stdin := op_Stdin o;
  op_Stdout := op_Stdout o; op_Stderr := op_Stderr o; op_Terminal := op_Terminal o; op_TerminalSize := op_TerminalSize o;
  op_Resize := op_Resize o |}.
(** [helperClient.Run]: the options for the client, and its result. *)
Definition client_options (o : RunOptions) : RunOptions := {|
  op_Env := op_Env o; op_WorkDir := op_WorkDir o; op_Interactive := op_Interactive o; op_Stdin := op_Stdin o;
  op_Stdout := op_Stdout o; op_Stderr := op_Stderr o; op_Terminal := op_Terminal o;
  op_TerminalSize := {| ts_Rows := ts_Rows (op_TerminalSize o); ts_Cols := ts_Cols (op_TerminalSize o) |}; op_Resize := op_Resize o |}.
Definition helperClient_Run (run : RunOptions -> option RunResult * option string) (o : RunOptions) : option RunResult * option string :=
  let '(result, err) := run (client_options o) in
  match result with
  | None => (None, err)
  | Some r => (Some {| rr_ExitCode := rr_ExitCode r; rr_Stdout := rr_Stdout r; rr_Stderr := rr_Stderr r |}, err)
  end.

(** ** A run on each platform *)

(** [Client.Run] starts the pumps, one per goroutine, only for an interactive
    request; [sends] and [sends'] tell which of their messages can be sent. *)
Definition Run_pumps (sends sends' : nat -> bool) (argv : list string) (o : RunOptions) (reads : list (string * readEnd))
    (sizes : list TerminalSize) : list ExecInput * list ExecInput :=
  let interactive := xq_Interactive (exec_request argv o) in
  (if interactive && op_Stdin o then pump_input sends 0 reads else [],
   if interactive && op_Resize o then pump_sizes sends' 0 sizes else []).
(** [runDarwinCommand]: what it asks of [StartSession]. *)
Definition darwin_request (o : RunOptions) : ExecRequest := {|
  xq_Argv := []; xq_Env := []; xq_WorkDir := "";
  xq_Interactive := op_Interactive o || op_Stdin o || op_Stdout o || op_Stderr o || op_Terminal o || op_Resize o;
  xq_Terminal := op_Terminal o;
  xq_InitialSize := if (0 <? ts_Rows (op_TerminalSize o)) || (0 <? ts_Cols (op_TerminalSize o))
                    then Some {| ts_Rows := ts_Rows (op_TerminalSize o); ts_Cols := ts_Cols (op_TerminalSize o) |} else None |}.
(** The messages of the two pumps on the control channel, in either order. *)
Inductive interleaved {A} : list A -> list A -> list A -> Prop :=
| il_nil : interleaved [] [] []
| il_left x l1 l2 l : interleaved l1 l2 l -> interleaved (x :: l1) l2 (x :: l)
| il_right x l1 l2 l : interleaved l1 l2 l -> interleaved l1 (x :: l2) (x :: l).
(** The helper's read loop hands messages to [handleExecInput] while a goroutine
    runs [handleExec]: [k1] messages arrive before the command is started, [k2]
    between its start and [setCurrentExec], the others later. The writes to the
    session succeed. *)
Definition feed `{GoLib} (id : Z) (inputs : list ExecInput) (m : execManager) : execManager :=
  foldl (fun m i => handleExecInput false id i m) m inputs.
Definition make_current (m : execManager) : execManager :=
  match em_running m with Some x => em_set (Some (setCurrentExec x)) m | None => m end.
Definition linux_session `{GoLib} (os_Getwd : result string) (os_Stat : string -> option (bool * Z)) (id : Z) (req : ExecRequest)
    (k1 k2 : nat) (inputs : list ExecInput) : option Session :=
  let m := feed id (take k1 inputs) newExecManager in
  let m := handleExec_start os_Getwd os_Stat id req (Ok tt) m in
  let m := make_current (feed id (take k2 (drop k1 inputs)) m) in
  em_running (feed id (drop (k1 + k2) inputs) m) ≫= xs_session.
Definition darwin_session (o : RunOptions) (reads : list (string * readEnd)) : option Session :=
  let session := (StartSession (darwin_request o)).1 in
  if xq_Interactive (darwin_request o) && op_Stdin o then pumpDarwinInput reads session else session.

(** The goroutine that turns window changes into sizes: the channel holds one. *)
Inductive resizeEvent := WindowChanged (size : result (Z * Z)) | SizeTaken.
Definition changed_size (size : result (Z * Z)) : option TerminalSize :=
  match size with
  | Ok (width, height) => if (width <=? 0) || (height <=? 0) then None else Some {| ts_Rows := uint16 height; ts_Cols := uint16 width |}
  | Err _ => None
  end.
Fixpoint resize_goroutine (channel : option TerminalSize) (events : list resizeEvent) : list TerminalSize :=
  match events with
  | [] => []
  | WindowChanged size :: events =>
      resize_goroutine (match channel with Some queued => Some queued | None => changed_size size end) events
  | SizeTaken :: events => match channel with Some size => size :: resize_goroutine None events | None => resize_goroutine None events end
  end.

(** ** What is copied *)

(** What the reader gave up to the read that ended, and whether that was the end of
    the input. *)
Fixpoint reader_data (reads : list (string * readEnd)) : string :=
  match reads with
  | [] => ""
  | (data, err) :: reads => match err with ReadMore => data +:+ reader_data reads | _ => data end
  end.
Fixpoint reader_eof (reads : list (string * readEnd)) : bool :=
  match reads with
  | [] => false
  | (_, err) :: reads => match err with ReadMore => reader_eof reads | ReadEOF => true | ReadError => false end
  end.

(** A message that cannot be sent ends the copy; what was sent before is a prefix. *)
Lemma pump_input_prefix sends k reads : pump_input sends k reads `prefix_of` pump_input (fun _ => true) 0 reads.
Proof.
  assert (forall k', pump_input sends k reads `prefix_of` pump_input (fun _ => true) k' reads) as X; [|apply X].
  revert k. induction reads as [|[data err] reads IH]; intros k k'; cbn [pump_input]; [done|]. case_bool_decide.
  - destruct err; [auto|destruct (sends k)|]; auto using prefix_nil.
  - destruct (sends k); [|apply prefix_nil]. apply prefix_cons. destruct err; [auto|destruct (sends (S k))|]; auto using prefix_nil.
Qed.
Lemma pump_sizes_prefix sends k sizes : pump_sizes sends k sizes `prefix_of` map resize_input (List.filter (fun s => negb (zero_size s)) sizes).
Proof.
  revert k. induction sizes as [|s sizes IH]; intros k; cbn [pump_sizes List.filter]; [done|]. destruct (zero_size s); [apply IH|].
  cbn [negb map]. destruct (sends k); [|apply prefix_nil]. by apply prefix_cons.
Qed.
Definition fed (data : string) (eof : bool) (s : Session) : Session := {|
  ss_terminal := ss_terminal s; ss_stdin := ss_stdin s; ss_written := ss_written s +:+ data; ss_stdinClosed := eof && negb (ss_terminal s);
  ss_size := ss_size s; ss_ptyClosed := false |}.
Lemma HandleInput_data data s : ss_stdin s = true -> ss_stdinClosed s = false -> ss_ptyClosed s = false ->
  HandleInput false (data_input data) (Some s) = Some (fed data false s).
Proof.
  intros A B C. unfold HandleInput, fed. cbn [data_input xi_Data xi_Resize xi_EOF]. rewrite A, B, C.
  case_bool_decide; cbn; [|done]. subst. by rewrite string_app_nil_r.
Qed.
Lemma HandleInput_eof s : ss_stdin s = true -> ss_stdinClosed s = false -> ss_ptyClosed s = false ->
  HandleInput false eof_input (Some s) = Some (fed "" true s).
Proof. intros A B C. unfold HandleInput, fed. cbn. rewrite A, B, C. cbn. by rewrite string_app_nil_r. Qed.
Lemma fed_fed a b e s : fed b e (fed a false s) = fed (a +:+ b) e s.
Proof. unfold fed. cbn. by rewrite string_app_assoc. Qed.
Lemma pumpDarwinInput_exact reads s : ss_stdin s = true -> ss_stdinClosed s = false -> ss_ptyClosed s = false ->
  pumpDarwinInput reads (Some s) = Some (fed (reader_data reads) (reader_eof reads) s).
Proof.
  revert s. induction reads as [|[data err] reads IH]; intros s A B C; cbn [pumpDarwinInput reader_data reader_eof].
  { unfold fed. destruct s. cbn in *. subst. by rewrite string_app_nil_r. }
  assert ((if bool_decide (data = "") then Some s else HandleInput false (data_input data) (Some s)) = Some (fed data false s)) as ->.
  { rewrite HandleInput_data by done. case_bool_decide; [|done]. unfold fed. destruct s. cbn in *. subst. by rewrite string_app_nil_r. }
  destruct err; [rewrite IH by done; by rewrite fed_fed| |done].
  rewrite HandleInput_eof by done. by rewrite fed_fed, string_app_nil_r.
Qed.


(** *** Delivery by the helper *)

Section delivery.
Context `{GoLib}.

Fixpoint inputs_data (inputs : list ExecInput) : string :=
  match inputs with [] => "" | i :: inputs => xi_Data i +:+ inputs_data inputs end.
Lemma inputs_data_app a b : inputs_data (a ++ b) = inputs_data a +:+ inputs_data b.
Proof. induction a as [|i a IH]; cbn; [done|]. by rewrite IH, string_app_assoc. Qed.
Lemma pump_input_data k reads : inputs_data (pump_input (fun _ => true) k reads) = reader_data reads.
Proof.
  revert k. induction reads as [|[data err] reads IH]; intros k; cbn [pump_input reader_data]; [done|].
  case_bool_decide as B; [subst data|]; destruct err; cbn; rewrite ?IH, ?string_app_nil_r; done.
Qed.
Lemma pump_sizes_data sends k sizes : inputs_data (pump_sizes sends k sizes) = "".
Proof.
  revert k. induction sizes as [|s sizes IH]; intros k; cbn [pump_sizes]; [done|]. destruct (zero_size s); [apply IH|].
  destruct (sends k); [|done]. cbn. apply IH.
Qed.
Lemma interleaved_data (a b l : list ExecInput) : interleaved a b l -> inputs_data b = "" -> inputs_data l = inputs_data a.
Proof.
  induction 1 as [|x a b l _ IH|x a b l _ IH]; cbn; intros E; [done|by rewrite IH|].
  destruct (xi_Data x) eqn:D; [|done]. cbn in *. by apply IH.
Qed.
Lemma interleaved_elem {A} (a b l : list A) x : interleaved a b l -> x ∈ l -> x ∈ a \/ x ∈ b.
Proof. induction 1; set_solver. Qed.

(** No input of a pump cancels the command. *)
Lemma pump_input_plain sends k reads i : i ∈ pump_input sends k reads -> xi_Cancel i = false.
Proof.
  revert k. induction reads as [|[data err] reads IH]; intros k; cbn [pump_input]; [by intros ?%not_elem_of_nil|].
  assert (A : forall k, i ∈ match err with ReadEOF => if sends k then [eof_input] else [] | ReadError => [] | ReadMore => pump_input sends k reads end
            -> xi_Cancel i = false).
  { intros k'. destruct err; [apply IH| |by intros ?%not_elem_of_nil]. destruct (sends k'); [|by intros ?%not_elem_of_nil].
    by intros ->%list_elem_of_singleton. }
  case_bool_decide; [apply A|]. destruct (sends k); [|by intros ?%not_elem_of_nil]. intros [->|E]%elem_of_cons; [done|by eapply A].
Qed.
Lemma pump_sizes_plain sends k sizes i : i ∈ pump_sizes sends k sizes -> xi_Cancel i = false.
Proof.
  revert k. induction sizes as [|s sizes IH]; intros k; cbn [pump_sizes]; [by intros ?%not_elem_of_nil|]. destruct (zero_size s); [apply IH|].
  destruct (sends k); [|by intros ?%not_elem_of_nil]. intros [->|E]%elem_of_cons; [done|by eapply IH].
Qed.

(** Input that comes before the command is current is dropped. *)
Lemma feed_early id inputs m :
  match em_running m with Some x => xs_current x = false | None => True end -> feed id inputs m = m.
Proof.
  intros E. unfold feed. induction inputs as [|i inputs IH]; cbn [foldl]; [done|].
  assert (handleExecInput false id i m = m) as ->; [|done].
  unfold handleExecInput. destruct (em_running m) as [x|]; [by rewrite E|done].
Qed.
(** Afterwards a terminal gets all of it, in order. *)
Lemma feed_current id inputs m x s :
  em_running m = Some x -> xs_current x = true -> xs_id x = id -> xs_session x = Some s ->
  ss_terminal s = true -> ss_stdin s = true -> ss_stdinClosed s = false -> ss_ptyClosed s = false ->
  Forall (fun i => xi_Cancel i = false) inputs ->
  exists s', em_running (feed id inputs m) ≫= xs_session = Some s' /\ ss_terminal s' = true /\ ss_stdinClosed s' = false /\
    ss_written s' = ss_written s +:+ inputs_data inputs.
Proof.
  intros R C I S T A B D F. revert m x s R C I S T A B D. induction F as [|i inputs Ci F IH]; intros m x s R C I S T A B D.
  { exists s. unfold feed. cbn [foldl]. rewrite R. cbn. by rewrite S, string_app_nil_r. }
  unfold feed. cbn [foldl]. fold (feed id inputs (handleExecInput false id i m)).
  unfold handleExecInput. rewrite R, C, I, Z.eqb_refl, Ci. cbn [negb orb]. rewrite S.
  edestruct (IH (em_set (Some (with_session (HandleInput false i (Some s)) true (xs_cancelled x) x)) m)) as (s' & E & T' & B' & W);
    [reflexivity|reflexivity|exact I|cbn; reflexivity|done|done|cbn; by rewrite A, B, T, D, !andb_false_r|done|].
  exists s'. split; [exact E|]. split; [done|]. split; [done|]. rewrite W. cbn [ss_written inputs_data]. rewrite A, B, D, !orb_false_r, andb_true_r, andb_false_r.
  cbn [negb]. rewrite andb_true_r. case_bool_decide as N; cbn [negb]; [by rewrite N|by rewrite string_app_assoc].
Qed.
(** A command with a terminal, from its request to its last input. *)
Lemma linux_terminal_input os_Getwd os_Stat id req path k1 k2 inputs :
  xq_Interactive req = true -> xq_Terminal req = true -> xq_Argv req <> [] ->
  resolveExecCommandPath os_Getwd os_Stat (default "" (head (xq_Argv req))) (xq_Env req) (xq_WorkDir req) = Ok path ->
  Forall (fun i => xi_Cancel i = false) inputs ->
  exists s, linux_session os_Getwd os_Stat id req k1 k2 inputs = Some s /\ ss_terminal s = true /\ ss_stdinClosed s = false /\
    ss_written s = inputs_data (drop (k1 + k2) inputs).
Proof.
  intros I T NE P F. unfold linux_session. rewrite (feed_early id (take k1 inputs) newExecManager) by done.
  unfold handleExec_start. destruct (xq_Argv req) as [|name args]; [done|]. cbn in P. rewrite P.
  unfold StartSession. rewrite I, T. cbn [andb]. rewrite (feed_early id (take k2 (drop k1 inputs))) by done. unfold make_current. cbn [em_set em_running].
  match goal with |- context [feed id (drop _ _) ?m0] => edestruct (feed_current id (drop (k1 + k2) inputs) m0) as (s & E) end;
    [reflexivity..|by apply Forall_drop|by exists s].
Qed.
Lemma pump_input_all sends k k' reads : (forall k, sends k = true) -> pump_input sends k reads = pump_input (fun _ => true) k' reads.
Proof.
  intros A. revert k k'. induction reads as [|[data err] reads IH]; intros k k'; cbn [pump_input]; [done|].
  rewrite !A. case_bool_decide; [|f_equal]; destruct err; auto.
Qed.
End delivery.

(** C37. The command line's input on each platform, the reads of it in any pieces, as long as writes to the command's input
    succeed. On macOS all of it is written, in order, to the command's terminal or pipe, which is closed at its end. On Linux the
    input of a terminal is written to the command's terminal in order but for the messages that reach the helper before the command
    is current, which are dropped, whatever sizes are sent in between: what was dropped followed by what was written is what was
    sent, and that is everything read when every message could be sent, else a beginning of it. Input that is not a terminal is not
    read at all on Linux, where the run is then not interactive and the command gets no input. *)
Theorem cli_input_forwarded `{GoLib} os_Getwd os_Stat isTerminal raw size argv env dir reads sizes sends sends' o interactive id k1 k2 inputs path :
  buildCLIProcessRunOptions isTerminal raw size = Ok (o, interactive) ->
  let ro := run_options env dir interactive o in
  let req := exec_request argv (client_options ro) in
  resolveExecCommandPath os_Getwd os_Stat (default "" (head argv)) env dir = Ok path -> argv <> [] ->
  let pumps := Run_pumps sends sends' argv (client_options ro) reads sizes in
  interleaved pumps.1 pumps.2 inputs ->
  (exists s, darwin_session ro reads = Some s /\ ss_terminal s = isTerminal /\ ss_written s = reader_data reads /\
     ss_stdinClosed s = reader_eof reads && negb isTerminal) /\
  (if isTerminal
   then exists s, linux_session os_Getwd os_Stat id req k1 k2 inputs = Some s /\ ss_terminal s = true /\ ss_stdinClosed s = false /\
     inputs_data (take (k1 + k2) inputs) +:+ ss_written s = inputs_data pumps.1 /\
     (exists rest, reader_data reads = inputs_data pumps.1 +:+ rest) /\
     ((forall k, sends k = true) -> inputs_data pumps.1 = reader_data reads)
   else inputs = [] /\ linux_session os_Getwd os_Stat id req k1 k2 inputs = None).
Proof.
  intros B ro req P NE pumps IL. unfold buildCLIProcessRunOptions in B. destruct isTerminal; cbn [negb] in B.
  - destruct raw; [|done]. injection B as <- <-. split.
    { eexists. unfold darwin_session. cbn [darwin_request ro run_options xq_Interactive op_Interactive op_Stdin orb andb].
      split; [apply pumpDarwinInput_exact; reflexivity|]. cbn. by rewrite andb_false_r. }
    assert (P1 : pumps.1 = pump_input sends 0 reads) by done. assert (P2 : pumps.2 = pump_sizes sends' 0 sizes) by done.
    assert (Pl : Forall (fun i => xi_Cancel i = false) inputs).
    { apply Forall_forall. intros i [E|E]%(interleaved_elem _ _ _ i IL); [rewrite P1 in E; by eapply pump_input_plain|rewrite P2 in E; by eapply pump_sizes_plain]. }
    destruct (linux_terminal_input os_Getwd os_Stat id req path k1 k2 inputs) as (s & E1 & E2 & E3 & E4); [done|done|done|exact P|exact Pl|].
    exists s. do 3 (split; [done|]). split; [|split].
    + rewrite E4, <- inputs_data_app, take_drop. apply (interleaved_data _ _ _ IL). rewrite P2. apply pump_sizes_data.
    + destruct (pump_input_prefix sends 0 reads) as [rest R]. exists (inputs_data rest).
      by rewrite P1, <- inputs_data_app, <- R, pump_input_data.
    + intros A. rewrite P1, (pump_input_all sends 0 0) by done. apply pump_input_data.
  - injection B as <- <-. unfold darwin_session. split.
    { eexists. split; [apply pumpDarwinInput_exact; reflexivity|]. done. }
    assert (inputs = []) as -> by (by inversion IL). split; [done|].
    unfold linux_session, handleExec_start. rewrite !drop_nil, !take_nil. destruct argv as [|name args]; [done|].
    cbn in P. cbn [xq_Argv xq_Env xq_WorkDir req exec_request client_options ro run_options op_Env op_WorkDir]. rewrite P. reflexivity.
Qed.
(** Sizes keep their order, but the last one may be lost: a size that is queued keeps
    a newer one out. *)
Lemma resize_order channel events :
  resize_goroutine channel events `sublist_of`
  option_list channel ++ omap (fun e => match e with WindowChanged size => changed_size size | SizeTaken => None end) events.
Proof.
  revert channel. induction events as [|[size|] events IH]; intros channel; cbn [resize_goroutine]; [apply sublist_nil_l|..].
  - etransitivity; [apply IH|]. destruct channel as [q|]; simpl.
    + apply sublist_skip. destruct (changed_size size); [by apply sublist_cons|done].
    + destruct (changed_size size); simpl; done.
  - destruct channel as [q|]; simpl; [apply sublist_skip|]; apply IH.
Qed.
Lemma resize_last_lost : resize_goroutine None [WindowChanged (Ok (80, 24)); WindowChanged (Ok (100, 50)); SizeTaken; SizeTaken] = [{| ts_Rows := 24; ts_Cols := 80 |}].
Proof. reflexivity. Qed.

Module SamplePumps.
(** A terminal: three reads, of which the first message comes too early, and a
    change of size. *)
Definition keys : list (string * readEnd) := [("l", ReadMore); ("s", ReadMore); ("", ReadMore); ("!", ReadEOF)].
Definition tty_options : RunOptions := {|
  op_Env := []; op_WorkDir := ""; op_Interactive := true; op_Stdin := true; op_Stdout := true; op_Stderr := true;
  op_Terminal := true; op_TerminalSize := {| ts_Rows := 24; ts_Cols := 80 |}; op_Resize := true |}.
Definition bigger : TerminalSize := {| ts_Rows := 50; ts_Cols := 100 |}.
#[local] Existing Instance sampleLib.
Lemma cli_input_forwarded_witness :
  exists s, linux_session (Ok "/work") (fun _ => None) 4 (exec_request ["/bin/sh"] (client_options (run_options ["A=b"] "/work" true tty_options))) 0 1
              [data_input "l"; data_input "s"; resize_input bigger; data_input "!"; eof_input] = Some s /\ "l" +:+ ss_written s = "ls!".
Proof.
  destruct (cli_input_forwarded (Ok "/work") (fun _ => None) true (Ok tt) (Ok (80, 24)) ["/bin/sh"] ["A=b"] "/work" keys [bigger] (fun _ => true)
    (fun _ => true) tty_options true 4 0 1 [data_input "l"; data_input "s"; resize_input bigger; data_input "!"; eof_input] "/bin/sh" eq_refl)
    as (_ & s & E & _ & _ & W & _ & K).
  - vm_compute. reflexivity.
  - discriminate.
  - vm_compute. repeat constructor.
  - exists s. split; [exact E|]. exact (eq_trans W (K (fun _ => eq_refl))).
Defined.
End SamplePumps.
