(* ===== verification/CLIRun.v ===== *)
(** A run of the command line: [runSandbox] of src/cmd/bbox/command_exec.go and
    [main] of src/cmd/bbox/main.go, over the options of Pumps.v and the reports of
    Summary.v. What the manager, the sandbox and the terminal answer are inputs;
    the result is the sequence of what is opened, printed and closed, and the status. *)
From S2P Require Import Prelude GoStrings StringLemmas GoNet Policy Access Manager Messages HostClient Exec Staging Assembly Summary Config RunConfig RunConfigTheorems Pumps.

Inductive cliEvent := ManagerOpened | ManagerClosed | SandboxOpened | SandboxClosed | TerminalRaw | TerminalRestored
  | CommandRun | Stdout (text : string) | Stderr (text : string).
Record cliEnv := {
  cv_platform : string; cv_isTerminal : bool; cv_makeRaw : result unit; cv_size : result (Z * Z);
  cv_newManager : result unit; cv_newSandbox : result unit;
  cv_run : RunOptions -> bool -> result RunResult;           (* Run or RunInteractive *)
  cv_logged : list AccessLogEntry; cv_summary : AccessSummary; (* what the run left behind *)
  cv_stdout : Writer; cv_stderr : Writer }.

Section cli.
Context (json_Encode : AccessLogEntry -> result string).

Definition run_logger (env : cliEnv) (cfg : runConfig) : cliAccessLogger :=
  foldl (fun l e => LogAccess e l) (newCLIAccessLogger (bool_decide (rc_accessLogMode cfg = "json"))) (cv_logged env).
(** After the command: the terminal is restored before the reports are printed. *)
Definition after_run (env : cliEnv) (cfg : runConfig) (interactive : bool) (r : result RunResult) : list cliEvent * runStatus :=
  let restore := if interactive then [TerminalRestored] else [] in
  match r with
  | Err e => (restore, RunFailed e)
  | Ok result =>
      let '((out, err), status) :=
        finish_run json_Encode interactive (cv_stdout env) (cv_stderr env) (run_logger env cfg) (cv_summary env) (rc_reporting cfg) result in
      (restore ++ map Stdout out ++ map Stderr err, status)
  end.
Definition runSandbox (env : cliEnv) (cfg : runConfig) : list cliEvent * runStatus :=
  match validateRunConfigPlatform (cv_platform env) cfg with
  | Err e => ([], RunFailed e)
  | Ok _ =>
  match cv_newManager env with
  | Err e => ([], RunFailed e)
  | Ok _ =>
  match cv_newSandbox env with
  | Err e => ([ManagerOpened; ManagerClosed], RunFailed e)
  | Ok _ =>
  match buildCLIProcessRunOptions (cv_isTerminal env) (cv_makeRaw env) (cv_size env) with
  | Err e => ([ManagerOpened; SandboxOpened; SandboxClosed; ManagerClosed], RunFailed e)
  | Ok (runOpts, interactive) =>
      let '(events, status) := after_run env cfg interactive (cv_run env runOpts interactive) in
      ([ManagerOpened; SandboxOpened] ++ (if interactive then [TerminalRaw] else []) ++ [CommandRun] ++ events ++ [SandboxClosed; ManagerClosed],
       status)
  end end end end.
(** [main]: what it prints at the end, and the status of the process, a byte. *)
Definition main_exit (status : runStatus) : list cliEvent * Z :=
  match status with
  | RunOk => ([], 0)
  | RunExit code => ([], code mod 256)
  | RunFailed e => ([Stderr (e +:+ LF1)], 1)
  end.

(** ** In order *)

(** A manager holds a sandbox, a sandbox runs a command, and nothing is printed
    while the terminal is in raw mode. *)
Record cliState := { ct_manager : bool; ct_sandbox : bool; ct_raw : bool; ct_ran : bool }.
Definition cli_accepts (s : cliState) (e : cliEvent) : option cliState :=
  let '{| ct_manager := m; ct_sandbox := b; ct_raw := raw; ct_ran := ran |} := s in
  match e with
  | ManagerOpened => if negb m && negb ran then Some {| ct_manager := true; ct_sandbox := b; ct_raw := raw; ct_ran := ran |} else None
  | ManagerClosed => if m && negb b then Some {| ct_manager := false; ct_sandbox := b; ct_raw := raw; ct_ran := ran |} else None
  | SandboxOpened => if m && negb b && negb ran then Some {| ct_manager := m; ct_sandbox := true; ct_raw := raw; ct_ran := ran |} else None
  | SandboxClosed => if b && negb raw then Some {| ct_manager := m; ct_sandbox := false; ct_raw := raw; ct_ran := ran |} else None
  | TerminalRaw => if b && negb raw && negb ran then Some {| ct_manager := m; ct_sandbox := b; ct_raw := true; ct_ran := ran |} else None
  | TerminalRestored => if raw then Some {| ct_manager := m; ct_sandbox := b; ct_raw := false; ct_ran := ran |} else None
  | CommandRun => if b && negb ran then Some {| ct_manager := m; ct_sandbox := b; ct_raw := raw; ct_ran := true |} else None
  | Stdout _ | Stderr _ => if raw then None else Some s
  end.
Fixpoint cli_trace (s : cliState) (events : list cliEvent) : option cliState :=
  match events with [] => Some s | e :: events => match cli_accepts s e with Some s => cli_trace s events | None => None end end.
Definition cli_start : cliState := {| ct_manager := false; ct_sandbox := false; ct_raw := false; ct_ran := false |}.

Lemma cli_trace_app s l k : cli_trace s (l ++ k) = match cli_trace s l with Some s => cli_trace s k | None => None end.
Proof. revert s. induction l as [|e l IH]; intros s; cbn [cli_trace app]; [done|]. by destruct (cli_accepts s e). Qed.
Lemma cli_trace_texts s out err : ct_raw s = false -> cli_trace s (map Stdout out ++ map Stderr err) = Some s.
Proof.
  destruct s as [m b raw ran]. cbn. intros ->. rewrite cli_trace_app.
  assert (forall f l, (forall t : string, f t = Stdout t) \/ (forall t, f t = Stderr t) ->
    cli_trace {| ct_manager := m; ct_sandbox := b; ct_raw := false; ct_ran := ran |} (map f l) =
    Some {| ct_manager := m; ct_sandbox := b; ct_raw := false; ct_ran := ran |}) as T.
  { intros f l F. induction l as [|t l IH]; [done|]. cbn [map cli_trace]. destruct F as [F|F]; rewrite F in *; exact IH. }
  rewrite !T by auto. done.
Qed.

(** The lines of the JSON log of a run. *)
Lemma run_logger_lines env cfg :
  (rc_accessLogMode cfg = "json" -> Forall (fun e => exists line, json_Encode e = Ok line) (cv_logged env)) ->
  exists lines, if al_emitJSON (run_logger env cfg)
    then Forall2 (fun e line => json_Encode e = Ok line) (al_entries (run_logger env cfg)) lines else lines = [].
Proof.
  assert (L : forall entries l, let l' := foldl (fun l e => LogAccess e l) l entries in
            al_emitJSON l' = al_emitJSON l /\ al_entries l' = al_entries l ++ entries).
  { intros entries. induction entries as [|e entries IH]; intros l; cbn [foldl]; [by rewrite app_nil_r|].
    destruct (IH (LogAccess e l)) as [-> ->]. cbn. by rewrite <- app_assoc. }
  unfold run_logger. destruct (L (cv_logged env) (newCLIAccessLogger (bool_decide (rc_accessLogMode cfg = "json")))) as [-> ->].
  cbn [newCLIAccessLogger al_emitJSON al_entries app]. case_bool_decide as M; [|by exists []]. intros F. specialize (F M). clear M L.
  induction F as [|e entries [line E] _ [lines IH]]; [by exists []|]. exists (line :: lines). by constructor.
Qed.

(** C36. A run of the command line ends in order, whatever fails: a sandbox that was opened is closed, then its manager; a
    terminal that was put in raw mode is restored, before anything is printed; and when the command ran and its output and
    the reports could be written (the writers took them, and in the log mode "json", the default, every entry could be encoded),
    the process exits with the command's status. *)
Theorem cli_run_orderly env cfg :
  let '(events, status) := runSandbox env cfg in
  (exists ran, cli_trace cli_start (events ++ (main_exit status).1) = Some {| ct_manager := false; ct_sandbox := false; ct_raw := false; ct_ran := ran |}) /\
  (forall e, status = RunFailed e -> (main_exit status).2 = 1) /\
  ((forall d, cv_stdout env d = None) -> (forall d, cv_stderr env d = None) ->
   (rc_accessLogMode cfg = "json" -> Forall (fun e => exists line, json_Encode e = Ok line) (cv_logged env)) ->
   In CommandRun events -> forall o i, buildCLIProcessRunOptions (cv_isTerminal env) (cv_makeRaw env) (cv_size env) = Ok (o, i) ->
   forall r, cv_run env o i = Ok r -> (main_exit status).2 = rr_ExitCode r mod 256).
Proof.
  assert (forall s status, ct_raw s = false -> cli_trace s (main_exit status).1 = Some s) as M
    by (intros [m b raw ran] [] R; simpl in *; by subst).
  unfold runSandbox. destruct (validateRunConfigPlatform _ _); [|split; [by exists false|split; [done|by intros]]].
  destruct (cv_newManager env); [|split; [by exists false|split; [done|by intros]]].
  destruct (cv_newSandbox env); [|split; [by exists false|split; [done|intros _ _ _ [?|[?|[]]]; congruence]]].
  destruct (buildCLIProcessRunOptions _ _ _) as [[o i]|e] eqn:B;
    [|split; [by exists false|split; [done|intros _ _ _ [?|[?|[?|[?|[]]]]]; congruence]]].
  unfold after_run. destruct (cv_run env o i) as [r|e] eqn:R.
  2: { split; [exists true; by destruct i|]. split; [done|]. intros _ _ _ _ o' i' [= <- <-] r'. congruence. }
  destruct (finish_run _ _ _ _ _ _ _ _) as [[out err] status] eqn:F. split.
  - exists true. set (texts := map Stdout out ++ map Stderr err). rewrite <- !app_assoc.
    destruct i; cbn [app cli_trace cli_accepts cli_start ct_manager ct_sandbox ct_raw ct_ran andb negb];
      rewrite (cli_trace_app _ texts); unfold texts; rewrite cli_trace_texts by done; cbn [cli_trace cli_accepts ct_manager ct_sandbox ct_raw ct_ran andb negb]; by apply M.
  - split; [by intros e ->|]. intros O E J _ o' i' [= <- <-] r' R'. rewrite R in R'. injection R' as <-.
    destruct (run_logger_lines env cfg J) as [lines L]. rewrite (finish_run_ok _ _ _ _ _ lines) in F by done. injection F as _ _ <-.
    destruct (Z.eqb_spec (rr_ExitCode r) 0) as [->|]; done.
Qed.
End cli.

Module SampleTerminal.
Definition env : cliEnv := {|
  cv_platform := "linux"; cv_isTerminal := true; cv_makeRaw := Ok tt; cv_size := Ok (120, 40); cv_newManager := Ok tt; cv_newSandbox := Ok tt;
  cv_run := fun o i => if i && op_Terminal o then Ok {| rr_ExitCode := 259; rr_Stdout := "out"; rr_Stderr := "" |} else Err "not interactive";
  cv_logged := [quiet_event "a.example" "/"]; cv_summary := {| sum_Hosts := []; sum_Requests := [] |}; cv_stdout := fun _ => None; cv_stderr := fun _ => None |}.
Definition json_log (cfg : runConfig) : runConfig := {|
  rc_manager := rc_manager cfg; rc_sandbox := rc_sandbox cfg; rc_argv := rc_argv cfg; rc_printPolicy := rc_printPolicy cfg;
  rc_reporting := rc_reporting cfg; rc_accessLogMode := "json" |}.
Definition host_only (e : AccessLogEntry) : result string := Ok (ev_Host e).
Lemma cli_run_orderly_witness :
  exists cfg events status, runSandbox host_only env (json_log cfg) = (events, status) /\
    take 5 events = [ManagerOpened; SandboxOpened; TerminalRaw; CommandRun; TerminalRestored] /\ (main_exit status).2 = 3.
Proof.
  destruct (SampleRun.build "linux") as [[cfg|e]|] eqn:E; [|vm_compute in E; discriminate E..]. clear E.
  pose proof (cli_run_orderly host_only env (json_log cfg)) as X.
  destruct (runSandbox host_only env (json_log cfg)) as [events status] eqn:R. destruct X as (_ & _ & X).
  assert (T : take 5 events = [ManagerOpened; SandboxOpened; TerminalRaw; CommandRun; TerminalRestored]).
  { unfold runSandbox, after_run in R. cbn -[finish_run run_logger] in R. destruct (finish_run _ _ _ _ _ _ _ _) as [[out err] st]. by injection R as <- _. }
  exists cfg, events, status. split; [exact R|]. split; [exact T|].
  refine (X (fun _ => eq_refl) (fun _ => eq_refl) _ _ _ _ eq_refl _ eq_refl); [intros _; repeat constructor; by eexists|].
  rewrite <- (take_drop 5 events), T. simpl. auto 6.
Defined.
End SampleTerminal.
