(* ===== verification/HostSupport.v ===== *)
(** Smaller pieces of the host side: the directory and the path of a Docker socket
    and the closing of its proxy (src/docker_socket_proxy.go), the removal of a
    staged root (src/sandbox.go), the pair of bridge ends (src/sandbox_runtime.go),
    the helper's log (src/sandbox_linux.go and src/sandbox_darwin_runtime.go, which
    have the same code) and the default access logger (src/api.go). *)
From S2P Require Import Prelude GoStrings StringLemmas GoPath PathLemmas HostFS Staging StagingTheorems Policy Access IngressTheorems Sample.

(** ** The directory of a Docker socket *)

Definition safe_char (c : Ascii.ascii) : bool :=
  let r := byte_of c in
  ((97 <=? r) && (r <=? 122)) || ((65 <=? r) && (r <=? 90)) || ((48 <=? r) && (r <=? 57)) ||
  bool_decide (c = "-"%char) || bool_decide (c = "_"%char) || bool_decide (c = "."%char).
(** The loop over the runes. All bytes of a rune beyond ASCII are unsafe and next
    to each other, so that going over the bytes writes the same dash. *)
Fixpoint sanitize_loop (lastDash : bool) (s : string) : string :=
  match s with
  | "" => ""
  | String c s =>
      if safe_char c then String c (sanitize_loop false s)
      else if lastDash then sanitize_loop true s else String "-" (sanitize_loop true s)
  end.
(** [strings.Trim] with the cutset "-_.". *)
Definition in_cutset (c : Ascii.ascii) : bool := bool_decide (c = "-"%char) || bool_decide (c = "_"%char) || bool_decide (c = "."%char).
Fixpoint trim_left_cutset (s : string) : string :=
  match s with
  | "" => ""
  | String c s' => if in_cutset c then trim_left_cutset s' else s
  end.
Definition trim_cutset (s : string) : string := String.rev (trim_left_cutset (String.rev (trim_left_cutset s))).
Definition sanitizeDockerSocketSandboxID (sandboxID : string) : string :=
  let trimmed := TrimSpace sandboxID in
  if bool_decide (trimmed = "") then "sandbox" else
  let sanitized := trim_cutset (sanitize_loop false trimmed) in
  if bool_decide (sanitized = "") then "sandbox" else
  if 48 <? slen sanitized then string_take 48 sanitized else sanitized.

(** [os.MkdirTemp] with the directory [tempDir] for a pattern: the path it makes
    from the random number, 32 bits, it draws. The pattern's last star is replaced;
    without one the number comes last. *)
Definition mkdirTemp_path (tempDir pattern : string) (random : Z) : result string :=
  if Contains pattern "/" then Err "pattern contains path separator" else
  let '(prefix, suffix) := match LastIndexByte pattern "*" with
                           | Some i => (string_take i pattern, string_drop (S i) pattern)
                           | None => (pattern, "")
                           end in
  let dir := if HasSuffix tempDir "/" then tempDir else tempDir +:+ "/" in
  Ok (dir +:+ prefix +:+ Itoa random +:+ suffix).
(** [startDockerSocketProxy]: the directory and the path it listens at. *)
Definition docker_socket_paths (tempDir sandboxID : string) (random : Z) : result (string * string) :=
  socketDir <-! mkdirTemp_path tempDir ("bbox-docker-socket-" +:+ sanitizeDockerSocketSandboxID sandboxID +:+ "-") random;
  Ok (socketDir, filepath_Join [socketDir; "docker.sock"]).

(** ** Closing the Docker proxy *)

(** The outcome of a step: success, an error that says the thing is gone already
    ([net.ErrClosed], [os.ErrNotExist]), or another error. *)
Inductive closeOutcome := CloseOk | AlreadyGone | CloseFailed (e : string).
Record dockerSocketProxy := {
  dp_server : option closeOutcome; dp_listener : option closeOutcome;
  dp_socketPath : string; dp_removeSocket : closeOutcome; dp_socketDir : string; dp_removeDir : closeOutcome }.
Definition close_error (wrap : string -> string) (o : closeOutcome) : list string :=
  match o with CloseFailed e => [wrap e] | _ => [] end.
(** The errors that are joined, in order; closing idle connections has no result. *)
Definition dockerSocketProxy_Close `{GoLib} (p : option dockerSocketProxy) : list string :=
  match p with
  | None => []
  | Some p =>
      from_option (close_error id) [] (dp_server p) ++
      from_option (close_error id) [] (dp_listener p) ++
      (if bool_decide (dp_socketPath p = "") then []
       else close_error (fun e => "remove docker proxy socket " +:+ Quote (dp_socketPath p) +:+ ": " +:+ e) (dp_removeSocket p)) ++
      (if bool_decide (dp_socketDir p = "") then []
       else close_error (fun e => "remove docker proxy dir " +:+ Quote (dp_socketDir p) +:+ ": " +:+ e) (dp_removeDir p))
  end.

(** ** Removing a staged root *)

(** A tree owned by the process, which is not privileged: the permissions of its
    owner decide. *)
Inductive fnode := FNFile (perm : Z) | FNLink | FNDir (perm : Z) (entries : list fnode).
Definition owner_r (perm : Z) : bool := Z.testbit perm 8.
Definition owner_w (perm : Z) : bool := Z.testbit perm 7.
Definition owner_x (perm : Z) : bool := Z.testbit perm 6.
(** The permissions are written in hexadecimal: 0x180 is 0600, 0x1c0 is 0700.
    [filepath.Walk] lists a directory before it calls the function; the function
    returns at once when that failed, and the directory is not walked into. *)
Fixpoint force_writable (n : fnode) : fnode :=
  match n with
  | FNFile perm => FNFile (Z.lor perm 0x180)
  | FNLink => FNLink
  | FNDir perm entries => if owner_r perm then FNDir (Z.lor perm 0x1c0) (map force_writable entries) else FNDir perm entries
  end.
(** [os.RemoveAll]: an empty directory can be removed whatever its permissions; the
    entries of another must be listed and unlinked. *)
Fixpoint RemoveAll (n : fnode) : bool :=
  match n with
  | FNFile _ | FNLink => true
  | FNDir perm entries =>
      match entries with [] => true | _ => owner_r perm && owner_w perm && owner_x perm && forallb RemoveAll entries end
  end.
Definition removeAllForceWritable (root : fnode) : bool := RemoveAll (force_writable root).

(** ** The helper's log *)

(** [hl_file] is the content of the file, or [None] if it cannot be read. *)
Record helperLog := { hl_cached : string; hl_path : string; hl_file : option string; hl_open : bool }.
Definition helperLogContents (l : helperLog) : string :=
  if negb (bool_decide (hl_cached l = "")) then hl_cached l else
  if bool_decide (hl_path l = "") then "" else
  match hl_file l with None => "" | Some data => TrimSpace data end.
Definition cacheAndRemoveHelperLog (l : helperLog) : helperLog :=
  if bool_decide (hl_path l = "") then {| hl_cached := hl_cached l; hl_path := hl_path l; hl_file := hl_file l; hl_open := false |}
  else {| hl_cached := match hl_file l with Some data => TrimSpace data | None => hl_cached l end; hl_path := ""; hl_file := None; hl_open := false |}.

(** ** The bridge between a sandbox and its manager *)

(** [newFile]: whether [os.NewFile] gives a file. The result, and the descriptors
    that are closed again. *)
Definition openBridgePair (socketpair : result (Z * Z)) (newFile : Z -> bool) : result (Z * Z) * list Z :=
  match socketpair with
  | Err e => (Err ("create sandbox bridge socketpair: " +:+ e), [])
  | Ok (parent, child) =>
      if negb (newFile parent) || negb (newFile child)
      then (Err "wrap sandbox bridge socketpair", (if newFile parent then [parent] else []) ++ (if newFile child then [child] else []))
      else (Ok (parent, child), [])
  end.

(** ** The default access logger *)

(** [jl_out] are the entries that were encoded; [jl_enc] says that there is a writer. *)
Record defaultJSONAccessLogger := { jl_enc : bool; jl_deferOutput : bool; jl_entries : list AccessLogEntry; jl_out : list AccessLogEntry }.
Definition newDefaultJSONAccessLoggerWithMode (writer deferOutput : bool) : defaultJSONAccessLogger :=
  {| jl_enc := writer; jl_deferOutput := deferOutput; jl_entries := []; jl_out := [] |}.
Definition newDefaultJSONAccessLogger (writer terminal : bool) : defaultJSONAccessLogger :=
  newDefaultJSONAccessLoggerWithMode writer (writer && terminal).
Definition default_LogAccess (entry : AccessLogEntry) (l : defaultJSONAccessLogger) : defaultJSONAccessLogger :=
  if jl_deferOutput l then {| jl_enc := jl_enc l; jl_deferOutput := jl_deferOutput l; jl_entries := jl_entries l ++ [entry]; jl_out := jl_out l |}
  else if negb (jl_enc l) then l
  else {| jl_enc := jl_enc l; jl_deferOutput := jl_deferOutput l; jl_entries := jl_entries l; jl_out := jl_out l ++ [entry] |}.
Definition Flush (l : defaultJSONAccessLogger) : defaultJSONAccessLogger :=
  if negb (jl_deferOutput l) || negb (jl_enc l) || bool_decide (length (jl_entries l) = 0%nat) then l
  else {| jl_enc := jl_enc l; jl_deferOutput := jl_deferOutput l; jl_entries := []; jl_out := jl_out l ++ jl_entries l |}.

(** ** Names *)

Lemma sanitize_loop_safe b s : string_all safe_char (sanitize_loop b s) = true.
Proof.
  revert b. induction s as [|c s IH]; intros b; cbn [sanitize_loop]; [done|]. destruct (safe_char c) eqn:S; [cbn [string_all]; by rewrite S, IH|].
  destruct b; [done|]. cbn [string_all]. by rewrite IH.
Qed.
Lemma trim_left_all p s : string_all p s = true -> string_all p (trim_left_cutset s) = true.
Proof.
  induction s as [|c s IH]; cbn [trim_left_cutset]; [done|]. intros A. destruct (in_cutset c); [|done].
  cbn [string_all] in A. apply andb_true_iff in A as [_ A]. auto.
Qed.
Lemma trim_cutset_all p s : string_all p s = true -> string_all p (trim_cutset s) = true.
Proof. intros A. unfold trim_cutset. rewrite string_all_rev. apply trim_left_all. rewrite string_all_rev. by apply trim_left_all. Qed.
Lemma string_all_take p n s : string_all p s = true -> string_all p (string_take n s) = true.
Proof.
  revert n. induction s as [|c s IH]; intros [|n] A; cbn [string_take string_all] in *; try done.
  apply andb_true_iff in A as [A1 A2]. rewrite A1. apply IH, A2.
Qed.
(** The characters a name of a sandbox is reduced to, written out. *)
Definition name_chars : list Ascii.ascii :=
  String.list_ascii_of_string "abcdefghijklmnopqrstuvwxyzABCDEFGHIJKLMNOPQRSTUVWXYZ0123456789-_.".
Definition named (s : string) : Prop := Forall (fun c => c ∈ name_chars) (String.list_ascii_of_string s).
Lemma named_app s t : named (s +:+ t) <-> named s /\ named t.
Proof.
  unfold named. assert (E : String.list_ascii_of_string (s +:+ t) = String.list_ascii_of_string s ++ String.list_ascii_of_string t); [|by rewrite E, Forall_app].
  induction s as [|c s IH]; [done|]. rewrite string_app_cons. cbn [String.list_ascii_of_string app]. by rewrite IH.
Qed.
Lemma string_all_named (p : Ascii.ascii -> bool) s : (forall c, p c = true -> c ∈ name_chars) -> string_all p s = true -> named s.
Proof.
  intros P. unfold named. induction s as [|c s IH]; cbn [string_all String.list_ascii_of_string]; [constructor|].
  rewrite andb_true_iff. intros [C S]. constructor; [by apply P|by apply IH].
Qed.
Lemma safe_named c : safe_char c = true -> c ∈ name_chars.
Proof. rewrite <- (bool_decide_eq_true (c ∈ name_chars)). by destruct c as [[][][][][][][][]]. Qed.
Lemma digit_named c : is_digit c = true -> c ∈ name_chars.
Proof. rewrite <- (bool_decide_eq_true (c ∈ name_chars)). by destruct c as [[][][][][][][][]]. Qed.
Lemma named_free s c : named s -> c ∉ name_chars -> free_of c s.
Proof.
  unfold named, free_of. intros N C. induction s as [|d s IH]; cbn [string_all String.list_ascii_of_string] in *; [done|].
  inversion N as [|? ? D N']; subst. rewrite IH by done. rewrite bool_decide_eq_false_2; [done|]. by intros ->.
Qed.

Lemma itoa_go_length fuel n d acc :
  0 <= n < 10 ^ Z.of_nat (S d) -> (String.length (itoa_go fuel n acc) <= S d + String.length acc)%nat.
Proof.
  revert n d acc. induction fuel as [|fuel IH]; intros n d acc B; cbn [itoa_go]; [lia|].
  destruct (Z.ltb_spec n 10) as [L|L]; [cbn; lia|]. destruct d as [|d]; [simpl in B; lia|].
  etransitivity; [apply (IH _ d)|cbn; lia]. rewrite Nat2Z.inj_succ, Z.pow_succ_r in B by lia.
  split; [apply Z.div_pos; lia|apply Z.div_lt_upper_bound; lia].
Qed.
Lemma sanitized_name sandboxID :
  let name := sanitizeDockerSocketSandboxID sandboxID in named name /\ name <> "" /\ slen name <= 48.
Proof.
  cbv zeta. unfold sanitizeDockerSocketSandboxID.
  assert (S : named "sandbox"). { apply (string_all_named safe_char); [apply safe_named|done]. }
  case_bool_decide; [done|]. case_bool_decide as N; [done|].
  pose proof (trim_cutset_all _ _ (sanitize_loop_safe false (TrimSpace sandboxID))) as A.
  destruct (trim_cutset _) as [|c s]; [done|]. destruct (Z.ltb_spec 48 (slen (String c s))) as [B|B].
  - split; [apply (string_all_named safe_char); [apply safe_named|by apply string_all_take]|]. split; [done|].
    unfold slen in *. rewrite string_take_length. lia.
  - split; [by apply (string_all_named safe_char); [apply safe_named|]|done].
Qed.
Lemma of_elements_snoc l e : l <> [] -> of_elements (l ++ [e]) = of_elements l +:+ "/" +:+ e.
Proof. intros N. unfold of_elements. rewrite Join_app by done. by rewrite !string_app_assoc. Qed.
Lemma Join_snoc l e : Forall element l -> l <> [] -> element e -> filepath_Join [of_elements l; e] = of_elements l +:+ "/" +:+ e.
Proof.
  intros L N E. unfold filepath_Join. rewrite filter_cons_True by done. rewrite filter_cons_True by apply E. cbn [filter list_filter].
  change (Join [of_elements l; e] "/") with (of_elements l +:+ "/" +:+ e). rewrite <- of_elements_snoc by done.
  rewrite path_Clean_abs by apply of_elements_absolute. rewrite elements_of_elements; [done|]. apply Forall_app. split; [done|by apply Forall_singleton].
Qed.

Lemma named_no_separator s : named s -> Contains s "/" = false.
Proof.
  intros N. apply Contains_byte_false. assert (F : free_of "/" s) by (apply named_free; [done|by apply (bool_decide_eq_false_1 _)]).
  clear N. induction s as [|c s IH]; [done|]. apply free_of_cons in F as [C F]. cbn [CountByte]. rewrite bool_decide_eq_false_2 by done. by apply IH.
Qed.
Lemma of_elements_no_slash l : Forall element l -> l <> [] -> HasSuffix (of_elements l) "/" = false.
Proof.
  intros L N. destruct (exists_last N) as (k & e & ->). apply Forall_app in L as [_ L]. inversion L as [|? ? (E & _ & _ & F) _]; subst.
  assert (X : exists t, of_elements (k ++ [e]) = t +:+ e).
  { destruct (decide (k = [])) as [->|K]; [by exists "/"|]. rewrite of_elements_snoc by done. exists (of_elements k +:+ "/"). by rewrite string_app_assoc. }
  destruct X as [t ->]. unfold HasSuffix. rewrite string_rev_append. assert (R : free_of "/" (String.rev e)) by (unfold free_of in *; by rewrite string_all_rev).
  assert (RN : String.rev e <> "").
  { intros X. pose proof (string_all_rev (fun _ => false) e) as Y. rewrite X in Y. by destruct e. }
  destruct (String.rev e) as [|c u]; [done|]. apply free_of_cons in R as [C _]. rewrite string_app_cons.
  apply not_true_iff_false. intros [u' U]%(HasPrefix_iff _ "/"). rewrite string_app_cons in U. by injection U as ->.
Qed.

(** C39. Whatever a sandbox is called and whatever number is drawn, the directory of its Docker socket can be made and its socket
    listened at: the directory is an entry of the temporary directory itself, called "bbox-docker-socket-", the reduced name of the
    sandbox, a dash and the number, at most 78 characters, all of them letters, digits, dashes, underscores and dots (so no separator
    and no star); the socket is in it, and its path has at most 91 characters more than that of the temporary directory: 95 for
    /tmp, where a socket address holds 107. *)
Theorem docker_dir_name_safe tempDir l sandboxID random :
  tempDir = of_elements l -> Forall element l -> l <> [] -> 0 <= random < 2 ^ 32 ->
  exists name socketDir socketPath,
    docker_socket_paths tempDir sandboxID random = Ok (socketDir, socketPath) /\
    name = "bbox-docker-socket-" +:+ sanitizeDockerSocketSandboxID sandboxID +:+ "-" +:+ Itoa random /\
    slen name <= 78 /\ Forall (fun c => c ∈ name_chars) (String.list_ascii_of_string name) /\
    socketDir = tempDir +:+ "/" +:+ name /\ elements socketDir = l ++ [name] /\
    socketPath = socketDir +:+ "/docker.sock" /\ slen socketPath <= slen tempDir + 91.
Proof.
  intros -> L NE R. destruct (sanitized_name sandboxID) as (SN & SE & SL). set (id := sanitizeDockerSocketSandboxID sandboxID) in *.
  destruct (Itoa_digits random) as [DD DE]; [lia|].
  assert (DL : slen (Itoa random) <= 10).
  { unfold Itoa, itoa_nat, slen. destruct (Z.ltb_spec random 0); [lia|]. pose proof (itoa_go_length (S (Z.to_nat (Z.log2 random))) random 9 "") as X.
    change (10 ^ Z.of_nat 10) with 10000000000 in X. change (String.length "") with 0%nat in X. lia. }
  assert (Fixed : forall s, string_all safe_char s = true -> named s) by (intros s; apply (string_all_named safe_char), safe_named).
  set (pattern := "bbox-docker-socket-" +:+ id +:+ "-").
  assert (PN : named pattern). { apply named_app. split; [by apply Fixed|]. apply named_app. split; [done|by apply Fixed]. }
  set (name := "bbox-docker-socket-" +:+ id +:+ "-" +:+ Itoa random).
  assert (EN : pattern +:+ Itoa random = name). { unfold pattern, name. by rewrite !string_app_assoc. }
  assert (NN : named name). { rewrite <- EN. apply named_app. split; [done|]. apply (string_all_named is_digit); [apply digit_named|done]. }
  assert (NL : slen name <= 78). { unfold name, slen in *. rewrite !string_app_length. simpl. lia. }
  assert (EL : element name). { split; [done|]. split; [done|]. split; [done|]. apply named_free; [done|]. by apply (bool_decide_eq_false_1 _). }
  assert (SL' : element "docker.sock"). { repeat split; done. }
  exists name, (of_elements l +:+ "/" +:+ name), (of_elements l +:+ "/" +:+ name +:+ "/docker.sock").
  assert (LN : Forall element (l ++ [name])) by (apply Forall_app; split; [done|by apply Forall_singleton]).
  assert (NE' : l ++ [name] <> []) by (by destruct l).
  assert (ES := elements_of_elements _ LN). rewrite of_elements_snoc in ES by done.
  split.
  { unfold docker_socket_paths, mkdirTemp_path. fold id. fold pattern.
    rewrite named_no_separator by done. rewrite LastIndexByte_free by (by apply named_free; [|apply (bool_decide_eq_false_1 _)]).
    rewrite of_elements_no_slash by done. cbn [result_bind]. rewrite string_app_nil_r, EN.
    rewrite string_app_assoc. rewrite <- of_elements_snoc by done. rewrite Join_snoc by done. by rewrite of_elements_snoc, !string_app_assoc. }
  do 5 (split; [done|]). split; [by rewrite !string_app_assoc|].
  unfold slen in *. rewrite !string_app_length. simpl in *. lia.
Qed.

Lemma docker_dir_name_safe_witness :
  exists dir path, docker_socket_paths "/tmp" " ../my box/* " 4294967295 = Ok (dir, path) /\
    dir = "/tmp/bbox-docker-socket-my-box-4294967295" /\ slen path <= 95.
Proof.
  destruct (docker_dir_name_safe "/tmp" ["tmp"] " ../my box/* " 4294967295) as (name & dir & path & E & N & _ & _ & D & _ & _ & L).
  - reflexivity.
  - repeat constructor; try discriminate.
  - discriminate.
  - lia.
  - exists dir, path. split; [exact E|]. split; [rewrite D, N; vm_compute; reflexivity|exact L].
Defined.

(** ** Removal *)

Section fnode_ind.
Context (P : fnode -> Prop) (HF : forall p, P (FNFile p)) (HL : P FNLink) (HD : forall p l, Forall P l -> P (FNDir p l)).
Fixpoint fnode_induction (n : fnode) : P n :=
  match n with
  | FNFile p => HF p
  | FNLink => HL
  | FNDir p l => HD p l ((fix go l : Forall P l := match l with [] => List.Forall_nil _ | x :: l => @List.Forall_cons _ P x l (fnode_induction x) (go l) end) l)
  end.
End fnode_ind.
(** Every directory that has entries can be listed by its owner. *)
Fixpoint listable (n : fnode) : bool :=
  match n with
  | FNFile _ | FNLink => true
  | FNDir perm entries => match entries with [] => true | _ => owner_r perm && forallb listable entries end
  end.
Lemma testbit_owner perm k : 6 <= k <= 8 -> Z.testbit (Z.lor perm 0x1c0) k = true.
Proof.
  intros K. rewrite Z.lor_spec. assert (Z.testbit 0x1c0 k = true) as ->; [|by rewrite orb_true_r].
  assert (k = 6 \/ k = 7 \/ k = 8) as [->|[->| ->]] by lia; reflexivity.
Qed.

(** A staged root is removed exactly when each of its directories that has entries is readable by its owner:
    directories and files that are read-only or not searchable do not stand in the way, a directory with entries and
    without the owner's read permission does, and stays with all that is above it. *)
Theorem staged_root_removed root : removeAllForceWritable root = listable root.
Proof.
  unfold removeAllForceWritable. induction root as [p| |p l IH] using fnode_induction; [done..|]. cbn [force_writable listable].
  destruct (owner_r p) eqn:R.
  - destruct l as [|x l]; [done|]. cbn [map RemoveAll]. unfold owner_r, owner_w, owner_x. rewrite !testbit_owner by lia. cbn [andb].
    inversion IH as [|? ? X F]; subst. cbn [forallb]. rewrite X. f_equal. clear X IH.
    induction F as [|y l Y _ IHl]; [done|]. cbn [map forallb]. by rewrite Y, IHl.
  - cbn [RemoveAll]. rewrite R. by destruct l.
Qed.

(** ** The bridge, the helper's log and the access log *)

(** [os.NewFile] refuses only negative descriptors, of which a socket pair has none. *)
Lemma bridge_pair_opened socketpair newFile :
  (forall fd, 0 <= fd -> newFile fd = true) -> (forall a b, socketpair = Ok (a, b) -> 0 <= a /\ 0 <= b) ->
  match socketpair with
  | Ok fds => openBridgePair socketpair newFile = (Ok fds, [])
  | Err _ => exists e, openBridgePair socketpair newFile = (Err e, [])
  end.
Proof.
  intros N P. destruct socketpair as [[a b]|e]; [|by eexists]. destruct (P a b eq_refl). unfold openBridgePair. by rewrite !N.
Qed.

(** Removing the log's file keeps what was in it. *)
Lemma helper_log_kept l : hl_cached l = "" -> helperLogContents (cacheAndRemoveHelperLog l) = helperLogContents l.
Proof.
  destruct l as [cached path file o]. cbn. intros ->. unfold cacheAndRemoveHelperLog, helperLogContents. cbn [hl_cached hl_path hl_file].
  destruct (decide (path = "")) as [->|P]; [done|]. rewrite (bool_decide_eq_false_2 (path = "")) by done. cbn [hl_cached hl_path hl_file].
  destruct file as [data|]; [|done]. destruct (decide (TrimSpace data = "")) as [->|T]; [done|].
  by rewrite (bool_decide_eq_false_2 (TrimSpace data = "")).
Qed.
(** Deferred or not, each entry is written once, in order, when the log is flushed. *)
Lemma default_log_complete terminal entries :
  jl_out (Flush (foldl (fun l e => default_LogAccess e l) (newDefaultJSONAccessLogger true terminal) entries)) = entries.
Proof.
  assert (forall l, jl_enc l = true -> (jl_deferOutput l = false -> jl_entries l = []) ->
    jl_out (Flush (foldl (fun l e => default_LogAccess e l) l entries)) = jl_out l ++ jl_entries l ++ entries) as X.
  { induction entries as [|e entries IH]; intros l E D; cbn [foldl].
    - unfold Flush. rewrite E. cbn [negb orb]. rewrite orb_false_r. destruct (jl_deferOutput l); cbn [negb orb].
      + case_bool_decide as N; cbn [jl_out]; rewrite ?app_nil_r; [|done]. apply nil_length_inv in N. by rewrite N, app_nil_r.
      + by rewrite D, !app_nil_r.
    - rewrite IH; unfold default_LogAccess; destruct (jl_deferOutput l) eqn:F; rewrite ?E; cbn [negb jl_enc jl_deferOutput jl_entries jl_out]; try done.
      + by rewrite <- !app_assoc.
      + rewrite D by done. by rewrite <- app_assoc. }
  apply X; [done|]. by destruct terminal.
Qed.
