(* ===== verification/Streams.v ===== *)
(** Connections handed over to a server: the connection that first yields what was
    read ahead ([preloadedConn]), the listener that accepts one connection
    ([singleConnListener]) and the serving of it, of
    src/internal/helperruntime/ingress/mitm.go and transparent_tcp.go. *)
From S2P Require Import Prelude GoStrings StringLemmas.

(** ** A connection with data read ahead *)

Inductive readOutcome := RData (data : string) | REnd (data : string) | RFail (data e : string).
(** What the reader and the connection will return, read by read; a reader that has
    nothing left is at its end. *)
Record preloadedConn := { pc_reader : option (list readOutcome); pc_conn : list readOutcome }.
Definition next_read (reads : list readOutcome) : readOutcome * list readOutcome :=
  match reads with [] => (REnd "", []) | r :: reads => (r, reads) end.
Definition conn_Read (c : preloadedConn) : readOutcome * preloadedConn :=
  let '(r, conn) := next_read (pc_conn c) in (r, {| pc_reader := pc_reader c; pc_conn := conn |}).
Definition preloaded_Read (c : preloadedConn) : readOutcome * preloadedConn :=
  match pc_reader c with
  | None => conn_Read c
  | Some reads =>
      let '(r, reads) := next_read reads in
      match r with
      | REnd data =>
          let c := {| pc_reader := None; pc_conn := pc_conn c |} in
          if bool_decide (data = "") then conn_Read c else (RData data, c)
      | RFail data e => (RFail data e, {| pc_reader := Some reads; pc_conn := pc_conn c |})
      | RData data =>
          let c := {| pc_reader := Some reads; pc_conn := pc_conn c |} in
          if bool_decide (data = "") then conn_Read c else (RData data, c)
      end
  end.
Fixpoint drain (n : nat) (c : preloadedConn) : list readOutcome * preloadedConn :=
  match n with
  | O => ([], c)
  | S n => let '(r, c) := preloaded_Read c in let '(l, c) := drain n c in (r :: l, c)
  end.

(** ** A listener for one connection *)

(** [sl_conn] is the connection that was not accepted yet; closing the listener
    closes it. *)
Record singleConnListener := { sl_conn : option nat; sl_once : bool; sl_closed : list nat }.
Definition single_listener (conn : nat) : singleConnListener := {| sl_conn := Some conn; sl_once := false; sl_closed := [] |}.
Definition single_Accept (l : singleConnListener) : result nat * singleConnListener :=
  if sl_once l then (Err "EOF", l) else
  match sl_conn l with
  | Some conn => (Ok conn, {| sl_conn := None; sl_once := true; sl_closed := sl_closed l |})
  | None => (Err "EOF", {| sl_conn := None; sl_once := true; sl_closed := sl_closed l |})
  end.
Definition single_Close (l : singleConnListener) : singleConnListener :=
  match sl_conn l with
  | Some conn => {| sl_conn := Some conn; sl_once := sl_once l; sl_closed := sl_closed l ++ [conn] |}
  | None => l
  end.
(** [http.Server.Serve]: it accepts until an error, which it returns, and closes the
    listener; each connection is served in a goroutine. *)
Fixpoint server_Serve (fuel : nat) (l : singleConnListener) : option (list nat * string * singleConnListener) :=
  match fuel with
  | O => None
  | S fuel =>
      match single_Accept l with
      | (Err e, l) => Some ([], e, single_Close l)
      | (Ok conn, l) => match server_Serve fuel l with Some (conns, e, l) => Some (conn :: conns, e, l) | None => None end
      end
  end.
(** What the two callers log when [Serve] returns the error [e]. *)
Definition mitm_serve_log (e : string) : list string :=
  if bool_decide (e = "EOF") || bool_decide (e = "use of closed network connection") then [] else ["serve MITM connection: " +:+ e].
Definition transparent_serve_log (e : string) : list string :=
  if bool_decide (e = "use of closed network connection") || bool_decide (e = "http: Server closed") then []
  else ["serve transparent TCP connection: " +:+ e].

(** ** Nothing is lost *)

Definition outcome_data (r : readOutcome) : string := match r with RData d | REnd d | RFail d _ => d end.
(** All that a reader yields up to its end, and all that a connection yields. *)
Fixpoint reader_stream (reads : list readOutcome) : string :=
  match reads with [] => "" | r :: reads => outcome_data r +:+ match r with REnd _ => "" | _ => reader_stream reads end end.
Fixpoint conn_stream (reads : list readOutcome) : string :=
  match reads with [] => "" | r :: reads => outcome_data r +:+ conn_stream reads end.
Definition stream (c : preloadedConn) : string := from_option reader_stream "" (pc_reader c) +:+ conn_stream (pc_conn c).

Lemma conn_Read_stream c : pc_reader c = None -> stream c = outcome_data (conn_Read c).1 +:+ stream (conn_Read c).2 /\ pc_reader (conn_Read c).2 = None.
Proof. destruct c as [reader conn]. cbn. intros ->. unfold conn_Read, stream. by destruct conn. Qed.
Lemma preloaded_Read_stream c :
  Forall (fun r => match r with RData d => d <> "" | _ => True end) (default [] (pc_reader c)) ->
  stream c = outcome_data (preloaded_Read c).1 +:+ stream (preloaded_Read c).2 /\
  Forall (fun r => match r with RData d => d <> "" | _ => True end) (default [] (pc_reader (preloaded_Read c).2)).
Proof.
  intros F. unfold preloaded_Read. destruct (pc_reader c) as [reads|] eqn:R.
  2: { destruct (conn_Read_stream c R) as [E N]. rewrite N. split; [exact E|constructor]. }
  assert (X : forall d, stream c = d +:+ conn_stream (pc_conn c) ->
    let c' := {| pc_reader := None; pc_conn := pc_conn c |} in
    let '(r, c'') := if bool_decide (d = "") then conn_Read c' else (RData d, c') in
    stream c = outcome_data r +:+ stream c'' /\ pc_reader c'' = None).
  { intros d E. cbv zeta. case_bool_decide as D.
    - destruct (conn_Read_stream {| pc_reader := None; pc_conn := pc_conn c |} eq_refl) as [E' N]. destruct (conn_Read _) as [r c'']. cbn in *.
      split; [|done]. rewrite E, D, string_app_nil. exact E'.
    - split; [|done]. by rewrite E. }
  unfold stream in X at 1. rewrite R in X. cbn [from_option] in X. destruct reads as [|r reads]; cbn [next_read].
  - specialize (X "" eq_refl). cbv zeta in X. destruct (if bool_decide _ then _ else _) as [r c'']. destruct X as [X N]. cbn.
    rewrite N. split; [exact X|constructor].
  - cbn [from_option] in F. apply Forall_cons in F as [F1 F]. destruct r as [d|d|d e].
    + rewrite bool_decide_eq_false_2 by done. cbn. split; [|done]. unfold stream. rewrite R. cbn. by rewrite string_app_assoc.
    + cbn [reader_stream outcome_data] in X. rewrite string_app_nil_r in X. specialize (X d eq_refl). cbv zeta in X.
      destruct (if bool_decide _ then _ else _) as [r c'']. destruct X as [X N]. cbn. rewrite N.
      split; [exact X|constructor].
    + cbn. split; [|done]. unfold stream. rewrite R. cbn. by rewrite string_app_assoc.
Qed.

(** A connection that was read ahead to find out its protocol is served from its first byte: however the bytes that
    were read ahead and those still to come are cut into reads, the reads of the server yield all of the former, then the
    latter, in order, without loss or repetition. *)
Theorem preloaded_stream_exact n c :
  Forall (fun r => match r with RData d => d <> "" | _ => True end) (default [] (pc_reader c)) ->
  stream c = Join (map outcome_data (drain n c).1) "" +:+ stream (drain n c).2.
Proof.
  revert c. induction n as [|n IH]; intros c F; cbn [drain]; [done|].
  destruct (preloaded_Read_stream c F) as [E F']. destruct (preloaded_Read c) as [r c1]. cbn [fst snd] in *. specialize (IH c1 F').
  destruct (drain n c1) as [l c2]. cbn [fst snd map] in *. rewrite E, IH, <- string_app_assoc. f_equal.
  destruct (map outcome_data l); [apply string_app_nil_r|done].
Qed.
(** The listener hands out its connection once and does not close it, and [Serve]
    returns the end of file: an error that only one of the two callers expects. *)
Lemma single_conn_served conn : server_Serve 2 (single_listener conn) = Some ([conn], "EOF", {| sl_conn := None; sl_once := true; sl_closed := [] |}).
Proof. reflexivity. Qed.
Lemma serve_logs_differ : mitm_serve_log "EOF" = [] /\ transparent_serve_log "EOF" = ["serve transparent TCP connection: EOF"].
Proof. done. Qed.
Module SampleStreams.
Definition sniffed : preloadedConn := {|
  pc_reader := Some [RData "GET "; REnd "/ HTTP"]; pc_conn := [RData "/1.1"; RFail "" "timeout"; REnd "done"] |}.
Lemma preloaded_stream_exact_witness : stream sniffed = "GET / HTTP/1.1done" /\
  stream sniffed = Join (map outcome_data (drain 3 sniffed).1) "" +:+ stream (drain 3 sniffed).2.
Proof. split; [reflexivity|]. apply (preloaded_stream_exact 3 sniffed). repeat constructor; discriminate. Defined.
End SampleStreams.
