(* ===== verification/RootCA.v ===== *)
(** The certificate authority of a manager: [newMITMCA], [CertPEM] and
    [randomSerialNumber] of src/mitm.go; MitmCA.v has its leaf certificates. *)
From S2P Require Import Prelude GoStrings GoNet Messages MitmCA SampleCerts Sample.

(** The fields of the template; [x509.CreateCertificate] documents that a [MaxPathLen]
    of zero is a constraint only if [MaxPathLenZero] is set. *)
Record CATemplate := {
  ct_SerialNumber : Z; ct_CommonName : string; ct_NotBefore : Z; ct_NotAfter : Z; ct_CertSign : bool; ct_CRLSign : bool;
  ct_BasicConstraintsValid : bool; ct_IsCA : bool; ct_MaxPathLen : Z; ct_MaxPathLenZero : bool }.
Definition path_len_constraint (t : CATemplate) : option Z :=
  if negb (ct_BasicConstraintsValid t && ct_IsCA t) then None
  else if (ct_MaxPathLen t =? 0) && negb (ct_MaxPathLenZero t) then None
  else if ct_MaxPathLen t <? 0 then None else Some (ct_MaxPathLen t).

Section root.
Context `{GoLib} `{CertLib}.
(** [rand.Int] below a limit, and the creation of a certificate signed by its own key. *)
Context (rand_Int : Z -> rng -> result Z * rng) (create_root : CATemplate -> private_key -> rng -> result string * rng).

Definition randomSerialNumber (r : rng) : result Z * rng := rand_Int (Z.shiftl 1 128) r.
Definition ca_template (serial now : Z) : CATemplate := {|
  ct_SerialNumber := serial; ct_CommonName := "bbox ephemeral MITM CA"; ct_NotBefore := now + -1 * Hour; ct_NotAfter := now + 7 * 24 * Hour;
  ct_CertSign := true; ct_CRLSign := true; ct_BasicConstraintsValid := true; ct_IsCA := true; ct_MaxPathLen := 0; ct_MaxPathLenZero := false |}.
(** The PEM and the DER of the authority, its key, and the authority that makes leaves. *)
Record rootCA := { rt_certPEM : string; rt_certDER : string; rt_key : private_key; rt_leaves : mitmCA }.
Definition newMITMCA (now : Z) (r : rng) : result rootCA :=
  match lib_GenerateKey r with
  | (Err e, _) => Err ("generate MITM CA key: " +:+ e)
  | (Ok key, r) =>
      match randomSerialNumber r with
      | (Err e, _) => Err ("generate MITM CA serial: " +:+ e)
      | (Ok serial, r) =>
          match create_root (ca_template serial now) key r with
          | (Err e, _) => Err ("create MITM CA certificate: " +:+ e)
          | (Ok der, r) =>
              match lib_ParseCertificate_error der with
              | Some e => Err ("parse MITM CA certificate: " +:+ e)
              | None => Ok {| rt_certPEM := pem_Encode "CERTIFICATE" der; rt_certDER := der; rt_key := key;
                              rt_leaves := {| ca_leafCache := ∅; ca_rng := r |} |}
              end
          end
      end
  end.
Definition CertPEM (c : option rootCA) : string := from_option rt_certPEM "" c.

(** A leaf that is made within six days of its authority is valid only while the
    authority is; a later one outlives it, and the authority is not renewed. *)
Lemma leaf_within_root host serial serial' start now : start <= now ->
  let root := ca_template serial start in let leaf := leaf_template host serial' now in
  ct_NotBefore root <= lt_NotBefore leaf /\ (lt_NotAfter leaf <= ct_NotAfter root <-> now <= start + 6 * 24 * Hour).
Proof. cbv zeta. cbn [ca_template leaf_template ct_NotBefore ct_NotAfter lt_NotBefore lt_NotAfter]. unfold Hour. lia. Qed.
(** The template's path length of zero is no constraint. *)
Lemma root_path_unconstrained serial now : path_len_constraint (ca_template serial now) = None.
Proof. reflexivity. Qed.
(** An authority that is returned starts with no leaf and publishes what it made. *)
Lemma new_authority now r c : newMITMCA now r = Ok c ->
  CertPEM (Some c) = pem_Encode "CERTIFICATE" (rt_certDER c) /\ ca_leafCache (rt_leaves c) = ∅.
Proof.
  unfold newMITMCA. destruct (lib_GenerateKey r) as [[key|e] r1]; [|done]. destruct (randomSerialNumber r1) as [[serial|e] r2]; [|done].
  destruct (create_root _ _ _) as [[der|e] r3]; [|done]. destruct (lib_ParseCertificate_error der); [done|]. by intros [= <-].
Qed.
End root.
